(** * Warmup progression and plate loading ([app.py])

    A shallow embedding of the numeric core of [app.py]:
    [calculate_warmup_weights], [plate_weight], [plate_selection] and
    [get_workout_data].

    Python numbers are modelled as they are at run time: an [int] is an
    unbounded integer ([Z]) and a [float] is an IEEE-754 binary64 value,
    for which we use the executable specification [SpecFloat] of the
    standard library (precision 53, maximal exponent 1024, round to nearest
    even).  Exceptions are explicit results, and the [while] loop of
    [plate_selection] is run with fuel. *)

From Stdlib Require Import ZArith List Bool String Lia QArith Qround Qpower.
From Stdlib Require Import Floats.SpecFloat.
Import ListNotations.
Open Scope Z_scope.

(** ** Python numbers *)

Module Py.

(** binary64 instances of the [SpecFloat] operations *)
Definition fprec : Z := 53.
Definition femax : Z := 1024.

Definition fmul := SFmul fprec femax.
Definition fdiv := SFdiv fprec femax.
Definition fsub := SFsub fprec femax.
Definition fnormalize := binary_normalize fprec femax.
Definition fvalid := valid_binary fprec femax.

(** The exceptions the core can raise. *)
Inductive exn : Type :=
| ValueError
| OverflowError
| ZeroDivisionError.

(** Outcome of running a piece of Python: a value, a raised exception, or
    [OutOfFuel] when the loop budget of the model was exhausted. *)
Inductive res (A : Type) : Type :=
| Val (a : A)
| Raise (e : exn)
| OutOfFuel.
Arguments Val {A} a.
Arguments Raise {A} e.
Arguments OutOfFuel {A}.

Definition bind {A B : Type} (r : res A) (k : A -> res B) : res B :=
  match r with
  | Val a => k a
  | Raise e => Raise e
  | OutOfFuel => OutOfFuel
  end.

Notation "x <- r ;; k" := (bind r (fun x => k))
  (at level 61, r at next level, right associativity).

(** A Python number is an [int] or a [float]. *)
Inductive num : Type :=
| PInt (z : Z)
| PFloat (f : spec_float).

(** [float(z)]: correctly rounded conversion; [OverflowError] when the
    integer is too large for a float. *)
Definition float_of_int (z : Z) : res spec_float :=
  match fnormalize z 0 false with
  | S754_infinity _ => Raise OverflowError
  | f => Val f
  end.

Definition to_float (x : num) : res spec_float :=
  match x with
  | PInt z => float_of_int z
  | PFloat f => Val f
  end.

Definition is_zero (f : spec_float) : bool :=
  match f with
  | S754_zero _ => true
  | _ => false
  end.

(** [x * y] *)
Definition py_mul (x y : num) : res num :=
  match x, y with
  | PInt a, PInt b => Val (PInt (a * b))
  | _, _ =>
      a <- to_float x ;;
      b <- to_float y ;;
      Val (PFloat (fmul a b))
  end.

(** [x - y] *)
Definition py_sub (x y : num) : res num :=
  match x, y with
  | PInt a, PInt b => Val (PInt (a - b))
  | _, _ =>
      a <- to_float x ;;
      b <- to_float y ;;
      Val (PFloat (fsub a b))
  end.

(** The integer [z] as an unnormalised finite float (exponent 0). *)
Definition raw_of_int (z : Z) (szero : bool) : spec_float :=
  match z with
  | Z0 => S754_zero szero
  | Zpos p => S754_finite false p 0
  | Zneg p => S754_finite true p 0
  end.

(** [x / y] (true division).  [int / int] is the correctly rounded
    quotient of the two integers; the other cases convert to float first. *)
Definition py_truediv (x y : num) : res num :=
  match x, y with
  | PInt a, PInt b =>
      if b =? 0 then Raise ZeroDivisionError
      else
        match fdiv (raw_of_int a false) (raw_of_int b false) with
        | S754_infinity _ => Raise OverflowError
        | f => Val (PFloat f)
        end
  | _, _ =>
      a <- to_float x ;;
      b <- to_float y ;;
      if is_zero b then Raise ZeroDivisionError
      else Val (PFloat (fdiv a b))
  end.

(** Exact comparison of an integer with a float ([None] on NaN). *)
Definition compare_int_float (z : Z) (f : spec_float) : option comparison :=
  match f with
  | S754_nan => None
  | S754_infinity s => Some (if s then Gt else Lt)
  | S754_zero _ => Some (z ?= 0)
  | S754_finite s m e =>
      let sm := cond_Zopp s (Zpos m) in
      Some (if 0 <=? e then z ?= sm * 2 ^ e else z * 2 ^ (- e) ?= sm)
  end.

Definition py_compare (x y : num) : option comparison :=
  match x, y with
  | PInt a, PInt b => Some (a ?= b)
  | PFloat a, PFloat b => SFcompare a b
  | PInt a, PFloat b => compare_int_float a b
  | PFloat a, PInt b => option_map CompOpp (compare_int_float b a)
  end.

(** [x < y] and [x >= y]; both are [False] when a NaN is involved. *)
Definition py_lt (x y : num) : bool :=
  match py_compare x y with
  | Some Lt => true
  | _ => false
  end.

Definition py_ge (x y : num) : bool :=
  match py_compare x y with
  | Some (Gt | Eq) => true
  | _ => false
  end.

(** Round the non-negative rational [n / 2 ^ k] to the nearest integer,
    ties to even. *)
Definition round_shift (n : Z) (k : Z) : Z :=
  let q := n / 2 ^ k in
  let r := n mod 2 ^ k in
  match 2 * r ?= 2 ^ k with
  | Lt => q
  | Gt => q + 1
  | Eq => if Z.even q then q else q + 1
  end.

(** Magnitude of the integer nearest (ties to even) to [c * m * 2 ^ e]. *)
Definition round_scaled (c : Z) (m : positive) (e : Z) : Z :=
  if 0 <=? e then c * Zpos m * 2 ^ e
  else round_shift (c * Zpos m) (- e).

(** [round(x)]: nearest integer, ties to even; an [int] is returned
    unchanged.  NaN raises [ValueError], an infinity [OverflowError]. *)
Definition py_round (x : num) : res num :=
  match x with
  | PInt z => Val (PInt z)
  | PFloat S754_nan => Raise ValueError
  | PFloat (S754_infinity _) => Raise OverflowError
  | PFloat (S754_zero _) => Val (PInt 0)
  | PFloat (S754_finite s m e) => Val (PInt (cond_Zopp s (round_scaled 1 m e)))
  end.

(** [round(x, ndigits)] for [ndigits >= 0]: the float nearest to the
    decimal with [ndigits] fractional digits that is nearest (ties to
    even) to [x]; an [int] is returned unchanged. *)
Definition py_round_ndigits (x : num) (ndigits : N) : res num :=
  match x with
  | PInt z => Val (PInt z)
  | PFloat (S754_finite s m e) =>
      let p := 10 ^ Z.of_N ndigits in
      let n := round_scaled p m e in
      match fdiv (raw_of_int (cond_Zopp s n) s) (raw_of_int p false) with
      | S754_infinity _ => Raise OverflowError
      | f => Val (PFloat f)
      end
  | PFloat f => Val (PFloat f)
  end.

(** Float literals of the source, as binary64 values. *)
Definition lit_0_45 : spec_float := S754_finite false 8106479329266893 (-54).
Definition lit_0_65 : spec_float := S754_finite false 5854679515581645 (-53).
Definition lit_0_85 : spec_float := S754_finite false 7656119366529843 (-53).
Definition lit_2_5 : spec_float := S754_finite false 5629499534213120 (-51).

End Py.

(** ** The program *)

Module App.
Import Py.

(** [calculate_warmup_weights(target_weight)] *)
Definition calculate_warmup_weights (target_weight : num)
  : res (num * num * num) :=
  a45 <- py_mul target_weight (PFloat lit_0_45) ;;
  b45 <- py_truediv a45 (PInt 5) ;;
  r45 <- py_round b45 ;;
  weight_45 <- py_mul r45 (PInt 5) ;;
  a65 <- py_mul target_weight (PFloat lit_0_65) ;;
  b65 <- py_truediv a65 (PInt 5) ;;
  r65 <- py_round b65 ;;
  weight_65 <- py_mul r65 (PInt 5) ;;
  a85 <- py_mul target_weight (PFloat lit_0_85) ;;
  b85 <- py_truediv a85 (PInt 5) ;;
  r85 <- py_round b85 ;;
  weight_85 <- py_mul r85 (PInt 5) ;;
  Val (weight_45, weight_65, weight_85).

(** Default value of the parameter [bar_weight]. *)
Definition default_bar_weight : num := PInt 20.

(** [plate_weight(total_weight, bar_weight)] *)
Definition plate_weight (total_weight bar_weight : num) : res num :=
  if py_lt total_weight bar_weight then Raise ValueError
  else
    d <- py_sub total_weight bar_weight ;;
    weight_to_load <- py_truediv d (PInt 2) ;;
    Val weight_to_load.

(** Default value of the parameter [plate_weights]. *)
Definition default_plate_weights : list num :=
  [PInt 20; PInt 10; PInt 5; PFloat lit_2_5].

(** State of the loops of [plate_selection]: the list built so far and the
    weight still to be covered. *)
Record sel_state : Type := mk_state {
  selected_plates : list num;
  remaining_weight : num
}.

(** [while remaining_weight >= plate: ...], at most [fuel] iterations. *)
Fixpoint while_plate (fuel : nat) (plate : num) (st : sel_state)
  : res sel_state :=
  if py_ge (remaining_weight st) plate then
    match fuel with
    | O => OutOfFuel
    | S fuel' =>
        r <- py_sub (remaining_weight st) plate ;;
        while_plate fuel' plate (mk_state (selected_plates st ++ [plate]) r)
    end
  else Val st.

(** [for plate in plate_weights: while ...] *)
Fixpoint for_plates (fuel : nat) (plate_weights : list num) (st : sel_state)
  : res sel_state :=
  match plate_weights with
  | [] => Val st
  | plate :: rest =>
      st' <- while_plate fuel plate st ;;
      for_plates fuel rest st'
  end.

(** [plate_selection(weight_to_load, plate_weights)] *)
Definition plate_selection (fuel : nat) (weight_to_load : num)
    (plate_weights : list num) : res (list num) :=
  st <- for_plates fuel plate_weights (mk_state [] weight_to_load) ;;
  Val (selected_plates st).

(** The value stored under ["plates"]: a text for the bar-only set, a list
    of plates for the others. *)
Inductive plates_value : Type :=
| PlatesText (s : string)
| PlatesList (l : list num).

(** An element of ["warmup_sets"]. *)
Record warmup_set : Type := mk_warmup_set {
  ws_set : string;
  ws_reps : Z;
  ws_weight : num;
  ws_weight_per_side : num;
  ws_plates : plates_value
}.

(** The value stored under ["target"]. *)
Record target_set : Type := mk_target_set {
  ts_weight : num;
  ts_weight_per_side : num;
  ts_plates : list num
}.

(** The dictionary returned by [get_workout_data]. *)
Record workout_data : Type := mk_workout_data {
  warmup_sets : list warmup_set;
  target : target_set
}.

Definition bar_only_set : warmup_set :=
  mk_warmup_set "2 sets" 5 (PInt 20) (PInt 0)
    (PlatesText "None (just the bar)").

(** [get_workout_data(target_weight)]; the calls are made in the order in
    which Python evaluates the dictionary display. *)
Definition get_workout_data (fuel : nat) (target_weight : num)
  : res workout_data :=
  ws <- calculate_warmup_weights target_weight ;;
  let '(w45, w65, w85) := ws in
  l45 <- plate_weight w45 default_bar_weight ;;
  s45 <- py_round_ndigits l45 2 ;;
  l45' <- plate_weight w45 default_bar_weight ;;
  p45 <- plate_selection fuel l45' default_plate_weights ;;
  l65 <- plate_weight w65 default_bar_weight ;;
  s65 <- py_round_ndigits l65 2 ;;
  l65' <- plate_weight w65 default_bar_weight ;;
  p65 <- plate_selection fuel l65' default_plate_weights ;;
  l85 <- plate_weight w85 default_bar_weight ;;
  s85 <- py_round_ndigits l85 2 ;;
  l85' <- plate_weight w85 default_bar_weight ;;
  p85 <- plate_selection fuel l85' default_plate_weights ;;
  lt <- plate_weight target_weight default_bar_weight ;;
  st <- py_round_ndigits lt 2 ;;
  lt' <- plate_weight target_weight default_bar_weight ;;
  pt <- plate_selection fuel lt' default_plate_weights ;;
  Val (mk_workout_data
         [ bar_only_set;
           mk_warmup_set "1 set" 5 w45 s45 (PlatesList p45);
           mk_warmup_set "1 set" 3 w65 s65 (PlatesList p65);
           mk_warmup_set "1 set" 2 w85 s85 (PlatesList p85) ]
         (mk_target_set target_weight st pt)).

End App.

(** ** Exact values of numbers *)

Module Value.
Import Py.

(** The rational denoted by a float (0 for NaN and the infinities, which
    the statements below exclude). *)
Definition F2Q (f : spec_float) : Q :=
  match f with
  | S754_finite s m e => inject_Z (cond_Zopp s (Zpos m)) * (2 # 1) ^ e
  | _ => 0
  end%Q.

Definition num_value (x : num) : Q :=
  match x with
  | PInt z => inject_Z z
  | PFloat f => F2Q f
  end.

(** Finite floats: zeros and [S754_finite]. *)
Definition is_finite (f : spec_float) : bool :=
  match f with
  | S754_zero _ | S754_finite _ _ _ => true
  | _ => false
  end.

(** A number the interpreter can hold: any [int], or a float in canonical
    binary64 form. *)
Definition well_formed (x : num) : bool :=
  match x with
  | PInt _ => true
  | PFloat f => fvalid f
  end.

Definition finite_num (x : num) : bool :=
  match x with
  | PInt _ => true
  | PFloat f => is_finite f
  end.

(** The value of a canonical finite float in units of [2 ^ -1074], the
    spacing of the smallest binary64 numbers. *)
Definition scaled (f : spec_float) : Z :=
  match f with
  | S754_finite s m e => cond_Zopp s (Zpos m) * 2 ^ (e + 1074)
  | _ => 0
  end.

(** The value of a number in the same unit. *)
Definition num_scaled (x : num) : Z :=
  match x with
  | PInt z => z * 2 ^ 1074
  | PFloat f => scaled f
  end.

Definition is_int (x : num) : bool :=
  match x with
  | PInt _ => true
  | PFloat _ => false
  end.

(** [V], in units of [2 ^ -1074], is the value of some binary64 number: it
    is [k * 2 ^ g] for a mantissa [k] of at most 53 bits and an exponent
    [g] in range. *)
Definition representable (V : Z) : Prop :=
  exists g k, -1074 <= g <= 971 /\ V = k * 2 ^ (g + 1074) /\ Z.abs k < 2 ^ 53.

(** What the loop of [plate_selection] for the plate [p] keeps true of
    the remaining weight [x]: it is a non-negative finite number, and
    either everything is an [int] or [x] is small enough for its float
    arithmetic with multiples of [2 ^ T] to be exact. *)
Definition plate_inv (T : Z) (p x : num) : Prop :=
  well_formed x = true /\ finite_num x = true /\ 0 <= num_scaled x /\
  ((is_int x = true /\ is_int p = true) \/
   (num_scaled x < 2 ^ (53 + T) /\ representable (num_scaled x))).

(** 2.5 kg, the smallest plate, in units of [2 ^ -1074]. *)
Definition unit25 : Z := 5 * 2 ^ 1073.

(** Weights for which [plate_selection] is shown to run to completion:
    non-negative, and either an [int] or a float below [2 ^ 55]. *)
Definition in_range (w : num) : Prop :=
  well_formed w = true /\ finite_num w = true /\ 0 <= num_scaled w /\
  (is_int w = true \/ num_scaled w < 2 ^ 1129).

(** The plates chosen for a weight of [k] units of 2.5 kg (plus a rest
    below 2.5 kg). *)
Definition greedy_plates (k : Z) : list num :=
  repeat (PInt 20) (Z.to_nat (k / 8)) ++
  repeat (PInt 10) (Z.to_nat (k mod 8 / 4)) ++
  repeat (PInt 5) (Z.to_nat (k mod 4 / 2)) ++
  repeat (PFloat lit_2_5) (Z.to_nat (k mod 2)).

(** The binary order of magnitude of a float: its value is below
    [2 ^ magnitude]. *)
Definition magnitude (f : spec_float) : Z :=
  match f with
  | S754_finite _ m e => Zpos (digits2_pos m) + e
  | _ => -1074
  end.

(** The denominator [2 ^ 1074] that turns scaled values into rationals. *)
Definition scale_den : positive := (2 ^ 1074)%positive.

(** The sum of a sequence of numbers, in units of [2 ^ -1074]. *)
Definition sum_scaled (l : list num) : Z :=
  fold_right Z.add 0 (map num_scaled l).

(** The integer nearest to [n / d], ties to even, for [0 < d]. *)
Definition nearest_even (n d : Z) : Z :=
  let q := n / d in
  match 2 * (n mod d) ?= d with
  | Lt => q
  | Gt => q + 1
  | Eq => if Z.even q then q else q + 1
  end.

End Value.

(** ** The vocabulary of the specification *)

Module Spec.
Import Py App Value.

(** The exact sum of a sequence of plates. *)
Definition sum_values (l : list num) : Q :=
  fold_right Qplus 0%Q (map num_value l).

(** How many times the denomination [d] fits into [remaining]. *)
Definition fits (remaining d : Q) : nat :=
  Z.to_nat (Qfloor (remaining / d)).

(** The greedy decomposition of the specification, over exact numbers:
    each denomination in turn is taken as many times as it still fits. *)
Fixpoint greedy (denominations : list num) (remaining : Q) : list num :=
  match denominations with
  | [] => []
  | d :: rest =>
      let n := fits remaining (num_value d) in
      repeat d n
      ++ greedy rest (remaining - inject_Z (Z.of_nat n) * num_value d)
  end.

(** Rounding to the nearest integer, ties to the even neighbour. *)
Definition round_half_even (q : Q) : Z :=
  let f := Qfloor q in
  match Qcompare (q - inject_Z f) (1 # 2) with
  | Lt => f
  | Gt => f + 1
  | Eq => if Z.even f then f else f + 1
  end.

(** Rounding to the nearest integer, ties away from zero. *)
Definition round_half_away (q : Q) : Z :=
  match Qcompare q 0 with
  | Lt => - Qfloor (- q + (1 # 2))
  | _ => Qfloor (q + (1 # 2))
  end.

(** The plates of a ["plates"] value; the text of the bar-only set stands
    for no plates. *)
Definition plates_list (v : plates_value) : list num :=
  match v with
  | PlatesText _ => []
  | PlatesList l => l
  end.

(** [float(t)], the float with which a number enters float arithmetic. *)
Definition as_float (t : num) : spec_float :=
  match t with
  | PInt z => fnormalize z 0 false
  | PFloat f => f
  end.

(** The float literal [5.0]. *)
Definition lit_5 : spec_float := S754_finite false 5629499534213120 (-50).

(** The float [t * pct / 5] that [round] is applied to. *)
Definition warmup_quotient (pct t : spec_float) : spec_float :=
  fdiv (fmul t pct) lit_5.

(** [round(t * pct / 5) * 5], the formula of the specification evaluated
    in the arithmetic of the program. *)
Definition warmup_weight (pct : spec_float) (t : num) : res num :=
  a <- py_mul t (PFloat pct) ;;
  b <- py_truediv a (PInt 5) ;;
  r <- py_round b ;;
  py_mul r (PInt 5).

(** Targets for which the warmup computation is shown not to overflow:
    an [int] below [2 ^ 53] in absolute value, or a finite float below
    [2 ^ 1023] in absolute value. *)
Definition moderate_target (t : num) : Prop :=
  well_formed t = true /\ finite_num t = true /\
  let bound := inject_Z (if is_int t then 2 ^ 53 else 2 ^ 1023) in
  (- bound < num_value t /\ num_value t < bound)%Q.

(** A total and a bar, at least one of them a float, for which
    [(total - bar) / 2] is computed without rounding: both are finite, an
    [int] among them is a binary64 value, and the exact difference
    [total - bar] is a binary64 value that is zero or at least
    [2 ^ -1021]. *)
Definition exact_difference (total bar : num) : Prop :=
  well_formed total = true /\ well_formed bar = true /\
  finite_num total = true /\ finite_num bar = true /\
  is_int total && is_int bar = false /\
  representable (num_scaled total) /\ representable (num_scaled bar) /\
  representable (num_scaled total - num_scaled bar) /\
  (num_scaled total = num_scaled bar \/
   2 ^ 53 <= num_scaled total - num_scaled bar).

(** Weights for which [plate_selection] is shown to return the greedy
    decomposition: any [int], and the finite floats below [2 ^ 55]. *)
Definition selectable (w : num) : Prop :=
  well_formed w = true /\ finite_num w = true /\
  (is_int w = true \/ (num_value w < inject_Z (2 ^ 55))%Q).

(** Inputs on which the loops of [plate_selection] are shown to stop: any
    [int], NaN, the negative infinity, and the finite floats below
    [2 ^ 55]. *)
Definition stops_on (w : num) : Prop :=
  match w with
  | PInt _ => True
  | PFloat (S754_infinity false) => False
  | PFloat f => (F2Q f < inject_Z (2 ^ 55))%Q
  end.

(** The load per side [L] of a set of total weight [total], before it is
    rounded for display, against the plates selected for it. *)
Definition load_bounds (total : num) (plates : list num) : Prop :=
  exists L,
    plate_weight total default_bar_weight = Val L /\
    (sum_values plates <= num_value L)%Q /\
    (num_value L - sum_values plates < 5 # 2)%Q.

(** A computed element of ["warmup_sets"]: label, repetitions, total
    weight, rounded load per side and plates. *)
Definition plan_entry (fuel : nat) (reps : Z) (w : num) (e : warmup_set)
  : Prop :=
  ws_set e = "1 set"%string /\ ws_reps e = reps /\ ws_weight e = w /\
  exists l p,
    plate_weight w default_bar_weight = Val l /\
    py_round_ndigits l 2 = Val (ws_weight_per_side e) /\
    plate_selection fuel l default_plate_weights = Val p /\
    ws_plates e = PlatesList p.

(** The ["target"] entry. *)
Definition target_entry (fuel : nat) (w : num) (e : target_set) : Prop :=
  ts_weight e = w /\
  exists l,
    plate_weight w default_bar_weight = Val l /\
    py_round_ndigits l 2 = Val (ts_weight_per_side e) /\
    plate_selection fuel l default_plate_weights = Val (ts_plates e).

(** The shape of the plan for the target [t]: the bar-only set, the three
    warmup entries with 5, 3 and 2 repetitions, and the target entry. *)
Definition plan_of (fuel : nat) (t : num) (d : workout_data) : Prop :=
  exists w45 w65 w85 e45 e65 e85,
    calculate_warmup_weights t = Val (w45, w65, w85) /\
    warmup_sets d = [bar_only_set; e45; e65; e85] /\
    ws_reps bar_only_set = 5 /\
    plan_entry fuel 5 w45 e45 /\
    plan_entry fuel 3 w65 e65 /\
    plan_entry fuel 2 w85 e85 /\
    target_entry fuel t (target d).

(** All total weights of a plan are below [2 ^ 53]. *)
Definition plan_weights_moderate (d : workout_data) : Prop :=
  Forall (fun e => (num_value (ws_weight e) < inject_Z (2 ^ 53))%Q)
         (warmup_sets d) /\
  (num_value (ts_weight (target d)) < inject_Z (2 ^ 53))%Q.

(** Some floats used as inputs below. *)
Definition f_10 : spec_float := S754_finite false 5629499534213120 (-49).
Definition f_30 : spec_float := S754_finite false 8444249301319680 (-48).
Definition f_50 : spec_float := S754_finite false 7036874417766400 (-47).
Definition f_100 : spec_float := S754_finite false 7036874417766400 (-46).
Definition f_140 : spec_float := S754_finite false 4925812092436480 (-45).
Definition f_42_5 : spec_float := S754_finite false 5981343255101440 (-47).
Definition f_40 : spec_float := S754_finite false 5629499534213120 (-47).
Definition f_20 : spec_float := S754_finite false 5629499534213120 (-48).
Definition f_2_53 : spec_float := S754_finite false 4503599627370496 1.
Definition f_2_54 : spec_float := S754_finite false 4503599627370496 2.
Definition f_1e18 : spec_float := S754_finite false 7812500000000000 7.
Definition f_1e19 : spec_float := S754_finite false 4882812500000000 11.
Definition f_1e20 : spec_float := S754_finite false 6103515625000000 14.

(** The plan for a target of 100.0 kg. *)
Definition plan_100 : workout_data :=
  mk_workout_data
    [ bar_only_set;
      mk_warmup_set "1 set" 5 (PInt 45)
        (PFloat (S754_finite false 7036874417766400 (-49)))
        (PlatesList [PInt 10; PFloat lit_2_5]);
      mk_warmup_set "1 set" 3 (PInt 65)
        (PFloat (S754_finite false 6333186975989760 (-48)))
        (PlatesList [PInt 20; PFloat lit_2_5]);
      mk_warmup_set "1 set" 2 (PInt 85)
        (PFloat (S754_finite false 4573968371548160 (-47)))
        (PlatesList [PInt 20; PInt 10; PFloat lit_2_5]) ]
    (mk_target_set (PFloat f_100) (PFloat f_40) [PInt 20; PInt 20]).

End Spec.


(** ** The console report *)

Module Report.
Import Py App.

(** Standard output: the texts passed to [print], oldest first (the
    console shows each followed by a newline). *)
Definition console : Type := list string.

(** A piece of Python that prints: it extends the console and ends like
    any other piece; what was printed before an exception stays printed. *)
Definition io (A : Type) : Type := console -> console * res A.

Definition io_ret {A : Type} (a : A) : io A := fun out => (out, Val a).

Definition io_bind {A B : Type} (c : io A) (k : A -> io B) : io B :=
  fun out =>
    match c out with
    | (out', Val a) => k a out'
    | (out', Raise e) => (out', Raise e)
    | (out', OutOfFuel) => (out', OutOfFuel)
    end.

(** [print(s)] *)
Definition print (s : string) : io unit := fun out => (out ++ [s], Val tt).

(** A call that does not print. *)
Definition call {A : Type} (r : res A) : io A := fun out => (out, r).

Notation "x <~ c ;; k" := (io_bind c (fun x => k))
  (at level 61, c at next level, right associativity).
Notation "c ;;; k" := (io_bind c (fun _ => k))
  (at level 61, right associativity).

(** The newline character of ["\n"]. *)
Definition nl : string := String (Ascii.ascii_of_nat 10) EmptyString.

(** [s * n] for a text [s] *)
Fixpoint str_times (s : string) (n : nat) : string :=
  match n with
  | O => EmptyString
  | S n' => (s ++ str_times s n')%string
  end.

Section Rendering.

(** [str(x)] for a number, the text an f-string puts in place of [{x}];
    the statements below hold whatever these digits are. *)
Variable str_num : num -> string.

(** [str(l)] for a list of numbers: the elements' texts between brackets,
    separated by a comma and a space. *)
Definition str_list (l : list num) : string :=
  ("[" ++ String.concat ", " (map str_num l) ++ "]")%string.

(** One of the three warmup blocks of [print_weight_and_plates]; [title]
    is the text before the weight (["1 set of 5 reps - "], ...). *)
Definition print_warmup (fuel : nat) (title : string) (w : num) : io unit :=
  l <~ call (plate_weight w default_bar_weight) ;;
  plates <~ call (plate_selection fuel l default_plate_weights) ;;
  print (title ++ str_num w ++ "kg") ;;;
  l' <~ call (plate_weight w default_bar_weight) ;;
  print ("  Weight to load per side: " ++ str_num l' ++ "kg") ;;;
  print ("  Plates per side: " ++ str_list plates ++ nl).

(** [print_weight_and_plates(target_weight)] *)
Definition print_weight_and_plates (fuel : nat) (target_weight : num)
  : io unit :=
  ws <~ call (calculate_warmup_weights target_weight) ;;
  let '(w45, w65, w85) := ws in
  print (str_times "=" 50) ;;;
  print "WARMUP SETS" ;;;
  print (str_times "=" 50) ;;;
  print (nl ++ "2 sets of 5 reps - Bar only (20kg)") ;;;
  print ("  Plates per side: None (just the bar)" ++ nl) ;;;
  print_warmup fuel "1 set of 5 reps - " w45 ;;;
  print_warmup fuel "1 set of 3 reps - " w65 ;;;
  print_warmup fuel "1 set of 2 reps - " w85 ;;;
  print (str_times "=" 50) ;;;
  print "TARGET WEIGHT" ;;;
  print (str_times "=" 50) ;;;
  lt <~ call (plate_weight target_weight default_bar_weight) ;;
  plates_target <~ call (plate_selection fuel lt default_plate_weights) ;;
  print (nl ++ str_num target_weight ++ "kg") ;;;
  lt' <~ call (plate_weight target_weight default_bar_weight) ;;
  print ("  Weight to load per side: " ++ str_num lt' ++ "kg") ;;;
  print ("  Plates per side: " ++ str_list plates_target).

(** The five texts printed before any plate is computed. *)
Definition report_head : console :=
  [ str_times "=" 50; "WARMUP SETS"%string; str_times "=" 50;
    (nl ++ "2 sets of 5 reps - Bar only (20kg)")%string;
    ("  Plates per side: None (just the bar)" ++ nl)%string ].

(** The three texts of a set of total weight [w], load per side [l] and
    plates [p]. *)
Definition report_set (title : string) (w l : num) (p : list num) : console :=
  [ (title ++ str_num w ++ "kg")%string;
    ("  Weight to load per side: " ++ str_num l ++ "kg")%string;
    ("  Plates per side: " ++ str_list p ++ nl)%string ].

Definition report_target (w l : num) (p : list num) : console :=
  [ str_times "=" 50; "TARGET WEIGHT"%string; str_times "=" 50;
    (nl ++ str_num w ++ "kg")%string;
    ("  Weight to load per side: " ++ str_num l ++ "kg")%string;
    ("  Plates per side: " ++ str_list p)%string ].

End Rendering.

End Report.

(** ** The HTTP endpoint *)

Module Api.
Import Py App.

(** A parsed JSON document, as [request.get_json()] hands it over: [None],
    a [bool], a number, a [str], a [list] or a [dict] (its items, looked up
    by their first occurrence). *)
#[local] Unset Elimination Schemes.
Inductive json : Type :=
| JNull
| JBool (b : bool)
| JNum (x : num)
| JStr (s : string)
| JList (l : list json)
| JDict (items : list (string * json)).
#[local] Set Elimination Schemes.

(** The exceptions met in the handler: those of the core, [TypeError] and
    [AttributeError]. *)
Inductive api_exn : Type :=
| CoreError (e : exn)
| TypeError
| AttributeError.

Inductive ares (A : Type) : Type :=
| AVal (a : A)
| ARaise (e : api_exn)
| ANoFuel.
Arguments AVal {A} a.
Arguments ARaise {A} e.
Arguments ANoFuel {A}.

Definition abind {A B : Type} (r : ares A) (k : A -> ares B) : ares B :=
  match r with
  | AVal a => k a
  | ARaise e => ARaise e
  | ANoFuel => ANoFuel
  end.

Notation "x <~ r ;; k" := (abind r (fun x => k))
  (at level 61, r at next level, right associativity).

Definition of_core {A : Type} (r : res A) : ares A :=
  match r with
  | Val a => AVal a
  | Raise e => ARaise (CoreError e)
  | OutOfFuel => ANoFuel
  end.

(** The JSON body of a response: [{'error': <text>}], [{'error': str(e)}]
    for a caught exception [e], or the workout data. *)
Inductive payload : Type :=
| ErrorText (s : string)
| ErrorOf (e : api_exn)
| Workout (d : workout_data).

(** What the client gets: a body with a status code, or no answer while
    the handler is still running. *)
Inductive outcome : Type :=
| Response (body : payload) (status : Z)
| NoResponse.

Fixpoint lookup (key : string) (items : list (string * json)) : option json :=
  match items with
  | [] => None
  | (k, v) :: rest => if String.eqb k key then Some v else lookup key rest
  end.

(** [data.get('target_weight')]: [None] for a missing key; only a [dict]
    has the method. *)
Definition get_target_weight (data : json) : ares json :=
  match data with
  | JDict items =>
      match lookup "target_weight" items with
      | Some v => AVal v
      | None => AVal JNull
      end
  | _ => ARaise AttributeError
  end.

(** [x <= y]; [False] when a NaN is involved. *)
Definition py_le (x y : num) : bool :=
  match py_compare x y with
  | Some (Lt | Eq) => true
  | _ => false
  end.

Section Parsing.

(** [float(s)] for a text [s]; [None] when [s] is not the text of a
    number ([ValueError]). *)
Variable float_of_str : string -> option spec_float.

(** [float(v)] *)
Definition py_float (v : json) : ares spec_float :=
  match v with
  | JNull => ARaise TypeError
  | JBool b => of_core (float_of_int (if b then 1 else 0))
  | JNum x => of_core (to_float x)
  | JStr s =>
      match float_of_str s with
      | Some f => AVal f
      | None => ARaise (CoreError ValueError)
      end
  | JList _ => ARaise TypeError
  | JDict _ => ARaise TypeError
  end.

(** The body of the [try] block of [calculate]. *)
Definition calculate_try (fuel : nat) (data : json) : ares outcome :=
  v <~ get_target_weight data ;;
  target_weight <~ py_float v ;;
  if py_le (PFloat target_weight) (PInt 0) then
    AVal (Response (ErrorText "Target weight must be greater than 0") 400)
  else
    workout_data <~ of_core (get_workout_data fuel (PFloat target_weight)) ;;
    AVal (Response (Workout workout_data) 200).

(** [calculate()], the handler of [POST /api/calculate], on the document
    [data] that [request.get_json()] returned. *)
Definition calculate (fuel : nat) (data : json) : outcome :=
  match calculate_try fuel data with
  | AVal r => r
  | ARaise (CoreError ValueError) | ARaise TypeError =>
      Response (ErrorText "Invalid target weight") 400
  | ARaise e => Response (ErrorOf e) 500
  | ANoFuel => NoResponse
  end.

End Parsing.

End Api.

(** ** Further vocabulary *)

Module Props.
Import Py App Value.

(** [counts] copies of each plate, in the order of the plates. *)
Definition grouped (plates : list num) (counts : list nat) : list num :=
  flat_map (fun pn => repeat (fst pn) (snd pn)) (combine plates counts).

Definition sum_ints (l : list Z) : Z := fold_right Z.add 0 l.

(** The greedy decomposition of a whole number over whole-number plates. *)
Fixpoint greedy_ints (plates : list Z) (w : Z) : list Z :=
  match plates with
  | [] => []
  | p :: rest => repeat p (Z.to_nat (w / p)) ++ greedy_ints rest (w mod p)
  end.

(** Targets below [2 ^ 50] kg in absolute value, whole or fractional. *)
Definition ordinary_target (t : num) : Prop :=
  well_formed t = true /\ finite_num t = true /\
  (- inject_Z (2 ^ 50) < num_value t /\ num_value t < inject_Z (2 ^ 50))%Q.

(** A plate or none. *)
Definition one_if (b : bool) (p : num) : list num :=
  if b then [p] else [].

End Props.
(** ** Facts about binary64 arithmetic *)

Module FloatFacts.
Import Py Value.

Lemma fexp_eq (e : Z) : fexp fprec femax e = Z.max (e - 53) (-1074).
Proof. reflexivity. Qed.

Lemma fexp_mono (a b : Z) : a <= b -> fexp fprec femax a <= fexp fprec femax b.
Proof. rewrite !fexp_eq. lia. Qed.

Lemma digits2_size (m : positive) : digits2_pos m = Pos.size m.
Proof. induction m; simpl; congruence. Qed.

Lemma digits_log2 (m : positive) :
  Zpos (digits2_pos m) = Z.log2 (Zpos m) + 1.
Proof.
  rewrite digits2_size. destruct m; simpl; try rewrite Pos2Z.inj_succ; lia.
Qed.

Lemma digits_bounds (m : positive) :
  2 ^ (Zpos (digits2_pos m) - 1) <= Zpos m < 2 ^ Zpos (digits2_pos m).
Proof.
  rewrite digits_log2.
  replace (Z.log2 (Zpos m) + 1 - 1) with (Z.log2 (Zpos m)) by lia.
  apply (Z.log2_spec (Zpos m)). lia.
Qed.

Lemma digits_unique (m : positive) (d : Z) :
  2 ^ (d - 1) <= Zpos m < 2 ^ d -> Zpos (digits2_pos m) = d.
Proof.
  intros H. rewrite digits_log2.
  assert (Hd : 0 < d).
  { destruct (Z_lt_le_dec 0 d) as [|Hle]; [assumption|].
    exfalso. destruct H as [_ H].
    assert (2 ^ d <= 1).
    { destruct (Z.eq_dec d 0) as [->|]; [simpl; lia|].
      rewrite Z.pow_neg_r by lia. lia. }
    lia. }
  rewrite (Z.log2_unique (Zpos m) (d - 1)); [lia|lia|].
  replace (Z.succ (d - 1)) with d by lia. exact H.
Qed.

Lemma digits_mul_pow2 (m : positive) (n : Z) (q : positive) :
  0 <= n -> Zpos q = Zpos m * 2 ^ n ->
  Zpos (digits2_pos q) = Zpos (digits2_pos m) + n.
Proof.
  intros Hn Hq. rewrite !digits_log2, Hq.
  rewrite Z.log2_mul_pow2 by lia. lia.
Qed.

Lemma digits_le (m q : positive) :
  Zpos m <= Zpos q -> Zpos (digits2_pos m) <= Zpos (digits2_pos q).
Proof.
  intros H. rewrite !digits_log2.
  apply Z.add_le_mono_r, Z.log2_le_mono, H.
Qed.

(** *** Shifting right without losing bits *)

Lemma iter_pos_nat {A : Type} (f : A -> A) (p : positive) (x : A) :
  iter_pos f p x = Nat.iter (Pos.to_nat p) f x.
Proof.
  revert x. induction p as [p IH|p IH|]; intros x; simpl iter_pos.
  - rewrite !IH, Pos2Nat.inj_xI, <- Nat.iter_succ_r, <- Nat.iter_add.
    f_equal. lia.
  - rewrite !IH, Pos2Nat.inj_xO, <- Nat.iter_add. f_equal. lia.
  - reflexivity.
Qed.

Lemma iter_shr_exact (n : nat) (m : Z) :
  0 < m ->
  Nat.iter n shr_1 (Build_shr_record (m * 2 ^ Z.of_nat n) false false)
  = Build_shr_record m false false.
Proof.
  revert m. induction n as [|n IH]; intros m Hm.
  - simpl. rewrite Z.mul_1_r. reflexivity.
  - rewrite Nat.iter_succ_r.
    assert (Hp : 0 < m * 2 ^ Z.of_nat n)
      by (apply Z.mul_pos_pos; [lia | apply Z.pow_pos_nonneg; lia]).
    replace (m * 2 ^ Z.of_nat (S n)) with (2 * (m * 2 ^ Z.of_nat n))
      by (rewrite Nat2Z.inj_succ, Z.pow_succ_r; lia).
    destruct (m * 2 ^ Z.of_nat n) as [|p|p] eqn:E; try lia.
    change (2 * Z.pos p) with (Z.pos p~0). cbn [shr_1 orb].
    rewrite <- E. apply IH, Hm.
Qed.

Lemma shr_exact (m : positive) (e n : Z) (M : positive) :
  0 <= n -> Zpos M = Zpos m * 2 ^ n ->
  shr (Build_shr_record (Zpos M) false false) e n
  = (Build_shr_record (Zpos m) false false, e + n).
Proof.
  intros Hn HM. unfold shr. destruct n as [|p|p]; try lia.
  - rewrite Z.add_0_r. do 2 f_equal. rewrite HM. simpl. lia.
  - rewrite iter_pos_nat, HM, <- (positive_nat_Z p) at 1.
    rewrite iter_shr_exact by lia. reflexivity.
Qed.

(** Rounding a value that is already on the grid of its binade returns
    it unchanged. *)
Lemma binary_round_aux_exact (s : bool) (M m : positive) (e E : Z) :
  E = fexp fprec femax (Zpos (digits2_pos M) + e) ->
  e <= E -> Zpos M = Zpos m * 2 ^ (E - e) -> E <= 971 ->
  binary_round_aux fprec femax s (Zpos M) e loc_Exact = S754_finite s m E.
Proof.
  intros HE Hle HM Hmax.
  assert (Hd : Zpos (digits2_pos m) + E = Zpos (digits2_pos M) + e).
  { rewrite (digits_mul_pow2 m (E - e) M) by (lia || assumption). lia. }
  unfold binary_round_aux, shr_fexp.
  cbn [Zdigits2 shr_record_of_loc].
  rewrite <- HE, (shr_exact m e (E - e) M) by (lia || assumption).
  cbn [shr_m loc_of_shr_record round_nearest_even Zdigits2 shr_record_of_loc].
  replace (e + (E - e)) with E by lia.
  rewrite Hd, <- HE, Z.sub_diag. cbn [shr shr_m].
  replace (E <=? femax - fprec) with true; [reflexivity|].
  symmetry. apply Z.leb_le. unfold femax, fprec. lia.
Qed.
(** *** Representable values *)

Lemma pow2_pos (a : Z) : 0 <= a -> 0 < 2 ^ a.
Proof. intros. apply Z.pow_pos_nonneg; lia. Qed.

Lemma pow2_split (a b : Z) : 0 <= b <= a -> 2 ^ a = 2 ^ (a - b) * 2 ^ b.
Proof. intros. rewrite <- Z.pow_add_r by lia. f_equal. lia. Qed.

Lemma pow2_lt_inv (a b : Z) : 0 <= b -> 2 ^ a < 2 ^ b -> a < b.
Proof. intros Hb H. apply (Z.pow_lt_mono_r_iff 2); lia. Qed.

Lemma pos_iter_xO (m d : positive) :
  Zpos (Pos.iter xO m d) = Zpos m * 2 ^ Zpos d.
Proof.
  rewrite (Pos.iter_swap_gen _ _ Zpos xO (Z.mul 2)) by reflexivity.
  change (Pos.iter (Z.mul 2) (Zpos m) d) with (Z.shiftl (Zpos m) (Zpos d)).
  apply Z.shiftl_mul_pow2. lia.
Qed.

Lemma repr_exp_le (M : positive) (e g k : Z) :
  -1074 <= e -> -1074 <= g ->
  Zpos M * 2 ^ (e + 1074) = k * 2 ^ (g + 1074) -> Z.abs k < 2 ^ 53 ->
  0 < k /\ -1074 <= fexp fprec femax (Zpos (digits2_pos M) + e) <= g.
Proof.
  intros He Hg HV Hk.
  pose proof (pow2_pos (g + 1074) ltac:(lia)) as Pg.
  pose proof (pow2_pos (e + 1074) ltac:(lia)) as Pe.
  assert (Hk0 : 0 < k) by nia.
  split; [exact Hk0|].
  rewrite fexp_eq. split; [lia|].
  apply Z.max_lub; [|lia].
  pose proof (digits_bounds M) as [Hlo _].
  set (d := Zpos (digits2_pos M)) in *.
  assert (H1 : 2 ^ (d - 1) * 2 ^ (e + 1074) < 2 ^ 53 * 2 ^ (g + 1074)).
  { apply Z.le_lt_trans with (Zpos M * 2 ^ (e + 1074)); [nia|].
    rewrite HV. nia. }
  assert (Hd : 0 < d) by (subst d; lia).
  rewrite <- !Z.pow_add_r in H1 by lia.
  apply pow2_lt_inv in H1; lia.
Qed.

(** Rounding a representable value whose mantissa has enough trailing
    zeros returns the canonical float of that value. *)
Lemma binary_round_aux_repr (s : bool) (M : positive) (e : Z) :
  -1074 <= e -> representable (Zpos M * 2 ^ (e + 1074)) ->
  e <= fexp fprec femax (Zpos (digits2_pos M) + e) ->
  exists m E,
    binary_round_aux fprec femax s (Zpos M) e loc_Exact = S754_finite s m E /\
    bounded fprec femax m E = true /\
    Zpos m * 2 ^ (E + 1074) = Zpos M * 2 ^ (e + 1074).
Proof.
  intros He (g & k & Hg & HV & Hk) Hle.
  destruct (repr_exp_le M e g k He ltac:(lia) HV Hk) as (Hk0 & HEg).
  set (d := Zpos (digits2_pos M)) in *.
  set (E := fexp fprec femax (d + e)) in *.
  assert (Hdiv : exists m, Zpos M = Zpos m * 2 ^ (E - e)).
  { assert (Hq : Zpos M = (k * 2 ^ (g - E)) * 2 ^ (E - e)).
    { apply (Z.mul_reg_r _ _ (2 ^ (e + 1074))).
      - pose proof (pow2_pos (e + 1074)). lia.
      - rewrite HV, <- !Z.mul_assoc, <- !Z.pow_add_r by lia.
        do 2 f_equal. lia. }
    assert (0 < k * 2 ^ (g - E)).
    { apply Z.mul_pos_pos; [lia | apply pow2_pos; lia]. }
    destruct (k * 2 ^ (g - E)) as [|q|q]; try lia.
    exists q. exact Hq. }
  destruct Hdiv as (m & Hm).
  exists m, E.
  rewrite (binary_round_aux_exact s M m e E);
    try (fold d; fold E; reflexivity); try lia; try assumption.
  assert (Hdm : Zpos (digits2_pos m) + E = d + e).
  { subst d. rewrite (digits_mul_pow2 m (E - e) M) by (lia || assumption).
    lia. }
  repeat split.
  - unfold bounded, canonical_mantissa. rewrite Hdm. fold E.
    rewrite Z.eqb_refl. simpl. apply Z.leb_le. unfold femax, fprec. lia.
  - rewrite Hm, <- Z.mul_assoc, <- Z.pow_add_r by lia. do 2 f_equal. lia.
Qed.

Lemma binary_round_exact (s : bool) (M : positive) (e : Z) :
  -1074 <= e -> representable (Zpos M * 2 ^ (e + 1074)) ->
  exists m E,
    binary_round fprec femax s M e = S754_finite s m E /\
    bounded fprec femax m E = true /\
    Zpos m * 2 ^ (E + 1074) = Zpos M * 2 ^ (e + 1074).
Proof.
  intros He Hr.
  pose proof Hr as (g & k & Hg & HV & Hk).
  destruct (repr_exp_le M e g k He ltac:(lia) HV Hk) as (Hk0 & HEg).
  pose proof (binary_round_aux_repr s M e He Hr) as Hdown.
  set (d := Zpos (digits2_pos M)) in *.
  set (E := fexp fprec femax (d + e)) in *.
  unfold binary_round, shl_align. fold d. fold E.
  destruct (E - e) as [|p|p] eqn:HEe.
  - apply Hdown. lia.
  - apply Hdown. lia.
  - (* align to the left first *)
    exists (Pos.iter xO M p), E.
    assert (HM : Zpos (Pos.iter xO M p) = Zpos M * 2 ^ Zpos p)
      by apply pos_iter_xO.
    assert (Hdm : Zpos (digits2_pos (Pos.iter xO M p)) + E = d + e).
    { subst d. rewrite (digits_mul_pow2 M (Zpos p) _ ) by (lia || assumption).
      lia. }
    rewrite (binary_round_aux_exact s _ (Pos.iter xO M p) E E); try lia.
    + repeat split.
      * unfold bounded, canonical_mantissa. rewrite Hdm. fold E.
        rewrite Z.eqb_refl. simpl. apply Z.leb_le. unfold femax, fprec. lia.
      * rewrite HM, <- Z.mul_assoc, <- Z.pow_add_r by lia. do 2 f_equal. lia.
    + rewrite Hdm. reflexivity.
    + rewrite Z.sub_diag. simpl. lia.
Qed.

(** *** Canonical floats *)

Lemma valid_finite_inv (s : bool) (m : positive) (e : Z) :
  fvalid (S754_finite s m e) = true ->
  -1074 <= e <= 971 /\ Zpos m < 2 ^ 53 /\
  fexp fprec femax (Zpos (digits2_pos m) + e) = e.
Proof.
  unfold fvalid, valid_binary, bounded, canonical_mantissa.
  intros H. apply andb_true_iff in H as [Hc Hb].
  apply Z.eqb_eq in Hc. apply Z.leb_le in Hb.
  unfold femax, fprec in Hb.
  pose proof Hc as Hc'. rewrite fexp_eq in Hc'.
  repeat split; try lia; try assumption.
  pose proof (digits_bounds m) as [_ Hhi].
  apply Z.lt_le_trans with (1 := Hhi).
  apply Z.pow_le_mono_r; lia.
Qed.

Lemma scaled_representable (f : spec_float) :
  fvalid f = true -> representable (scaled f).
Proof.
  destruct f as [s|s| |s m e]; intros Hv;
    try (exists 0, 0; simpl; repeat split; lia).
  apply valid_finite_inv in Hv as (He & Hm & _).
  exists e, (cond_Zopp s (Zpos m)). split; [lia|]. split; [reflexivity|].
  destruct s; simpl; lia.
Qed.

Lemma representable_opp (V : Z) : representable V -> representable (- V).
Proof.
  intros (g & k & Hg & HV & Hk). exists g, (- k).
  split; [lia|]. split; [lia|]. rewrite Z.abs_opp. exact Hk.
Qed.

(** A multiple of the spacing of the float [x] that is no larger than [x]
    is the value of a float. *)
Lemma representable_below (s : bool) (m : positive) (e : Z) (V : Z) :
  fvalid (S754_finite s m e) = true ->
  (2 ^ (e + 1074) | V) -> Z.abs V <= Zpos m * 2 ^ (e + 1074) ->
  representable V.
Proof.
  intros Hv (k & Hk) Hle.
  apply valid_finite_inv in Hv as (He & Hm & _).
  exists e, k. repeat split; try lia.
  pose proof (pow2_pos (e + 1074)).
  rewrite Hk, Z.abs_mul, (Z.abs_eq (2 ^ (e + 1074))) in Hle by lia.
  nia.
Qed.

Lemma normalize_exact (z e : Z) :
  -1074 <= e -> representable (z * 2 ^ (e + 1074)) ->
  fvalid (fnormalize z e false) = true /\
  is_finite (fnormalize z e false) = true /\
  scaled (fnormalize z e false) = z * 2 ^ (e + 1074).
Proof.
  intros He Hr. unfold fnormalize, binary_normalize.
  destruct z as [|M|M].
  - simpl. auto.
  - destruct (binary_round_exact false M e He Hr) as (m & E & -> & Hb & HS).
    repeat split; assumption.
  - apply representable_opp in Hr.
    rewrite <- Z.mul_opp_l in Hr. change (- Zneg M) with (Zpos M) in Hr.
    destruct (binary_round_exact true M e He Hr) as (m & E & -> & Hb & HS).
    repeat split; try assumption.
    cbn [scaled cond_Zopp]. rewrite Z.mul_opp_l, HS.
    change (Zneg M) with (- Zpos M). lia.
Qed.

Lemma shl_align_fst (m : positive) (e e' : Z) :
  e' <= e -> Zpos (fst (shl_align m e e')) = Zpos m * 2 ^ (e - e').
Proof.
  intros H. unfold shl_align.
  destruct (e' - e) as [|p|p] eqn:E; try lia; cbn [fst].
  - replace (e - e') with 0 by lia. simpl. lia.
  - rewrite pos_iter_xO. do 2 f_equal. lia.
Qed.

Lemma scaled_cond_Zopp (s : bool) (a b : Z) :
  cond_Zopp s a * b = cond_Zopp s (a * b).
Proof. destruct s; simpl; lia. Qed.

(** Subtraction is exact whenever the exact difference is representable. *)
Lemma fsub_exact (x y : spec_float) :
  fvalid x = true -> fvalid y = true ->
  is_finite x = true -> is_finite y = true ->
  representable (scaled x - scaled y) ->
  fvalid (fsub x y) = true /\ is_finite (fsub x y) = true /\
  scaled (fsub x y) = scaled x - scaled y.
Proof.
  intros Hx Hy Fx Fy Hr.
  destruct x as [sx|sx| |sx mx ex]; try discriminate;
  destruct y as [sy|sy| |sy my ey]; try discriminate.
  - destruct sx, sy; simpl; auto.
  - cbn [fsub SFsub scaled is_finite]. repeat split; try assumption.
    destruct sy; cbn [negb cond_Zopp]; rewrite ?Z.mul_opp_l; lia.
  - cbn [fsub SFsub scaled is_finite]. repeat split; try assumption. lia.
  - pose proof (valid_finite_inv _ _ _ Hx) as (Hex & _).
    pose proof (valid_finite_inv _ _ _ Hy) as (Hey & _).
    unfold fsub, SFsub. fold fnormalize.
    set (ez := Z.min ex ey).
    assert (HD : (cond_Zopp sx (Zpos (fst (shl_align mx ex ez)))
                  - cond_Zopp sy (Zpos (fst (shl_align my ey ez))))
                 * 2 ^ (ez + 1074)
                 = scaled (S754_finite sx mx ex) - scaled (S754_finite sy my ey)).
    { rewrite !shl_align_fst by (subst ez; lia).
      cbn [scaled]. rewrite Z.mul_sub_distr_r, !scaled_cond_Zopp.
      rewrite <- !Z.mul_assoc, <- !Z.pow_add_r by (subst ez; lia).
      replace (ex - ez + (ez + 1074)) with (ex + 1074) by lia.
      replace (ey - ez + (ez + 1074)) with (ey + 1074) by lia.
      reflexivity. }
    rewrite <- HD in Hr |- *.
    apply normalize_exact; [subst ez; lia | exact Hr].
Qed.

(** *** Comparison *)

Lemma canonical_exp_lt (s1 s2 : bool) (m1 m2 : positive) (e1 e2 : Z) :
  fvalid (S754_finite s1 m1 e1) = true ->
  fvalid (S754_finite s2 m2 e2) = true ->
  e1 < e2 ->
  Zpos m1 * 2 ^ (e1 + 1074) < Zpos m2 * 2 ^ (e2 + 1074).
Proof.
  intros H1 H2 Hlt.
  apply valid_finite_inv in H1 as (He1 & Hm1 & _).
  apply valid_finite_inv in H2 as (He2 & _ & Hc2).
  rewrite fexp_eq in Hc2.
  assert (Hd2 : Zpos (digits2_pos m2) = 53) by lia.
  pose proof (digits_bounds m2) as [Hlo _]. rewrite Hd2 in Hlo.
  change (53 - 1) with 52 in Hlo.
  pose proof (pow2_pos (e1 + 1074)).
  apply Z.lt_le_trans with (2 ^ 53 * 2 ^ (e1 + 1074)); [nia|].
  apply Z.le_trans with (2 ^ 52 * 2 ^ (e2 + 1074)).
  - rewrite <- !Z.pow_add_r by lia. apply Z.pow_le_mono_r; lia.
  - pose proof (pow2_pos (e2 + 1074)). nia.
Qed.

Lemma compare_scale (a b p : Z) : 0 < p -> (a * p ?= b * p) = (a ?= b).
Proof. intros. symmetry. apply Zmult_compare_compat_r. lia. Qed.

Lemma fcompare_scaled (x y : spec_float) :
  fvalid x = true -> fvalid y = true ->
  is_finite x = true -> is_finite y = true ->
  SFcompare x y = Some (scaled x ?= scaled y).
Proof.
  intros Hx Hy Fx Fy.
  destruct x as [sx|sx| |sx mx ex]; try discriminate;
  destruct y as [sy|sy| |sy my ey]; try discriminate.
  - reflexivity.
  - pose proof (valid_finite_inv _ _ _ Hy) as (Hey & _).
    pose proof (pow2_pos (ey + 1074)).
    cbn [SFcompare scaled]. f_equal. symmetry.
    destruct sy; cbn [cond_Zopp];
      [apply Z.compare_gt_iff | apply Z.compare_lt_iff]; nia.
  - pose proof (valid_finite_inv _ _ _ Hx) as (Hex & _).
    pose proof (pow2_pos (ex + 1074)).
    cbn [SFcompare scaled]. f_equal. symmetry.
    destruct sx; cbn [cond_Zopp];
      [apply Z.compare_lt_iff | apply Z.compare_gt_iff]; nia.
  - pose proof (valid_finite_inv _ _ _ Hx) as (Hex & _).
    pose proof (valid_finite_inv _ _ _ Hy) as (Hey & _).
    pose proof (pow2_pos (ex + 1074)).
    pose proof (pow2_pos (ey + 1074)).
    cbn [SFcompare scaled]. f_equal. symmetry.
    destruct sx, sy; cbn [cond_Zopp].
    + (* both negative *)
      destruct (Z.compare_spec ex ey) as [->|Hlt|Hgt].
      * change (Pos.compare_cont Eq mx my) with (Pos.compare mx my).
        rewrite !Z.mul_opp_l, Z.compare_opp, compare_scale by lia.
        apply (Pos.compare_antisym mx my).
      * apply Z.compare_gt_iff.
        pose proof (canonical_exp_lt _ _ _ _ _ _ Hx Hy Hlt). lia.
      * apply Z.compare_lt_iff.
        pose proof (canonical_exp_lt _ _ _ _ _ _ Hy Hx Hgt). lia.
    + apply Z.compare_lt_iff. nia.
    + apply Z.compare_gt_iff. nia.
    + destruct (Z.compare_spec ex ey) as [->|Hlt|Hgt].
      * change (Pos.compare_cont Eq mx my) with (Pos.compare mx my).
        rewrite compare_scale by lia. reflexivity.
      * apply Z.compare_lt_iff.
        exact (canonical_exp_lt _ _ _ _ _ _ Hx Hy Hlt).
      * apply Z.compare_gt_iff.
        exact (canonical_exp_lt _ _ _ _ _ _ Hy Hx Hgt).
Qed.

Lemma compare_int_float_scaled (z : Z) (f : spec_float) :
  fvalid f = true -> is_finite f = true ->
  compare_int_float z f = Some (z * 2 ^ 1074 ?= scaled f).
Proof.
  intros Hv Hf. destruct f as [s|s| |s m e]; try discriminate.
  - cbn [compare_int_float scaled]. f_equal.
    rewrite <- (compare_scale z 0 (2 ^ 1074)) by (apply pow2_pos; lia).
    reflexivity.
  - apply valid_finite_inv in Hv as (He & _).
    cbn [compare_int_float scaled]. f_equal.
    destruct (Z.leb_spec 0 e) as [H0|H0].
    + rewrite <- (compare_scale z _ (2 ^ 1074)) by (apply pow2_pos; lia).
      rewrite <- Z.mul_assoc, <- Z.pow_add_r by lia. reflexivity.
    + rewrite <- (compare_scale _ _ (2 ^ (e + 1074))) by (apply pow2_pos; lia).
      rewrite <- Z.mul_assoc, <- Z.pow_add_r by lia.
      replace (- e + (e + 1074)) with 1074 by lia. reflexivity.
Qed.

(** *** Division by a power of two *)

Lemma new_location_zero (n : Z) : new_location n 0 = loc_Exact.
Proof.
  unfold new_location, new_location_even, new_location_odd.
  destruct (Z.even n); reflexivity.
Qed.

Lemma div_eucl_exact (a b : Z) : b <> 0 -> Z.div_eucl (a * b) b = (a, 0).
Proof.
  intros Hb.
  pose proof (Z.div_mul a b Hb) as Hq.
  pose proof (Z.mod_mul a b Hb) as Hr.
  unfold Z.div, Z.modulo in Hq, Hr.
  destruct (Z.div_eucl (a * b) b) as [q r]. simpl in Hq, Hr. congruence.
Qed.

(** Dividing [m1 * 2 ^ e1] by the power of two [2 ^ k * 2 ^ e2] is exact
    when the quotient is representable. *)
Lemma fdiv_pow2_exact (s : bool) (m1 m2 : positive) (e1 e2 k : Z) :
  Zpos m2 = 2 ^ k -> 0 <= k ->
  -1074 <= e1 - e2 - k ->
  Zpos (digits2_pos m1) <= 54 ->
  representable (Zpos m1 * 2 ^ (e1 - e2 - k + 1074)) ->
  exists m E,
    fdiv (S754_finite s m1 e1) (S754_finite false m2 e2) = S754_finite s m E /\
    bounded fprec femax m E = true /\
    Zpos m * 2 ^ (E + 1074) = Zpos m1 * 2 ^ (e1 - e2 - k + 1074).
Proof.
  intros Hm2 Hk Hq Hd1 Hr.
  assert (Hd2 : Zpos (digits2_pos m2) = k + 1).
  { apply digits_unique. rewrite Hm2. replace (k + 1 - 1) with k by lia.
    split; [lia|]. apply Z.pow_lt_mono_r; lia. }
  unfold fdiv, SFdiv, SFdiv_core_binary. cbn [Zdigits2]. rewrite Hd2.
  set (d1 := Zpos (digits2_pos m1)) in *.
  set (e' := Z.min (fexp fprec femax (d1 + e1 - (k + 1 + e2))) (e1 - e2)).
  assert (He' : -1074 <= e' <= e1 - e2 - k).
  { subst e'. rewrite fexp_eq. lia. }
  set (sh := e1 - e2 - e').
  assert (Hsh : k <= sh) by (subst sh; lia).
  assert (Hm' : match sh with
                | Z0 => Zpos m1
                | Zpos _ => Z.shiftl (Zpos m1) sh
                | Zneg _ => 0
                end = (Zpos m1 * 2 ^ (sh - k)) * Zpos m2).
  { rewrite Hm2, <- Z.mul_assoc, <- Z.pow_add_r by lia.
    replace (sh - k + k) with sh by lia.
    clearbody sh. destruct sh as [|p|p]; [lia | | lia].
    apply Z.shiftl_mul_pow2. lia. }
  rewrite Hm', div_eucl_exact by lia.
  rewrite new_location_zero, xorb_false_r.
  assert (Hpos : 0 < Zpos m1 * 2 ^ (sh - k)).
  { apply Z.mul_pos_pos; [lia | apply pow2_pos; lia]. }
  destruct (Zpos m1 * 2 ^ (sh - k)) as [|q|q] eqn:Eq; try lia.
  assert (HV : Zpos q * 2 ^ (e' + 1074) = Zpos m1 * 2 ^ (e1 - e2 - k + 1074)).
  { rewrite <- Eq, <- Z.mul_assoc, <- Z.pow_add_r by lia.
    do 2 f_equal. subst sh. lia. }
  rewrite <- HV in Hr |- *.
  apply binary_round_aux_repr; [lia | exact Hr |].
  assert (Hdq : Zpos (digits2_pos q) = d1 + (sh - k)).
  { subst d1. apply digits_mul_pow2; [lia | exact (eq_sym Eq)]. }
  rewrite Hdq.
  apply Z.le_trans with (fexp fprec femax (d1 + e1 - (k + 1 + e2))).
  - subst e'. lia.
  - apply fexp_mono. subst sh. lia.
Qed.

(** *** Python operations on exact values *)

Lemma py_compare_scaled (x y : num) :
  well_formed x = true -> well_formed y = true ->
  finite_num x = true -> finite_num y = true ->
  py_compare x y = Some (num_scaled x ?= num_scaled y).
Proof.
  intros Wx Wy Fx Fy.
  destruct x as [a|fx], y as [b|fy]; cbn [py_compare num_scaled].
  - rewrite compare_scale by (apply pow2_pos; lia). reflexivity.
  - apply compare_int_float_scaled; assumption.
  - rewrite (compare_int_float_scaled b fx) by assumption.
    cbn [option_map]. rewrite <- Z.compare_antisym. reflexivity.
  - apply fcompare_scaled; assumption.
Qed.

Lemma py_ge_scaled (x y : num) :
  well_formed x = true -> well_formed y = true ->
  finite_num x = true -> finite_num y = true ->
  py_ge x y = (num_scaled y <=? num_scaled x).
Proof.
  intros. unfold py_ge. rewrite py_compare_scaled by assumption.
  rewrite Z.leb_compare, (Z.compare_antisym (num_scaled x) (num_scaled y)).
  destruct (num_scaled x ?= num_scaled y); reflexivity.
Qed.

Lemma py_lt_scaled (x y : num) :
  well_formed x = true -> well_formed y = true ->
  finite_num x = true -> finite_num y = true ->
  py_lt x y = (num_scaled x <? num_scaled y).
Proof.
  intros. unfold py_lt. rewrite py_compare_scaled by assumption.
  unfold Z.ltb. destruct (num_scaled x ?= num_scaled y); reflexivity.
Qed.

Lemma float_of_int_exact (z : Z) :
  representable (z * 2 ^ 1074) ->
  exists f, float_of_int z = Val f /\ fvalid f = true /\
            is_finite f = true /\ scaled f = z * 2 ^ 1074.
Proof.
  intros Hr. unfold float_of_int.
  destruct (normalize_exact z 0 ltac:(lia) Hr) as (Hv & Hf & Hs).
  exists (fnormalize z 0 false). repeat split; try assumption.
  destruct (fnormalize z 0 false); try discriminate; reflexivity.
Qed.

Lemma to_float_exact (x : num) :
  well_formed x = true -> finite_num x = true ->
  representable (num_scaled x) ->
  exists f, to_float x = Val f /\ fvalid f = true /\
            is_finite f = true /\ scaled f = num_scaled x.
Proof.
  intros Wx Fx Hr. destruct x as [z|f].
  - apply float_of_int_exact, Hr.
  - exists f. repeat split; assumption.
Qed.

Lemma py_sub_exact (x y : num) :
  well_formed x = true -> well_formed y = true ->
  finite_num x = true -> finite_num y = true ->
  is_int x && is_int y = false ->
  representable (num_scaled x) -> representable (num_scaled y) ->
  representable (num_scaled x - num_scaled y) ->
  exists r, py_sub x y = Val (PFloat r) /\ fvalid r = true /\
            is_finite r = true /\ scaled r = num_scaled x - num_scaled y.
Proof.
  intros Wx Wy Fx Fy Hi Rx Ry Rd.
  destruct (to_float_exact x Wx Fx Rx) as (fx & Ex & Vx & Ix & Sx).
  destruct (to_float_exact y Wy Fy Ry) as (fy & Ey & Vy & Iy & Sy).
  rewrite <- Sx, <- Sy in Rd.
  destruct (fsub_exact fx fy Vx Vy Ix Iy Rd) as (Vr & Ir & Sr).
  exists (fsub fx fy). rewrite Sr, Sx, Sy. repeat split; try assumption.
  destruct x as [a|gx], y as [b|gy]; try discriminate;
    unfold py_sub; rewrite Ex, Ey; reflexivity.
Qed.

Lemma finite_exp_le (s : bool) (m : positive) (e T : Z) :
  fvalid (S754_finite s m e) = true -> 0 <= T ->
  Zpos m * 2 ^ (e + 1074) < 2 ^ (53 + T) ->
  e + 1074 <= T.
Proof.
  intros Hv HT Hlt.
  apply valid_finite_inv in Hv as (He & _ & Hc).
  rewrite fexp_eq in Hc.
  destruct (Z.eq_dec e (-1074)) as [->|Hne]; [lia|].
  assert (Hd : Zpos (digits2_pos m) = 53) by lia.
  pose proof (digits_bounds m) as [Hlo _]. rewrite Hd in Hlo.
  change (53 - 1) with 52 in Hlo.
  pose proof (pow2_pos (e + 1074) ltac:(lia)).
  assert (H1 : 2 ^ 52 * 2 ^ (e + 1074) < 2 ^ (53 + T)) by nia.
  rewrite <- Z.pow_add_r in H1 by lia.
  apply pow2_lt_inv in H1; lia.
Qed.

(** Subtracting a value on a coarse grid from a larger float whose own
    spacing is at most that grid is exact. *)
Lemma grid_difference_representable (f : spec_float) (P T : Z) :
  fvalid f = true -> is_finite f = true ->
  0 <= T -> (2 ^ T | P) ->
  0 < P <= scaled f -> scaled f < 2 ^ (53 + T) ->
  representable (scaled f - P).
Proof.
  intros Hv Hf HT HP HPx Hlt.
  destruct f as [s|s| |s m e]; try discriminate; cbn [scaled] in *; try lia.
  pose proof (valid_finite_inv _ _ _ Hv) as (He & _).
  pose proof (pow2_pos (e + 1074) ltac:(lia)) as Ppos.
  destruct s; cbn [cond_Zopp] in *; [nia|].
  pose proof (finite_exp_le _ _ _ T Hv HT Hlt) as HeT.
  apply (representable_below false m e); [assumption| |lia].
  apply Z.divide_sub_r.
  - apply Z.divide_factor_r.
  - apply Z.divide_trans with (2 ^ T); [|assumption].
    exists (2 ^ (T - (e + 1074))). apply pow2_split. lia.
Qed.

(** *** Rounding in general: no overflow for moderate magnitudes *)

Lemma digits_lt_pow2 (m : positive) (n : Z) :
  0 <= n -> Zpos m < 2 ^ n -> Zpos (digits2_pos m) <= n.
Proof.
  intros Hn Hlt. pose proof (digits_bounds m) as [Hlo _].
  assert (H1 : 2 ^ (Zpos (digits2_pos m) - 1) < 2 ^ n) by lia.
  apply pow2_lt_inv in H1; lia.
Qed.

Lemma shr_1_m (r : shr_record) :
  0 <= shr_m r -> shr_m (shr_1 r) = shr_m r / 2.
Proof.
  destruct r as [m rb sb]. cbn [shr_m]. intros Hm.
  rewrite <- Z.div2_div.
  destruct m as [|[p|p|]|p]; try lia; reflexivity.
Qed.

Lemma iter_shr_m (n : nat) (r : shr_record) :
  0 <= shr_m r ->
  shr_m (Nat.iter n shr_1 r) = shr_m r / 2 ^ Z.of_nat n.
Proof.
  intros Hm. induction n as [|n IH].
  - simpl. rewrite Z.div_1_r. reflexivity.
  - rewrite Nat.iter_succ, shr_1_m, IH.
    + rewrite Z.div_div, Nat2Z.inj_succ, Z.pow_succ_r by lia.
      f_equal. lia.
    + rewrite IH. apply Z.div_pos; [lia | apply pow2_pos; lia].
Qed.

Lemma shr_spec (r : shr_record) (e n : Z) :
  0 <= shr_m r ->
  shr_m (fst (shr r e n)) = shr_m r / 2 ^ Z.max 0 n /\
  snd (shr r e n) = e + Z.max 0 n.
Proof.
  intros Hm. unfold shr. destruct n as [|p|p]; cbn [fst snd].
  - rewrite Z.max_l, Z.div_1_r by lia. lia.
  - rewrite Z.max_r, iter_pos_nat, iter_shr_m, positive_nat_Z by lia. auto.
  - rewrite Z.max_l, Z.div_1_r by lia. lia.
Qed.

Lemma round_nearest_even_bounds (m : Z) (l : location) :
  m <= round_nearest_even m l <= m + 1.
Proof.
  destruct l as [|[| |]]; cbn [round_nearest_even];
    try destruct (Z.even m); lia.
Qed.

Lemma shr_m_of_loc (m : Z) (l : location) : shr_m (shr_record_of_loc m l) = m.
Proof. destruct l as [|[| |]]; reflexivity. Qed.

Lemma Zdigits2_nonneg (n : Z) : 0 <= Zdigits2 n.
Proof. destruct n; simpl; lia. Qed.

Lemma Zdigits2_lt (m : Z) : 0 <= m -> m < 2 ^ Zdigits2 m.
Proof.
  destruct m as [|p|p]; intros Hm; try lia.
  - simpl. lia.
  - cbn [Zdigits2]. apply digits_bounds.
Qed.

Lemma Zdigits2_le_bound (m d : Z) :
  0 <= d -> 0 <= m < 2 ^ d -> Zdigits2 m <= d.
Proof.
  intros Hd Hm. destruct m as [|p|p]; try lia.
  - simpl. lia.
  - cbn [Zdigits2]. apply digits_lt_pow2; lia.
Qed.

Lemma Zdigits2_shift (a : positive) (k b : Z) :
  0 <= k -> Zpos a * 2 ^ k <= b -> Zpos (digits2_pos a) + k <= Zdigits2 b.
Proof.
  intros Hk Hb.
  assert (Hpos : 0 < Zpos a * 2 ^ k)
    by (apply Z.mul_pos_pos; [lia | apply pow2_pos; lia]).
  destruct b as [|q|q]; try lia.
  destruct (Zpos a * 2 ^ k) as [|c|c] eqn:Ec; try lia.
  cbn [Zdigits2].
  rewrite <- (digits_mul_pow2 a k c Hk (eq_sym Ec)).
  apply digits_le. lia.
Qed.

(** Rounding a magnitude below [2 ^ D], [D <= 1023], never overflows, and
    the result stays below [2 ^ (D + 1)]. *)
Lemma binary_round_aux_finite (s : bool) (mx ex : Z) (lx : location) (D : Z) :
  0 <= mx -> Zdigits2 mx + ex <= D -> -1074 <= D <= 1023 -> ex <= 971 ->
  is_finite (binary_round_aux fprec femax s mx ex lx) = true /\
  match binary_round_aux fprec femax s mx ex lx with
  | S754_finite _ m e => Zpos (digits2_pos m) + e <= D + 1 /\ e <= 971
  | _ => True
  end.
Proof.
  intros Hmx HD HDr Hex.
  unfold binary_round_aux, shr_fexp.
  pose proof (Zdigits2_nonneg mx) as Hdg.
  set (n1 := fexp fprec femax (Zdigits2 mx + ex) - ex).
  pose proof (shr_spec (shr_record_of_loc mx lx) ex n1) as S1.
  rewrite shr_m_of_loc in S1. specialize (S1 Hmx).
  destruct (shr (shr_record_of_loc mx lx) ex n1) as [mrs' e'].
  cbn [fst snd] in S1. destruct S1 as [M1 E1].
  set (k1 := Z.max 0 n1) in *.
  assert (Hk1 : 0 <= k1) by (subst k1; lia).
  assert (He' : e' <= D /\ e' <= 971).
  { subst e' k1 n1. rewrite fexp_eq. lia. }
  pose proof (round_nearest_even_bounds (shr_m mrs') (loc_of_shr_record mrs'))
    as Hr.
  set (m1r := round_nearest_even (shr_m mrs') (loc_of_shr_record mrs')) in *.
  assert (Hm1 : 0 <= shr_m mrs').
  { rewrite M1. apply Z.div_pos; [lia | apply pow2_pos; lia]. }
  assert (F1 : Zdigits2 m1r + e' <= D + 1).
  { pose proof (Zdigits2_lt mx Hmx) as Hlt.
    assert (Hlt' : mx < 2 ^ (D - ex)).
    { apply Z.lt_le_trans with (1 := Hlt). apply Z.pow_le_mono_r; lia. }
    destruct (Z_le_gt_dec k1 (D - ex)) as [Hle|Hgt].
    - assert (Hm1lt : shr_m mrs' < 2 ^ (D - ex - k1)).
      { rewrite M1. apply Z.div_lt_upper_bound; [apply pow2_pos; lia|].
        rewrite <- Z.pow_add_r by lia.
        replace (k1 + (D - ex - k1)) with (D - ex) by lia. exact Hlt'. }
      assert (Zdigits2 m1r <= D - ex - k1 + 1); [|lia].
      apply Zdigits2_le_bound; [lia|]. split; [lia|].
      rewrite Z.pow_add_r by lia. change (2 ^ 1) with 2.
      pose proof (pow2_pos (D - ex - k1) ltac:(lia)). lia.
    - assert (Hz : shr_m mrs' = 0).
      { rewrite M1. apply Z.div_small. split; [lia|].
        apply Z.lt_le_trans with (1 := Hlt'). apply Z.pow_le_mono_r; lia. }
      assert (Zdigits2 m1r <= 1); [|lia].
      apply Zdigits2_le_bound; [lia|]. change (2 ^ 1) with 2. lia. }
  set (n2 := fexp fprec femax (Zdigits2 m1r + e') - e').
  assert (Hm1r : 0 <= m1r) by lia.
  pose proof (shr_spec (shr_record_of_loc m1r loc_Exact) e' n2) as S2.
  rewrite shr_m_of_loc in S2. specialize (S2 Hm1r).
  destruct (shr (shr_record_of_loc m1r loc_Exact) e' n2) as [mrs'' e''].
  cbn [fst snd] in S2. destruct S2 as [M2 E2].
  set (k2 := Z.max 0 n2) in *.
  assert (Hk2 : 0 <= k2) by (subst k2; lia).
  assert (He'' : e'' <= 971).
  { subst e'' k2 n2. rewrite fexp_eq. lia. }
  destruct (shr_m mrs'') as [|m|m] eqn:Em.
  - split; [reflexivity | exact I].
  - replace (e'' <=? femax - fprec) with true
      by (symmetry; apply Z.leb_le; unfold femax, fprec; lia).
    split; [reflexivity|]. split; [|exact He''].
    assert (Hmul : Zpos m * 2 ^ k2 <= m1r).
    { assert (Em' : Zpos m = m1r / 2 ^ k2) by congruence.
      rewrite Em', Z.mul_comm.
      apply Z.mul_div_le. apply pow2_pos; lia. }
    pose proof (Zdigits2_shift m k2 m1r Hk2 Hmul). lia.
  - exfalso.
    assert (Em' : Zneg m = m1r / 2 ^ k2) by congruence.
    assert (0 <= m1r / 2 ^ k2)
      by (apply Z.div_pos; [lia | apply pow2_pos; lia]).
    lia.
Qed.

Lemma valid_exp_le_magnitude (s : bool) (m : positive) (e : Z) :
  fvalid (S754_finite s m e) = true ->
  e = Z.max (Zpos (digits2_pos m) + e - 53) (-1074).
Proof.
  intros Hv. apply valid_finite_inv in Hv as (_ & _ & Hc).
  rewrite fexp_eq in Hc. lia.
Qed.

Lemma fmul_finite (x y : spec_float) (D : Z) :
  fvalid x = true -> fvalid y = true ->
  is_finite x = true -> is_finite y = true ->
  magnitude x + magnitude y <= D -> -1074 <= D <= 1023 ->
  is_finite (fmul x y) = true /\ magnitude (fmul x y) <= D + 1.
Proof.
  intros Vx Vy Fx Fy HD HDr.
  destruct x as [sx|sx| |sx mx ex]; try discriminate;
  destruct y as [sy|sy| |sy my ey]; try discriminate;
    try (cbn; split; [reflexivity | lia]).
  pose proof (valid_exp_le_magnitude _ _ _ Vx) as Hex.
  pose proof (valid_exp_le_magnitude _ _ _ Vy) as Hey.
  pose proof (valid_finite_inv _ _ _ Vx) as (Bx & _).
  pose proof (valid_finite_inv _ _ _ Vy) as (By & _).
  cbn [magnitude] in HD.
  unfold fmul, SFmul.
  assert (Hdig : Zdigits2 (Zpos (mx * my)) + (ex + ey) <= D).
  { cbn [Zdigits2].
    assert (Zpos (digits2_pos (mx * my))
            <= Zpos (digits2_pos mx) + Zpos (digits2_pos my)); [|lia].
    apply digits_lt_pow2; [lia|].
    pose proof (digits_bounds mx) as [_ Hx]. pose proof (digits_bounds my) as [_ Hy].
    rewrite Z.pow_add_r, Pos2Z.inj_mul by lia. nia. }
  destruct (binary_round_aux_finite (xorb sx sy) (Zpos (mx * my)) (ex + ey)
              loc_Exact D ltac:(lia) Hdig HDr ltac:(lia)) as (Hf & Hm).
  split; [exact Hf|].
  destruct (binary_round_aux fprec femax (xorb sx sy) (Zpos (mx * my))
              (ex + ey) loc_Exact); cbn [magnitude]; lia.
Qed.

Lemma div_eucl_div (a b : Z) : Z.div_eucl a b = (a / b, a mod b).
Proof. unfold Z.div, Z.modulo. destruct (Z.div_eucl a b). reflexivity. Qed.

Lemma fdiv_finite (s1 s2 : bool) (m1 m2 : positive) (e1 e2 D : Z) :
  Zpos (digits2_pos m1) + e1 - (Zpos (digits2_pos m2) + e2) + 1 <= D ->
  -1074 <= D <= 1023 ->
  is_finite (fdiv (S754_finite s1 m1 e1) (S754_finite s2 m2 e2)) = true /\
  magnitude (fdiv (S754_finite s1 m1 e1) (S754_finite s2 m2 e2)) <= D + 1.
Proof.
  intros HD HDr. unfold fdiv, SFdiv, SFdiv_core_binary. cbn [Zdigits2].
  set (d1 := Zpos (digits2_pos m1)) in *.
  set (d2 := Zpos (digits2_pos m2)) in *.
  set (e' := Z.min (fexp fprec femax (d1 + e1 - (d2 + e2))) (e1 - e2)).
  assert (He' : e' <= e1 - e2 /\ e' <= D /\ e' <= 971).
  { subst e'. rewrite fexp_eq. lia. }
  set (sh := e1 - e2 - e').
  assert (Hsh : 0 <= sh) by (subst sh; lia).
  assert (Hm' : match sh with
                | Z0 => Zpos m1
                | Zpos _ => Z.shiftl (Zpos m1) sh
                | Zneg _ => 0
                end = Zpos m1 * 2 ^ sh).
  { clearbody sh. destruct sh as [|p|p]; [lia | | lia].
    apply Z.shiftl_mul_pow2. lia. }
  rewrite Hm', div_eucl_div.
  set (q := Zpos m1 * 2 ^ sh / Zpos m2).
  pose proof (pow2_pos sh Hsh) as Psh.
  assert (Hq0 : 0 <= q) by (subst q; apply Z.div_pos; nia).
  pose proof (digits_bounds m1) as [_ H1]. fold d1 in H1.
  pose proof (digits_bounds m2) as [H2 _]. fold d2 in H2.
  assert (Hd1 : 0 < d1) by (subst d1; lia).
  assert (Hd2 : 0 < d2) by (subst d2; lia).
  assert (Hnum : Zpos m1 * 2 ^ sh < 2 ^ (d1 + sh)).
  { rewrite Z.pow_add_r by lia. nia. }
  assert (Hdig : Zdigits2 q + e' <= D).
  { destruct (Z_le_gt_dec 0 (d1 + sh - d2 + 1)) as [Hle|Hgt].
    - assert (Zdigits2 q <= d1 + sh - d2 + 1); [|subst sh; lia].
      apply Zdigits2_le_bound; [lia|]. split; [lia|].
      subst q. apply Z.div_lt_upper_bound; [lia|].
      apply Z.lt_le_trans with (1 := Hnum).
      apply Z.le_trans with (2 ^ (d2 - 1) * 2 ^ (d1 + sh - d2 + 1)).
      + rewrite <- Z.pow_add_r by lia. apply Z.pow_le_mono_r; lia.
      + pose proof (pow2_pos (d1 + sh - d2 + 1) Hle). nia.
    - assert (Hz : q = 0).
      { subst q. apply Z.div_small. split; [lia|].
        apply Z.lt_le_trans with (1 := Hnum).
        apply Z.le_trans with (2 ^ (d2 - 1)); [|lia].
        apply Z.pow_le_mono_r; lia. }
      rewrite Hz. simpl. lia. }
  destruct (binary_round_aux_finite (xorb s1 s2) q e'
              (new_location (Zpos m2) (Zpos m1 * 2 ^ sh mod Zpos m2)) D
              Hq0 Hdig HDr ltac:(lia)) as (Hf & Hm).
  split; [exact Hf|].
  destruct (binary_round_aux fprec femax (xorb s1 s2) q e'
              (new_location (Zpos m2) (Zpos m1 * 2 ^ sh mod Zpos m2)));
    cbn [magnitude]; lia.
Qed.

End FloatFacts.

(** ** Facts about the loops of the program *)

Module LoopFacts.
Import Py App Value FloatFacts.

(** *** The loops of [plate_selection] *)


Lemma while_plate_eq (fuel : nat) (plate : num) (st : sel_state) :
  while_plate fuel plate st =
  if py_ge (remaining_weight st) plate then
    match fuel with
    | O => OutOfFuel
    | S fuel' =>
        r <- py_sub (remaining_weight st) plate ;;
        while_plate fuel' plate (mk_state (selected_plates st ++ [plate]) r)
    end
  else Val st.
Proof. destruct fuel; reflexivity. Qed.

Lemma while_plate_skip (fuel : nat) (plate : num) (st : sel_state) :
  py_ge (remaining_weight st) plate = false ->
  while_plate fuel plate st = Val st.
Proof. intros H. rewrite while_plate_eq, H. reflexivity. Qed.

Lemma plate_step (T P : Z) (p x : num) :
  0 <= T -> well_formed p = true -> finite_num p = true ->
  num_scaled p = P -> representable P -> (2 ^ T | P) -> 0 < P ->
  plate_inv T p x -> P <= num_scaled x ->
  exists r, py_sub x p = Val r /\ num_scaled r = num_scaled x - P /\
            plate_inv T p r.
Proof.
  intros HT Wp Fp HP RP HTP Ppos (Wx & Fx & X0 & Hcase) HPX.
  destruct (is_int x && is_int p) eqn:Hint.
  - apply andb_true_iff in Hint as [Ix Ip].
    destruct x as [a|fx]; try discriminate.
    destruct p as [b|fp]; try discriminate.
    exists (PInt (a - b)). split; [reflexivity|].
    assert (E : num_scaled (PInt (a - b)) = num_scaled (PInt a) - P).
    { rewrite <- HP. cbn [num_scaled]. generalize (2 ^ 1074). intros U. ring. }
    split; [exact E|]. unfold plate_inv. rewrite E.
    repeat split; auto. lia.
  - destruct Hcase as [[Ix Ip]|[Hlt Rx]]; [rewrite Ix, Ip in Hint; discriminate|].
    destruct (to_float_exact x Wx Fx Rx) as (fx & Ex & Vx & Ifx & Sx).
    assert (Rd : representable (num_scaled x - P)).
    { rewrite <- Sx.
      apply (grid_difference_representable fx P T); try assumption; lia. }
    rewrite <- HP in Rd, RP.
    destruct (py_sub_exact x p Wx Wp Fx Fp Hint Rx RP Rd)
      as (r & Er & Vr & Ir & Sr).
    exists (PFloat r). rewrite HP in Sr. unfold plate_inv.
    cbn [num_scaled well_formed finite_num].
    split; [exact Er|]. split; [exact Sr|].
    split; [exact Vr|]. split; [exact Ir|]. split; [lia|].
    right. split; [lia|]. apply scaled_representable, Vr.
Qed.

Lemma while_plate_run (T P : Z) (p : num) :
  0 <= T -> well_formed p = true -> finite_num p = true ->
  num_scaled p = P -> representable P -> (2 ^ T | P) -> 0 < P ->
  forall (n : nat) (x : num) (sel : list num),
    plate_inv T p x -> Z.to_nat (num_scaled x / P) = n ->
    exists r,
      plate_inv T p r /\ num_scaled r = num_scaled x mod P /\
      forall fuel, (n <= fuel)%nat ->
        while_plate fuel p (mk_state sel x)
        = Val (mk_state (sel ++ repeat p n) r).
Proof.
  intros HT Wp Fp HP RP HTP Ppos n.
  induction n as [|n IH]; intros x sel Hinv Hn.
  - pose proof Hinv as (Wx & Fx & X0 & _).
    assert (Hsmall : num_scaled x < P).
    { pose proof (Z.div_pos (num_scaled x) P X0 Ppos) as Hq.
      assert (Hq0 : num_scaled x / P = 0) by lia.
      apply Z.div_small_iff in Hq0; lia. }
    exists x. split; [exact Hinv|]. split.
    + rewrite Z.mod_small; lia.
    + intros fuel _. rewrite while_plate_skip.
      * cbn [repeat]. rewrite app_nil_r. reflexivity.
      * cbn [remaining_weight]. rewrite py_ge_scaled by assumption.
        rewrite HP. apply Z.leb_gt, Hsmall.
  - pose proof Hinv as (Wx & Fx & X0 & _).
    assert (Hbig : P <= num_scaled x).
    { destruct (Z_lt_le_dec (num_scaled x) P) as [Hlt|]; [|assumption].
      rewrite Z.div_small in Hn by lia. discriminate. }
    destruct (plate_step T P p x HT Wp Fp HP RP HTP Ppos Hinv Hbig)
      as (r1 & Esub & S1 & Inv1).
    assert (Hdiv : num_scaled x / P = num_scaled r1 / P + 1).
    { rewrite S1. replace (num_scaled x) with (num_scaled x - P + 1 * P) at 1 by lia.
      rewrite Z.div_add by lia. reflexivity. }
    assert (Hn1 : Z.to_nat (num_scaled r1 / P) = n).
    { pose proof Inv1 as (_ & _ & R0 & _).
      pose proof (Z.div_pos (num_scaled r1) P R0 Ppos). lia. }
    destruct (IH r1 (sel ++ [p]) Inv1 Hn1) as (r & Invr & Sr & Hrun).
    exists r. split; [exact Invr|]. split.
    + rewrite Sr, S1.
      replace (num_scaled x) with (num_scaled x - P + 1 * P) at 2 by lia.
      rewrite Z.mod_add by lia. reflexivity.
    + intros fuel Hfuel. destruct fuel as [|fuel]; [lia|].
      rewrite while_plate_eq. cbn [remaining_weight selected_plates].
      rewrite py_ge_scaled by assumption.
      rewrite HP. replace (P <=? num_scaled x) with true
        by (symmetry; apply Z.leb_le; exact Hbig).
      rewrite Esub. cbn [bind]. rewrite Hrun by lia.
      rewrite <- app_assoc. reflexivity.
Qed.

(** *** The default plates *)

Lemma unit25_pos : 0 < unit25.
Proof. apply Z.mul_pos_pos; [lia | apply pow2_pos; lia]. Qed.

Lemma num_scaled_int (c : Z) : num_scaled (PInt c) = 2 * c * 2 ^ 1073.
Proof.
  cbn [num_scaled]. rewrite (pow2_split 1074 1073) by lia.
  change (2 ^ (1074 - 1073)) with 2. generalize (2 ^ 1073). intros U. ring.
Qed.

Lemma scaled_20 : num_scaled (PInt 20) = 8 * unit25.
Proof.
  rewrite num_scaled_int. unfold unit25. generalize (2 ^ 1073). intros U. ring.
Qed.

Lemma scaled_10 : num_scaled (PInt 10) = 4 * unit25.
Proof.
  rewrite num_scaled_int. unfold unit25. generalize (2 ^ 1073). intros U. ring.
Qed.

Lemma scaled_5 : num_scaled (PInt 5) = 2 * unit25.
Proof.
  rewrite num_scaled_int. unfold unit25. generalize (2 ^ 1073). intros U. ring.
Qed.

Lemma scaled_2_5 : num_scaled (PFloat lit_2_5) = unit25.
Proof.
  cbn [num_scaled scaled lit_2_5 cond_Zopp]. unfold unit25.
  change (-51 + 1074) with 1023.
  rewrite (pow2_split 1073 1023) by lia.
  change (2 ^ (1073 - 1023)) with 1125899906842624.
  generalize (2 ^ 1023). intros U. ring.
Qed.

Lemma representable_small (k g : Z) :
  -1074 <= g <= 971 -> Z.abs k < 2 ^ 53 -> representable (k * 2 ^ (g + 1074)).
Proof. intros. exists g, k. auto. Qed.

Lemma unit25_multiple_representable (c : Z) :
  0 <= 5 * c < 2 ^ 53 -> representable (c * unit25).
Proof.
  intros Hc. unfold unit25. rewrite Z.mul_assoc.
  change 1073 with (-1 + 1074). apply representable_small; lia.
Qed.

Lemma unit25_multiple_divide (c j : Z) :
  0 <= j -> (2 ^ j | c) -> (2 ^ (1073 + j) | c * unit25).
Proof.
  intros Hj (q & ->). exists (q * 5). unfold unit25.
  rewrite Z.pow_add_r by lia. generalize (2 ^ 1073) (2 ^ j). intros U V. ring.
Qed.

Lemma div_mod_units (j rho c : Z) :
  0 <= rho < unit25 -> 0 <= j -> 0 < c ->
  (j * unit25 + rho) / (c * unit25) = j / c /\
  (j * unit25 + rho) mod (c * unit25) = (j mod c) * unit25 + rho.
Proof.
  intros Hrho Hj Hc.
  pose proof unit25_pos as HH.
  pose proof (Z.div_mod j c ltac:(lia)) as Hjc.
  pose proof (Z.mod_pos_bound j c Hc) as Hb.
  assert (Hr : 0 <= (j mod c) * unit25 + rho < c * unit25) by nia.
  assert (Heq : j * unit25 + rho = c * unit25 * (j / c) + ((j mod c) * unit25 + rho)) by nia.
  split.
  - symmetry. apply (Z.div_unique_pos _ _ _ _ Hr Heq).
  - symmetry. apply (Z.mod_unique_pos _ _ (j / c) _ Hr Heq).
Qed.

Lemma plate_inv_small (T : Z) (p x : num) :
  well_formed x = true -> finite_num x = true ->
  0 <= num_scaled x < 2 ^ (53 + T) ->
  (is_int x = true -> is_int p = true \/ representable (num_scaled x)) ->
  plate_inv T p x.
Proof.
  intros Wx Fx Hx Hi. unfold plate_inv.
  split; [exact Wx|]. split; [exact Fx|]. split; [lia|].
  destruct x as [z|f].
  - destruct (Hi eq_refl) as [Ip|Rx]; [left; auto | right; split; [lia|exact Rx]].
  - right. split; [lia|]. apply scaled_representable, Wx.
Qed.

Lemma pow2_bound_unit25 (c j : Z) :
  0 <= j -> c <= 2 ^ j -> c * unit25 < 2 ^ (j + 1076).
Proof.
  intros Hj Hc. unfold unit25.
  rewrite (Z.pow_add_r 2 j 1076), (pow2_split 1076 1073) by lia.
  change (2 ^ (1076 - 1073)) with 8.
  pose proof (pow2_pos 1073 ltac:(lia)) as HU.
  pose proof (pow2_pos j Hj) as HV.
  revert HU HV Hc. generalize (2 ^ 1073) (2 ^ j). intros U V HU HV Hc. nia.
Qed.

(** A remainder of fewer than [c] units of 2.5 kg is small enough for the
    arithmetic of the next plate. *)
Lemma remainder_bound (j rho c i T : Z) :
  0 <= rho < unit25 -> 0 <= j < c -> 0 <= i -> c <= 2 ^ i ->
  i + 1076 <= 53 + T ->
  0 <= j * unit25 + rho < 2 ^ (53 + T).
Proof.
  intros Hrho Hj Hi Hc HT.
  pose proof unit25_pos as Upos.
  pose proof (pow2_bound_unit25 c i Hi Hc) as Hb.
  assert (Hp : 2 ^ (i + 1076) <= 2 ^ (53 + T))
    by (apply Z.pow_le_mono_r; lia).
  revert Hb Hp. generalize (2 ^ (i + 1076)) (2 ^ (53 + T)). intros A B Hb Hp.
  nia.
Qed.

Lemma int_below_two_plates (z : Z) :
  0 <= num_scaled (PInt z) < 2 * unit25 -> 0 <= z < 5.
Proof.
  rewrite num_scaled_int. unfold unit25.
  pose proof (pow2_pos 1073 ltac:(lia)) as HU. revert HU.
  generalize (2 ^ 1073). intros U HU H. nia.
Qed.

Lemma representable_int (z : Z) :
  Z.abs z < 2 ^ 53 -> representable (num_scaled (PInt z)).
Proof.
  intros Hz. cbn [num_scaled]. change 1074 with (0 + 1074).
  apply representable_small; [lia | exact Hz].
Qed.

Lemma small_count (j c : Z) :
  0 <= j < 2 * c -> (Z.to_nat (j / c) <= 1)%nat.
Proof.
  intros Hj. assert (j / c < 2) by (apply Z.div_lt_upper_bound; lia). lia.
Qed.

Lemma for_plates_default_run (w : num) :
  in_range w ->
  exists r,
    well_formed r = true /\ finite_num r = true /\
    num_scaled r = num_scaled w mod unit25 /\
    forall fuel, (1 <= fuel)%nat ->
      (Z.to_nat (num_scaled w / unit25 / 8) <= fuel)%nat ->
      for_plates fuel default_plate_weights (mk_state [] w)
      = Val (mk_state (greedy_plates (num_scaled w / unit25)) r).
Proof.
  intros (Ww & Fw & W0 & Hcase).
  (* plate 20 *)
  assert (Inv20 : plate_inv 1076 (PInt 20) w).
  { unfold plate_inv. repeat split; try assumption.
    destruct w as [z|f]; [left; auto|].
    destruct Hcase as [Hi|Hlt]; [discriminate|].
    right. split; [exact Hlt|]. apply scaled_representable, Ww. }
  clear Hcase.
  pose proof unit25_pos as HH.
  set (X := num_scaled w) in *. set (k := X / unit25).
  pose proof (Z.div_mod X unit25 ltac:(lia)) as HX. fold k in HX.
  pose proof (Z.mod_pos_bound X unit25 HH) as Hrho.
  set (rho := X mod unit25) in *.
  assert (Hk : 0 <= k) by (subst k; apply Z.div_pos; lia).
  assert (EX : X = k * unit25 + rho) by lia.
  destruct (while_plate_run 1076 (8 * unit25) (PInt 20) ltac:(lia) eq_refl eq_refl
              scaled_20 (unit25_multiple_representable 8 ltac:(lia))
              (unit25_multiple_divide 8 3 ltac:(lia) ltac:(exists 1; reflexivity))
              ltac:(lia) _ w [] Inv20 eq_refl)
    as (r1 & Inv1 & S1 & Run1).
  clear Inv20.
  fold X in S1, Run1.
  destruct (div_mod_units k rho 8 Hrho Hk ltac:(lia)) as (D1 & M1).
  rewrite <- EX in D1, M1. rewrite D1 in Run1. rewrite M1 in S1.
  pose proof (Z.mod_pos_bound k 8 ltac:(lia)) as B8.
  (* plate 10 *)
  assert (Inv10 : plate_inv 1075 (PInt 10) r1).
  { destruct Inv1 as (W1 & F1 & R0 & _).
    apply plate_inv_small; auto. rewrite S1.
    apply (remainder_bound (k mod 8) rho 8 3 1075); lia. }
  clear Inv1.
  destruct (while_plate_run 1075 (4 * unit25) (PInt 10) ltac:(lia) eq_refl eq_refl
              scaled_10 (unit25_multiple_representable 4 ltac:(lia))
              (unit25_multiple_divide 4 2 ltac:(lia) ltac:(exists 1; reflexivity))
              ltac:(lia) _ r1 (repeat (PInt 20) (Z.to_nat (k / 8))) Inv10 eq_refl)
    as (r2 & Inv2 & S2 & Run2).
  clear Inv10.
  rewrite S1 in S2, Run2.
  destruct (div_mod_units (k mod 8) rho 4 Hrho ltac:(lia) ltac:(lia)) as (D2 & M2).
  rewrite D2 in Run2. rewrite M2 in S2.
  rewrite (Z.mod_mod_divide k 8 4) in S2 by (exists 2; reflexivity).
  pose proof (Z.mod_pos_bound k 4 ltac:(lia)) as B4.
  (* plate 5 *)
  assert (Inv5 : plate_inv 1074 (PInt 5) r2).
  { destruct Inv2 as (W2 & F2 & R0 & _).
    apply plate_inv_small; auto. rewrite S2.
    apply (remainder_bound (k mod 4) rho 4 2 1074); lia. }
  clear Inv2.
  destruct (while_plate_run 1074 (2 * unit25) (PInt 5) ltac:(lia) eq_refl eq_refl
              scaled_5 (unit25_multiple_representable 2 ltac:(lia))
              (unit25_multiple_divide 2 1 ltac:(lia) ltac:(exists 1; reflexivity))
              ltac:(lia) _ r2
              (repeat (PInt 20) (Z.to_nat (k / 8)) ++
               repeat (PInt 10) (Z.to_nat (k mod 8 / 4))) Inv5 eq_refl)
    as (r3 & Inv3 & S3 & Run3).
  clear Inv5.
  rewrite S2 in S3, Run3.
  destruct (div_mod_units (k mod 4) rho 2 Hrho ltac:(lia) ltac:(lia)) as (D3 & M3).
  rewrite D3 in Run3. rewrite M3 in S3.
  rewrite (Z.mod_mod_divide k 4 2) in S3 by (exists 2; reflexivity).
  pose proof (Z.mod_pos_bound k 2 ltac:(lia)) as B2.
  (* plate 2.5 *)
  assert (Inv25 : plate_inv 1073 (PFloat lit_2_5) r3).
  { destruct Inv3 as (W3 & F3 & R0 & _).
    apply plate_inv_small; auto.
    - rewrite S3. apply (remainder_bound (k mod 2) rho 2 1 1073); lia.
    - intros _. right.
      destruct r3 as [z|f]; [|apply scaled_representable, W3].
      apply representable_int.
      assert (0 <= z < 5) by (apply int_below_two_plates; nia).
      lia. }
  clear Inv3.
  destruct (while_plate_run 1073 (1 * unit25) (PFloat lit_2_5) ltac:(lia) eq_refl eq_refl
              ltac:(rewrite scaled_2_5; ring) (unit25_multiple_representable 1 ltac:(lia))
              (unit25_multiple_divide 1 0 ltac:(lia) ltac:(exists 1; reflexivity))
              ltac:(lia) _ r3
              ((repeat (PInt 20) (Z.to_nat (k / 8)) ++
                repeat (PInt 10) (Z.to_nat (k mod 8 / 4))) ++
               repeat (PInt 5) (Z.to_nat (k mod 4 / 2))) Inv25 eq_refl)
    as (r4 & Inv4 & S4 & Run4).
  clear Inv25.
  rewrite S3 in S4, Run4.
  destruct (div_mod_units (k mod 2) rho 1 Hrho ltac:(lia) ltac:(lia)) as (D4 & M4).
  rewrite D4 in Run4. rewrite M4 in S4.
  rewrite Z.div_1_r in Run4. rewrite Z.mod_1_r in S4.
  exists r4. destruct Inv4 as (W4 & F4 & _).
  split; [exact W4|]. split; [exact F4|]. split; [lia|].
  intros fuel Hf1 Hf. cbn [for_plates default_plate_weights].
  rewrite Run1 by exact Hf. cbn [bind app].
  pose proof (small_count (k mod 8) 4 ltac:(lia)).
  pose proof (small_count (k mod 4) 2 ltac:(lia)).
  assert (Z.to_nat (k mod 2) <= 1)%nat by lia.
  rewrite Run2 by lia. cbn [bind].
  rewrite Run3 by lia. cbn [bind].
  rewrite Run4 by lia. cbn [bind].
  unfold greedy_plates. rewrite <- !app_assoc. reflexivity.
Qed.

(** *** [plate_weight] on exact values *)

Lemma float_of_int_2 :
  float_of_int 2 = Val (S754_finite false 4503599627370496 (-51)).
Proof. reflexivity. Qed.

(** Halving a float that is zero or not too close to zero is exact. *)
Lemma fdiv_two_exact (d : spec_float) :
  fvalid d = true -> is_finite d = true ->
  scaled d = 0 \/ 2 ^ 53 <= Z.abs (scaled d) ->
  exists L, fdiv d (S754_finite false 4503599627370496 (-51)) = L /\
            fvalid L = true /\ is_finite L = true /\
            2 * scaled L = scaled d.
Proof.
  intros Hv Hf Hbig.
  destruct d as [s|s| |s m e]; try discriminate.
  - exists (S754_zero (xorb s false)). repeat split.
  - pose proof (valid_finite_inv _ _ _ Hv) as (He & Hm & _).
    pose proof (pow2_pos (e + 1074) ltac:(lia)) as Ppos.
    assert (Habs : Z.abs (scaled (S754_finite s m e)) = Zpos m * 2 ^ (e + 1074)).
    { cbn [scaled]. destruct s; cbn [cond_Zopp]; nia. }
    assert (He1 : -1073 <= e).
    { destruct Hbig as [H0|Hb]; [rewrite <- Z.abs_0_iff in H0; nia|].
      rewrite Habs in Hb.
      destruct (Z.eq_dec e (-1074)) as [->|]; [|lia].
      change (-1074 + 1074) with 0 in Hb. rewrite Z.pow_0_r in Hb. lia. }
    destruct (fdiv_pow2_exact s m 4503599627370496 e (-51) 52)
      as (m' & E & Ediv & Hb' & HS); try reflexivity; try lia.
    + apply digits_lt_pow2; lia.
    + replace (e - -51 - 52 + 1074) with ((e - 1) + 1074) by lia.
      apply representable_small; lia.
    + exists (S754_finite s m' E). split; [exact Ediv|].
      split; [exact Hb'|]. split; [reflexivity|].
      cbn [scaled].
      replace (e - -51 - 52 + 1074) with (e + 1073) in HS by lia.
      rewrite (pow2_split (e + 1074) (e + 1073)) by lia.
      replace (e + 1074 - (e + 1073)) with 1 by lia.
      change (2 ^ 1) with 2.
      destruct s; cbn [cond_Zopp]; rewrite ?Z.mul_opp_l; lia.
Qed.

Lemma plate_weight_int (w : Z) :
  20 <= w < 2 ^ 53 ->
  exists L, plate_weight (PInt w) default_bar_weight = Val (PFloat L) /\
            fvalid L = true /\ is_finite L = true /\
            2 * scaled L = num_scaled (PInt w) - 8 * unit25.
Proof.
  intros Hw. rewrite <- scaled_20.
  assert (Hs : num_scaled (PInt w) - num_scaled (PInt 20)
               = 2 * ((w - 20) * 2 ^ 1073)).
  { rewrite !num_scaled_int. generalize (2 ^ 1073). intros U. ring. }
  rewrite Hs. clear Hs.
  unfold plate_weight, default_bar_weight, py_lt.
  cbn [py_compare].
  destruct (Z.compare_spec w 20) as [->|Hlt|Hgt]; try lia.
  - exists (S754_zero false). repeat split.
  - cbn [py_sub bind py_truediv]. change (2 =? 0) with false. cbv iota.
    destruct (w - 20) as [|a|a] eqn:Ea; try lia.
    cbn [raw_of_int].
    destruct (fdiv_pow2_exact false a 2 0 0 1)
      as (m' & E & Ediv & Hb' & HS); try reflexivity; try lia.
    + apply Z.le_trans with 53; [|lia]. apply digits_lt_pow2; lia.
    + change (0 - 0 - 1 + 1074) with (-1 + 1074).
      apply representable_small; lia.
    + rewrite Ediv. exists (S754_finite false m' E).
      split; [reflexivity|]. split; [exact Hb'|]. split; [reflexivity|].
      cbn [scaled cond_Zopp]. rewrite HS. reflexivity.
Qed.

Lemma multiple_not_tiny (V g : Z) :
  (2 ^ g | V) -> V <> 0 -> 53 <= g -> 2 ^ 53 <= Z.abs V.
Proof.
  intros (k & ->) Hnz Hg.
  pose proof (pow2_pos g ltac:(lia)) as Pg.
  assert (Hp : 2 ^ 53 <= 2 ^ g) by (apply Z.pow_le_mono_r; lia).
  assert (Hk : 1 <= Z.abs k).
  { assert (k <> 0) by (intros ->; apply Hnz; reflexivity). lia. }
  rewrite Z.abs_mul, (Z.abs_eq (2 ^ g)) by lia.
  revert Pg Hp. generalize (2 ^ g) (2 ^ 53) (Z.abs k) Hk.
  intros A B K HK Pg Hp. nia.
Qed.

Lemma exp_of_loaded_bar (m : positive) (e : Z) :
  -1074 <= e -> Zpos m < 2 ^ 53 ->
  8 * unit25 <= Zpos m * 2 ^ (e + 1074) -> -48 <= e.
Proof.
  intros He Hm Hle.
  assert (H1 : 2 ^ 1078 < 2 ^ (53 + (e + 1074))).
  { rewrite (Z.pow_add_r 2 53) by lia.
    assert (H2 : 2 ^ 1078 <= 8 * unit25).
    { unfold unit25. rewrite (pow2_split 1078 1073) by lia.
      change (2 ^ (1078 - 1073)) with 32.
      pose proof (pow2_pos 1073 ltac:(lia)) as HU. revert HU.
      generalize (2 ^ 1073). intros U HU. lia. }
    pose proof (pow2_pos (e + 1074) ltac:(lia)) as Pe.
    revert H2 Hle Pe Hm.
    generalize (2 ^ 1078) (2 ^ (e + 1074)) (2 ^ 53) (8 * unit25).
    intros A B C D H2 Hle Pe Hm. nia. }
  apply pow2_lt_inv in H1; lia.
Qed.

Lemma plate_weight_float (t : spec_float) :
  fvalid t = true -> is_finite t = true ->
  8 * unit25 <= scaled t -> scaled t < 2 ^ 1129 ->
  exists L, plate_weight (PFloat t) default_bar_weight = Val (PFloat L) /\
            fvalid L = true /\ is_finite L = true /\
            2 * scaled L = scaled t - 8 * unit25.
Proof.
  intros Hv Hf Hlo Hhi.
  pose proof unit25_pos as Upos.
  assert (D20 : (2 ^ 1076 | 8 * unit25)).
  { apply (unit25_multiple_divide 8 3); [lia | exists 1; reflexivity]. }
  assert (Rd : representable (scaled t - 8 * unit25)).
  { apply (grid_difference_representable t (8 * unit25) 1076);
      try assumption; [lia | lia]. }
  assert (Hgrid : exists g, 53 <= g /\ (2 ^ g | scaled t - 8 * unit25)).
  { destruct t as [s|s| |s m e]; try discriminate;
      cbn [scaled] in *; try lia.
    pose proof (valid_finite_inv _ _ _ Hv) as (He & Hm & _).
    destruct s; cbn [cond_Zopp] in *.
    { exfalso. clear Hhi Rd.
      pose proof (pow2_pos (e + 1074) ltac:(lia)) as Pe.
      revert Hlo Pe. generalize (2 ^ (e + 1074)). intros B Hlo Pe. nia. }
    pose proof (finite_exp_le _ _ _ 1076 Hv ltac:(lia) Hhi) as HeT.
    clear Hhi.
    pose proof (exp_of_loaded_bar m e ltac:(lia) Hm Hlo) as He48.
    exists (e + 1074). split; [lia|].
    apply Z.divide_sub_r; [apply Z.divide_factor_r|].
    apply Z.divide_trans with (2 ^ 1076); [|exact D20].
    exists (2 ^ (1076 - (e + 1074))). apply pow2_split. lia. }
  clear Hhi.
  unfold plate_weight, default_bar_weight.
  rewrite py_lt_scaled by (assumption || reflexivity).
  rewrite scaled_20. cbn [num_scaled].
  replace (scaled t <? 8 * unit25) with false
    by (symmetry; apply Z.ltb_ge; exact Hlo).
  assert (R20 : representable (num_scaled (PInt 20))).
  { rewrite scaled_20. apply unit25_multiple_representable. lia. }
  assert (Rd' : representable (num_scaled (PFloat t) - num_scaled (PInt 20))).
  { rewrite scaled_20. exact Rd. }
  destruct (py_sub_exact (PFloat t) (PInt 20) Hv eq_refl Hf eq_refl eq_refl
              (scaled_representable t Hv) R20 Rd') as (d & Ed & Vd & Fd & Sd).
  rewrite Ed. cbn [bind py_truediv to_float]. rewrite float_of_int_2.
  cbn [bind is_zero].
  rewrite scaled_20 in Sd. cbn [num_scaled] in Sd.
  destruct (fdiv_two_exact d Vd Fd) as (L & EL & VL & FL & SL).
  { destruct (Z.eq_dec (scaled d) 0) as [|Hnz]; [left; assumption|right].
    destruct Hgrid as (g & Hg & Hdiv). rewrite <- Sd in Hdiv.
    exact (multiple_not_tiny _ g Hdiv Hnz Hg). }
  rewrite EL. exists L. rewrite SL, Sd. auto.
Qed.

(** *** More fuel never changes a result *)

Lemma while_plate_fuel_mono (fuel fuel' : nat) (p : num) (st r : sel_state) :
  while_plate fuel p st = Val r -> (fuel <= fuel')%nat ->
  while_plate fuel' p st = Val r.
Proof.
  revert fuel' st. induction fuel as [|fuel IH]; intros fuel' st Hrun Hle;
    rewrite while_plate_eq in Hrun |- *;
    destruct (py_ge (remaining_weight st) p); try discriminate; try assumption.
  destruct fuel' as [|fuel']; [lia|].
  destruct (py_sub (remaining_weight st) p) as [x|e|]; try discriminate.
  cbn [bind] in *. apply IH; [exact Hrun | lia].
Qed.

Lemma for_plates_fuel_mono (fuel fuel' : nat) (ps : list num)
    (st r : sel_state) :
  for_plates fuel ps st = Val r -> (fuel <= fuel')%nat ->
  for_plates fuel' ps st = Val r.
Proof.
  revert st. induction ps as [|p ps IH]; intros st Hrun Hle; cbn [for_plates] in *.
  - exact Hrun.
  - destruct (while_plate fuel p st) as [st'| |] eqn:Ew; try discriminate.
    rewrite (while_plate_fuel_mono fuel fuel' p st st' Ew Hle).
    cbn [bind] in *. apply IH; assumption.
Qed.

Lemma plate_selection_fuel_mono (fuel fuel' : nat) (w : num)
    (ps l : list num) :
  plate_selection fuel w ps = Val l -> (fuel <= fuel')%nat ->
  plate_selection fuel' w ps = Val l.
Proof.
  unfold plate_selection. intros Hrun Hle.
  destruct (for_plates fuel ps (mk_state [] w)) as [st| |] eqn:Ef;
    try discriminate.
  rewrite (for_plates_fuel_mono fuel fuel' ps _ st Ef Hle). exact Hrun.
Qed.

Lemma plate_selection_deterministic (f1 f2 : nat) (w : num)
    (ps l1 l2 : list num) :
  plate_selection f1 w ps = Val l1 -> plate_selection f2 w ps = Val l2 ->
  l1 = l2.
Proof.
  intros H1 H2.
  apply (plate_selection_fuel_mono f1 (Nat.max f1 f2)) in H1; [|lia].
  apply (plate_selection_fuel_mono f2 (Nat.max f1 f2)) in H2; [|lia].
  congruence.
Qed.

(** The plates selected for a weight in range. *)
Lemma plate_selection_run (w : num) :
  in_range w ->
  forall fuel, (1 <= fuel)%nat ->
    (Z.to_nat (num_scaled w / unit25 / 8) <= fuel)%nat ->
    plate_selection fuel w default_plate_weights
    = Val (greedy_plates (num_scaled w / unit25)).
Proof.
  intros Hr fuel H1 Hf.
  destruct (for_plates_default_run w Hr) as (r & _ & _ & _ & Hrun).
  unfold plate_selection. rewrite Hrun by assumption. reflexivity.
Qed.

(** A weight that no plate fits into selects nothing. *)
Lemma plate_selection_none (fuel : nat) (w : num) :
  py_ge w (PInt 20) = false -> py_ge w (PInt 10) = false ->
  py_ge w (PInt 5) = false -> py_ge w (PFloat lit_2_5) = false ->
  plate_selection fuel w default_plate_weights = Val [].
Proof.
  intros H20 H10 H5 H25.
  unfold plate_selection, default_plate_weights. cbn [for_plates].
  do 4 (rewrite while_plate_skip by assumption; cbn [bind]).
  reflexivity.
Qed.

(** *** Exact values as rationals *)

Lemma scale_den_Z : Zpos scale_den = 2 ^ 1074.
Proof. unfold scale_den. rewrite Pos2Z.inj_pow. reflexivity. Qed.

Lemma Qmake_scale (a b : Z) (d : positive) :
  (inject_Z a * (b # d) == (a * b) # d)%Q.
Proof. unfold Qeq, Qmult, inject_Z. cbn [Qnum Qden]. rewrite Pos2Z.inj_mul. ring. Qed.

Lemma pow2_Q (e : Z) :
  -1074 <= e -> ((2 # 1) ^ e == 2 ^ (e + 1074) # scale_den)%Q.
Proof.
  intros He.
  assert (H2 : ~ (2 # 1 == 0)%Q) by discriminate.
  rewrite (Qmake_Qdiv (2 ^ (e + 1074)) scale_den), scale_den_Z.
  rewrite !Zpower_Qpower by lia. change (inject_Z 2) with (2 # 1).
  rewrite Qpower_plus by exact H2.
  field.
Qed.

Lemma F2Q_scaled (f : spec_float) :
  fvalid f = true -> (F2Q f == scaled f # scale_den)%Q.
Proof.
  intros Hv. destruct f as [s|s| |s m e]; try reflexivity.
  apply valid_finite_inv in Hv as (He & _).
  cbn [F2Q scaled]. rewrite pow2_Q by lia. apply Qmake_scale.
Qed.

Lemma num_value_scaled (x : num) :
  well_formed x = true -> (num_value x == num_scaled x # scale_den)%Q.
Proof.
  intros Hw. destruct x as [z|f].
  - cbn [num_value num_scaled]. unfold Qeq, inject_Z. cbn [Qnum Qden].
    rewrite scale_den_Z. generalize (2 ^ 1074). intros U. ring.
  - apply F2Q_scaled, Hw.
Qed.

Lemma Qle_scaled (a b : Z) : (a # scale_den <= b # scale_den)%Q <-> a <= b.
Proof.
  unfold Qle. cbn [Qnum Qden]. pose proof (Pos2Z.is_pos scale_den). nia.
Qed.

Lemma Qlt_scaled (a b : Z) : (a # scale_den < b # scale_den)%Q <-> a < b.
Proof.
  unfold Qlt. cbn [Qnum Qden]. pose proof (Pos2Z.is_pos scale_den). nia.
Qed.

Lemma Qeq_scaled (a b : Z) : (a # scale_den == b # scale_den)%Q <-> a = b.
Proof.
  unfold Qeq. cbn [Qnum Qden]. pose proof (Pos2Z.is_pos scale_den). nia.
Qed.

Lemma Qplus_scaled (a b : Z) :
  ((a # scale_den) + (b # scale_den) == (a + b) # scale_den)%Q.
Proof.
  unfold Qeq, Qplus. cbn [Qnum Qden]. rewrite Pos2Z.inj_mul. ring.
Qed.

Lemma Qminus_scaled (a b : Z) :
  ((a # scale_den) - (b # scale_den) == (a - b) # scale_den)%Q.
Proof.
  unfold Qeq, Qminus, Qplus, Qopp. cbn [Qnum Qden].
  rewrite Pos2Z.inj_mul. ring.
Qed.

Lemma Qfloor_div_scaled (a b : Z) :
  0 < b -> Qfloor ((a # scale_den) / (b # scale_den)) = a / b.
Proof.
  intros Hb. destruct b as [|p|p]; try lia.
  assert (E : ((a # scale_den) / (Zpos p # scale_den) == a # p)%Q).
  { unfold Qeq, Qdiv, Qmult, Qinv. cbn [Qnum Qden].
    rewrite Pos2Z.inj_mul. ring. }
  rewrite E. reflexivity.
Qed.

(** *** The greedy decomposition of the specification *)

Import Spec.

Lemma fits_scaled (r d : Q) (X P : Z) :
  (r == X # scale_den)%Q -> (d == P # scale_den)%Q -> 0 < P ->
  fits r d = Z.to_nat (X / P).
Proof.
  intros Hr Hd HP. unfold fits. rewrite Hr, Hd, Qfloor_div_scaled by exact HP.
  reflexivity.
Qed.

Lemma greedy_ext (ds : list num) (r r' : Q) :
  (r == r')%Q -> greedy ds r = greedy ds r'.
Proof.
  revert r r'. induction ds as [|d ds IH]; intros r r' Hr; cbn [greedy].
  - reflexivity.
  - assert (Hf : fits r (num_value d) = fits r' (num_value d)).
    { unfold fits. rewrite Hr. reflexivity. }
    rewrite Hf. f_equal. apply IH. rewrite Hr. reflexivity.
Qed.

Lemma greedy_step (d : num) (ds : list num) (r : Q) (X P : Z) :
  well_formed d = true -> num_scaled d = P -> 0 < P -> 0 <= X ->
  (r == X # scale_den)%Q ->
  greedy (d :: ds) r
  = repeat d (Z.to_nat (X / P)) ++ greedy ds (X mod P # scale_den).
Proof.
  intros Wd HP Ppos HX Hr. cbn [greedy].
  pose proof (num_value_scaled d Wd) as Hd. rewrite HP in Hd.
  rewrite (fits_scaled r (num_value d) X P Hr Hd Ppos).
  f_equal. apply greedy_ext.
  rewrite Hr, Hd, Qmake_scale, Qminus_scaled.
  apply Qeq_scaled.
  rewrite Z2Nat.id by (apply Z.div_pos; lia).
  rewrite Z.mod_eq by lia. ring.
Qed.

Lemma greedy_skip (d : num) (ds : list num) (r : Q) (X P : Z) :
  well_formed d = true -> num_scaled d = P -> 0 < P -> X < 0 ->
  (r == X # scale_den)%Q ->
  greedy (d :: ds) r = greedy ds (X # scale_den).
Proof.
  intros Wd HP Ppos HX Hr. cbn [greedy].
  pose proof (num_value_scaled d Wd) as Hd. rewrite HP in Hd.
  rewrite (fits_scaled r (num_value d) X P Hr Hd Ppos).
  assert (Hq : X / P < 0) by (apply Z.div_lt_upper_bound; lia).
  replace (Z.to_nat (X / P)) with 0%nat by lia.
  cbn [repeat app]. apply greedy_ext.
  rewrite Hr. change (inject_Z (Z.of_nat 0)) with 0%Q. ring.
Qed.

Lemma greedy_default_scaled (r : Q) (X : Z) :
  (r == X # scale_den)%Q -> 0 <= X ->
  greedy default_plate_weights r = greedy_plates (X / unit25).
Proof.
  intros Hr HX.
  pose proof unit25_pos as Upos.
  set (k := X / unit25).
  pose proof (Z.div_mod X unit25 ltac:(lia)) as EX. fold k in EX.
  pose proof (Z.mod_pos_bound X unit25 Upos) as Hrho.
  set (rho := X mod unit25) in *.
  assert (Hk : 0 <= k) by (subst k; apply Z.div_pos; lia).
  assert (EX' : X = k * unit25 + rho) by lia.
  pose proof (Z.mod_pos_bound k 8 ltac:(lia)) as B8.
  pose proof (Z.mod_pos_bound k 4 ltac:(lia)) as B4.
  pose proof (Z.mod_pos_bound k 2 ltac:(lia)) as B2.
  unfold default_plate_weights, greedy_plates.
  rewrite (greedy_step (PInt 20) _ r X (8 * unit25) eq_refl scaled_20
             ltac:(lia) HX Hr).
  destruct (div_mod_units k rho 8 Hrho Hk ltac:(lia)) as (D1 & M1).
  rewrite <- EX' in D1, M1. rewrite D1, M1.
  rewrite (greedy_step (PInt 10) _ _ ((k mod 8) * unit25 + rho) (4 * unit25)
             eq_refl scaled_10 ltac:(lia) ltac:(nia) ltac:(reflexivity)).
  destruct (div_mod_units (k mod 8) rho 4 Hrho ltac:(lia) ltac:(lia))
    as (D2 & M2).
  rewrite D2, M2, (Z.mod_mod_divide k 8 4) by (exists 2; reflexivity).
  rewrite (greedy_step (PInt 5) _ _ ((k mod 4) * unit25 + rho) (2 * unit25)
             eq_refl scaled_5 ltac:(lia) ltac:(nia) ltac:(reflexivity)).
  destruct (div_mod_units (k mod 4) rho 2 Hrho ltac:(lia) ltac:(lia))
    as (D3 & M3).
  rewrite D3, M3, (Z.mod_mod_divide k 4 2) by (exists 2; reflexivity).
  rewrite (greedy_step (PFloat lit_2_5) _ _ ((k mod 2) * unit25 + rho)
             (1 * unit25) eq_refl ltac:(rewrite scaled_2_5; ring)
             ltac:(lia) ltac:(nia) ltac:(reflexivity)).
  destruct (div_mod_units (k mod 2) rho 1 Hrho ltac:(lia) ltac:(lia))
    as (D4 & M4).
  rewrite D4, Z.div_1_r. cbn [greedy]. rewrite app_nil_r. reflexivity.
Qed.

Lemma greedy_default_negative (r : Q) (X : Z) :
  (r == X # scale_den)%Q -> X < 0 ->
  greedy default_plate_weights r = [].
Proof.
  intros Hr HX. pose proof unit25_pos as Upos.
  unfold default_plate_weights.
  rewrite (greedy_skip (PInt 20) _ r X (8 * unit25) eq_refl scaled_20
             ltac:(lia) HX Hr).
  rewrite (greedy_skip (PInt 10) _ _ X (4 * unit25) eq_refl scaled_10
             ltac:(lia) HX ltac:(reflexivity)).
  rewrite (greedy_skip (PInt 5) _ _ X (2 * unit25) eq_refl scaled_5
             ltac:(lia) HX ltac:(reflexivity)).
  rewrite (greedy_skip (PFloat lit_2_5) _ _ X unit25 eq_refl scaled_2_5
             ltac:(lia) HX ltac:(reflexivity)).
  reflexivity.
Qed.

(** *** Sums and lengths *)

Lemma sum_values_scaled (l : list num) :
  Forall (fun p => well_formed p = true) l ->
  (sum_values l == sum_scaled l # scale_den)%Q.
Proof.
  induction 1 as [|p l Hp Hl IH]; unfold sum_values, sum_scaled in *;
    cbn [map fold_right].
  - reflexivity.
  - rewrite IH, (num_value_scaled p Hp). apply Qplus_scaled.
Qed.

Lemma sum_scaled_app (l1 l2 : list num) :
  sum_scaled (l1 ++ l2) = sum_scaled l1 + sum_scaled l2.
Proof.
  unfold sum_scaled. induction l1 as [|p l1 IH]; cbn [app map fold_right].
  - lia.
  - rewrite IH. lia.
Qed.

Lemma sum_scaled_repeat (p : num) (n : nat) :
  sum_scaled (repeat p n) = Z.of_nat n * num_scaled p.
Proof.
  unfold sum_scaled. induction n as [|n IH]; cbn [repeat map fold_right].
  - lia.
  - rewrite IH. lia.
Qed.

Lemma units_decomposition (k : Z) :
  0 <= k ->
  8 * (k / 8) + 4 * (k mod 8 / 4) + 2 * (k mod 4 / 2) + k mod 2 = k /\
  0 <= k / 8 /\ 0 <= k mod 8 / 4 <= 1 /\ 0 <= k mod 4 / 2 <= 1 /\
  0 <= k mod 2 <= 1.
Proof. intros Hk. Z.to_euclidean_division_equations. lia. Qed.

Lemma sum_scaled_greedy_plates (k : Z) :
  0 <= k -> sum_scaled (greedy_plates k) = k * unit25.
Proof.
  intros Hk. unfold greedy_plates.
  destruct (units_decomposition k Hk) as (E & H8 & H4 & H2 & H1).
  rewrite !sum_scaled_app, !sum_scaled_repeat, !Z2Nat.id by lia.
  rewrite scaled_20, scaled_10, scaled_5, scaled_2_5.
  rewrite <- E at 5. ring.
Qed.

Lemma length_greedy_plates (k : Z) :
  0 <= k ->
  Z.of_nat (List.length (greedy_plates k))
  = k / 8 + k mod 8 / 4 + k mod 4 / 2 + k mod 2.
Proof.
  intros Hk. unfold greedy_plates.
  destruct (units_decomposition k Hk) as (E & H8 & H4 & H2 & H1).
  rewrite !length_app, !repeat_length. lia.
Qed.

Lemma greedy_plates_well_formed (k : Z) :
  Forall (fun p => well_formed p = true) (greedy_plates k).
Proof.
  unfold greedy_plates. rewrite !Forall_app.
  repeat split; apply Forall_forall; intros x Hx;
    apply repeat_spec in Hx; subst x; reflexivity.
Qed.

(** *** [round] against the specification's rounding *)

Lemma round_half_even_ext (q q' : Q) :
  (q == q')%Q -> round_half_even q = round_half_even q'.
Proof.
  intros Hq. unfold round_half_even.
  assert (Hfl : Qfloor q = Qfloor q') by (apply Qfloor_comp; exact Hq).
  assert (Hc : (q - inject_Z (Qfloor q) ?= 1 # 2)%Q
               = (q' - inject_Z (Qfloor q') ?= 1 # 2)%Q).
  { rewrite Hfl. apply Qcompare_comp; [|reflexivity].
    rewrite Hq. reflexivity. }
  cbv zeta. rewrite Hc, Hfl. reflexivity.
Qed.

Lemma round_half_even_make (n : Z) (d : positive) :
  round_half_even (n # d) = nearest_even n (Zpos d).
Proof.
  unfold round_half_even, nearest_even.
  change (Qfloor (n # d)) with (n / Zpos d).
  set (f := n / Zpos d).
  assert (Hc : ((n # d) - inject_Z f ?= 1 # 2)%Q
               = (2 * (n mod Zpos d) ?= Zpos d)).
  { unfold Qcompare, Qminus, Qplus, Qopp, inject_Z. cbn [Qnum Qden].
    rewrite Z.mod_eq by lia. fold f.
    rewrite Pos2Z.inj_mul. f_equal; ring. }
  rewrite Hc. reflexivity.
Qed.

Lemma nearest_even_opp (n d : Z) :
  0 < d -> nearest_even (- n) d = - nearest_even n d.
Proof.
  intros Hd. unfold nearest_even.
  pose proof (Z.div_mod n d ltac:(lia)) as En.
  pose proof (Z.mod_pos_bound n d Hd) as Bn.
  destruct (Z.eq_dec (n mod d) 0) as [Hz|Hnz].
  - rewrite (Z.div_opp_l_z n d) by lia.
    rewrite (Z.mod_opp_l_z n d) by lia. rewrite Hz.
    replace (2 * 0 ?= d) with Lt by (symmetry; apply Z.compare_lt_iff; lia).
    reflexivity.
  - rewrite (Z.div_opp_l_nz n d) by lia.
    rewrite (Z.mod_opp_l_nz n d) by lia.
    set (q := n / d) in *. set (r := n mod d) in *.
    assert (Hev : Z.even (- q - 1) = negb (Z.even q)).
    { replace (- q - 1) with (- (q + 1)) by lia.
      rewrite Z.even_opp, Z.even_add. destruct (Z.even q); reflexivity. }
    destruct (Z.compare_spec (2 * r) d) as [He|Hl|Hg].
    + replace (2 * (d - r) ?= d) with Eq
        by (symmetry; apply Z.compare_eq_iff; lia).
      rewrite Hev. destruct (Z.even q); cbn [negb]; lia.
    + replace (2 * (d - r) ?= d) with Gt
        by (symmetry; apply Z.compare_gt_iff; lia). lia.
    + replace (2 * (d - r) ?= d) with Lt
        by (symmetry; apply Z.compare_lt_iff; lia). lia.
Qed.

Lemma nearest_even_cond_Zopp (s : bool) (n d : Z) :
  0 < d -> nearest_even (cond_Zopp s n) d = cond_Zopp s (nearest_even n d).
Proof.
  intros Hd. destruct s; cbn [cond_Zopp]; [apply nearest_even_opp, Hd | reflexivity].
Qed.

Lemma F2Q_make (s : bool) (m : positive) (e : Z) :
  (F2Q (S754_finite s m e)
   == if 0 <=? e then inject_Z (cond_Zopp s (Zpos m) * 2 ^ e)
      else cond_Zopp s (Zpos m) # Z.to_pos (2 ^ (- e)))%Q.
Proof.
  cbn [F2Q]. destruct (Z.leb_spec 0 e) as [He|He].
  - rewrite inject_Z_mult. apply Qmult_comp; [reflexivity|].
    symmetry. apply (Zpower_Qpower 2 e He).
  - rewrite (Qmake_Qdiv _ (Z.to_pos (2 ^ (- e)))). unfold Qdiv.
    apply Qmult_comp; [reflexivity|].
    rewrite Z2Pos.id by (apply pow2_pos; lia).
    pose proof (Zpower_Qpower 2 (- e) ltac:(lia)) as Hp.
    change (inject_Z 2) with (2 # 1) in Hp.
    rewrite Hp, <- Qpower_opp, Z.opp_involutive. reflexivity.
Qed.

(** [round] is rounding to nearest, ties to even, of the exact value. *)
Lemma py_round_spec (x : spec_float) :
  is_finite x = true ->
  py_round (PFloat x) = Val (PInt (round_half_even (F2Q x))).
Proof.
  intros Hf. destruct x as [s|s| |s m e]; try discriminate.
  - reflexivity.
  - cbn [py_round]. do 2 f_equal.
    rewrite (round_half_even_ext _ _ (F2Q_make s m e)).
    unfold round_scaled. destruct (Z.leb_spec 0 e) as [He|He].
    + unfold inject_Z. rewrite round_half_even_make.
      unfold nearest_even. rewrite Z.div_1_r, Z.mod_1_r.
      change (2 * 0 ?= 1) with Lt. cbv iota.
      destruct s; cbn [cond_Zopp]; ring.
    + rewrite round_half_even_make.
      rewrite Z2Pos.id by (apply pow2_pos; lia).
      rewrite nearest_even_cond_Zopp by (apply pow2_pos; lia).
      unfold round_shift, nearest_even. rewrite Z.mul_1_l. reflexivity.
Qed.

(** *** The warmup weights never overflow for moderate targets *)

Lemma float_of_int_5 : float_of_int 5 = Val lit_5.
Proof. reflexivity. Qed.

Lemma magnitude_of_bound (f : spec_float) (D : Z) :
  fvalid f = true -> is_finite f = true -> -1074 <= D ->
  Z.abs (scaled f) < 2 ^ (D + 1074) -> magnitude f <= D.
Proof.
  intros Hv Hf HD Hlt. destruct f as [s|s| |s m e]; try discriminate;
    cbn [magnitude]; try lia.
  pose proof (valid_finite_inv _ _ _ Hv) as (He & _).
  pose proof (digits_bounds m) as [Hlo _].
  pose proof (pow2_pos (e + 1074) ltac:(lia)) as Ppos.
  assert (Habs : Z.abs (scaled (S754_finite s m e)) = Zpos m * 2 ^ (e + 1074)).
  { cbn [scaled]. destruct s; cbn [cond_Zopp]; nia. }
  rewrite Habs in Hlt.
  assert (H1 : 2 ^ (Zpos (digits2_pos m) - 1) * 2 ^ (e + 1074)
               < 2 ^ (D + 1074)) by nia.
  rewrite <- Z.pow_add_r in H1 by lia.
  apply pow2_lt_inv in H1; lia.
Qed.

Lemma inject_Z_scaled (b : Z) : (inject_Z b == (b * 2 ^ 1074) # scale_den)%Q.
Proof.
  unfold Qeq, inject_Z. cbn [Qnum Qden]. rewrite scale_den_Z.
  generalize (2 ^ 1074). intros U. ring.
Qed.

Lemma moderate_target_float (t : num) :
  moderate_target t ->
  exists f, to_float t = Val f /\ f = as_float t /\ fvalid f = true /\
            is_finite f = true /\ magnitude f <= 1023.
Proof.
  intros (Wt & Ft & Hlo & Hhi).
  rewrite (num_value_scaled t Wt) in Hlo, Hhi.
  destruct t as [z|f]; cbn [is_int] in *.
  - rewrite inject_Z_scaled in Hlo, Hhi.
    setoid_replace (- ((2 ^ 53 * 2 ^ 1074) # scale_den))%Q
      with ((- (2 ^ 53 * 2 ^ 1074)) # scale_den)%Q in Hlo by reflexivity.
    apply (proj1 (Qlt_scaled _ _)) in Hlo, Hhi. cbn [num_scaled] in *.
    pose proof (pow2_pos 1074 ltac:(lia)) as P.
    assert (Hz : Z.abs z < 2 ^ 53).
    { rewrite <- Z.mul_opp_l in Hlo.
      apply Z.mul_lt_mono_pos_r in Hlo, Hhi; lia. }
    assert (Rz : representable (z * 2 ^ 1074)).
    { change 1074 with (0 + 1074). apply representable_small; lia. }
    destruct (float_of_int_exact z Rz) as (f & Ef & Vf & Ff & Sf).
    exists f. split; [exact Ef|]. split.
    { unfold float_of_int in Ef. cbn [as_float].
      destruct (fnormalize z 0 false); congruence. }
    split; [exact Vf|]. split; [exact Ff|].
    apply Z.le_trans with 53; [|lia].
    assert (Hb : Z.abs (scaled f) < 2 ^ (53 + 1074)).
    { rewrite Sf, Z.abs_mul, (Z.abs_eq (2 ^ 1074)), Z.pow_add_r by lia.
      apply Z.mul_lt_mono_pos_r; assumption. }
    apply magnitude_of_bound; [exact Vf | exact Ff | lia | exact Hb].
  - rewrite inject_Z_scaled in Hlo, Hhi.
    setoid_replace (- ((2 ^ 1023 * 2 ^ 1074) # scale_den))%Q
      with ((- (2 ^ 1023 * 2 ^ 1074)) # scale_den)%Q in Hlo by reflexivity.
    apply (proj1 (Qlt_scaled _ _)) in Hlo, Hhi. cbn [num_scaled] in *.
    assert (Hb : Z.abs (scaled f) < 2 ^ (1023 + 1074)).
    { rewrite Z.pow_add_r by lia. apply Z.abs_lt. split; assumption. }
    exists f. split; [reflexivity|]. split; [reflexivity|].
    split; [exact Wt|]. split; [exact Ft|].
    apply magnitude_of_bound; [exact Wt | exact Ft | lia | exact Hb].
Qed.

Lemma warmup_quotient_finite (pct t : spec_float) :
  fvalid t = true -> is_finite t = true ->
  fvalid pct = true -> is_finite pct = true ->
  magnitude t <= 1023 -> -1074 <= magnitude pct <= 0 ->
  is_finite (warmup_quotient pct t) = true.
Proof.
  intros Vt Ft Vp Fp Mt Mp. unfold warmup_quotient.
  assert (Hmt : -1074 <= magnitude t).
  { destruct t as [s|s| |s m e]; cbn [magnitude]; try lia.
    apply valid_finite_inv in Vt as (He & _). lia. }
  destruct (fmul_finite t pct (Z.max (magnitude t + magnitude pct) (-1074))
              Vt Vp Ft Fp ltac:(lia) ltac:(lia)) as (Fa & Ma).
  destruct (fmul t pct) as [s|s| |s m e]; try discriminate.
  - reflexivity.
  - cbn [magnitude] in Ma.
    apply (fdiv_finite s false m 5629499534213120 e (-50)
             (Z.max (Zpos (digits2_pos m) + e - 2) (-1074))).
    + change (Zpos (digits2_pos 5629499534213120)) with 53. lia.
    + lia.
Qed.

Lemma warmup_weight_spec (pct : spec_float) (t : num) :
  moderate_target t ->
  fvalid pct = true -> is_finite pct = true -> is_zero pct = false ->
  -1074 <= magnitude pct <= 0 ->
  warmup_weight pct t
  = Val (PInt (round_half_even (F2Q (warmup_quotient pct (as_float t))) * 5)).
Proof.
  intros Ht Vp Fp Zp Mp.
  destruct (moderate_target_float t Ht) as (f & Ef & Eas & Vf & Ff & Mf).
  rewrite <- Eas.
  pose proof (warmup_quotient_finite pct f Vf Ff Vp Fp Mf Mp) as Fq.
  unfold warmup_weight.
  assert (Emul : py_mul t (PFloat pct) = Val (PFloat (fmul f pct))).
  { destruct t as [z|g]; unfold py_mul; rewrite Ef; reflexivity. }
  rewrite Emul. cbn [bind py_truediv to_float]. rewrite float_of_int_5.
  cbn [bind is_zero lit_5].
  fold lit_5. fold (warmup_quotient pct f).
  rewrite (py_round_spec _ Fq). reflexivity.
Qed.

(** *** Weights on which the loop never stops *)

Lemma while_plate_stuck (p x : num) :
  py_ge x p = true -> py_sub x p = Val x ->
  forall fuel sel, while_plate fuel p (mk_state sel x) = OutOfFuel.
Proof.
  intros Hge Hsub fuel. induction fuel as [|fuel IH]; intros sel;
    rewrite while_plate_eq; cbn [remaining_weight selected_plates];
    rewrite Hge; [reflexivity|].
  rewrite Hsub. cbn [bind]. apply IH.
Qed.

Lemma plate_selection_stuck (x : num) :
  py_ge x (PInt 20) = true -> py_sub x (PInt 20) = Val x ->
  forall fuel, plate_selection fuel x default_plate_weights = OutOfFuel.
Proof.
  intros Hge Hsub fuel. unfold plate_selection, default_plate_weights.
  cbn [for_plates]. rewrite (while_plate_stuck _ _ Hge Hsub). reflexivity.
Qed.

(** *** Selection for selectable weights *)

Lemma selectable_cases (w : num) :
  selectable w ->
  (0 <= num_scaled w /\ in_range w) \/ num_scaled w < 0.
Proof.
  intros (Ww & Fw & Hb).
  destruct (Z_lt_le_dec (num_scaled w) 0) as [Hneg|Hpos]; [right; exact Hneg|].
  left. split; [exact Hpos|]. unfold in_range.
  repeat split; try assumption.
  destruct Hb as [Hi|Hlt]; [left; exact Hi|right].
  rewrite (num_value_scaled w Ww), inject_Z_scaled in Hlt.
  apply (proj1 (Qlt_scaled _ _)) in Hlt.
  rewrite <- Z.pow_add_r in Hlt by lia. exact Hlt.
Qed.

Lemma plate_selection_negative (w : num) (fuel : nat) :
  well_formed w = true -> finite_num w = true -> num_scaled w <= 0 ->
  plate_selection fuel w default_plate_weights = Val [].
Proof.
  intros Ww Fw Hneg. pose proof unit25_pos as Upos.
  apply plate_selection_none; rewrite py_ge_scaled by (assumption || reflexivity);
    rewrite ?scaled_20, ?scaled_10, ?scaled_5, ?scaled_2_5;
    apply Z.leb_gt; lia.
Qed.

Lemma plate_selection_greedy_spec (w : num) :
  selectable w ->
  exists fuel0, forall fuel, (fuel0 <= fuel)%nat ->
    plate_selection fuel w default_plate_weights
    = Val (greedy default_plate_weights (num_value w)).
Proof.
  intros Hs. pose proof Hs as (Ww & Fw & _).
  pose proof (num_value_scaled w Ww) as Hv.
  destruct (selectable_cases w Hs) as [[Hpos Hr]|Hneg].
  - exists (S (Z.to_nat (num_scaled w / unit25 / 8))). intros fuel Hf.
    rewrite (greedy_default_scaled _ _ Hv Hpos).
    apply plate_selection_run; [exact Hr | lia | lia].
  - exists 0%nat. intros fuel _.
    rewrite (greedy_default_negative _ _ Hv Hneg).
    apply plate_selection_negative; try assumption. lia.
Qed.

(** *** Optimality of the greedy selection *)

Lemma denominations_counts (l : list num) :
  Forall (fun p => In p default_plate_weights) l ->
  Forall (fun p => well_formed p = true) l /\
  exists a b c d,
    0 <= a /\ 0 <= b /\ 0 <= c /\ 0 <= d /\
    sum_scaled l = (8 * a + 4 * b + 2 * c + d) * unit25 /\
    Z.of_nat (List.length l) = a + b + c + d.
Proof.
  induction 1 as [|p l Hp Hl (Wl & a & b & c & d & Ha & Hb & Hc & Hd & Hs & Hn)].
  - split; [constructor|]. exists 0, 0, 0, 0. cbn. repeat split; lia.
  - assert (Hsum : sum_scaled (p :: l) = num_scaled p + sum_scaled l)
      by reflexivity.
    assert (Hlen : Z.of_nat (List.length (p :: l)) = 1 + Z.of_nat (List.length l))
      by (cbn [List.length]; lia).
    rewrite Hsum, Hlen, Hs, Hn.
    destruct Hp as [<-|[<-|[<-|[<-|[]]]]].
    + split; [constructor; [reflexivity|exact Wl]|].
      exists (a + 1), b, c, d. rewrite scaled_20. repeat split; (lia || ring).
    + split; [constructor; [reflexivity|exact Wl]|].
      exists a, (b + 1), c, d. rewrite scaled_10. repeat split; (lia || ring).
    + split; [constructor; [reflexivity|exact Wl]|].
      exists a, b, (c + 1), d. rewrite scaled_5. repeat split; (lia || ring).
    + split; [constructor; [reflexivity|exact Wl]|].
      exists a, b, c, (d + 1). rewrite scaled_2_5. repeat split; (lia || ring).
Qed.

Lemma fewest_plates (k a b c d : Z) :
  0 <= a -> 0 <= b -> 0 <= c -> 0 <= d ->
  8 * a + 4 * b + 2 * c + d = k ->
  k / 8 + k mod 8 / 4 + k mod 4 / 2 + k mod 2 <= a + b + c + d.
Proof. intros. Z.to_euclidean_division_equations. lia. Qed.

Lemma greedy_plates_optimal (X : Z) (l' : list num) :
  0 <= X ->
  Forall (fun p => In p default_plate_weights) l' ->
  sum_scaled l' <= X ->
  sum_scaled l' <= sum_scaled (greedy_plates (X / unit25)) /\
  (sum_scaled l' = sum_scaled (greedy_plates (X / unit25)) ->
   (List.length (greedy_plates (X / unit25)) <= List.length l')%nat).
Proof.
  intros HX Hl' Hle. pose proof unit25_pos as Upos.
  destruct (denominations_counts l' Hl')
    as (_ & a & b & c & d & Ha & Hb & Hc & Hd & Hs & Hn).
  set (k := X / unit25).
  assert (Hk : 0 <= k) by (subst k; apply Z.div_pos; lia).
  rewrite (sum_scaled_greedy_plates k Hk).
  assert (Hnk : 8 * a + 4 * b + 2 * c + d <= k).
  { subst k. apply Z.div_le_lower_bound; lia. }
  split; [rewrite Hs; nia|].
  intros Heq.
  assert (E : 8 * a + 4 * b + 2 * c + d = k) by nia.
  pose proof (fewest_plates k a b c d Ha Hb Hc Hd E).
  pose proof (length_greedy_plates k Hk). lia.
Qed.

Lemma greedy_plates_sum_bounds (X : Z) :
  0 <= X ->
  sum_scaled (greedy_plates (X / unit25)) <= X /\
  X - sum_scaled (greedy_plates (X / unit25)) < unit25.
Proof.
  intros HX. pose proof unit25_pos as Upos.
  rewrite sum_scaled_greedy_plates by (apply Z.div_pos; lia).
  pose proof (Z.div_mod X unit25 ltac:(lia)).
  pose proof (Z.mod_pos_bound X unit25 Upos). lia.
Qed.

(** *** Exceptions and the structure of [get_workout_data] *)

Lemma bind_val_inv {A B : Type} (r : res A) (k : A -> res B) (b : B) :
  bind r k = Val b -> exists a, r = Val a /\ k a = Val b.
Proof. destruct r as [a|e|]; try discriminate. intros H. exists a. auto. Qed.

Lemma to_float_not_value_error (x : num) : to_float x <> Raise ValueError.
Proof.
  destruct x as [z|f]; cbn [to_float]; [|discriminate].
  unfold float_of_int. destruct (fnormalize z 0 false); discriminate.
Qed.

Lemma py_sub_not_value_error (x y : num) : py_sub x y <> Raise ValueError.
Proof.
  pose proof (to_float_not_value_error x) as Hx.
  pose proof (to_float_not_value_error y) as Hy.
  destruct x as [a|fx], y as [b|fy]; unfold py_sub; try discriminate;
    destruct (to_float _) as [u|e|]; cbn [bind]; try discriminate;
    try congruence;
    try (destruct (to_float _) as [v|e'|]; cbn [bind]; try discriminate;
         congruence).
Qed.

Lemma py_truediv_not_value_error (x y : num) :
  py_truediv x y <> Raise ValueError.
Proof.
  pose proof (to_float_not_value_error x) as Hx.
  pose proof (to_float_not_value_error y) as Hy.
  destruct x as [a|fx], y as [b|fy]; unfold py_truediv.
  - destruct (b =? 0); [discriminate|].
    destruct (fdiv _ _); discriminate.
  - destruct (to_float (PInt a)) as [u|e|]; cbn [bind to_float];
      try discriminate; try congruence.
    destruct (is_zero fy); discriminate.
  - cbn [bind to_float] in *.
    destruct (float_of_int b) as [v|e|]; cbn [bind];
      try discriminate; try congruence.
    destruct (is_zero v); discriminate.
  - cbn [to_float bind]. destruct (is_zero fy); discriminate.
Qed.

Lemma py_ge_not_lt (x y : num) : py_ge x y = true -> py_lt x y = false.
Proof.
  unfold py_ge, py_lt. destruct (py_compare x y) as [[| |]|];
    intros; try discriminate; reflexivity.
Qed.

Lemma plate_weight_value_error (total bar : num) :
  plate_weight total bar = Raise ValueError <-> py_lt total bar = true.
Proof.
  unfold plate_weight. destruct (py_lt total bar); split; intros H;
    try reflexivity; try discriminate.
  exfalso. pose proof (py_sub_not_value_error total bar) as Hs.
  destruct (py_sub total bar) as [d|e|]; cbn [bind] in H;
    try discriminate; try congruence.
  pose proof (py_truediv_not_value_error d (PInt 2)) as Hd.
  destruct (py_truediv d (PInt 2)) as [q|e|]; cbn [bind] in H;
    try discriminate; congruence.
Qed.

Lemma plate_weight_computes (total bar : num) :
  py_lt total bar = false ->
  plate_weight total bar = (d <- py_sub total bar ;; py_truediv d (PInt 2)).
Proof.
  intros H. unfold plate_weight. rewrite H.
  destruct (py_sub total bar) as [d|e|]; cbn [bind]; try reflexivity.
  destruct (py_truediv d (PInt 2)); reflexivity.
Qed.

Lemma get_workout_data_inv (fuel : nat) (t : num) (d : workout_data) :
  get_workout_data fuel t = Val d ->
  exists w45 w65 w85 l45 s45 p45 l65 s65 p65 l85 s85 p85 lt st pt,
    calculate_warmup_weights t = Val (w45, w65, w85) /\
    plate_weight w45 default_bar_weight = Val l45 /\
    py_round_ndigits l45 2 = Val s45 /\
    plate_selection fuel l45 default_plate_weights = Val p45 /\
    plate_weight w65 default_bar_weight = Val l65 /\
    py_round_ndigits l65 2 = Val s65 /\
    plate_selection fuel l65 default_plate_weights = Val p65 /\
    plate_weight w85 default_bar_weight = Val l85 /\
    py_round_ndigits l85 2 = Val s85 /\
    plate_selection fuel l85 default_plate_weights = Val p85 /\
    plate_weight t default_bar_weight = Val lt /\
    py_round_ndigits lt 2 = Val st /\
    plate_selection fuel lt default_plate_weights = Val pt /\
    d = mk_workout_data
          [ bar_only_set;
            mk_warmup_set "1 set" 5 w45 s45 (PlatesList p45);
            mk_warmup_set "1 set" 3 w65 s65 (PlatesList p65);
            mk_warmup_set "1 set" 2 w85 s85 (PlatesList p85) ]
          (mk_target_set t st pt).
Proof.
  unfold get_workout_data. intros H.
  apply bind_val_inv in H as ([[w45 w65] w85] & Hw & H).
  apply bind_val_inv in H as (l45 & Hl45 & H).
  apply bind_val_inv in H as (s45 & Hs45 & H).
  apply bind_val_inv in H as (l45' & Hl45' & H).
  apply bind_val_inv in H as (p45 & Hp45 & H).
  apply bind_val_inv in H as (l65 & Hl65 & H).
  apply bind_val_inv in H as (s65 & Hs65 & H).
  apply bind_val_inv in H as (l65' & Hl65' & H).
  apply bind_val_inv in H as (p65 & Hp65 & H).
  apply bind_val_inv in H as (l85 & Hl85 & H).
  apply bind_val_inv in H as (s85 & Hs85 & H).
  apply bind_val_inv in H as (l85' & Hl85' & H).
  apply bind_val_inv in H as (p85 & Hp85 & H).
  apply bind_val_inv in H as (lt & Hlt & H).
  apply bind_val_inv in H as (st & Hst & H).
  apply bind_val_inv in H as (lt' & Hlt' & H).
  apply bind_val_inv in H as (pt & Hpt & H).
  assert (l45' = l45) by congruence. assert (l65' = l65) by congruence.
  assert (l85' = l85) by congruence. assert (lt' = lt) by congruence.
  subst l45' l65' l85' lt'.
  exists w45, w65, w85, l45, s45, p45, l65, s65, p65, l85, s85, p85, lt, st, pt.
  repeat (split; [assumption|]). congruence.
Qed.

Lemma warmup_weights_are_ints (t a b c : num) :
  calculate_warmup_weights t = Val (a, b, c) ->
  exists za zb zc, a = PInt za /\ b = PInt zb /\ c = PInt zc.
Proof.
  assert (Hround : forall x r w,
             py_round x = Val r -> py_mul r (PInt 5) = Val w ->
             exists z, w = PInt z).
  { intros x r w Hr Hm.
    assert (exists z, r = PInt z) as (z & ->).
    { destruct x as [z|[s|s| |s m e]]; cbn [py_round] in Hr;
        try discriminate; inversion Hr; eauto. }
    cbn [py_mul] in Hm. inversion Hm. eauto. }
  unfold calculate_warmup_weights. intros H.
  apply bind_val_inv in H as (a45 & _ & H).
  apply bind_val_inv in H as (b45 & _ & H).
  apply bind_val_inv in H as (r45 & Hr45 & H).
  apply bind_val_inv in H as (w45 & Hw45 & H).
  apply bind_val_inv in H as (a65 & _ & H).
  apply bind_val_inv in H as (b65 & _ & H).
  apply bind_val_inv in H as (r65 & Hr65 & H).
  apply bind_val_inv in H as (w65 & Hw65 & H).
  apply bind_val_inv in H as (a85 & _ & H).
  apply bind_val_inv in H as (b85 & _ & H).
  apply bind_val_inv in H as (r85 & Hr85 & H).
  apply bind_val_inv in H as (w85 & Hw85 & H).
  inversion H; subst a b c.
  destruct (Hround _ _ _ Hr45 Hw45) as (za & ->).
  destruct (Hround _ _ _ Hr65 Hw65) as (zb & ->).
  destruct (Hround _ _ _ Hr85 Hw85) as (zc & ->).
  exists za, zb, zc. repeat split; reflexivity.
Qed.

Lemma calculate_warmup_weights_unfold (t : num) :
  calculate_warmup_weights t
  = (w45 <- warmup_weight lit_0_45 t ;;
     w65 <- warmup_weight lit_0_65 t ;;
     w85 <- warmup_weight lit_0_85 t ;;
     Val (w45, w65, w85)).
Proof.
  unfold calculate_warmup_weights, warmup_weight.
  repeat match goal with
         | |- bind ?r _ = _ => destruct r; cbn [bind]; try reflexivity
         end.
Qed.

(** *** Loads per side and their plates *)

Lemma value_ge_20 (total : num) :
  well_formed total = true -> (20 <= num_value total)%Q ->
  8 * unit25 <= num_scaled total.
Proof.
  intros Wt H. rewrite <- scaled_20.
  change 20%Q with (num_value (PInt 20)) in H.
  rewrite (num_value_scaled total Wt), (num_value_scaled (PInt 20) eq_refl) in H.
  apply (proj1 (Qle_scaled _ _)) in H. exact H.
Qed.

Lemma value_lt_pow2 (total : num) (n : Z) :
  well_formed total = true -> 0 <= n ->
  (num_value total < inject_Z (2 ^ n))%Q ->
  num_scaled total < 2 ^ (n + 1074).
Proof.
  intros Wt Hn H.
  rewrite (num_value_scaled total Wt), inject_Z_scaled in H.
  apply (proj1 (Qlt_scaled _ _)) in H.
  rewrite Z.pow_add_r by lia. exact H.
Qed.

Lemma int_scaled_lt_pow2 (w n : Z) :
  0 <= n -> num_scaled (PInt w) < 2 ^ (n + 1074) -> w < 2 ^ n.
Proof.
  intros Hn H. cbn [num_scaled] in H. rewrite Z.pow_add_r in H by lia.
  apply Z.mul_lt_mono_pos_r in H; [exact H | apply pow2_pos; lia].
Qed.

Lemma int_scaled_ge_20 (w : Z) : 8 * unit25 <= num_scaled (PInt w) -> 20 <= w.
Proof.
  rewrite <- scaled_20. cbn [num_scaled]. intros H.
  apply Z.mul_le_mono_pos_r in H; [exact H | apply pow2_pos; lia].
Qed.

Lemma pow2_1127_lt_1129 (X : Z) : X < 2 ^ (53 + 1074) -> X < 2 ^ 1129.
Proof.
  assert (E : 2 ^ (53 + 1074) < 2 ^ 1129) by (apply Z.pow_lt_mono_r; lia).
  intros H. exact (Z.lt_trans _ _ _ H E).
Qed.

(** The load per side of a bar of at least 20 kg and below [2 ^ 53] kg is
    computed exactly. *)
Lemma plate_weight_exact (total : num) :
  well_formed total = true -> finite_num total = true ->
  8 * unit25 <= num_scaled total -> num_scaled total < 2 ^ (53 + 1074) ->
  exists L, plate_weight total default_bar_weight = Val (PFloat L) /\
            fvalid L = true /\ is_finite L = true /\
            2 * scaled L = num_scaled total - 8 * unit25.
Proof.
  intros Wt Ft Hlo Hhi. destruct total as [w|t].
  - apply plate_weight_int. split.
    + apply int_scaled_ge_20, Hlo.
    + apply (int_scaled_lt_pow2 w 53); [lia | exact Hhi].
  - apply plate_weight_float; try assumption.
    apply pow2_1127_lt_1129, Hhi.
Qed.

Lemma plate_weight_val_ge (total l : num) :
  well_formed total = true -> finite_num total = true ->
  plate_weight total default_bar_weight = Val l ->
  8 * unit25 <= num_scaled total.
Proof.
  intros Wt Ft H. unfold plate_weight, default_bar_weight in H.
  rewrite py_lt_scaled, scaled_20 in H by (assumption || reflexivity).
  destruct (Z.ltb_spec (num_scaled total) (8 * unit25)) as [|Hge];
    [discriminate | exact Hge].
Qed.

Lemma Q_2_5_scaled : (5 # 2 == unit25 # scale_den)%Q.
Proof.
  unfold Qeq. cbn [Qnum Qden]. rewrite scale_den_Z. unfold unit25.
  rewrite (pow2_split 1074 1073) by lia. change (2 ^ (1074 - 1073)) with 2.
  generalize (2 ^ 1073). intros U. ring.
Qed.

Lemma Q_20_scaled : (20 == 8 * unit25 # scale_den)%Q.
Proof.
  rewrite <- scaled_20. exact (num_value_scaled (PInt 20) eq_refl).
Qed.

Lemma selection_bounds (fuel : nat) (L : spec_float) (p : list num) :
  fvalid L = true -> is_finite L = true -> 0 <= scaled L < 2 ^ 1129 ->
  plate_selection fuel (PFloat L) default_plate_weights = Val p ->
  (sum_values p <= F2Q L)%Q /\ (F2Q L - sum_values p < 5 # 2)%Q.
Proof.
  intros VL FL HL Hsel.
  assert (Hr : in_range (PFloat L)).
  { unfold in_range. cbn [well_formed finite_num num_scaled is_int].
    split; [exact VL|]. split; [exact FL|]. split; [apply HL|].
    right. apply HL. }
  set (k := scaled L / unit25).
  assert (Hp : p = greedy_plates k).
  { pose proof (plate_selection_run (PFloat L) Hr
                  (S (Z.to_nat (scaled L / unit25 / 8)))
                  ltac:(lia) ltac:(cbn [num_scaled]; lia)) as Hrun.
    exact (plate_selection_deterministic _ _ _ _ _ _ Hsel Hrun). }
  subst p.
  destruct (greedy_plates_sum_bounds (scaled L) (proj1 HL)) as (Hle & Hlt).
  fold k in Hle, Hlt.
  rewrite (sum_values_scaled _ (greedy_plates_well_formed k)).
  rewrite (F2Q_scaled L VL), Q_2_5_scaled. split.
  - apply Qle_scaled. exact Hle.
  - rewrite Qminus_scaled. apply Qlt_scaled. exact Hlt.
Qed.

Lemma load_bounds_entry (fuel : nat) (total l : num) (p : list num) :
  well_formed total = true -> finite_num total = true ->
  num_scaled total < 2 ^ (53 + 1074) ->
  plate_weight total default_bar_weight = Val l ->
  plate_selection fuel l default_plate_weights = Val p ->
  load_bounds total p.
Proof.
  intros Wt Ft Hhi Hpw Hsel.
  pose proof (plate_weight_val_ge total l Wt Ft Hpw) as Hlo.
  destruct (plate_weight_exact total Wt Ft Hlo Hhi) as (L & EL & VL & FL & SL).
  assert (l = PFloat L) by congruence. subst l.
  assert (HL : 0 <= scaled L < 2 ^ 1129).
  { apply pow2_1127_lt_1129 in Hhi. pose proof unit25_pos.
    revert Hhi. generalize (2 ^ 1129). intros B Hhi. lia. }
  exists (PFloat L). split; [exact EL|].
  exact (selection_bounds fuel L p VL FL HL Hsel).
Qed.

Lemma load_value (total : num) (L : spec_float) :
  well_formed total = true -> fvalid L = true ->
  2 * scaled L = num_scaled total - 8 * unit25 ->
  (F2Q L == (num_value total - 20) / 2)%Q.
Proof.
  intros Wt VL HS.
  rewrite (F2Q_scaled L VL), (num_value_scaled total Wt), Q_20_scaled.
  rewrite Qminus_scaled, <- HS.
  unfold Qeq, Qdiv, Qmult, Qinv. cbn [Qnum Qden].
  rewrite Pos2Z.inj_mul. ring.
Qed.

Lemma warmup_val_finite (t : num) (x : num * num * num) :
  calculate_warmup_weights t = Val x -> finite_num t = true.
Proof.
  destruct t as [z|[s|[|]| |s m e]]; try reflexivity;
    intros H; vm_compute in H; discriminate.
Qed.

(** *** Plans *)

(** A 45% warmup weight below the bar makes the whole plan fail. *)
Lemma low_warmup_raises (t : num) (a : Z) (b c : num) (fuel : nat) :
  calculate_warmup_weights t = Val (PInt a, b, c) -> a < 20 ->
  get_workout_data fuel t = Raise ValueError.
Proof.
  intros Hw Ha. unfold get_workout_data.
  rewrite Hw. cbn [bind].
  assert (Hpw : plate_weight (PInt a) default_bar_weight = Raise ValueError).
  { apply plate_weight_value_error. unfold py_lt, default_bar_weight.
    cbn [py_compare]. apply Z.compare_lt_iff in Ha. rewrite Ha.
    reflexivity. }
  rewrite Hpw. reflexivity.
Qed.

Lemma load_bounds_bar_only :
  Spec.load_bounds (ws_weight bar_only_set)
                   (Spec.plates_list (ws_plates bar_only_set)).
Proof.
  exists (PFloat (S754_zero false)).
  split; [vm_compute; reflexivity|].
  split; [apply Qle_bool_imp_le | unfold Qlt]; vm_compute; reflexivity.
Qed.

Lemma load_bounds_moderate (fuel : nat) (total l : num) (p : list num) :
  well_formed total = true -> finite_num total = true ->
  (num_value total < inject_Z (2 ^ 53))%Q ->
  plate_weight total default_bar_weight = Val l ->
  plate_selection fuel l default_plate_weights = Val p ->
  Spec.load_bounds total p.
Proof.
  intros Wt Ft Hlt Hpw Hsel.
  apply (load_bounds_entry fuel total l p Wt Ft); try assumption.
  apply value_lt_pow2; [exact Wt | lia | exact Hlt].
Qed.

(** *** The plan is returned *)

Lemma round_shift_bounds (n k : Z) :
  0 <= n -> 0 <= k -> 0 <= round_shift n k <= n + 1.
Proof.
  intros Hn Hk. unfold round_shift.
  pose proof (pow2_pos k Hk) as Hp.
  generalize dependent (2 ^ k). intros P HP.
  assert (Hq : 0 <= n / P <= n).
  { split; [apply Z.div_pos; lia|].
    apply Z.div_le_upper_bound; [lia | nia]. }
  cbv zeta.
  destruct (2 * (n mod P) ?= P); [destruct (Z.even (n / P))| |]; lia.
Qed.

Lemma round_scaled_bounds (c : Z) (m : positive) (e : Z) :
  0 <= c -> e <= 0 -> 0 <= round_scaled c m e <= c * Zpos m + 1.
Proof.
  intros Hc He. unfold round_scaled.
  destruct (Z.leb_spec 0 e) as [H0|H0].
  - replace e with 0 by lia. rewrite Z.pow_0_r. nia.
  - apply round_shift_bounds; nia.
Qed.

(** [round(l, 2)] returns for a finite float below [2 ^ 53]. *)
Lemma py_round_ndigits_returns (L : spec_float) :
  fvalid L = true -> is_finite L = true -> magnitude L <= 53 ->
  exists s, py_round_ndigits (PFloat L) 2 = Val s.
Proof.
  intros VL FL HL. destruct L as [s|s| |s m e]; try discriminate.
  - eexists. reflexivity.
  - pose proof (valid_exp_le_magnitude _ _ _ VL) as He.
    pose proof (valid_finite_inv _ _ _ VL) as (_ & Hm & _).
    cbn [magnitude] in HL.
    assert (He0 : e <= 0) by lia.
    pose proof (round_scaled_bounds 100 m e ltac:(lia) He0) as Hn.
    unfold py_round_ndigits. change (10 ^ Z.of_N 2) with 100. cbv zeta.
    destruct (round_scaled 100 m e) as [|p|p]; [| |lia].
    + destruct s; eexists; reflexivity.
    + assert (Hp : Zpos p < 2 ^ 60).
      { change (2 ^ 60) with (128 * 2 ^ 53). lia. }
      pose proof (digits_lt_pow2 p 60 ltac:(lia) Hp) as Hd.
      assert (Hfin : forall s', is_finite (fdiv (S754_finite s' p 0)
                                              (S754_finite false 100 0)) = true).
      { intros s'. apply (fdiv_finite s' false p 100 0 0 54); [|lia].
        change (Zpos (digits2_pos 100)) with 7. lia. }
      destruct s; cbn [cond_Zopp Z.opp raw_of_int];
        match goal with
        | |- context [fdiv (S754_finite ?s' p 0) _] =>
            specialize (Hfin s');
            destruct (fdiv (S754_finite s' p 0) (S754_finite false 100 0));
            try discriminate; eexists; reflexivity
        end.
Qed.

Lemma int_entry_bounds (a : Z) :
  20 <= a < 2 ^ 53 ->
  8 * unit25 <= num_scaled (PInt a) /\ num_scaled (PInt a) < 2 ^ (53 + 1074).
Proof.
  intros [Hlo Hhi]. rewrite <- scaled_20. cbn [num_scaled].
  rewrite Z.pow_add_r by lia.
  pose proof (pow2_pos 1074 ltac:(lia)) as Hp.
  split.
  - apply Z.mul_le_mono_nonneg_r; [apply Z.lt_le_incl, Hp | exact Hlo].
  - apply Z.mul_lt_mono_pos_r; [exact Hp | exact Hhi].
Qed.

(** The three calls made for an entry of the plan return, for a total
    weight from 20 up and below [2 ^ 53]. *)
Lemma entry_returns (total : num) :
  well_formed total = true -> finite_num total = true ->
  8 * unit25 <= num_scaled total -> num_scaled total < 2 ^ (53 + 1074) ->
  exists l s p fuel0,
    plate_weight total default_bar_weight = Val l /\
    py_round_ndigits l 2 = Val s /\
    forall fuel, (fuel0 <= fuel)%nat ->
      plate_selection fuel l default_plate_weights = Val p.
Proof.
  intros Wt Ft Hlo Hhi.
  destruct (plate_weight_exact total Wt Ft Hlo Hhi)
    as (L & EL & VL & FL & SL).
  assert (HL : 0 <= scaled L /\ scaled L < 2 ^ (53 + 1074)).
  { revert Hhi. generalize (2 ^ (53 + 1074)). intros P Hhi.
    pose proof unit25_pos. lia. }
  destruct HL as [HL0 HL1].
  assert (Hmag : magnitude L <= 53).
  { apply (magnitude_of_bound L 53 VL FL); [lia|].
    rewrite Z.abs_eq by exact HL0. exact HL1. }
  destruct (py_round_ndigits_returns L VL FL Hmag) as (s & Hs).
  assert (Hr : in_range (PFloat L)).
  { unfold in_range. cbn [well_formed finite_num num_scaled is_int].
    split; [exact VL|]. split; [exact FL|]. split; [exact HL0|].
    right. apply pow2_1127_lt_1129, HL1. }
  exists (PFloat L), s, (greedy_plates (num_scaled (PFloat L) / unit25)),
    (S (Z.to_nat (num_scaled (PFloat L) / unit25 / 8))).
  split; [exact EL|]. split; [exact Hs|].
  intros fuel Hf. apply plate_selection_run; [exact Hr | |];
    apply (Nat.le_trans _ (S (Z.to_nat (num_scaled (PFloat L) / unit25 / 8))));
    try exact Hf.
  - apply le_n_S, Nat.le_0_l.
  - apply Nat.le_succ_diag_r.
Qed.

(** For a target from 20 up and below [2 ^ 53] whose warmup weights are
    in the same range, enough fuel makes [get_workout_data] return. *)
Lemma get_workout_data_returns (t : num) (a b c : Z) :
  well_formed t = true ->
  (20 <= num_value t)%Q -> (num_value t < inject_Z (2 ^ 53))%Q ->
  calculate_warmup_weights t = Val (PInt a, PInt b, PInt c) ->
  20 <= a < 2 ^ 53 -> 20 <= b < 2 ^ 53 -> 20 <= c < 2 ^ 53 ->
  exists fuel0, forall fuel, (fuel0 <= fuel)%nat ->
    exists d, get_workout_data fuel t = Val d.
Proof.
  intros Wt Hlo Hhi Hw Ha Hb Hc.
  pose proof (warmup_val_finite t _ Hw) as Ft.
  pose proof (value_ge_20 t Wt Hlo) as Hlo'.
  pose proof (value_lt_pow2 t 53 Wt (Z.lt_le_incl _ _ (Pos2Z.is_pos 53)) Hhi)
    as Hhi'.
  apply int_entry_bounds in Ha as [Ha0 Ha1].
  apply int_entry_bounds in Hb as [Hb0 Hb1].
  apply int_entry_bounds in Hc as [Hc0 Hc1].
  destruct (entry_returns (PInt a) eq_refl eq_refl Ha0 Ha1)
    as (la & sa & pa & fa & Ela & Esa & Epa).
  destruct (entry_returns (PInt b) eq_refl eq_refl Hb0 Hb1)
    as (lb & sb & pb & fb & Elb & Esb & Epb).
  destruct (entry_returns (PInt c) eq_refl eq_refl Hc0 Hc1)
    as (lc & sc & pc & fc & Elc & Esc & Epc).
  destruct (entry_returns t Wt Ft Hlo' Hhi')
    as (lt & st & pt & ft & Elt & Est & Ept).
  clear Ha0 Ha1 Hb0 Hb1 Hc0 Hc1 Hlo' Hhi' Hlo Hhi.
  exists (Nat.max (Nat.max fa fb) (Nat.max fc ft)). intros fuel Hf.
  eexists. unfold get_workout_data. rewrite Hw. cbn [bind].
  rewrite Ela. cbn [bind]. rewrite Esa. cbn [bind].
  rewrite (Epa fuel) by lia. cbn [bind].
  rewrite Elb. cbn [bind]. rewrite Esb. cbn [bind].
  rewrite (Epb fuel) by lia. cbn [bind].
  rewrite Elc. cbn [bind]. rewrite Esc. cbn [bind].
  rewrite (Epc fuel) by lia. cbn [bind].
  rewrite Elt. cbn [bind]. rewrite Est. cbn [bind].
  rewrite (Ept fuel) by lia. cbn [bind].
  reflexivity.
Qed.

(** *** [plate_weight] with any bar *)

Lemma plate_weight_int_bar (total bar : Z) :
  bar <= total < bar + 2 ^ 53 ->
  exists L, plate_weight (PInt total) (PInt bar) = Val (PFloat L) /\
            fvalid L = true /\ is_finite L = true /\
            2 * scaled L = (total - bar) * 2 ^ 1074.
Proof.
  intros Hw.
  assert (Hs : (total - bar) * 2 ^ 1074 = 2 * ((total - bar) * 2 ^ 1073)).
  { rewrite (pow2_split 1074 1073) by lia.
    change (2 ^ (1074 - 1073)) with 2. generalize (2 ^ 1073). intros U. ring. }
  rewrite Hs. clear Hs.
  unfold plate_weight, py_lt. cbn [py_compare].
  destruct (Z.compare_spec total bar) as [->|Hlt|Hgt]; try lia.
  - exists (S754_zero false). cbn [py_sub bind]. rewrite Z.sub_diag.
    repeat split.
  - cbn [py_sub bind py_truediv]. change (2 =? 0) with false. cbv iota.
    destruct (total - bar) as [|a|a] eqn:Ea; try lia.
    cbn [raw_of_int].
    destruct (fdiv_pow2_exact false a 2 0 0 1)
      as (m' & E & Ediv & Hb' & HS); try reflexivity; try lia.
    + apply Z.le_trans with 53; [|lia]. apply digits_lt_pow2; lia.
    + change (0 - 0 - 1 + 1074) with (-1 + 1074).
      apply representable_small; lia.
    + rewrite Ediv. exists (S754_finite false m' E).
      split; [reflexivity|]. split; [exact Hb'|]. split; [reflexivity|].
      cbn [scaled cond_Zopp]. rewrite HS. reflexivity.
Qed.

Lemma half_value (x : Z) (L : spec_float) :
  fvalid L = true -> 2 * scaled L = x * 2 ^ 1074 ->
  (F2Q L == inject_Z x / 2)%Q.
Proof.
  intros VL HS.
  rewrite (F2Q_scaled L VL), (inject_Z_scaled x), <- HS.
  unfold Qeq, Qdiv, Qmult, Qinv. cbn [Qnum Qden].
  rewrite Pos2Z.inj_mul. generalize (Zpos scale_den), (scaled L).
  intros U S. ring.
Qed.

Lemma plate_weight_float_bar (total bar : num) :
  exact_difference total bar ->
  exists L, plate_weight total bar = Val (PFloat L) /\
            fvalid L = true /\ is_finite L = true /\
            2 * scaled L = num_scaled total - num_scaled bar.
Proof.
  intros (Wt & Wb & Ft & Fb & Hmix & Rt & Rb & Rd & Hd).
  unfold plate_weight.
  rewrite py_lt_scaled by assumption.
  replace (num_scaled total <? num_scaled bar) with false.
  2:{ symmetry. apply Z.ltb_ge. destruct Hd as [->|Hd]; [lia|].
      pose proof (pow2_pos 53 ltac:(lia)). lia. }
  destruct (py_sub_exact total bar Wt Wb Ft Fb Hmix Rt Rb Rd)
    as (d & Ed & Vd & Fd & Sd).
  rewrite Ed. cbn [bind py_truediv to_float]. rewrite float_of_int_2.
  cbn [bind is_zero].
  destruct (fdiv_two_exact d Vd Fd) as (L & EL & VL & FL & SL).
  { rewrite Sd. destruct Hd as [Hd|Hd]; [left; lia|right].
    pose proof (pow2_pos 53 ltac:(lia)). rewrite Z.abs_eq by lia. exact Hd. }
  rewrite EL. exists L. rewrite SL, Sd. auto.
Qed.

Lemma difference_value (total bar : num) (L : spec_float) :
  well_formed total = true -> well_formed bar = true -> fvalid L = true ->
  2 * scaled L = num_scaled total - num_scaled bar ->
  (F2Q L == (num_value total - num_value bar) / 2)%Q.
Proof.
  intros Wt Wb VL HS.
  rewrite (F2Q_scaled L VL), (num_value_scaled total Wt),
    (num_value_scaled bar Wb), Qminus_scaled, <- HS.
  unfold Qeq, Qdiv, Qmult, Qinv. cbn [Qnum Qden].
  rewrite Pos2Z.inj_mul. generalize (Zpos scale_den), (scaled L).
  intros U S. ring.
Qed.

End LoopFacts.

(** * Further facts about the program *)

Module PlateFacts.
Import Py App Value Spec Props FloatFacts LoopFacts.

(** *** The loops, for any list of plates *)

Lemma while_plate_appends (fuel : nat) (p : num) (st r : sel_state) :
  while_plate fuel p st = Val r ->
  exists n, selected_plates r = selected_plates st ++ repeat p n.
Proof.
  revert st. induction fuel as [|fuel IH]; intros st H;
    rewrite while_plate_eq in H;
    destruct (py_ge (remaining_weight st) p).
  - discriminate.
  - inversion H; subst. exists 0%nat. cbn [repeat]. now rewrite app_nil_r.
  - destruct (py_sub (remaining_weight st) p) as [x|e|]; cbn [bind] in H;
      try discriminate.
    destruct (IH _ H) as (n & Hn). exists (S n).
    rewrite Hn. cbn [selected_plates]. rewrite <- app_assoc.
    cbn [repeat app]. reflexivity.
  - inversion H; subst. exists 0%nat. cbn [repeat]. now rewrite app_nil_r.
Qed.

Lemma for_plates_grouped (fuel : nat) (plates : list num) (st r : sel_state) :
  for_plates fuel plates st = Val r ->
  exists counts,
    List.length counts = List.length plates /\
    selected_plates r = selected_plates st ++ grouped plates counts.
Proof.
  revert st. induction plates as [|p plates IH]; intros st H; cbn [for_plates] in H.
  - inversion H; subst. exists []. split; [reflexivity|].
    unfold grouped. cbn. now rewrite app_nil_r.
  - destruct (while_plate fuel p st) as [st'| |] eqn:Ew; cbn [bind] in H;
      try discriminate.
    destruct (while_plate_appends _ _ _ _ Ew) as (n & Hn).
    destruct (IH _ H) as (counts & Hlen & Hsel).
    exists (n :: counts). split; [cbn [List.length]; now rewrite Hlen|].
    rewrite Hsel, Hn, <- app_assoc. reflexivity.
Qed.

Lemma grouped_members (plates : list num) (counts : list nat) :
  Forall (fun p => In p plates) (grouped plates counts).
Proof.
  unfold grouped. apply Forall_forall. intros x Hx.
  apply in_flat_map in Hx as ([p n] & Hin & Hrep).
  cbn [fst snd] in Hrep. apply repeat_spec in Hrep. subst x.
  exact (in_combine_l _ _ _ _ Hin).
Qed.

(** *** Whole-number weights and plates *)

Lemma py_ge_int (a b : Z) : py_ge (PInt a) (PInt b) = (b <=? a).
Proof.
  unfold py_ge. cbn [py_compare]. rewrite (Z.leb_compare b a).
  rewrite (Z.compare_antisym a b). destruct (a ?= b); reflexivity.
Qed.

Lemma while_plate_int (p : Z) :
  0 < p ->
  forall (n : nat) (r : Z) (sel : list num) (fuel : nat),
    0 <= r -> Z.to_nat (r / p) = n -> (n <= fuel)%nat ->
    while_plate fuel (PInt p) (mk_state sel (PInt r))
    = Val (mk_state (sel ++ repeat (PInt p) n) (PInt (r mod p))).
Proof.
  intros Hp. induction n as [|n IH]; intros r sel fuel Hr Hn Hf.
  - assert (Hlt : r < p).
    { destruct (Z_lt_le_dec r p) as [|Hge]; [assumption|].
      assert (1 <= r / p) by (apply Z.div_le_lower_bound; lia). lia. }
    rewrite while_plate_skip.
    + cbn [repeat]. rewrite app_nil_r, Z.mod_small by lia. reflexivity.
    + cbn [remaining_weight]. rewrite py_ge_int. apply Z.leb_gt, Hlt.
  - assert (Hge : p <= r).
    { destruct (Z_lt_le_dec r p) as [Hlt|]; [|assumption].
      rewrite Z.div_small in Hn by lia. discriminate. }
    destruct fuel as [|fuel]; [lia|].
    rewrite while_plate_eq. cbn [remaining_weight selected_plates].
    rewrite py_ge_int. rewrite (proj2 (Z.leb_le p r) Hge).
    cbn [py_sub bind].
    assert (Hdiv : (r - p) / p = r / p - 1).
    { replace (r - p) with (r + (-1) * p) by ring.
      rewrite Z.div_add by lia. ring. }
    assert (Hmod : (r - p) mod p = r mod p).
    { replace (r - p) with (r + (-1) * p) by ring.
      apply Z.mod_add. lia. }
    rewrite (IH (r - p) (sel ++ [PInt p]) fuel) by lia.
    rewrite Hmod, <- app_assoc. reflexivity.
Qed.

Lemma div_to_nat_le (r p : Z) : 0 < p -> 0 <= r -> (Z.to_nat (r / p) <= Z.to_nat r)%nat.
Proof.
  intros Hp Hr. apply Z2Nat.inj_le; [apply Z.div_pos; lia | lia|].
  apply Z.div_le_upper_bound; [lia | nia].
Qed.

Lemma for_plates_int (plates : list Z) :
  Forall (fun p => 0 < p) plates ->
  forall (w : Z) (sel : list num) (fuel : nat),
    0 <= w -> (Z.to_nat w <= fuel)%nat ->
    for_plates fuel (map PInt plates) (mk_state sel (PInt w))
    = Val (mk_state (sel ++ map PInt (greedy_ints plates w))
                    (PInt (w - sum_ints (greedy_ints plates w)))).
Proof.
  induction 1 as [|p plates Hp _ IH]; intros w sel fuel Hw Hf.
  - cbn. rewrite app_nil_r, Z.sub_0_r. reflexivity.
  - cbn [map for_plates greedy_ints].
    pose proof (div_to_nat_le w p Hp Hw) as Hn.
    rewrite (while_plate_int p Hp (Z.to_nat (w / p)) w sel fuel Hw eq_refl)
      by lia.
    cbn [bind].
    pose proof (Z.mod_pos_bound w p Hp) as Hm.
    assert (Hle : w mod p <= w) by (apply Z.mod_le; lia).
    rewrite IH by lia.
    rewrite map_app, <- app_assoc.
    replace (map PInt (repeat p (Z.to_nat (w / p))))
      with (repeat (PInt p) (Z.to_nat (w / p))) by (symmetry; apply map_repeat).
    f_equal. f_equal. f_equal.
    unfold sum_ints. rewrite fold_right_app.
    fold (sum_ints (greedy_ints plates (w mod p))).
    assert (Hs : forall n acc, fold_right Z.add acc (repeat p n) = Z.of_nat n * p + acc).
    { induction n as [|n IHn]; intros acc; [cbn; lia|].
      cbn [repeat fold_right]. rewrite IHn. lia. }
    rewrite Hs, Z2Nat.id by (apply Z.div_pos; lia).
    pose proof (Z.div_mod w p ltac:(lia)). lia.
Qed.

Lemma greedy_ints_remainder (plates : list Z) :
  Forall (fun p => 0 < p) plates ->
  forall w, 0 <= w ->
    0 <= w - sum_ints (greedy_ints plates w) <= w /\
    Forall (fun p => w - sum_ints (greedy_ints plates w) < p) plates.
Proof.
  induction 1 as [|p plates Hp _ IH]; intros w Hw.
  - cbn. split; [lia | constructor].
  - cbn [greedy_ints]. unfold sum_ints. rewrite fold_right_app.
    fold (sum_ints (greedy_ints plates (w mod p))).
    assert (Hs : forall n acc, fold_right Z.add acc (repeat p n) = Z.of_nat n * p + acc).
    { induction n as [|n IHn]; intros acc; [cbn; lia|].
      cbn [repeat fold_right]. rewrite IHn. lia. }
    rewrite Hs, Z2Nat.id by (apply Z.div_pos; lia).
    pose proof (Z.mod_pos_bound w p Hp) as Hm.
    pose proof (Z.div_mod w p ltac:(lia)) as Hdm.
    assert (Hle : w mod p <= w) by (apply Z.mod_le; lia).
    destruct (IH (w mod p) ltac:(lia)) as (Hr & Hall).
    set (S' := sum_ints (greedy_ints plates (w mod p))) in *.
    replace (w - (w / p * p + S')) with (w mod p - S') by lia.
    split; [lia|]. constructor; [lia | exact Hall].
Qed.

(** A plate that is zero or negative is never used up. *)
Lemma while_plate_nonpositive (p : Z) :
  p <= 0 ->
  forall (fuel : nat) (r : Z) (sel : list num),
    0 <= r -> while_plate fuel (PInt p) (mk_state sel (PInt r)) = OutOfFuel.
Proof.
  intros Hp. induction fuel as [|fuel IH]; intros r sel Hr;
    rewrite while_plate_eq; cbn [remaining_weight selected_plates];
    rewrite py_ge_int, (proj2 (Z.leb_le p r)) by lia.
  - reflexivity.
  - cbn [py_sub bind]. apply IH. lia.
Qed.

Lemma while_plate_int_cases (p : Z) (fuel : nat) :
  forall (r : Z) (sel : list num),
    0 <= r ->
    while_plate fuel (PInt p) (mk_state sel (PInt r)) = OutOfFuel \/
    exists sel' r', 0 <= r' /\
      while_plate fuel (PInt p) (mk_state sel (PInt r))
      = Val (mk_state sel' (PInt r')).
Proof.
  induction fuel as [|fuel IH]; intros r sel Hr;
    rewrite while_plate_eq; cbn [remaining_weight selected_plates];
    rewrite py_ge_int; destruct (Z.leb_spec p r) as [Hle|Hlt].
  - left. reflexivity.
  - right. exists sel, r. split; [exact Hr | reflexivity].
  - cbn [py_sub bind].
    destruct (Z_le_gt_dec p 0) as [Hp|Hp].
    + left. apply while_plate_nonpositive; lia.
    + apply IH. lia.
  - right. exists sel, r. split; [exact Hr | reflexivity].
Qed.

Lemma for_plates_nonpositive (plates : list Z) :
  Exists (fun p => p <= 0) plates ->
  forall (fuel : nat) (w : Z) (sel : list num),
    0 <= w ->
    for_plates fuel (map PInt plates) (mk_state sel (PInt w)) = OutOfFuel.
Proof.
  induction plates as [|p plates IH]; intros Hex fuel w sel Hw.
  - inversion Hex.
  - cbn [map for_plates].
    destruct (Z_le_gt_dec p 0) as [Hp|Hp].
    + rewrite while_plate_nonpositive by assumption. reflexivity.
    + inversion Hex as [? ? Hbad|? ? Hrest]; subst; [lia|].
      destruct (while_plate_int_cases p fuel w sel Hw)
        as [E|(sel' & r' & Hr' & E)]; rewrite E; cbn [bind]; [reflexivity|].
      apply IH; assumption.
Qed.

End PlateFacts.

Module RoundFacts.
Import Py App Value Spec Props FloatFacts LoopFacts.

(** *** Rounding to nearest in [SpecFloat] *)

Lemma shr_1_nonneg (m : Z) (r s : bool) :
  0 <= m ->
  shr_1 (Build_shr_record m r s) = Build_shr_record (m / 2) (Z.odd m) (r || s).
Proof.
  intros Hm. rewrite <- Z.div2_div.
  destruct m as [|[p|p|]|p]; try reflexivity. lia.
Qed.

Lemma mod_pow2_succ (M k : Z) :
  0 <= k ->
  M mod 2 ^ (k + 1) = M mod 2 ^ k + 2 ^ k * Z.b2z (Z.odd (M / 2 ^ k)).
Proof.
  intros Hk. rewrite Z.pow_add_r, Z.pow_1_r by lia.
  pose proof (pow2_pos k Hk) as Hp.
  rewrite Z.rem_mul_r by lia. f_equal. f_equal.
  rewrite Zmod_odd. destruct (Z.odd (M / 2 ^ k)); reflexivity.
Qed.

Lemma iter_shr_loc (k : nat) (M : Z) :
  0 <= M ->
  Nat.iter (S k) shr_1 (Build_shr_record M false false)
  = Build_shr_record (M / 2 ^ (Z.of_nat k + 1))
                     (Z.odd (M / 2 ^ Z.of_nat k))
                     (negb (M mod 2 ^ Z.of_nat k =? 0)).
Proof.
  intros HM. induction k as [|k IH].
  - cbn [Nat.iter Z.of_nat]. rewrite shr_1_nonneg by assumption.
    rewrite Z.pow_0_r, Z.div_1_r, Z.mod_1_r. reflexivity.
  - change (Nat.iter (S (S k)) shr_1 ?x) with (shr_1 (Nat.iter (S k) shr_1 x)).
    rewrite IH.
    assert (Hk : 0 <= Z.of_nat k) by lia.
    pose proof (pow2_pos (Z.of_nat k) Hk) as Hp.
    pose proof (pow2_pos (Z.of_nat k + 1) ltac:(lia)) as Hp1.
    rewrite shr_1_nonneg by (apply Z.div_pos; lia).
    replace (Z.of_nat (S k)) with (Z.of_nat k + 1) by lia.
    f_equal.
    + rewrite Z.div_div by lia.
      rewrite (Z.pow_add_r 2 (Z.of_nat k + 1) 1) by lia. reflexivity.
    + rewrite (mod_pow2_succ M (Z.of_nat k) Hk).
      pose proof (Z.mod_pos_bound M (2 ^ Z.of_nat k) Hp) as Hm.
      destruct (Z.odd (M / 2 ^ Z.of_nat k)); cbn [Z.b2z orb].
      * symmetry. apply negb_true_iff, Z.eqb_neq. lia.
      * rewrite Z.mul_0_r, Z.add_0_r. reflexivity.
Qed.

(** Shifting [n] bits out and rounding on the bits shifted out gives the
    integer nearest to [M / 2 ^ n], ties to even. *)
Lemma shr_round_nearest (M e n : Z) :
  0 <= M -> 0 < n ->
  let '(mrs, e') := shr (Build_shr_record M false false) e n in
  round_nearest_even (shr_m mrs) (loc_of_shr_record mrs)
  = nearest_even M (2 ^ n) /\ e' = e + n.
Proof.
  intros HM Hn. destruct n as [|p|p]; try lia.
  cbn [shr]. rewrite iter_pos_nat.
  destruct (Pos.to_nat p) as [|k] eqn:Ek; [lia|].
  rewrite iter_shr_loc by assumption.
  split; [|reflexivity].
  assert (En : Zpos p = Z.of_nat k + 1) by lia.
  rewrite En. clear En Ek p Hn.
  assert (Hk : 0 <= Z.of_nat k) by lia.
  generalize dependent (Z.of_nat k). intros j Hj.
  pose proof (pow2_pos j Hj) as Hp.
  unfold nearest_even.
  rewrite (mod_pow2_succ M j Hj).
  rewrite (Z.pow_add_r 2 j 1), Z.pow_1_r by lia.
  pose proof (Z.mod_pos_bound M (2 ^ j) Hp) as Hm.
  cbn [shr_m].
  destruct (Z.odd (M / 2 ^ j)); cbn [Z.b2z loc_of_shr_record].
  - destruct (Z.eqb_spec (M mod 2 ^ j) 0) as [E0|N0]; cbn [negb].
    + rewrite E0. replace (2 * (0 + 2 ^ j * 1) ?= 2 ^ j * 2) with Eq
        by (symmetry; apply Z.compare_eq_iff; ring).
      reflexivity.
    + replace (2 * (M mod 2 ^ j + 2 ^ j * 1) ?= 2 ^ j * 2) with Gt
        by (symmetry; apply Z.compare_gt_iff; lia).
      reflexivity.
  - replace (2 * (M mod 2 ^ j + 2 ^ j * 0) ?= 2 ^ j * 2) with Lt
      by (symmetry; apply Z.compare_lt_iff; lia).
    destruct (negb (M mod 2 ^ j =? 0)); reflexivity.
Qed.

Lemma nearest_even_bounds (n d : Z) :
  0 < d -> n / d <= nearest_even n d <= n / d + 1.
Proof.
  intros Hd. unfold nearest_even.
  destruct (2 * (n mod d) ?= d); [destruct (Z.even (n / d))| |]; lia.
Qed.

Lemma shl_align_id (m : positive) (e e' : Z) :
  e <= e' -> shl_align m e e' = (m, e).
Proof.
  intros H. unfold shl_align. destruct (e' - e) eqn:E; try reflexivity. lia.
Qed.

(** Rounding an integer of [53 + n] bits to 53 bits: the mantissa is the
    integer nearest to [M / 2 ^ n], ties to even; a carry to [2 ^ 53]
    moves to the next exponent. *)
Lemma round_aux_nearest (s : bool) (M : positive) (e n : Z) :
  0 < n -> Zpos (digits2_pos M) = 53 + n -> -1074 <= e + n <= 971 ->
  binary_round_aux fprec femax s (Zpos M) e loc_Exact
  = if nearest_even (Zpos M) (2 ^ n) <? 2 ^ 53
    then S754_finite s (Z.to_pos (nearest_even (Zpos M) (2 ^ n))) (e + n)
    else if e + n + 1 <=? 971
         then S754_finite s 4503599627370496 (e + n + 1)
         else S754_infinity s.
Proof.
  intros Hn Hd He.
  pose proof (digits_bounds M) as HM. rewrite Hd in HM.
  replace (53 + n - 1) with (52 + n) in HM by lia.
  rewrite !Z.pow_add_r in HM by lia.
  pose proof (pow2_pos n ltac:(lia)) as Hp.
  assert (Hq : 2 ^ 52 <= Zpos M / 2 ^ n < 2 ^ 53).
  { split; [apply Z.div_le_lower_bound; lia|].
    apply Z.div_lt_upper_bound; lia. }
  pose proof (nearest_even_bounds (Zpos M) (2 ^ n) Hp) as Hr.
  unfold binary_round_aux, shr_fexp. cbn [Zdigits2]. rewrite Hd, fexp_eq.
  replace (Z.max (53 + n + e - 53) (-1074) - e) with n by lia.
  change (shr_record_of_loc (Zpos M) loc_Exact)
    with (Build_shr_record (Zpos M) false false).
  pose proof (shr_round_nearest (Zpos M) e n ltac:(lia) Hn) as Hs.
  destruct (shr (Build_shr_record (Zpos M) false false) e n) as [mrs e'].
  destruct Hs as [Hs ->]. rewrite Hs. clear Hs mrs.
  destruct (nearest_even (Zpos M) (2 ^ n)) as [|r|r] eqn:Er; try lia.
  destruct (Z.ltb_spec (Zpos r) (2 ^ 53)) as [Hlt|Hge].
  - assert (Hdr : Zpos (digits2_pos r) = 53).
    { apply digits_unique. change (53 - 1) with 52. lia. }
    cbn [Zdigits2]. rewrite Hdr, fexp_eq.
    replace (Z.max (53 + (e + n) - 53) (-1074) - (e + n)) with 0 by lia.
    cbn [shr shr_record_of_loc shr_m Z.to_pos].
    change (femax - fprec) with 971.
    rewrite (proj2 (Z.leb_le (e + n) 971)) by lia. reflexivity.
  - assert (Er' : r = 9007199254740992%positive).
    { change (2 ^ 53) with 9007199254740992 in *. lia. }
    subst r. cbn [Zdigits2].
    change (Zpos (digits2_pos 9007199254740992)) with 54.
    rewrite fexp_eq.
    replace (Z.max (54 + (e + n) - 53) (-1074) - (e + n)) with 1 by lia.
    cbn [shr shr_record_of_loc iter_pos shr_1 shr_m].
    change (femax - fprec) with 971.
    replace (e + n + 1 <=? 971) with (e + n + 1 <=? 971) by reflexivity.
    reflexivity.
Qed.

(** *** Subtracting 20 from a float above [2 ^ 58] *)

Lemma nearest_even_unique (n d q r : Z) :
  n = d * q + r -> 0 <= r < d -> d < 2 * r -> nearest_even n d = q + 1.
Proof.
  intros Hn Hr Hgt. unfold nearest_even.
  rewrite <- (Z.div_unique n d q r) by (try exact Hn; left; exact Hr).
  rewrite <- (Z.mod_unique n d q r) by (try exact Hn; left; exact Hr).
  replace (2 * r ?= d) with Gt by (symmetry; apply Z.compare_gt_iff; lia).
  reflexivity.
Qed.

Lemma normal_mantissa (s : bool) (m : positive) (e : Z) :
  fvalid (S754_finite s m e) = true -> -1074 < e ->
  2 ^ 52 <= Zpos m < 2 ^ 53.
Proof.
  intros Hv He. pose proof (valid_exp_le_magnitude _ _ _ Hv) as Hmag.
  assert (Hd : Zpos (digits2_pos m) = 53) by lia.
  pose proof (digits_bounds m) as Hb. rewrite Hd in Hb. exact Hb.
Qed.

(** In binary64 arithmetic [x - 20.0 == x] for every finite [x] above
    [2 ^ 58]: the spacing of the floats there is 64 or more. *)
Lemma fsub_20_absorbed (m : positive) (e : Z) :
  fvalid (S754_finite false m e) = true ->
  7 <= e \/ (e = 6 /\ 2 ^ 52 < Zpos m) ->
  fsub (S754_finite false m e) f_20 = S754_finite false m e.
Proof.
  intros Hv Hbig.
  pose proof (valid_finite_inv _ _ _ Hv) as (He & _ & _).
  pose proof (normal_mantissa _ _ _ Hv ltac:(lia)) as Hm.
  assert (He6 : 6 <= e) by lia.
  unfold fsub, SFsub, f_20.
  rewrite Z.min_r by lia. cbv zeta.
  rewrite (shl_align_id 5629499534213120 (-48) (-48)) by lia.
  cbn [fst cond_Zopp]. rewrite shl_align_fst by lia.
  replace (e - -48) with (e - 6 + 54) by lia.
  rewrite Z.pow_add_r by lia.
  pose proof (pow2_pos (e - 6) ltac:(lia)) as HK.
  assert (HK2 : 7 <= e -> 2 <= 2 ^ (e - 6)).
  { intros H7. change 2 with (2 ^ 1) at 1. apply Z.pow_le_mono_r; lia. }
  assert (E100 : forall j, 0 <= j -> 2 ^ (e + j) = 2 ^ (e - 6) * 2 ^ (6 + j)).
  { intros j Hj. rewrite <- Z.pow_add_r by lia. f_equal. lia. }
  pose proof (E100 100 ltac:(lia)) as P100.
  pose proof (E100 101 ltac:(lia)) as P101.
  pose proof (E100 99 ltac:(lia)) as P99.
  pose proof (E100 48 ltac:(lia)) as P48.
  pose proof (E100 47 ltac:(lia)) as P47.
  clear E100. cbn [Z.add] in P100, P101, P99, P48, P47.
  revert HK HK2 P100 P101 P99 P48 P47.
  generalize (2 ^ (e - 6)). intros K HK HK2 P100 P101 P99 P48 P47.
  change (2 ^ 54) with 18014398509481984.
  change (2 ^ 52) with 4503599627370496 in *.
  change (2 ^ 53) with 9007199254740992 in *.
  change (2 ^ 106) with 81129638414606681695789005144064 in *.
  change (2 ^ 107) with 162259276829213363391578010288128 in *.
  change (2 ^ 105) with 40564819207303340847894502572032 in *.
  change (2 ^ 53) with 9007199254740992 in *.
  assert (HY : 4503599627370496 * K <= Zpos m * K < 9007199254740992 * K) by nia.
  destruct (Z.eq_dec (Zpos m) 4503599627370496) as [Em|Nm].
  - (* the mantissa is [2 ^ 52]: the difference has one bit less *)
    assert (H7 : 7 <= e) by lia. specialize (HK2 H7).
    assert (HD : exists D, Zpos m * (K * 18014398509481984) - 5629499534213120
                           = Zpos D).
    { destruct (Zpos m * (K * 18014398509481984) - 5629499534213120) eqn:E;
        [nia | eexists; reflexivity | nia]. }
    destruct HD as (D & ED). rewrite ED. cbn [binary_normalize].
    assert (Hd : Zpos (digits2_pos D) = 53 + (47 + e)).
    { apply digits_unique. replace (53 + (47 + e) - 1) with (e + 99) by lia.
      replace (53 + (47 + e)) with (e + 100) by lia.
      rewrite P99, P100, <- ED. nia. }
    unfold binary_round. rewrite Hd, fexp_eq, shl_align_id by lia.
    rewrite (round_aux_nearest false D (-48) (47 + e)) by lia.
    rewrite (nearest_even_unique (Zpos D) (2 ^ (47 + e))
               (9007199254740992 - 1)
               (2 ^ (47 + e) - 5629499534213120)).
    + change (9007199254740992 - 1 + 1) with 9007199254740992.
      change (9007199254740992 <? 2 ^ 53) with false. cbv iota.
      replace (-48 + (47 + e) + 1) with e by lia.
      rewrite (proj2 (Z.leb_le e 971)) by lia.
      f_equal. lia.
    + replace (47 + e) with (e + 47) by lia. rewrite P47, <- ED. nia.
    + replace (47 + e) with (e + 47) by lia. rewrite P47. nia.
    + replace (47 + e) with (e + 47) by lia. rewrite P47. nia.
  - assert (HD : exists D, Zpos m * (K * 18014398509481984) - 5629499534213120
                           = Zpos D).
    { destruct (Zpos m * (K * 18014398509481984) - 5629499534213120) eqn:E;
        [nia | eexists; reflexivity | nia]. }
    destruct HD as (D & ED). rewrite ED. cbn [binary_normalize].
    assert (HY' : 4503599627370497 * K <= Zpos m * K) by nia.
    assert (Hd : Zpos (digits2_pos D) = 53 + (48 + e)).
    { apply digits_unique. replace (53 + (48 + e) - 1) with (e + 100) by lia.
      replace (53 + (48 + e)) with (e + 101) by lia.
      rewrite P100, P101, <- ED. nia. }
    unfold binary_round. rewrite Hd, fexp_eq, shl_align_id by lia.
    rewrite (round_aux_nearest false D (-48) (48 + e)) by lia.
    rewrite (nearest_even_unique (Zpos D) (2 ^ (48 + e))
               (Zpos m - 1)
               (2 ^ (48 + e) - 5629499534213120)).
    + replace (Zpos m - 1 + 1) with (Zpos m) by lia.
      rewrite (proj2 (Z.ltb_lt (Zpos m) (2 ^ 53)))
        by (change (2 ^ 53) with 9007199254740992; lia).
      replace (-48 + (48 + e)) with e by lia. reflexivity.
    + replace (48 + e) with (e + 48) by lia. rewrite P48, <- ED. nia.
    + replace (48 + e) with (e + 48) by lia. rewrite P48. nia.
    + replace (48 + e) with (e + 48) by lia. rewrite P48. nia.
Qed.

End RoundFacts.

Module PlanFacts.
Import Py App Value Spec Props FloatFacts LoopFacts PlateFacts RoundFacts.

(** *** Weights above [2 ^ 58] *)

Lemma above_2_58_shape (s : bool) (m : positive) (e : Z) :
  fvalid (S754_finite s m e) = true ->
  2 ^ (58 + 1074) < scaled (S754_finite s m e) ->
  s = false /\ (7 <= e \/ (e = 6 /\ 2 ^ 52 < Zpos m)).
Proof.
  intros Hv Hgt.
  pose proof (valid_finite_inv _ _ _ Hv) as (He & Hm & _).
  pose proof (pow2_pos (e + 1074) ltac:(lia)) as Hp.
  pose proof (pow2_pos (58 + 1074) ltac:(lia)) as Hp58.
  cbn [scaled] in Hgt.
  destruct s; cbn [cond_Zopp] in Hgt.
  { exfalso. revert Hgt Hp Hp58. generalize (2 ^ (58 + 1074)), (2 ^ (e + 1074)).
    intros A B. nia. }
  split; [reflexivity|].
  destruct (Z_le_gt_dec e 5) as [H5|H5].
  { exfalso.
    assert (Hle : 2 ^ (e + 1074) <= 2 ^ (5 + 1074))
      by (apply Z.pow_le_mono_r; lia).
    assert (E : 2 ^ (58 + 1074) = 2 ^ 53 * 2 ^ (5 + 1074))
      by (rewrite <- Z.pow_add_r by lia; reflexivity).
    rewrite E in Hgt. clear E Hp58.
    revert Hgt Hp Hle. generalize (2 ^ (5 + 1074)), (2 ^ (e + 1074)).
    intros A B. nia. }
  destruct (Z.eq_dec e 6) as [E6|N6]; [|left; lia].
  right. split; [exact E6|]. subst e.
  assert (E : 2 ^ (58 + 1074) = 2 ^ 52 * 2 ^ (6 + 1074))
    by (rewrite <- Z.pow_add_r by lia; reflexivity).
  rewrite E in Hgt.
  apply Z.mul_lt_mono_pos_r in Hgt; assumption.
Qed.

Lemma float_of_int_20 : float_of_int 20 = Val f_20.
Proof. reflexivity. Qed.

Lemma twenty_below_2_58 : 8 * unit25 < 2 ^ (58 + 1074).
Proof.
  apply Z.lt_le_trans with (2 ^ (3 + 1076)).
  - apply pow2_bound_unit25; [lia | reflexivity].
  - apply Z.pow_le_mono_r; lia.
Qed.

Lemma sub_20_absorbed (f : spec_float) :
  fvalid f = true -> is_finite f = true ->
  2 ^ (58 + 1074) < scaled f ->
  py_ge (PFloat f) (PInt 20) = true /\
  py_sub (PFloat f) (PInt 20) = Val (PFloat f).
Proof.
  intros Hv Hf Hgt. split.
  - rewrite py_ge_scaled by (assumption || reflexivity).
    rewrite scaled_20. cbn [num_scaled].
    pose proof twenty_below_2_58 as H20.
    apply Z.leb_le. apply Z.lt_le_incl.
    exact (Z.lt_trans _ _ _ H20 Hgt).
  - destruct f as [s|s| |s m e]; [exfalso|discriminate Hf|discriminate Hf|].
    { cbn [scaled] in Hgt. pose proof (pow2_pos (58 + 1074) ltac:(lia)). lia. }
    destruct (above_2_58_shape s m e Hv Hgt) as (-> & Hshape).
    unfold py_sub. cbn [to_float]. rewrite float_of_int_20. cbn [bind].
    rewrite (fsub_20_absorbed m e Hv Hshape). reflexivity.
Qed.

Lemma value_above_pow2 (f : spec_float) (n : Z) :
  fvalid f = true -> 0 <= n ->
  (inject_Z (2 ^ n) < F2Q f)%Q -> 2 ^ (n + 1074) < scaled f.
Proof.
  intros Hv Hn H.
  rewrite (F2Q_scaled f Hv), inject_Z_scaled in H.
  apply (proj1 (Qlt_scaled _ _)) in H.
  rewrite Z.pow_add_r by lia. exact H.
Qed.

Lemma Qlt_finite (f : spec_float) (q : Q) :
  (0 <= q)%Q -> (q < F2Q f)%Q -> is_finite f = true.
Proof.
  intros Hq H. destruct f; try reflexivity; cbn [F2Q] in H;
    exfalso; apply (Qlt_irrefl 0); eapply Qle_lt_trans; eassumption.
Qed.

Lemma plate_selection_hangs (f : spec_float) :
  fvalid f = true -> is_finite f = true ->
  2 ^ (58 + 1074) < scaled f ->
  forall fuel, plate_selection fuel (PFloat f) default_plate_weights = OutOfFuel.
Proof.
  intros Hv Hf Hgt.
  destruct (sub_20_absorbed f Hv Hf Hgt) as (Hge & Hsub).
  apply plate_selection_stuck; assumption.
Qed.

(** The load per side of a float target above [2 ^ 59] is its half: the
    20 of the bar is lost in the subtraction. *)
Lemma plate_weight_above_2_59 (t : spec_float) :
  fvalid t = true -> is_finite t = true ->
  2 ^ (59 + 1074) < scaled t ->
  exists L, plate_weight (PFloat t) default_bar_weight = Val (PFloat L) /\
            fvalid L = true /\ is_finite L = true /\
            2 ^ (58 + 1074) < scaled L.
Proof.
  intros Hv Hf Hgt.
  assert (H58 : 2 ^ (58 + 1074) < scaled t).
  { apply Z.lt_trans with (2 ^ (59 + 1074)); [|exact Hgt].
    apply Z.pow_lt_mono_r; lia. }
  assert (H53 : 2 ^ 53 <= Z.abs (scaled t)).
  { apply Z.le_trans with (2 ^ (58 + 1074)); [apply Z.pow_le_mono_r; lia|].
    pose proof (pow2_pos (58 + 1074) ltac:(lia)) as Hp.
    rewrite Z.abs_eq; [apply Z.lt_le_incl, H58|].
    apply Z.lt_le_incl. exact (Z.lt_trans _ _ _ Hp H58). }
  destruct (sub_20_absorbed t Hv Hf H58) as (Hge & Hsub).
  destruct (fdiv_two_exact t Hv Hf (or_intror H53)) as (L & EL & VL & FL & SL).
  exists L. split.
  - unfold default_bar_weight.
    rewrite (plate_weight_computes _ _ (py_ge_not_lt _ _ Hge)), Hsub.
    cbn [bind py_truediv to_float]. rewrite float_of_int_2.
    cbn [bind is_zero]. rewrite EL. reflexivity.
  - split; [exact VL|]. split; [exact FL|].
    assert (E : 2 ^ (59 + 1074) = 2 * 2 ^ (58 + 1074)).
    { change (59 + 1074) with (1 + (58 + 1074)).
      rewrite Z.pow_add_r by lia. reflexivity. }
    rewrite E, <- SL in Hgt. clear - Hgt.
    revert Hgt. generalize (2 ^ (58 + 1074)). intros P Hgt. lia.
Qed.

Lemma get_workout_data_no_plan (t : spec_float) :
  fvalid t = true -> is_finite t = true ->
  2 ^ (59 + 1074) < scaled t ->
  forall fuel d, get_workout_data fuel (PFloat t) <> Val d.
Proof.
  intros Hv Hf Hgt fuel d H.
  destruct (get_workout_data_inv fuel _ d H)
    as (w45 & w65 & w85 & l45 & s45 & p45 & l65 & s65 & p65 & l85 & s85
        & p85 & lt & st & pt & _ & _ & _ & _ & _ & _ & _ & _ & _ & _ & Hlt
        & _ & Hpt & _).
  destruct (plate_weight_above_2_59 t Hv Hf Hgt) as (L & EL & VL & FL & HL).
  rewrite EL in Hlt. inversion Hlt; subst lt.
  rewrite (plate_selection_hangs L VL FL HL) in Hpt. discriminate.
Qed.

(** *** Targets below [2 ^ 50] *)

Lemma target_magnitude (t : num) (D : Z) :
  well_formed t = true -> finite_num t = true -> 0 <= D <= 53 ->
  Z.abs (num_scaled t) < 2 ^ (D + 1074) ->
  exists f, to_float t = Val f /\ f = as_float t /\ fvalid f = true /\
            is_finite f = true /\ magnitude f <= D.
Proof.
  intros Wt Ft HD Hb. destruct t as [z|f].
  - cbn [num_scaled] in Hb.
    pose proof (pow2_pos 1074 ltac:(lia)) as P.
    assert (Hz : Z.abs z < 2 ^ D).
    { rewrite Z.pow_add_r, Z.abs_mul, (Z.abs_eq (2 ^ 1074)) in Hb by lia.
      apply Z.mul_lt_mono_pos_r in Hb; assumption. }
    assert (Hz53 : Z.abs z < 2 ^ 53).
    { apply Z.lt_le_trans with (2 ^ D); [exact Hz|].
      apply Z.pow_le_mono_r; lia. }
    assert (Rz : representable (z * 2 ^ 1074)).
    { change 1074 with (0 + 1074). apply representable_small; lia. }
    destruct (float_of_int_exact z Rz) as (f & Ef & Vf & Ff & Sf).
    exists f. split; [exact Ef|]. split.
    { unfold float_of_int in Ef. cbn [as_float].
      destruct (fnormalize z 0 false); congruence. }
    split; [exact Vf|]. split; [exact Ff|].
    apply magnitude_of_bound; [exact Vf | exact Ff | lia |].
    rewrite Sf. exact Hb.
  - exists f. split; [reflexivity|]. split; [reflexivity|].
    split; [exact Wt|]. split; [exact Ft|].
    apply magnitude_of_bound; [exact Wt | exact Ft | lia | exact Hb].
Qed.

Lemma warmup_quotient_magnitude (pct t : spec_float) (D : Z) :
  fvalid t = true -> is_finite t = true ->
  fvalid pct = true -> is_finite pct = true ->
  magnitude t <= D -> 0 <= D <= 1023 -> -1074 <= magnitude pct <= 0 ->
  is_finite (warmup_quotient pct t) = true /\
  magnitude (warmup_quotient pct t) <= D.
Proof.
  intros Vt Ft Vp Fp Mt HD Mp. unfold warmup_quotient.
  assert (Hmt : -1074 <= magnitude t).
  { destruct t as [s|s| |s m e]; cbn [magnitude]; try lia.
    apply valid_finite_inv in Vt as (He & _). lia. }
  destruct (fmul_finite t pct (Z.max (magnitude t + magnitude pct) (-1074))
              Vt Vp Ft Fp ltac:(lia) ltac:(lia)) as (Fa & Ma).
  destruct (fmul t pct) as [s|s| |s m e]; try discriminate.
  - split; [reflexivity | cbn; lia].
  - cbn [magnitude] in Ma.
    destruct (fdiv_finite s false m 5629499534213120 e (-50)
                (Z.max (Zpos (digits2_pos m) + e - 2) (-1074))) as (Fq & Mq).
    + change (Zpos (digits2_pos 5629499534213120)) with 53. lia.
    + lia.
    + split; [exact Fq|]. unfold lit_5. lia.
Qed.

Lemma round_shift_upper (n k : Z) :
  0 <= n -> 0 <= k -> 0 <= round_shift n k <= n / 2 ^ k + 1.
Proof.
  intros Hn Hk. unfold round_shift.
  pose proof (pow2_pos k Hk) as Hp.
  assert (Hq : 0 <= n / 2 ^ k) by (apply Z.div_pos; lia).
  cbv zeta.
  destruct (2 * (n mod 2 ^ k) ?= 2 ^ k); [destruct (Z.even (n / 2 ^ k))| |]; lia.
Qed.

Lemma round_scaled_magnitude (m : positive) (e D : Z) :
  0 <= D -> Zpos (digits2_pos m) + e <= D ->
  0 <= round_scaled 1 m e <= 2 ^ D.
Proof.
  intros HD Hmag. unfold round_scaled. rewrite Z.mul_1_l.
  pose proof (digits_bounds m) as [_ Hm].
  set (d := Zpos (digits2_pos m)) in *.
  assert (Hd : 0 < d) by (subst d; lia).
  destruct (Z.leb_spec 0 e) as [He|He].
  - pose proof (pow2_pos e He) as Hp.
    split; [nia|].
    apply Z.le_trans with (2 ^ (d + e)); [|apply Z.pow_le_mono_r; lia].
    rewrite Z.pow_add_r by lia. nia.
  - pose proof (round_shift_upper (Zpos m) (- e) ltac:(lia) ltac:(lia)) as Hr.
    split; [lia|].
    apply Z.le_trans with (Zpos m / 2 ^ (- e) + 1); [lia|].
    pose proof (pow2_pos (- e) ltac:(lia)) as Hp.
    destruct (Z_le_gt_dec (d + e) 0) as [Hs|Hs].
    + assert (Hq : Zpos m / 2 ^ (- e) = 0).
      { apply Z.div_small. split; [lia|].
        apply Z.lt_le_trans with (2 ^ d); [exact Hm|].
        apply Z.pow_le_mono_r; lia. }
      rewrite Hq. pose proof (pow2_pos D HD). lia.
    + assert (Hq : Zpos m / 2 ^ (- e) < 2 ^ (d + e)).
      { apply Z.div_lt_upper_bound; [lia|].
        rewrite <- Z.pow_add_r by lia.
        replace (- e + (d + e)) with d by lia. exact Hm. }
      assert (Hle : 2 ^ (d + e) <= 2 ^ D) by (apply Z.pow_le_mono_r; lia).
      lia.
Qed.

Lemma py_round_magnitude (q : spec_float) (D : Z) :
  is_finite q = true -> 0 <= D -> magnitude q <= D ->
  exists z, py_round (PFloat q) = Val (PInt z) /\ Z.abs z <= 2 ^ D.
Proof.
  intros Fq HD Mq. destruct q as [s|s| |s m e]; try discriminate.
  - exists 0. split; [reflexivity|]. pose proof (pow2_pos D HD). cbn. lia.
  - cbn [magnitude] in Mq.
    pose proof (round_scaled_magnitude m e D HD Mq) as Hr.
    eexists. split; [reflexivity|].
    destruct s; cbn [cond_Zopp]; lia.
Qed.

Lemma ordinary_target_scaled (t : num) :
  ordinary_target t -> Z.abs (num_scaled t) < 2 ^ (50 + 1074).
Proof.
  intros (Wt & Ft & Hlo & Hhi).
  rewrite (num_value_scaled t Wt), inject_Z_scaled in Hlo, Hhi.
  setoid_replace (- ((2 ^ 50 * 2 ^ 1074) # scale_den))%Q
    with ((- (2 ^ 50 * 2 ^ 1074)) # scale_den)%Q in Hlo by reflexivity.
  apply (proj1 (Qlt_scaled _ _)) in Hlo, Hhi.
  rewrite Z.pow_add_r by lia. apply Z.abs_lt. split; assumption.
Qed.

Lemma warmup_weight_bounded (pct : spec_float) (t : num) :
  ordinary_target t ->
  fvalid pct = true -> is_finite pct = true -> is_zero pct = false ->
  -1074 <= magnitude pct <= 0 ->
  exists z, warmup_weight pct t = Val (PInt (z * 5)) /\ Z.abs z <= 2 ^ 50.
Proof.
  intros Ht Vp Fp Zp Mp. pose proof Ht as (Wt & Ft & _).
  pose proof (ordinary_target_scaled t Ht) as Hb.
  destruct (target_magnitude t 50 Wt Ft ltac:(lia) Hb)
    as (f & Ef & Eas & Vf & Ff & Mf).
  destruct (warmup_quotient_magnitude pct f 50 Vf Ff Vp Fp Mf ltac:(lia) Mp)
    as (Fq & Mq).
  destruct (py_round_magnitude _ 50 Fq ltac:(lia) Mq) as (z & Ez & Hz).
  exists z. split; [|exact Hz].
  unfold warmup_weight.
  assert (Emul : py_mul t (PFloat pct) = Val (PFloat (fmul f pct))).
  { destruct t as [x|g]; unfold py_mul; rewrite Ef; reflexivity. }
  rewrite Emul. cbn [bind py_truediv to_float]. rewrite float_of_int_5.
  cbn [bind is_zero lit_5].
  fold lit_5. fold (warmup_quotient pct f).
  rewrite Ez. reflexivity.
Qed.

(** The warmup weights of a target below [2 ^ 50] are multiples of 5 below
    [2 ^ 53]. *)
Lemma ordinary_warmups (t : num) :
  ordinary_target t ->
  exists a b c,
    calculate_warmup_weights t = Val (PInt a, PInt b, PInt c) /\
    a < 2 ^ 53 /\ b < 2 ^ 53 /\ c < 2 ^ 53.
Proof.
  intros Ht.
  destruct (warmup_weight_bounded lit_0_45 t Ht eq_refl eq_refl eq_refl
              ltac:(cbn; lia)) as (za & Ea & Ha).
  destruct (warmup_weight_bounded lit_0_65 t Ht eq_refl eq_refl eq_refl
              ltac:(cbn; lia)) as (zb & Eb & Hb).
  destruct (warmup_weight_bounded lit_0_85 t Ht eq_refl eq_refl eq_refl
              ltac:(cbn; lia)) as (zc & Ec & Hc).
  exists (za * 5), (zb * 5), (zc * 5).
  rewrite calculate_warmup_weights_unfold, Ea, Eb, Ec.
  split; [reflexivity|].
  change (2 ^ 50) with 1125899906842624 in *.
  change (2 ^ 53) with 9007199254740992. lia.
Qed.

Lemma entry_fails (w : num) :
  well_formed w = true -> finite_num w = true ->
  py_ge w (PInt 20) = false ->
  plate_weight w default_bar_weight = Raise ValueError.
Proof.
  intros Ww Fw Hge. apply plate_weight_value_error.
  rewrite py_ge_scaled in Hge by (assumption || reflexivity).
  unfold default_bar_weight.
  rewrite py_lt_scaled by (assumption || reflexivity).
  apply Z.leb_gt in Hge. apply Z.ltb_lt. exact Hge.
Qed.

Lemma entry_succeeds (w : num) :
  well_formed w = true -> finite_num w = true ->
  num_scaled w < 2 ^ (53 + 1074) ->
  py_ge w (PInt 20) = true ->
  exists l s p fuel0,
    plate_weight w default_bar_weight = Val l /\
    py_round_ndigits l 2 = Val s /\
    forall fuel, (fuel0 <= fuel)%nat ->
      plate_selection fuel l default_plate_weights = Val p.
Proof.
  intros Ww Fw Hhi Hge. apply entry_returns; try assumption.
  rewrite py_ge_scaled in Hge by (assumption || reflexivity).
  rewrite scaled_20 in Hge. apply Z.leb_le, Hge.
Qed.

Lemma int_scaled_bound (a : Z) :
  a < 2 ^ 53 -> num_scaled (PInt a) < 2 ^ (53 + 1074).
Proof.
  intros Ha. cbn [num_scaled]. rewrite Z.pow_add_r by lia.
  apply Z.mul_lt_mono_pos_r; [apply pow2_pos; lia | exact Ha].
Qed.



(** Whether the plan is returned or [ValueError] is raised is decided by
    the four total weights: all of them must reach the 20 kg of the bar. *)
Lemma plan_outcome (t : num) (a b c : Z) :
  well_formed t = true -> finite_num t = true ->
  num_scaled t < 2 ^ (53 + 1074) ->
  calculate_warmup_weights t = Val (PInt a, PInt b, PInt c) ->
  a < 2 ^ 53 -> b < 2 ^ 53 -> c < 2 ^ 53 ->
  exists fuel0, forall fuel, (fuel0 <= fuel)%nat ->
    if (20 <=? a) && (20 <=? b) && (20 <=? c) && py_ge t (PInt 20)
    then exists d, get_workout_data fuel t = Val d
    else get_workout_data fuel t = Raise ValueError.
Proof.
  intros Wt Ft Ht Hw Ha Hb Hc.
  apply int_scaled_bound in Ha, Hb, Hc.
  rewrite <- (py_ge_int a 20), <- (py_ge_int b 20), <- (py_ge_int c 20).
  destruct (py_ge (PInt a) (PInt 20)) eqn:Ga; cbn [andb].
  2:{ exists 0%nat. intros fuel _. unfold get_workout_data.
      rewrite Hw; cbn [bind]. rewrite (entry_fails (PInt a) eq_refl eq_refl Ga).
      reflexivity. }
  destruct (entry_succeeds (PInt a) eq_refl eq_refl Ha Ga)
    as (la & sa & pa & fa & Ela & Esa & Epa).
  destruct (py_ge (PInt b) (PInt 20)) eqn:Gb; cbn [andb].
  2:{ exists fa. intros fuel Hf. unfold get_workout_data.
      rewrite Hw; cbn [bind]. rewrite Ela; cbn [bind]. rewrite Esa; cbn [bind]. rewrite (Epa fuel Hf); cbn [bind].
      rewrite (entry_fails (PInt b) eq_refl eq_refl Gb). reflexivity. }
  destruct (entry_succeeds (PInt b) eq_refl eq_refl Hb Gb)
    as (lb & sb & pb & fb & Elb & Esb & Epb).
  destruct (py_ge (PInt c) (PInt 20)) eqn:Gc; cbn [andb].
  2:{ exists (Nat.max fa fb). intros fuel Hf. unfold get_workout_data.
      rewrite Hw; cbn [bind]. rewrite Ela; cbn [bind]. rewrite Esa; cbn [bind].
      rewrite (Epa fuel ltac:(lia)); cbn [bind].
      rewrite Elb; cbn [bind]. rewrite Esb; cbn [bind]. rewrite (Epb fuel ltac:(lia)); cbn [bind].
      rewrite (entry_fails (PInt c) eq_refl eq_refl Gc). reflexivity. }
  destruct (entry_succeeds (PInt c) eq_refl eq_refl Hc Gc)
    as (lc & sc & pc & fc & Elc & Esc & Epc).
  destruct (py_ge t (PInt 20)) eqn:Gt.
  2:{ exists (Nat.max (Nat.max fa fb) fc). intros fuel Hf.
      unfold get_workout_data.
      rewrite Hw; cbn [bind]. rewrite Ela; cbn [bind]. rewrite Esa; cbn [bind].
      rewrite (Epa fuel ltac:(lia)); cbn [bind].
      rewrite Elb; cbn [bind]. rewrite Esb; cbn [bind]. rewrite (Epb fuel ltac:(lia)); cbn [bind].
      rewrite Elc; cbn [bind]. rewrite Esc; cbn [bind]. rewrite (Epc fuel ltac:(lia)); cbn [bind].
      rewrite (entry_fails t Wt Ft Gt). reflexivity. }
  destruct (entry_succeeds t Wt Ft Ht Gt)
    as (lt & st & pt & ft & Elt & Est & Ept).
  exists (Nat.max (Nat.max fa fb) (Nat.max fc ft)). intros fuel Hf.
  eexists. unfold get_workout_data.
  rewrite Hw; cbn [bind]. rewrite Ela; cbn [bind]. rewrite Esa; cbn [bind]. rewrite (Epa fuel ltac:(lia)); cbn [bind].
  rewrite Elb; cbn [bind]. rewrite Esb; cbn [bind]. rewrite (Epb fuel ltac:(lia)); cbn [bind].
  rewrite Elc; cbn [bind]. rewrite Esc; cbn [bind]. rewrite (Epc fuel ltac:(lia)); cbn [bind].
  rewrite Elt; cbn [bind]. rewrite Est; cbn [bind]. rewrite (Ept fuel ltac:(lia)); cbn [bind].
  reflexivity.
Qed.

End PlanFacts.

Module LoadFacts.
Import Py App Value Spec Props FloatFacts LoopFacts PlateFacts RoundFacts PlanFacts.

(** *** The shape of a selection from the default plates *)

Lemma repeat_at_most_one (p : num) (x : Z) :
  0 <= x <= 1 -> repeat p (Z.to_nat x) = one_if (x =? 1) p.
Proof.
  intros Hx. assert (Hc : x = 0 \/ x = 1) by lia.
  destruct Hc as [-> | ->]; reflexivity.
Qed.

Lemma greedy_plates_shape (k : Z) :
  0 <= k ->
  greedy_plates k
  = repeat (PInt 20) (Z.to_nat (k / 8))
    ++ one_if (k mod 8 / 4 =? 1) (PInt 10)
    ++ one_if (k mod 4 / 2 =? 1) (PInt 5)
    ++ one_if (k mod 2 =? 1) (PFloat lit_2_5).
Proof.
  intros Hk. destruct (units_decomposition k Hk) as (_ & _ & H10 & H5 & H2).
  unfold greedy_plates.
  rewrite (repeat_at_most_one (PInt 10)), (repeat_at_most_one (PInt 5)),
    (repeat_at_most_one (PFloat lit_2_5)) by assumption.
  reflexivity.
Qed.

Lemma selection_is_greedy_plates (w : num) (fuel : nat) (l : list num) :
  in_range w ->
  plate_selection fuel w default_plate_weights = Val l ->
  l = greedy_plates (num_scaled w / unit25).
Proof.
  intros Hr Hl.
  pose proof (plate_selection_run w Hr
                (S (Z.to_nat (num_scaled w / unit25 / 8)))
                (le_n_S _ _ (Nat.le_0_l _)) (Nat.le_succ_diag_r _)) as Hrun.
  exact (plate_selection_deterministic _ _ _ _ _ _ Hl Hrun).
Qed.

Lemma fits_20 (w : num) :
  well_formed w = true -> 0 <= num_scaled w ->
  fits (num_value w) 20 = Z.to_nat (num_scaled w / unit25 / 8).
Proof.
  intros Ww Hpos.
  rewrite (fits_scaled (num_value w) 20 (num_scaled w) (8 * unit25)
             (num_value_scaled w Ww) Q_20_scaled).
  - rewrite Z.div_div by (pose proof unit25_pos; lia).
    rewrite (Z.mul_comm unit25 8). reflexivity.
  - pose proof unit25_pos. lia.
Qed.

(** *** Warmup weights are multiples of 5 *)

Lemma warmup_weight_multiple (pct : spec_float) (t w : num) :
  warmup_weight pct t = Val w -> exists z, w = PInt (z * 5).
Proof.
  unfold warmup_weight. intros H.
  apply bind_val_inv in H as (a & _ & H).
  apply bind_val_inv in H as (b & _ & H).
  apply bind_val_inv in H as (r & Hr & H).
  assert (exists z, r = PInt z) as (z & ->).
  { destruct b as [z|[s|s| |s m e]]; cbn [py_round] in Hr;
      try discriminate; inversion Hr; eauto. }
  cbn [py_mul] in H. inversion H. eauto.
Qed.

Lemma warmup_weights_multiples (t a b c : num) :
  calculate_warmup_weights t = Val (a, b, c) ->
  exists za zb zc, a = PInt (za * 5) /\ b = PInt (zb * 5) /\ c = PInt (zc * 5).
Proof.
  rewrite calculate_warmup_weights_unfold. intros H.
  apply bind_val_inv in H as (x & Hx & H).
  apply bind_val_inv in H as (y & Hy & H).
  apply bind_val_inv in H as (z & Hz & H).
  inversion H; subst.
  destruct (warmup_weight_multiple _ _ _ Hx) as (za & ->).
  destruct (warmup_weight_multiple _ _ _ Hy) as (zb & ->).
  destruct (warmup_weight_multiple _ _ _ Hz) as (zc & ->).
  exists za, zb, zc. repeat split; reflexivity.
Qed.

(** *** A multiple of 5 is loaded without a rest *)

Lemma scaled_multiple_of_5 (z : Z) : num_scaled (PInt (z * 5)) = 2 * z * unit25.
Proof.
  rewrite num_scaled_int. unfold unit25. generalize (2 ^ 1073). intros U. ring.
Qed.

Lemma exact_load (fuel : nat) (z : Z) (l : num) (p : list num) :
  (num_value (PInt (z * 5)) < inject_Z (2 ^ 53))%Q ->
  plate_weight (PInt (z * 5)) default_bar_weight = Val l ->
  plate_selection fuel l default_plate_weights = Val p ->
  (2 * sum_values p + 20 == num_value (PInt (z * 5)))%Q.
Proof.
  intros Hlt Hl Hp.
  pose proof (value_lt_pow2 (PInt (z * 5)) 53 eq_refl ltac:(lia) Hlt) as Hhi.
  pose proof (plate_weight_val_ge (PInt (z * 5)) l eq_refl eq_refl Hl) as Hlo.
  destruct (plate_weight_exact (PInt (z * 5)) eq_refl eq_refl Hlo Hhi)
    as (L & EL & VL & FL & SL).
  rewrite EL in Hl. inversion Hl; subst l. clear Hl.
  rewrite scaled_multiple_of_5 in SL, Hlo, Hhi.
  pose proof unit25_pos as Upos.
  assert (HL : scaled L = (z - 4) * unit25).
  { revert SL. generalize unit25, (scaled L). intros U S HS. lia. }
  assert (Hz : 4 <= z).
  { revert Hlo Upos. generalize unit25. intros U H1 H2. nia. }
  assert (Hr : in_range (PFloat L)).
  { unfold in_range. cbn [well_formed finite_num num_scaled is_int].
    split; [exact VL|]. split; [exact FL|]. split.
    - rewrite HL. apply Z.mul_nonneg_nonneg; lia.
    - right. apply pow2_1127_lt_1129.
      apply Z.le_lt_trans with (2 * z * unit25); [|exact Hhi].
      rewrite HL. clear - Upos Hz. revert Upos. generalize unit25. intros U HU. nia. }
  pose proof (selection_is_greedy_plates _ _ _ Hr Hp) as Ep.
  cbn [num_scaled] in Ep. rewrite HL, Z.div_mul in Ep by lia. subst p.
  rewrite (sum_values_scaled _ (greedy_plates_well_formed (z - 4))).
  rewrite sum_scaled_greedy_plates by lia.
  rewrite (num_value_scaled (PInt (z * 5)) eq_refl), scaled_multiple_of_5.
  rewrite Q_20_scaled.
  setoid_replace (2 * ((z - 4) * unit25 # scale_den))%Q
    with (((z - 4) * unit25 # scale_den) + ((z - 4) * unit25 # scale_den))%Q
    by ring.
  rewrite !Qplus_scaled. apply Qeq_scaled.
  generalize unit25. intros U. ring.
Qed.

End LoadFacts.

Module ReportFacts.
Import Py App Value Spec Props Report FloatFacts LoopFacts PlanFacts.

(** *** Running the console report *)

Lemma io_bind_run {A B : Type} (c : io A) (k : A -> io B)
    (out out' : console) (a : A) :
  c out = (out', Val a) -> io_bind c k out = k a out'.
Proof. intros H. unfold io_bind. rewrite H. reflexivity. Qed.

Lemma io_bind_raise {A B : Type} (c : io A) (k : A -> io B)
    (out out' : console) (e : exn) :
  c out = (out', Raise e) -> io_bind c k out = (out', Raise e).
Proof. intros H. unfold io_bind. rewrite H. reflexivity. Qed.

Lemma io_bind_print {B : Type} (s : string) (k : unit -> io B) (out : console) :
  io_bind (print s) k out = k tt (out ++ [s]).
Proof. reflexivity. Qed.

Lemma io_bind_call {A B : Type} (r : res A) (k : A -> io B) (out : console) :
  io_bind (call r) k out
  = match r with
    | Val a => k a out
    | Raise e => (out, Raise e)
    | OutOfFuel => (out, OutOfFuel)
    end.
Proof. unfold io_bind, call. destruct r; reflexivity. Qed.

Lemma print_warmup_runs (str_num : num -> string) (fuel : nat)
    (title : string) (w l : num) (p : list num) (out : console) :
  plate_weight w default_bar_weight = Val l ->
  plate_selection fuel l default_plate_weights = Val p ->
  print_warmup str_num fuel title w out
  = (out ++ report_set str_num title w l p, Val tt).
Proof.
  intros Hl Hp. unfold print_warmup.
  rewrite io_bind_call, Hl, io_bind_call, Hp, io_bind_print, io_bind_call,
    io_bind_print.
  unfold print, report_set. rewrite <- !app_assoc. reflexivity.
Qed.

Lemma print_warmup_raises (str_num : num -> string) (fuel : nat)
    (title : string) (w : num) (e : exn) (out : console) :
  plate_weight w default_bar_weight = Raise e ->
  print_warmup str_num fuel title w out = (out, Raise e).
Proof.
  intros Hl. unfold print_warmup. rewrite io_bind_call, Hl. reflexivity.
Qed.

Lemma report_fails_at_first_warmup (str_num : num -> string) (fuel : nat)
    (t w45 w65 w85 : num) (e : exn) (out : console) :
  calculate_warmup_weights t = Val (w45, w65, w85) ->
  plate_weight w45 default_bar_weight = Raise e ->
  print_weight_and_plates str_num fuel t out = (out ++ report_head, Raise e).
Proof.
  intros Hw Hl. unfold print_weight_and_plates.
  rewrite io_bind_call, Hw. rewrite !io_bind_print.
  rewrite (io_bind_raise _ _ _ _ _
             (print_warmup_raises str_num fuel _ w45 e _ Hl)).
  unfold report_head. rewrite <- !app_assoc. reflexivity.
Qed.

Lemma report_runs (str_num : num -> string) (fuel : nat)
    (t w45 w65 w85 l45 l65 l85 lt : num) (p45 p65 p85 pt : list num)
    (out : console) :
  calculate_warmup_weights t = Val (w45, w65, w85) ->
  plate_weight w45 default_bar_weight = Val l45 ->
  plate_selection fuel l45 default_plate_weights = Val p45 ->
  plate_weight w65 default_bar_weight = Val l65 ->
  plate_selection fuel l65 default_plate_weights = Val p65 ->
  plate_weight w85 default_bar_weight = Val l85 ->
  plate_selection fuel l85 default_plate_weights = Val p85 ->
  plate_weight t default_bar_weight = Val lt ->
  plate_selection fuel lt default_plate_weights = Val pt ->
  print_weight_and_plates str_num fuel t out
  = (out ++ report_head
         ++ report_set str_num "1 set of 5 reps - " w45 l45 p45
         ++ report_set str_num "1 set of 3 reps - " w65 l65 p65
         ++ report_set str_num "1 set of 2 reps - " w85 l85 p85
         ++ report_target str_num t lt pt,
     Val tt).
Proof.
  intros Hw H1 P1 H2 P2 H3 P3 H4 P4. unfold print_weight_and_plates.
  rewrite io_bind_call, Hw. rewrite !io_bind_print.
  rewrite (io_bind_run _ _ _ _ _ (print_warmup_runs str_num fuel _ _ _ _ _ H1 P1)).
  rewrite (io_bind_run _ _ _ _ _ (print_warmup_runs str_num fuel _ _ _ _ _ H2 P2)).
  rewrite (io_bind_run _ _ _ _ _ (print_warmup_runs str_num fuel _ _ _ _ _ H3 P3)).
  rewrite !io_bind_print, io_bind_call, H4, io_bind_call, P4, io_bind_print,
    io_bind_call, io_bind_print.
  unfold print, report_head, report_target. rewrite <- !app_assoc.
  reflexivity.
Qed.

End ReportFacts.

Module ApiFacts.
Import Py App Value Spec Props Api FloatFacts LoopFacts PlanFacts.

(** *** The request handler *)

Lemma py_le_scaled (f : spec_float) :
  fvalid f = true -> is_finite f = true ->
  py_le (PFloat f) (PInt 0) = (scaled f <=? 0).
Proof.
  intros Hv Hf. unfold py_le.
  rewrite (py_compare_scaled (PFloat f) (PInt 0)) by (assumption || reflexivity).
  cbn [num_scaled]. rewrite Z.mul_0_l, (Z.leb_compare (scaled f) 0).
  destruct (scaled f ?= 0); reflexivity.
Qed.

(** The float a number becomes under [float(...)] has the same value, for
    a number below [2 ^ 50]. *)
Lemma ordinary_float (t : num) :
  ordinary_target t ->
  exists f, to_float t = Val f /\ ordinary_target (PFloat f) /\
            scaled f = num_scaled t.
Proof.
  intros Ht. pose proof Ht as (Wt & Ft & Hlo & Hhi).
  destruct t as [z|f].
  - pose proof (ordinary_target_scaled _ Ht) as Hb. cbn [num_scaled] in Hb.
    pose proof (pow2_pos 1074 ltac:(lia)) as P.
    assert (Hz : Z.abs z < 2 ^ 50).
    { rewrite Z.pow_add_r, Z.abs_mul, (Z.abs_eq (2 ^ 1074)) in Hb by lia.
      apply Z.mul_lt_mono_pos_r in Hb; assumption. }
    assert (Rz : representable (z * 2 ^ 1074)).
    { change 1074 with (0 + 1074). apply representable_small; [lia|].
      change (2 ^ 50) with 1125899906842624 in Hz.
      change (2 ^ 53) with 9007199254740992. lia. }
    destruct (float_of_int_exact z Rz) as (f & Ef & Vf & Ff & Sf).
    exists f. split; [exact Ef|]. split; [|exact Sf].
    split; [exact Vf|]. split; [exact Ff|].
    cbn [num_value]. rewrite (F2Q_scaled f Vf), Sf, <- inject_Z_scaled.
    exact (conj Hlo Hhi).
  - exists f. split; [reflexivity|]. split; [exact Ht | reflexivity].
Qed.

Lemma value_sign_scaled (t : num) :
  well_formed t = true ->
  ((num_value t <= 0)%Q <-> num_scaled t <= 0).
Proof.
  intros Wt. rewrite (num_value_scaled t Wt).
  unfold Qle. cbn [Qnum Qden]. rewrite Z.mul_1_r, Z.mul_0_l. reflexivity.
Qed.

Lemma value_pos_scaled (t : num) :
  well_formed t = true ->
  ((0 < num_value t)%Q <-> 0 < num_scaled t).
Proof.
  intros Wt. rewrite (num_value_scaled t Wt).
  unfold Qlt. cbn [Qnum Qden]. rewrite Z.mul_1_r, Z.mul_0_l. reflexivity.
Qed.

Lemma ordinary_below_2_53 (t : num) :
  ordinary_target t -> num_scaled t < 2 ^ (53 + 1074).
Proof.
  intros Ht. pose proof (ordinary_target_scaled t Ht) as Hb.
  apply Z.abs_lt in Hb. destruct Hb as [_ Hb].
  apply Z.lt_le_trans with (2 ^ (50 + 1074)); [exact Hb|].
  apply Z.pow_le_mono_r; lia.
Qed.

Section Handler.

Variable float_of_str : string -> option spec_float.

Lemma calculate_number (fuel : nat) (items : list (string * json))
    (t : num) (f : spec_float) :
  lookup "target_weight" items = Some (JNum t) ->
  to_float t = Val f ->
  calculate float_of_str fuel (JDict items)
  = if py_le (PFloat f) (PInt 0)
    then Response (ErrorText "Target weight must be greater than 0") 400
    else match get_workout_data fuel (PFloat f) with
         | Val d => Response (Workout d) 200
         | Raise ValueError => Response (ErrorText "Invalid target weight") 400
         | Raise e => Response (ErrorOf (CoreError e)) 500
         | OutOfFuel => NoResponse
         end.
Proof.
  intros Hl Hf. unfold calculate, calculate_try, get_target_weight.
  rewrite Hl. cbn [abind py_float]. rewrite Hf. cbn [of_core abind].
  destruct (py_le (PFloat f) (PInt 0)); [reflexivity|].
  destruct (get_workout_data fuel (PFloat f)) as [d|[| |]|]; reflexivity.
Qed.

Lemma calculate_ok_inv (fuel : nat) (data : json) (d : workout_data) (c : Z) :
  calculate float_of_str fuel data = Response (Workout d) c ->
  exists f, py_le (PFloat f) (PInt 0) = false /\
            get_workout_data fuel (PFloat f) = Val d /\ c = 200.
Proof.
  unfold calculate, calculate_try. intros H.
  destruct (get_target_weight data) as [v|[[| |]| |]|]; cbn [abind] in H;
    try discriminate.
  destruct (py_float float_of_str v) as [f|[[| |]| |]|]; cbn [abind] in H;
    try discriminate.
  destruct (py_le (PFloat f) (PInt 0)) eqn:Hle; [discriminate|].
  destruct (get_workout_data fuel (PFloat f)) as [d'|[| |]|] eqn:Hd;
    cbn [of_core abind] in H; try discriminate.
  inversion H; subst. exists f. repeat split; assumption.
Qed.

End Handler.

Lemma positive_float (f : spec_float) :
  is_finite f = true -> py_le (PFloat f) (PInt 0) = false ->
  exists m e, f = S754_finite false m e.
Proof.
  intros Hf Hle. destruct f as [s|s| |s m e]; try discriminate.
  destruct s; [|eauto]. exfalso.
  unfold py_le in Hle. cbn [py_compare compare_int_float option_map cond_Zopp] in Hle.
  destruct (Z.leb_spec 0 e) as [He|He].
  - pose proof (pow2_pos e He) as Hp.
    assert (Hc : (0 ?= - Z.pos m * 2 ^ e) = Gt) by (apply Z.compare_gt_iff; nia).
    rewrite Hc in Hle. discriminate.
  - rewrite Z.mul_0_l in Hle. discriminate.
Qed.

End ApiFacts.

Module DisplayFacts.
Import Py App Value Spec Props FloatFacts LoopFacts RoundFacts PlanFacts LoadFacts.

(** *** Rounding a load to two decimals *)

Lemma valid_float_unique (s : bool) (m1 m2 : positive) (e1 e2 : Z) :
  fvalid (S754_finite s m1 e1) = true ->
  fvalid (S754_finite s m2 e2) = true ->
  Zpos m1 * 2 ^ (e1 + 1074) = Zpos m2 * 2 ^ (e2 + 1074) ->
  S754_finite s m1 e1 = S754_finite s m2 e2.
Proof.
  intros V1 V2 H.
  assert (He : e1 = e2).
  { destruct (Z.lt_trichotomy e1 e2) as [Hlt|[Heq|Hgt]]; [|exact Heq|].
    - pose proof (canonical_exp_lt s s m1 m2 e1 e2 V1 V2 Hlt). lia.
    - pose proof (canonical_exp_lt s s m2 m1 e2 e1 V2 V1 Hgt). lia. }
  subst e2.
  pose proof (valid_finite_inv _ _ _ V1) as (He & _).
  pose proof (pow2_pos (e1 + 1074) ltac:(lia)) as Hp.
  apply Z.mul_cancel_r in H; [|lia].
  inversion H. reflexivity.
Qed.

Lemma digits_mul_le (a b c : positive) :
  Zpos c = Zpos a * Zpos b ->
  Zpos (digits2_pos c) <= Zpos (digits2_pos a) + Zpos (digits2_pos b).
Proof.
  intros Hc. apply digits_lt_pow2; [lia|].
  pose proof (digits_bounds a) as [_ Ha].
  pose proof (digits_bounds b) as [_ Hb].
  rewrite Hc, Z.pow_add_r by lia.
  apply Z.mul_lt_mono_nonneg; lia.
Qed.

(** Dividing two integers whose quotient is a float gives that float. *)
Lemma fdiv_exact_int (s : bool) (n d m : positive) (e : Z) :
  fvalid (S754_finite s m e) = true -> e <= 0 ->
  Zpos n * 2 ^ (- e) = Zpos d * Zpos m ->
  fdiv (S754_finite s n 0) (S754_finite false d 0) = S754_finite s m e.
Proof.
  intros Hv He Hq.
  pose proof (valid_finite_inv _ _ _ Hv) as (Hec & Hm & Hfe).
  unfold fdiv, SFdiv, SFdiv_core_binary. cbn [Zdigits2].
  set (d1 := Zpos (digits2_pos n)).
  set (d2 := Zpos (digits2_pos d)).
  assert (Hdig : d1 - d2 <= Zpos (digits2_pos m) + e).
  { assert (Hnm : exists c, Zpos c = Zpos n * 2 ^ (- e)).
    { pose proof (pow2_pos (- e) ltac:(lia)) as Hp.
      destruct (Zpos n * 2 ^ (- e)) as [|c|c] eqn:E; try lia. eauto. }
    destruct Hnm as (c & Hc).
    pose proof (digits_mul_pow2 n (- e) c ltac:(lia) Hc) as Hdc.
    rewrite Hq in Hc.
    pose proof (digits_mul_le d m c Hc). subst d1 d2. lia. }
  replace (d1 + 0 - (d2 + 0)) with (d1 - d2) by lia.
  change (0 - 0) with 0.
  set (e' := Z.min (fexp fprec femax (d1 - d2)) 0).
  assert (He' : -1074 <= e' <= e).
  { subst e'. pose proof (fexp_mono _ _ Hdig) as Hmono.
    rewrite Hfe in Hmono. rewrite fexp_eq in *. lia. }
  set (sh := 0 - e').
  assert (Hsh : - e <= sh) by (subst sh; lia).
  assert (Hm' : match sh with
                | Z0 => Zpos n
                | Zpos _ => Z.shiftl (Zpos n) sh
                | Zneg _ => 0
                end = (Zpos m * 2 ^ (sh + e)) * Zpos d).
  { replace ((Zpos m * 2 ^ (sh + e)) * Zpos d)
      with ((Zpos d * Zpos m) * 2 ^ (sh + e)) by ring.
    rewrite <- Hq, <- Z.mul_assoc, <- Z.pow_add_r by lia.
    replace (- e + (sh + e)) with sh by lia.
    clearbody sh. destruct sh as [|p|p]; [lia | | lia].
    apply Z.shiftl_mul_pow2. lia. }
  rewrite Hm', div_eucl_exact by lia.
  rewrite new_location_zero, xorb_false_r.
  assert (Hpos : 0 < Zpos m * 2 ^ (sh + e)).
  { apply Z.mul_pos_pos; [lia | apply pow2_pos; lia]. }
  destruct (Zpos m * 2 ^ (sh + e)) as [|q|q] eqn:Eq; try lia.
  assert (HV : Zpos q * 2 ^ (e' + 1074) = Zpos m * 2 ^ (e + 1074)).
  { rewrite <- Eq, <- Z.mul_assoc, <- Z.pow_add_r by lia.
    do 2 f_equal. subst sh. lia. }
  assert (Hr : representable (Zpos q * 2 ^ (e' + 1074))).
  { rewrite HV. exact (scaled_representable (S754_finite false m e) Hv). }
  destruct (binary_round_aux_repr s q e' ltac:(lia) Hr) as (m'' & E'' & Er & Hb & Hval).
  - assert (Hdq : Zpos (digits2_pos q) = Zpos (digits2_pos m) + (sh + e)).
    { apply digits_mul_pow2; [lia | exact (eq_sym Eq)]. }
    rewrite Hdq.
    replace (Zpos (digits2_pos m) + (sh + e) + e')
      with (Zpos (digits2_pos m) + e) by (subst sh; lia).
    rewrite Hfe. lia.
  - rewrite Er. apply valid_float_unique; [exact Hb | exact Hv |].
    rewrite Hval. exact HV.
Qed.

Lemma round_shift_exact (a k : Z) :
  0 <= k -> round_shift (a * 2 ^ k) k = a.
Proof.
  intros Hk. unfold round_shift.
  pose proof (pow2_pos k Hk) as Hp.
  rewrite Z.div_mul, Z.mod_mul by lia.
  replace (2 * 0 ?= 2 ^ k) with Lt by (symmetry; apply Z.compare_lt_iff; lia).
  reflexivity.
Qed.

(** [round(l, 2)] returns [l] itself when [100 * l] is a whole number. *)
Lemma round_two_decimals_exact (s : bool) (m : positive) (e a : Z) :
  fvalid (S754_finite s m e) = true -> e <= 0 ->
  100 * Zpos m = a * 2 ^ (- e) ->
  py_round_ndigits (PFloat (S754_finite s m e)) 2
  = Val (PFloat (S754_finite s m e)).
Proof.
  intros Hv He Ha.
  pose proof (pow2_pos (- e) ltac:(lia)) as Hp.
  assert (Hapos : 0 < a) by nia.
  unfold py_round_ndigits. change (10 ^ Z.of_N 2) with 100. cbv zeta.
  assert (Hn : round_scaled 100 m e = a).
  { unfold round_scaled. destruct (Z.leb_spec 0 e) as [H0|H0].
    - replace e with 0 in * by lia. cbn in Ha. lia.
    - rewrite Ha. apply round_shift_exact. lia. }
  rewrite Hn. destruct a as [|n|n]; try lia.
  assert (Hraw : raw_of_int (cond_Zopp s (Zpos n)) s = S754_finite s n 0).
  { destruct s; reflexivity. }
  rewrite Hraw. cbn [raw_of_int].
  rewrite (fdiv_exact_int s n 100 m e Hv He) by lia.
  reflexivity.
Qed.

(** The load of a total weight that is a multiple of 5 has at most one
    decimal, and [round(..., 2)] leaves it as it is. *)
Lemma exact_display (z : Z) (l s : num) :
  (num_value (PInt (z * 5)) < inject_Z (2 ^ 53))%Q ->
  plate_weight (PInt (z * 5)) default_bar_weight = Val l ->
  py_round_ndigits l 2 = Val s ->
  s = l /\ (num_value l == (num_value (PInt (z * 5)) - 20) / 2)%Q.
Proof.
  intros Hlt Hl Hs.
  pose proof (value_lt_pow2 (PInt (z * 5)) 53 eq_refl ltac:(lia) Hlt) as Hhi.
  pose proof (plate_weight_val_ge (PInt (z * 5)) l eq_refl eq_refl Hl) as Hlo.
  destruct (plate_weight_exact (PInt (z * 5)) eq_refl eq_refl Hlo Hhi)
    as (L & EL & VL & FL & SL).
  rewrite EL in Hl. inversion Hl; subst l. clear Hl.
  split; [|exact (load_value (PInt (z * 5)) L eq_refl VL SL)].
  rewrite scaled_multiple_of_5 in SL, Hhi, Hlo.
  assert (HL : scaled L = (z - 4) * unit25).
  { revert SL. generalize unit25, (scaled L). intros U S HS. lia. }
  pose proof unit25_pos as Upos.
  assert (Hz4 : 4 <= z).
  { revert Hlo Upos. generalize unit25. intros U H1 H2. nia. }
  destruct L as [sg|sg| |sg m e]; try discriminate.
  - cbn [py_round_ndigits] in Hs. congruence.
  - pose proof (valid_finite_inv _ _ _ VL) as (He & Hm & _).
    pose proof (pow2_pos (e + 1074) ltac:(lia)) as Hp.
    assert (Hsg : sg = false).
    { destruct sg; [exfalso|reflexivity]. cbn [scaled cond_Zopp] in HL.
      assert (0 <= (z - 4) * unit25) by (apply Z.mul_nonneg_nonneg; lia).
      revert HL H Hp. generalize ((z - 4) * unit25), (2 ^ (e + 1074)).
      intros A B H1 H2 H3. nia. }
    subst sg. cbn [scaled cond_Zopp] in HL.
    assert (He0 : e <= -1).
    { (* the load is below [2 ^ 52] *)
      destruct (Z_le_gt_dec e (-1)) as [|Hge]; [assumption|]. exfalso.
      pose proof (normal_mantissa _ _ _ VL ltac:(lia)) as [Hm52 _].
      assert (Hbig : 2 ^ 52 * 2 ^ 1074 <= Zpos m * 2 ^ (e + 1074)).
      { apply Z.mul_le_mono_nonneg; try lia.
        apply Z.pow_le_mono_r; lia. }
      rewrite HL in Hbig.
      assert (E53 : 2 ^ (53 + 1074) = 2 * (2 ^ 52 * 2 ^ 1074)).
      { rewrite <- Z.pow_add_r by lia.
        change (53 + 1074) with (1 + (52 + 1074)).
        rewrite (Z.pow_add_r 2 1) by lia. reflexivity. }
      rewrite E53 in Hhi.
      revert Hbig Hhi Upos. clear.
      generalize (2 ^ 52 * 2 ^ 1074), unit25.
      intros A U H1 H2 H3. lia. }
    rewrite (round_two_decimals_exact false m e (50 * (5 * (z - 4))) VL
               ltac:(lia)) in Hs; [congruence|].
    unfold unit25 in HL.
    rewrite (pow2_split 1073 (e + 1074)) in HL by lia.
    replace (1073 - (e + 1074)) with (- e - 1) in HL by lia.
    pose proof (pow2_pos (- e - 1) ltac:(lia)) as Hp1.
    assert (Hm1 : Zpos m = 5 * (z - 4) * 2 ^ (- e - 1)).
    { apply (Z.mul_cancel_r _ _ (2 ^ (e + 1074))); [lia|].
      rewrite HL. ring. }
    rewrite Hm1.
    replace (- e) with (1 + (- e - 1)) at 2 by lia.
    rewrite (Z.pow_add_r 2 1) by lia. change (2 ^ 1) with 2. ring.
Qed.

End DisplayFacts.

Module BoundFacts.
Import Py App Value Spec Props FloatFacts LoopFacts RoundFacts PlanFacts
  LoadFacts ApiFacts DisplayFacts.

(** *** A rounded result lies between the neighbours of the exact one *)

Lemma inexact_step (A B : Z) :
  0 < B ->
  negb (A mod (B * 2) =? 0)
  = Z.odd (A / B) || negb (A mod B =? 0).
Proof.
  intros HB. rewrite Z.rem_mul_r by lia.
  pose proof (Z.mod_pos_bound A B HB) as Hm.
  rewrite Zmod_odd.
  destruct (Z.odd (A / B)); cbn [orb].
  - apply negb_true_iff, Z.eqb_neq. lia.
  - rewrite Z.mul_0_r, Z.add_0_r. reflexivity.
Qed.

(** Shifting the quotient [A / B]: the two flags together tell whether
    anything was lost. *)
Lemma iter_shr_flags (n : nat) (A B : Z) (r s : bool) :
  0 <= A -> 0 < B -> r || s = negb (A mod B =? 0) ->
  exists r' s',
    Nat.iter n shr_1 (Build_shr_record (A / B) r s)
    = Build_shr_record (A / (B * 2 ^ Z.of_nat n)) r' s' /\
    r' || s' = negb (A mod (B * 2 ^ Z.of_nat n) =? 0).
Proof.
  intros HA HB Hf. induction n as [|n IH].
  - exists r, s. cbn [Nat.iter Z.of_nat]. rewrite Z.pow_0_r, Z.mul_1_r.
    split; [reflexivity | exact Hf].
  - destruct IH as (r1 & s1 & E1 & F1).
    change (Nat.iter (S n) shr_1 ?x) with (shr_1 (Nat.iter n shr_1 x)).
    rewrite E1.
    pose proof (pow2_pos (Z.of_nat n) ltac:(lia)) as Hp.
    assert (HB' : 0 < B * 2 ^ Z.of_nat n) by (apply Z.mul_pos_pos; lia).
    rewrite shr_1_nonneg by (apply Z.div_pos; lia).
    replace (Z.of_nat (S n)) with (Z.of_nat n + 1) by lia.
    rewrite Z.pow_add_r, Z.pow_1_r, Z.mul_assoc by lia.
    do 2 eexists. split.
    + rewrite Z.div_div by lia. reflexivity.
    + rewrite inexact_step by lia. rewrite F1. reflexivity.
Qed.

Lemma shr_flags (A B e n : Z) (r s : bool) :
  0 <= A -> 0 < B -> 0 <= n -> r || s = negb (A mod B =? 0) ->
  exists r' s',
    shr (Build_shr_record (A / B) r s) e n
    = (Build_shr_record (A / (B * 2 ^ n)) r' s', e + n) /\
    r' || s' = negb (A mod (B * 2 ^ n) =? 0).
Proof.
  intros HA HB Hn Hf. destruct n as [|p|p]; try lia.
  - exists r, s. cbn [shr]. rewrite Z.pow_0_r, Z.mul_1_r, Z.add_0_r.
    split; [reflexivity | exact Hf].
  - cbn [shr]. rewrite iter_pos_nat.
    destruct (iter_shr_flags (Pos.to_nat p) A B r s HA HB Hf)
      as (r' & s' & E & F).
    rewrite positive_nat_Z in E, F.
    exists r', s'. rewrite E. split; [reflexivity | exact F].
Qed.

Lemma round_nearest_even_cases (m : Z) (r s : bool) :
  round_nearest_even m (loc_of_shr_record (Build_shr_record m r s)) = m \/
  (round_nearest_even m (loc_of_shr_record (Build_shr_record m r s)) = m + 1
   /\ r || s = true).
Proof.
  destruct r, s; cbn [loc_of_shr_record round_nearest_even orb].
  - right. split; reflexivity.
  - destruct (Z.even m); [left | right; split]; reflexivity.
  - left. reflexivity.
  - left. reflexivity.
Qed.

Lemma loc_flags (m : Z) (l : location) :
  exists r s, shr_record_of_loc m l = Build_shr_record m r s /\
              (r || s = false <-> l = loc_Exact).
Proof.
  destruct l as [|[| |]]; cbn [shr_record_of_loc]; do 2 eexists;
    (split; [reflexivity|]); cbn [orb]; split; congruence.
Qed.

(** Rounding the quotient [A / B] (with the location of the rest) at the
    exponent [ex], when the quotient has [53 + n] bits: the result is the
    multiple [j] of [2 ^ (ex + n)] just below or just above the exact
    value, and it is the one below when nothing is lost. *)
Lemma round_aux_floor_ceil (s : bool) (A B ex n : Z) (lx : location) :
  0 <= A -> 0 < B -> (lx = loc_Exact <-> A mod B = 0) ->
  Zdigits2 (A / B) = 53 + n -> 0 <= n -> -1074 <= ex + n <= 970 ->
  exists (R : positive) (E j : Z),
    binary_round_aux fprec femax s (A / B) ex lx = S754_finite s R E /\
    fvalid (S754_finite s R E) = true /\
    Zpos R * 2 ^ (E + 1074) = j * 2 ^ (ex + n + 1074) /\
    (j = A / (B * 2 ^ n) \/
     (j = A / (B * 2 ^ n) + 1 /\ A mod (B * 2 ^ n) <> 0)).
Proof.
  intros HA HB Hlx Hd Hn He.
  pose proof (pow2_pos n Hn) as Hp.
  assert (HK : 0 < B * 2 ^ n) by (apply Z.mul_pos_pos; lia).
  assert (Hmx : 2 ^ (52 + n) <= A / B < 2 ^ (53 + n)).
  { pose proof (Z.div_pos A B HA HB) as Hnn.
    destruct (A / B) as [|q|q] eqn:Eq; cbn [Zdigits2] in Hd; try lia.
    pose proof (digits_bounds q) as Hb. rewrite Hd in Hb.
    replace (53 + n - 1) with (52 + n) in Hb by lia. exact Hb. }
  assert (Hq : 2 ^ 52 <= A / (B * 2 ^ n) < 2 ^ 53).
  { rewrite <- Z.div_div by lia. rewrite !Z.pow_add_r in Hmx by lia.
    split; [apply Z.div_le_lower_bound; lia|].
    apply Z.div_lt_upper_bound; lia. }
  unfold binary_round_aux, shr_fexp. rewrite Hd, fexp_eq.
  replace (Z.max (53 + n + ex - 53) (-1074) - ex) with n by lia.
  destruct (loc_flags (A / B) lx) as (r0 & s0 & Erec & Hfl).
  rewrite Erec.
  assert (Hf0 : r0 || s0 = negb (A mod B =? 0)).
  { destruct (Z.eqb_spec (A mod B) 0) as [E0|N0]; cbn [negb].
    - apply Hfl, Hlx, E0.
    - destruct (r0 || s0) eqn:Ef; [reflexivity|].
      exfalso. apply N0, Hlx, Hfl. reflexivity. }
  destruct (shr_flags A B ex n r0 s0 HA HB Hn Hf0) as (r1 & s1 & Es & Hf1).
  rewrite Es. cbn [shr_m].
  set (q := A / (B * 2 ^ n)) in *.
  assert (Hj : exists j,
             round_nearest_even q (loc_of_shr_record (Build_shr_record q r1 s1)) = j
             /\ (j = q \/ (j = q + 1 /\ A mod (B * 2 ^ n) <> 0))).
  { destruct (round_nearest_even_cases q r1 s1) as [E|[E F]]; rewrite E.
    - exists q. split; [reflexivity | left; reflexivity].
    - exists (q + 1). split; [reflexivity|]. right. split; [reflexivity|].
      rewrite F in Hf1. symmetry in Hf1.
      apply negb_true_iff, Z.eqb_neq in Hf1. exact Hf1. }
  destruct Hj as (j & Ej & Hj). rewrite Ej. clear Ej.
  assert (Hjb : 2 ^ 52 <= j <= 2 ^ 53) by (destruct Hj as [->|[-> _]]; lia).
  destruct j as [|jp|jp]; try lia.
  destruct (Z.ltb_spec (Zpos jp) (2 ^ 53)) as [Hlt|Hge].
  - assert (Hdr : Zpos (digits2_pos jp) = 53).
    { apply digits_unique. change (53 - 1) with 52. lia. }
    cbn [Zdigits2]. rewrite Hdr, fexp_eq.
    replace (Z.max (53 + (ex + n) - 53) (-1074) - (ex + n)) with 0 by lia.
    cbn [shr shr_record_of_loc shr_m].
    change (femax - fprec) with 971.
    rewrite (proj2 (Z.leb_le (ex + n) 971)) by lia.
    exists jp, (ex + n), (Zpos jp). split; [reflexivity|]. split.
    + unfold fvalid, valid_binary, bounded, canonical_mantissa.
      rewrite Hdr, fexp_eq.
      apply andb_true_iff. split; [apply Z.eqb_eq; lia|].
      apply Z.leb_le. unfold femax, fprec. lia.
    + split; [reflexivity | exact Hj].
  - assert (Er' : jp = 9007199254740992%positive).
    { change (2 ^ 53) with 9007199254740992 in *. lia. }
    subst jp. cbn [Zdigits2].
    change (Zpos (digits2_pos 9007199254740992)) with 54.
    rewrite fexp_eq.
    replace (Z.max (54 + (ex + n) - 53) (-1074) - (ex + n)) with 1 by lia.
    cbn [shr shr_record_of_loc iter_pos shr_1 shr_m].
    change (femax - fprec) with 971.
    rewrite (proj2 (Z.leb_le (ex + n + 1) 971)) by lia.
    exists 4503599627370496%positive, (ex + n + 1), 9007199254740992.
    split; [reflexivity|]. split.
    + unfold fvalid, valid_binary, bounded, canonical_mantissa.
      change (Zpos (digits2_pos 4503599627370496)) with 53.
      rewrite fexp_eq.
      apply andb_true_iff. split; [apply Z.eqb_eq; lia|].
      apply Z.leb_le. unfold femax, fprec. lia.
    + split; [|exact Hj].
      replace (ex + n + 1 + 1074) with (1 + (ex + n + 1074)) by lia.
      rewrite (Z.pow_add_r 2 1) by lia. change (2 ^ 1) with 2.
      generalize (2 ^ (ex + n + 1074)). intros U. lia.
Qed.

Lemma grid_lower (A K g j : Z) (mr : positive) (er : Z) :
  0 < K -> -1074 <= g -> 2 ^ 52 <= A / K -> A / K <= j ->
  fvalid (S754_finite false mr er) = true ->
  Zpos mr * 2 ^ (er + 1074) * K <= A * 2 ^ (g + 1074) ->
  Zpos mr * 2 ^ (er + 1074) <= j * 2 ^ (g + 1074).
Proof.
  intros HK Hg Hq Hj Hv Hle.
  pose proof (valid_finite_inv _ _ _ Hv) as (He & Hm & _).
  pose proof (pow2_pos (g + 1074) ltac:(lia)) as HG.
  destruct (Z_le_gt_dec g er) as [Hge|Hlt].
  - rewrite (pow2_split (er + 1074) (g + 1074)) in * by lia.
    replace (er + 1074 - (g + 1074)) with (er - g) in * by lia.
    pose proof (pow2_pos (er - g) ltac:(lia)) as Hp.
    rewrite Z.mul_assoc in *.
    set (J := Zpos mr * 2 ^ (er - g)) in *.
    assert (HJ : J * K <= A).
    { apply (Z.mul_le_mono_pos_r _ _ (2 ^ (g + 1074))); [exact HG|].
      replace (J * K * 2 ^ (g + 1074)) with (J * 2 ^ (g + 1074) * K) by ring.
      exact Hle. }
    assert (HJq : J <= A / K) by (apply Z.div_le_lower_bound; lia).
    apply Z.mul_le_mono_nonneg_r; lia.
  - apply Z.le_trans with (2 ^ 52 * 2 ^ (g + 1074)).
    + replace (g + 1074) with (1 + (g - 1 + 1074)) by lia.
      rewrite (Z.pow_add_r 2 1) by lia. change (2 ^ 1) with 2.
      assert (Hpe : 2 ^ (er + 1074) <= 2 ^ (g - 1 + 1074))
        by (apply Z.pow_le_mono_r; lia).
      pose proof (pow2_pos (er + 1074) ltac:(lia)) as Hp.
      change (2 ^ 53) with 9007199254740992 in Hm.
      change (2 ^ 52) with 4503599627370496.
      revert Hpe Hp. generalize (2 ^ (er + 1074)), (2 ^ (g - 1 + 1074)).
      intros P Q HPQ HP. nia.
    + apply Z.mul_le_mono_nonneg_r; lia.
Qed.

Lemma grid_upper (A K g j : Z) (mr : positive) (er : Z) :
  0 < K -> -1074 <= g -> 2 ^ 52 <= A / K ->
  (j = A / K \/ (j = A / K + 1 /\ A mod K <> 0)) ->
  fvalid (S754_finite false mr er) = true ->
  A * 2 ^ (g + 1074) <= Zpos mr * 2 ^ (er + 1074) * K ->
  j * 2 ^ (g + 1074) <= Zpos mr * 2 ^ (er + 1074).
Proof.
  intros HK Hg Hq Hj Hv Hle.
  pose proof (valid_finite_inv _ _ _ Hv) as (He & Hm & _).
  pose proof (pow2_pos (g + 1074) ltac:(lia)) as HG.
  pose proof (Z.div_mod A K ltac:(lia)) as Hdm.
  pose proof (Z.mod_pos_bound A K HK) as Hmod.
  destruct (Z_le_gt_dec g er) as [Hge|Hlt].
  - rewrite (pow2_split (er + 1074) (g + 1074)) in * by lia.
    replace (er + 1074 - (g + 1074)) with (er - g) in * by lia.
    pose proof (pow2_pos (er - g) ltac:(lia)) as Hp.
    rewrite Z.mul_assoc in *.
    set (J := Zpos mr * 2 ^ (er - g)) in *.
    assert (HJ : A <= J * K).
    { apply (Z.mul_le_mono_pos_r _ _ (2 ^ (g + 1074))); [exact HG|].
      replace (J * K * 2 ^ (g + 1074)) with (J * 2 ^ (g + 1074) * K) by ring.
      exact Hle. }
    assert (HjJ : j <= J).
    { destruct Hj as [->|[-> Hne]].
      - apply Z.div_le_upper_bound; lia.
      - assert (A / K < J); [|lia].
        apply Z.div_lt_upper_bound; [lia|].
        assert (Hneq : A <> J * K).
        { intros E. apply Hne. rewrite E. apply Z.mod_mul. lia. }
        rewrite (Z.mul_comm K J). lia. }
    apply Z.mul_le_mono_nonneg_r; lia.
  - exfalso.
    assert (HKA : 2 ^ 52 * K <= A).
    { apply Z.le_trans with (K * (A / K)); [|lia].
      rewrite Z.mul_comm. apply Z.mul_le_mono_nonneg_l; lia. }
    assert (Hbig : 2 ^ 52 * K * 2 ^ (g + 1074) <= A * 2 ^ (g + 1074)).
    { apply Z.mul_le_mono_nonneg_r; [apply Z.lt_le_incl, HG | exact HKA]. }
    assert (Hsmall : Zpos mr * 2 ^ (er + 1074) * K
                     < 2 ^ 52 * 2 ^ (g + 1074) * K).
    { apply Z.mul_lt_mono_pos_r; [exact HK|].
      replace (g + 1074) with (1 + (g - 1 + 1074)) by lia.
      rewrite (Z.pow_add_r 2 1) by lia. change (2 ^ 1) with 2.
      assert (Hpe : 2 ^ (er + 1074) <= 2 ^ (g - 1 + 1074))
        by (apply Z.pow_le_mono_r; lia).
      pose proof (pow2_pos (er + 1074) ltac:(lia)) as Hp.
      change (2 ^ 53) with 9007199254740992 in Hm.
      change (2 ^ 52) with 4503599627370496.
      revert Hpe Hp. generalize (2 ^ (er + 1074)), (2 ^ (g - 1 + 1074)).
      intros P Q HPQ HP. nia. }
    replace (2 ^ 52 * 2 ^ (g + 1074) * K) with (2 ^ 52 * K * 2 ^ (g + 1074))
      in Hsmall by ring.
    lia.
Qed.

(** *** Bounds for a product and for a fifth *)

(** A float [r] below the exact product of two floats is below the
    rounded product as well, and likewise above. *)
Lemma fmul_between (mt mc : positive) (et ec : Z) :
  fvalid (S754_finite false mt et) = true ->
  fvalid (S754_finite false mc ec) = true ->
  -1074 < et -> -1074 < ec -> -1074 <= et + ec + 52 -> et + ec + 53 <= 970 ->
  exists R E,
    fmul (S754_finite false mt et) (S754_finite false mc ec)
    = S754_finite false R E /\
    fvalid (S754_finite false R E) = true /\
    (forall mr er,
       fvalid (S754_finite false mr er) = true ->
       Zpos mr * 2 ^ (er + 1074) * 2 ^ 1074
       <= (Zpos mt * 2 ^ (et + 1074)) * (Zpos mc * 2 ^ (ec + 1074)) ->
       Zpos mr * 2 ^ (er + 1074) <= Zpos R * 2 ^ (E + 1074)) /\
    (forall mr er,
       fvalid (S754_finite false mr er) = true ->
       (Zpos mt * 2 ^ (et + 1074)) * (Zpos mc * 2 ^ (ec + 1074))
       <= Zpos mr * 2 ^ (er + 1074) * 2 ^ 1074 ->
       Zpos R * 2 ^ (E + 1074) <= Zpos mr * 2 ^ (er + 1074)).
Proof.
  intros Vt Vc Het Hec Hlo Hhi.
  pose proof (normal_mantissa _ _ _ Vt Het) as Hmt.
  pose proof (normal_mantissa _ _ _ Vc Hec) as Hmc.
  set (A := Zpos (mt * mc)).
  assert (HA : 2 ^ 104 <= A < 2 ^ 106).
  { subst A. rewrite Pos2Z.inj_mul.
    change (2 ^ 104) with (2 ^ 52 * 2 ^ 52).
    change (2 ^ 106) with (2 ^ 53 * 2 ^ 53).
    split; [apply Z.mul_le_mono_nonneg; lia|].
    apply Z.mul_lt_mono_nonneg; lia. }
  assert (Hn : exists n, 52 <= n <= 53 /\ Zdigits2 A = 53 + n /\
                         2 ^ (n + 52) <= A).
  { destruct (Z_lt_le_dec A (2 ^ 105)) as [Hlt|Hge].
    - exists 52. split; [lia|]. split; [|exact (proj1 HA)].
      subst A. cbn [Zdigits2].
      apply digits_unique. change (53 + 52 - 1) with 104.
      change (53 + 52) with 105. lia.
    - exists 53. split; [lia|]. split; [|exact Hge].
      subst A. cbn [Zdigits2].
      apply digits_unique. change (53 + 53 - 1) with 105.
      change (53 + 53) with 106. lia. }
  destruct Hn as (n & Hn & Hd & HAn).
  assert (Hloc : loc_Exact = loc_Exact <-> A mod 1 = 0).
  { split; [intros _; apply Z.mod_1_r | reflexivity]. }
  rewrite <- (Z.div_1_r A) in Hd.
  destruct (round_aux_floor_ceil false A 1 (et + ec) n loc_Exact
              ltac:(lia) ltac:(lia) Hloc Hd ltac:(lia) ltac:(lia))
    as (R & E & j & ER & VR & Hval & Hj).
  rewrite Z.div_1_r in ER. rewrite Z.mul_1_l in Hj.
  exists R, E. split; [exact ER|]. split; [exact VR|].
  pose proof (pow2_pos n ltac:(lia)) as Hpn.
  assert (Hq : 2 ^ 52 <= A / 2 ^ n).
  { apply Z.div_le_lower_bound; [lia|].
    rewrite <- Z.pow_add_r by lia. exact HAn. }
  pose proof (pow2_pos 1074 ltac:(lia)) as HU.
  assert (Hprod : (Zpos mt * 2 ^ (et + 1074)) * (Zpos mc * 2 ^ (ec + 1074)) * 2 ^ n
                  = A * 2 ^ (et + ec + n + 1074) * 2 ^ 1074).
  { subst A. rewrite Pos2Z.inj_mul.
    replace (et + ec + n + 1074) with ((et + 1074) + (ec + 1074) + n - 1074)
      by lia.
    replace (Zpos mt * Zpos mc
             * 2 ^ (et + 1074 + (ec + 1074) + n - 1074) * 2 ^ 1074)
      with (Zpos mt * Zpos mc
            * (2 ^ (et + 1074 + (ec + 1074) + n - 1074) * 2 ^ 1074)) by ring.
    rewrite <- Z.pow_add_r by lia.
    replace (et + 1074 + (ec + 1074) + n - 1074 + 1074)
      with ((et + 1074) + (ec + 1074) + n) by lia.
    rewrite (Z.pow_add_r 2 (et + 1074 + (ec + 1074)) n) by lia.
    rewrite (Z.pow_add_r 2 (et + 1074) (ec + 1074)) by lia. ring. }
  rewrite Hval. split; intros mr er Vr Hr.
  - apply (grid_lower A (2 ^ n) (et + ec + n) j mr er); try assumption;
      try lia.
    apply (Z.mul_le_mono_pos_r _ _ (2 ^ 1074)); [exact HU|].
    rewrite <- Hprod.
    replace (Zpos mr * 2 ^ (er + 1074) * 2 ^ n * 2 ^ 1074)
      with (Zpos mr * 2 ^ (er + 1074) * 2 ^ 1074 * 2 ^ n) by ring.
    apply Z.mul_le_mono_nonneg_r; [lia | exact Hr].
  - apply (grid_upper A (2 ^ n) (et + ec + n) j mr er); try assumption;
      try lia.
    apply (Z.mul_le_mono_pos_r _ _ (2 ^ 1074)); [exact HU|].
    rewrite <- Hprod.
    replace (Zpos mr * 2 ^ (er + 1074) * 2 ^ n * 2 ^ 1074)
      with (Zpos mr * 2 ^ (er + 1074) * 2 ^ 1074 * 2 ^ n) by ring.
    apply Z.mul_le_mono_nonneg_r; [lia | exact Hr].
Qed.

Lemma new_location_5 (r : Z) :
  new_location 5629499534213120 r = loc_Exact <-> r = 0.
Proof.
  unfold new_location. change (Z.even 5629499534213120) with true.
  cbv iota. unfold new_location_even.
  destruct (Z.eqb_spec r 0) as [E|N]; split; intros H;
    try reflexivity; try assumption; try discriminate. contradiction.
Qed.

(** The same for the division by [5.0]. *)
Lemma fdiv5_between (ma : positive) (ea : Z) :
  fvalid (S754_finite false ma ea) = true -> -1071 <= ea ->
  exists R E,
    fdiv (S754_finite false ma ea) lit_5 = S754_finite false R E /\
    fvalid (S754_finite false R E) = true /\
    (forall mr er,
       fvalid (S754_finite false mr er) = true ->
       5 * (Zpos mr * 2 ^ (er + 1074)) <= Zpos ma * 2 ^ (ea + 1074) ->
       Zpos mr * 2 ^ (er + 1074) <= Zpos R * 2 ^ (E + 1074)) /\
    (forall mr er,
       fvalid (S754_finite false mr er) = true ->
       Zpos ma * 2 ^ (ea + 1074) <= 5 * (Zpos mr * 2 ^ (er + 1074)) ->
       Zpos R * 2 ^ (E + 1074) <= Zpos mr * 2 ^ (er + 1074)).
Proof.
  intros Va Hea.
  pose proof (valid_finite_inv _ _ _ Va) as (Hec & _ & _).
  pose proof (normal_mantissa _ _ _ Va ltac:(lia)) as Hma.
  assert (Hda : Zpos (digits2_pos ma) = 53).
  { apply digits_unique. change (53 - 1) with 52. exact Hma. }
  unfold fdiv, SFdiv, lit_5, SFdiv_core_binary. cbn [Zdigits2 xorb].
  rewrite Hda. change (Zpos (digits2_pos 5629499534213120)) with 53.
  rewrite fexp_eq.
  replace (Z.min (Z.max (53 + ea - (53 + -50) - 53) (-1074)) (ea - -50))
    with (ea - 3) by lia.
  replace (ea - -50 - (ea - 3)) with 53 by lia. cbv iota.
  rewrite Z.shiftl_mul_pow2 by lia.
  set (A := Zpos ma * 2 ^ 53).
  rewrite div_eucl_div.
  change (2 ^ 52) with 4503599627370496 in Hma.
  change (2 ^ 53) with 9007199254740992 in Hma.
  assert (HA : 0 <= A) by (subst A; lia).
  assert (HAe : A = Zpos ma * 8 * 1125899906842624).
  { subst A. change (2 ^ 53) with (8 * 1125899906842624). ring. }
  assert (Hq8 : A / 5629499534213120 = Zpos ma * 8 / 5).
  { rewrite HAe. change 5629499534213120 with (5 * 1125899906842624).
    apply Z.div_mul_cancel_r; lia. }
  assert (Hqb : 4503599627370496 <= A / 5629499534213120 < 18014398509481984).
  { rewrite Hq8. split.
    - apply Z.div_le_lower_bound; lia.
    - apply Z.div_lt_upper_bound; lia. }
  assert (Hn : exists n, 0 <= n <= 1 /\
                         Zdigits2 (A / 5629499534213120) = 53 + n).
  { destruct (A / 5629499534213120) as [|q|q] eqn:Eq; try lia.
    destruct (Z_lt_le_dec (Zpos q) 9007199254740992) as [Hlt|Hge].
    - exists 0. split; [lia|]. cbn [Zdigits2]. apply digits_unique.
      change (2 ^ (53 + 0 - 1)) with 4503599627370496.
      change (2 ^ (53 + 0)) with 9007199254740992. lia.
    - exists 1. split; [lia|]. cbn [Zdigits2]. apply digits_unique.
      change (2 ^ (53 + 1 - 1)) with 9007199254740992.
      change (2 ^ (53 + 1)) with 18014398509481984. lia. }
  destruct Hn as (n & Hn & Hd).
  destruct (round_aux_floor_ceil false A 5629499534213120 (ea - 3) n
              (new_location 5629499534213120 (A mod 5629499534213120))
              HA ltac:(lia) (new_location_5 _) Hd ltac:(lia) ltac:(lia))
    as (R & E & j & ER & VR & Hval & Hj).
  exists R, E. split; [exact ER|]. split; [exact VR|].
  pose proof (pow2_pos n ltac:(lia)) as Hpn.
  assert (HK : 0 < 5629499534213120 * 2 ^ n) by lia.
  assert (Hq : 2 ^ 52 <= A / (5629499534213120 * 2 ^ n)).
  { rewrite <- Z.div_div by lia.
    apply Z.div_le_lower_bound; [lia|].
    assert (Hn' : n = 0 \/ n = 1) by lia.
    destruct Hn' as [-> | ->].
    - change (2 ^ 0 * 2 ^ 52) with 4503599627370496. lia.
    - destruct (A / 5629499534213120) as [|q|q] eqn:Eq; try lia.
      cbn [Zdigits2] in Hd. pose proof (digits_bounds q) as Hb.
      rewrite Hd in Hb. exact (proj1 Hb). }
  assert (Hprod : A * 2 ^ (ea - 3 + n + 1074)
                  = Zpos ma * 2 ^ (ea + 1074) * (1125899906842624 * 2 ^ n)).
  { subst A. change 1125899906842624 with (2 ^ 50).
    rewrite <- !Z.mul_assoc. f_equal.
    rewrite <- !Z.pow_add_r by lia. f_equal. lia. }
  rewrite Hval. split; intros mr er Vr Hr.
  - apply (grid_lower A (5629499534213120 * 2 ^ n) (ea - 3 + n) j mr er);
      try assumption; try lia.
    rewrite Hprod.
    replace (Zpos mr * 2 ^ (er + 1074) * (5629499534213120 * 2 ^ n))
      with (5 * (Zpos mr * 2 ^ (er + 1074)) * (1125899906842624 * 2 ^ n))
      by ring.
    apply Z.mul_le_mono_nonneg_r; [lia | exact Hr].
  - apply (grid_upper A (5629499534213120 * 2 ^ n) (ea - 3 + n) j mr er);
      try assumption; try lia.
    rewrite Hprod.
    replace (Zpos mr * 2 ^ (er + 1074) * (5629499534213120 * 2 ^ n))
      with (5 * (Zpos mr * 2 ^ (er + 1074)) * (1125899906842624 * 2 ^ n))
      by ring.
    apply Z.mul_le_mono_nonneg_r; [lia | exact Hr].
Qed.

(** *** The smallest target with a plan *)

Lemma nearest_even_ge_4 (n h : Z) :
  0 < h -> 7 * h <= n -> 4 <= nearest_even n (2 * h).
Proof.
  intros Hh Hn. unfold nearest_even.
  pose proof (Z.div_mod n (2 * h) ltac:(lia)) as Hdm.
  pose proof (Z.mod_pos_bound n (2 * h) ltac:(lia)) as Hm.
  assert (Hq : 3 <= n / (2 * h)) by (apply Z.div_le_lower_bound; lia).
  destruct (Z.eq_dec (n / (2 * h)) 3) as [E3|N3].
  - rewrite E3 in *.
    destruct (Z.compare_spec (2 * (n mod (2 * h))) (2 * h)) as [E|L|G];
      [reflexivity | lia | lia].
  - destruct (2 * (n mod (2 * h)) ?= 2 * h);
      [destruct (Z.even (n / (2 * h)))| |]; lia.
Qed.

Lemma nearest_even_le_3 (n h : Z) :
  0 < h -> n < 7 * h -> nearest_even n (2 * h) <= 3.
Proof.
  intros Hh Hn. unfold nearest_even.
  pose proof (Z.div_mod n (2 * h) ltac:(lia)) as Hdm.
  pose proof (Z.mod_pos_bound n (2 * h) ltac:(lia)) as Hm.
  assert (Hq : n / (2 * h) <= 3).
  { assert (n / (2 * h) < 4); [|lia]. apply Z.div_lt_upper_bound; lia. }
  destruct (Z.eq_dec (n / (2 * h)) 3) as [E3|N3].
  - rewrite E3 in *.
    destruct (Z.compare_spec (2 * (n mod (2 * h))) (2 * h)) as [E|L|G];
      [lia | lia | lia].
  - destruct (2 * (n mod (2 * h)) ?= 2 * h);
      [destruct (Z.even (n / (2 * h)))| |]; lia.
Qed.

Lemma py_round_scaled (b : spec_float) :
  fvalid b = true -> is_finite b = true ->
  py_round (PFloat b) = Val (PInt (nearest_even (scaled b) (2 * 2 ^ 1073))).
Proof.
  intros Vb Fb. rewrite (py_round_spec b Fb).
  rewrite (round_half_even_ext _ _ (F2Q_scaled b Vb)).
  rewrite round_half_even_make, scale_den_Z.
  rewrite (pow2_split 1074 1073) by lia.
  change (2 ^ (1074 - 1073)) with 2. reflexivity.
Qed.

Lemma warmup_weight_steps (c : spec_float) (t : num) (f : spec_float) :
  to_float t = Val f ->
  warmup_weight c t
  = (r <- py_round (PFloat (fdiv (fmul f c) lit_5)) ;; py_mul r (PInt 5)).
Proof.
  intros Ef. unfold warmup_weight.
  assert (Emul : py_mul t (PFloat c) = Val (PFloat (fmul f c))).
  { destruct t as [x|g]; unfold py_mul; rewrite Ef; reflexivity. }
  rewrite Emul. cbn [bind py_truediv to_float]. rewrite float_of_int_5.
  cbn [bind is_zero lit_5]. reflexivity.
Qed.

Lemma exp_lower (m : positive) (e k : Z) :
  -1074 <= e -> 0 <= k -> Zpos m < 2 ^ 53 ->
  2 ^ k <= Zpos m * 2 ^ (e + 1074) -> k - 1127 < e.
Proof.
  intros He Hk Hm Hle.
  assert (H1 : 2 ^ k < 2 ^ (53 + (e + 1074))).
  { rewrite (Z.pow_add_r 2 53) by lia.
    pose proof (pow2_pos (e + 1074) ltac:(lia)) as Pe.
    revert Hle Pe Hm. generalize (2 ^ k), (2 ^ (e + 1074)), (2 ^ 53).
    intros A B C H2 H3 H4. nia. }
  apply pow2_lt_inv in H1; lia.
Qed.

(** The float of an ordinary target of at least 20. *)
Lemma target_float_shape (t : num) :
  ordinary_target t -> 20 * 2 ^ 1074 <= num_scaled t ->
  exists mt et,
    to_float t = Val (S754_finite false mt et) /\
    fvalid (S754_finite false mt et) = true /\
    Zpos mt * 2 ^ (et + 1074) = num_scaled t /\ -48 <= et <= -3.
Proof.
  intros Ht H20.
  destruct (ordinary_float t Ht) as (f & Ef & Hof & Sf).
  pose proof Hof as (Vf & Ff & _). cbn [well_formed finite_num] in Vf, Ff.
  pose proof (ordinary_target_scaled _ Hof) as Hb. cbn [num_scaled] in Hb.
  pose proof (pow2_pos 1074 ltac:(lia)) as HU.
  assert (Hpos : 0 < scaled f) by (rewrite Sf; lia).
  destruct f as [s|s| |s m e]; try discriminate Ff;
    [exfalso; cbn [scaled] in Hpos; lia|].
  pose proof (valid_finite_inv _ _ _ Vf) as (He & Hm & _).
  pose proof (pow2_pos (e + 1074) ltac:(lia)) as Hp.
  destruct s; [cbn [scaled cond_Zopp] in Hpos; nia|].
  cbn [scaled cond_Zopp] in Sf, Hb.
  exists m, e. split; [exact Ef|]. split; [exact Vf|]. split; [exact Sf|].
  assert (Hlow : -48 <= e).
  { assert (H16 : 2 ^ 1078 <= Zpos m * 2 ^ (e + 1074)).
    { rewrite Sf. apply Z.le_trans with (20 * 2 ^ 1074); [|exact H20].
      change 1078 with (4 + 1074). rewrite Z.pow_add_r by lia.
      change (2 ^ 4) with 16. lia. }
    pose proof (exp_lower m e 1078 ltac:(lia) ltac:(lia) Hm H16). lia. }
  split; [exact Hlow|].
  pose proof (magnitude_of_bound (S754_finite false m e) 50 Vf Ff
                ltac:(lia)) as Hmag.
  cbn [scaled cond_Zopp magnitude] in Hmag. specialize (Hmag Hb).
  pose proof (normal_mantissa _ _ _ Vf ltac:(lia)) as Hn.
  assert (Hd : Zpos (digits2_pos m) = 53).
  { apply digits_unique. change (53 - 1) with 52. exact Hn. }
  lia.
Qed.

Lemma scaled_17_5 : 4925812092436480 * 2 ^ (-48 + 1074) = 35 * 2 ^ 1073.
Proof.
  change 4925812092436480 with (35 * 2 ^ 47).
  rewrite <- Z.mul_assoc, <- Z.pow_add_r by lia. reflexivity.
Qed.

Lemma scaled_3_5 : 7881299347898368 * 2 ^ (-51 + 1074) = 7 * 2 ^ 1073.
Proof.
  change 7881299347898368 with (7 * 2 ^ 50).
  rewrite <- Z.mul_assoc, <- Z.pow_add_r by lia. reflexivity.
Qed.

(** If [t * pct] is at least 17.5, the warmup weight is at least 20. *)
Lemma warmup_reaches_20 (mc : positive) (ec : Z) (t : num) :
  ordinary_target t -> 20 * 2 ^ 1074 <= num_scaled t ->
  fvalid (S754_finite false mc ec) = true -> -54 <= ec <= -53 ->
  35 * 2 ^ 1073 * 2 ^ 1074 <= num_scaled t * (Zpos mc * 2 ^ (ec + 1074)) ->
  exists z, warmup_weight (S754_finite false mc ec) t = Val (PInt (z * 5)) /\
            4 <= z.
Proof.
  intros Ht H20 Vc Hec Hprod.
  destruct (target_float_shape t Ht H20) as (mt & et & Ef & Vt & St & Het).
  destruct (fmul_between mt mc et ec Vt Vc ltac:(lia) ltac:(lia)
              ltac:(lia) ltac:(lia)) as (Ra & Ea & EA & Va & LoA & _).
  assert (HA : 35 * 2 ^ 1073 <= Zpos Ra * 2 ^ (Ea + 1074)).
  { rewrite <- scaled_17_5.
    apply (LoA 4925812092436480%positive (-48) eq_refl).
    rewrite scaled_17_5, St. exact Hprod. }
  pose proof (valid_finite_inv _ _ _ Va) as (HEa & HRa & _).
  assert (HEa' : -1071 <= Ea).
  { assert (H8 : 2 ^ 1077 <= Zpos Ra * 2 ^ (Ea + 1074)).
    { apply Z.le_trans with (35 * 2 ^ 1073); [|exact HA].
      change 1077 with (4 + 1073). rewrite Z.pow_add_r by lia.
      change (2 ^ 4) with 16. pose proof (pow2_pos 1073 ltac:(lia)). lia. }
    pose proof (exp_lower Ra Ea 1077 ltac:(lia) ltac:(lia) HRa H8). lia. }
  destruct (fdiv5_between Ra Ea Va HEa') as (Rb & Eb & EB & Vb & LoB & _).
  assert (HB : 7 * 2 ^ 1073 <= Zpos Rb * 2 ^ (Eb + 1074)).
  { rewrite <- scaled_3_5.
    apply (LoB 7881299347898368%positive (-51) eq_refl).
    rewrite scaled_3_5.
    replace (5 * (7 * 2 ^ 1073)) with (35 * 2 ^ 1073) by ring. exact HA. }
  rewrite (warmup_weight_steps _ t _ Ef), EA, EB.
  rewrite (py_round_scaled _ Vb eq_refl). cbn [bind py_mul scaled cond_Zopp].
  eexists. split; [reflexivity|].
  apply nearest_even_ge_4; [apply pow2_pos; lia | exact HB].
Qed.

(** If [t * 0.45] is below 17.5 by more than a rounding, the 45% warmup
    weight is at most 15. *)
Lemma warmup_45_below_20 (t : num) :
  ordinary_target t -> 20 * 2 ^ 1074 <= num_scaled t ->
  num_scaled t * (8106479329266893 * 2 ^ (-54 + 1074))
  <= 4925812092436479 * 2 ^ (-48 + 1074) * 2 ^ 1074 ->
  exists z, warmup_weight lit_0_45 t = Val (PInt (z * 5)) /\ z <= 3.
Proof.
  intros Ht H20 Hprod. unfold lit_0_45.
  destruct (target_float_shape t Ht H20) as (mt & et & Ef & Vt & St & Het).
  destruct (fmul_between mt 8106479329266893 et (-54) Vt eq_refl
              ltac:(lia) ltac:(lia) ltac:(lia) ltac:(lia))
    as (Ra & Ea & EA & Va & LoA & UpA).
  pose proof (pow2_pos 1074 ltac:(lia)) as HU.
  assert (HA4 : 2 ^ 1076 <= Zpos Ra * 2 ^ (Ea + 1074)).
  { change (2 ^ 1076) with (4503599627370496 * 2 ^ (-50 + 1074)).
    apply (LoA 4503599627370496%positive (-50) eq_refl).
    rewrite St.
    change (-50 + 1074) with 1024. change (-54 + 1074) with 1020.
    rewrite (pow2_split 1024 1020) by lia. change (2 ^ (1024 - 1020)) with 16.
    pose proof (pow2_pos 1020 ltac:(lia)) as HV.
    revert H20 HU HV. generalize (num_scaled t), (2 ^ 1074), (2 ^ 1020).
    intros T U V H1 H2 H3. nia. }
  assert (HA : Zpos Ra * 2 ^ (Ea + 1074) <= 4925812092436479 * 2 ^ (-48 + 1074)).
  { apply (UpA 4925812092436479%positive (-48) eq_refl).
    rewrite St. exact Hprod. }
  pose proof (valid_finite_inv _ _ _ Va) as (HEa & HRa & _).
  assert (HEa' : -1071 <= Ea).
  { pose proof (exp_lower Ra Ea 1076 ltac:(lia) ltac:(lia) HRa HA4). lia. }
  destruct (fdiv5_between Ra Ea Va HEa') as (Rb & Eb & EB & Vb & _ & UpB).
  assert (HB : Zpos Rb * 2 ^ (Eb + 1074) <= 7881299347898367 * 2 ^ (-51 + 1074)).
  { apply (UpB 7881299347898367%positive (-51) eq_refl).
    apply Z.le_trans with (1 := HA).
    change (-48 + 1074) with 1026. change (-51 + 1074) with 1023.
    rewrite (pow2_split 1026 1023) by lia. change (2 ^ (1026 - 1023)) with 8.
    pose proof (pow2_pos 1023 ltac:(lia)) as HV.
    revert HV. generalize (2 ^ 1023). intros V HV. lia. }
  rewrite (warmup_weight_steps _ t _ Ef), EA, EB.
  rewrite (py_round_scaled _ Vb eq_refl). cbn [bind py_mul scaled cond_Zopp].
  eexists. split; [reflexivity|].
  apply nearest_even_le_3; [apply pow2_pos; lia|].
  apply Z.le_lt_trans with (1 := HB).
  change (-51 + 1074) with 1023.
  rewrite (pow2_split 1073 1023) by lia.
  change (2 ^ (1073 - 1023)) with 1125899906842624.
  pose proof (pow2_pos 1023 ltac:(lia)) as HV.
  revert HV. generalize (2 ^ 1023). intros V HV. lia.
Qed.

Lemma value_ge_scaled (t : num) (p : Z) (q : positive) :
  well_formed t = true ->
  ((p # q <= num_value t)%Q <-> p * 2 ^ 1074 <= num_scaled t * Zpos q).
Proof.
  intros Wt. rewrite (num_value_scaled t Wt).
  unfold Qle. cbn [Qnum Qden]. rewrite scale_den_Z. reflexivity.
Qed.

Lemma value_le_scaled (t : num) (p : Z) (q : positive) :
  well_formed t = true ->
  ((num_value t <= p # q)%Q <-> num_scaled t * Zpos q <= p * 2 ^ 1074).
Proof.
  intros Wt. rewrite (num_value_scaled t Wt).
  unfold Qle. cbn [Qnum Qden]. rewrite scale_den_Z. reflexivity.
Qed.

(** From 38.9 on, the three warmup weights are at least 20. *)
Lemma warmups_from_38_89 (t : num) :
  ordinary_target t -> 3889 * 2 ^ 1074 <= num_scaled t * 100 ->
  exists za zb zc,
    calculate_warmup_weights t
    = Val (PInt (za * 5), PInt (zb * 5), PInt (zc * 5)) /\
    4 <= za /\ 4 <= zb /\ 4 <= zc.
Proof.
  intros Ht H3889.
  pose proof (pow2_pos 1074 ltac:(lia)) as HU.
  pose proof (pow2_pos 1020 ltac:(lia)) as HV.
  assert (H20 : 20 * 2 ^ 1074 <= num_scaled t) by lia.
  assert (E1073 : 2 ^ 1073 = 9007199254740992 * 2 ^ 1020).
  { rewrite (pow2_split 1073 1020) by lia. reflexivity. }
  assert (E1021 : 2 ^ 1021 = 2 * 2 ^ 1020).
  { rewrite (pow2_split 1021 1020) by lia. reflexivity. }
  destruct (warmup_reaches_20 8106479329266893 (-54) t Ht H20 eq_refl
              ltac:(lia)) as (za & Ea & Ha).
  { change (-54 + 1074) with 1020. rewrite E1073.
    revert H3889 HU HV. generalize (num_scaled t), (2 ^ 1074), (2 ^ 1020).
    intros T U V H1 H2 H3. nia. }
  destruct (warmup_reaches_20 5854679515581645 (-53) t Ht H20 eq_refl
              ltac:(lia)) as (zb & Eb & Hb).
  { change (-53 + 1074) with 1021. rewrite E1073, E1021.
    revert H3889 HU HV. generalize (num_scaled t), (2 ^ 1074), (2 ^ 1020).
    intros T U V H1 H2 H3. nia. }
  destruct (warmup_reaches_20 7656119366529843 (-53) t Ht H20 eq_refl
              ltac:(lia)) as (zc & Ec & Hc).
  { change (-53 + 1074) with 1021. rewrite E1073, E1021.
    revert H3889 HU HV. generalize (num_scaled t), (2 ^ 1074), (2 ^ 1020).
    intros T U V H1 H2 H3. nia. }
  exists za, zb, zc. rewrite calculate_warmup_weights_unfold.
  unfold lit_0_45, lit_0_65, lit_0_85. rewrite Ea, Eb, Ec.
  repeat split; assumption.
Qed.

(** Up to 38.8, the 45% warmup weight is at most 15. *)
Lemma warmup_45_up_to_38_88 (t : num) :
  ordinary_target t -> 20 * 2 ^ 1074 <= num_scaled t ->
  num_scaled t * 100 <= 3888 * 2 ^ 1074 ->
  exists z, warmup_weight lit_0_45 t = Val (PInt (z * 5)) /\ z <= 3.
Proof.
  intros Ht H20 H3888. apply warmup_45_below_20; try assumption.
  pose proof (pow2_pos 1074 ltac:(lia)) as HU.
  pose proof (pow2_pos 1020 ltac:(lia)) as HV.
  change (-54 + 1074) with 1020. change (-48 + 1074) with 1026.
  rewrite (pow2_split 1026 1020) by lia. change (2 ^ (1026 - 1020)) with 64.
  revert H20 H3888 HU HV. generalize (num_scaled t), (2 ^ 1074), (2 ^ 1020).
  intros T U V H0 H1 H2 H3. nia.
Qed.

Lemma plan_from_scaled_38_89 (t : num) :
  ordinary_target t -> 3889 * 2 ^ 1074 <= num_scaled t * 100 ->
  exists fuel0, forall fuel, (fuel0 <= fuel)%nat ->
    exists d, get_workout_data fuel t = Val d.
Proof.
  intros Ht Hge. pose proof Ht as (Wt & Ft & _).
  destruct (warmups_from_38_89 t Ht Hge) as (za & zb & zc & Hw & Ha & Hb & Hc).
  destruct (ordinary_warmups t Ht) as (a & b & c & Hw' & Ha' & Hb' & Hc').
  rewrite Hw in Hw'. inversion Hw'; subst a b c. clear Hw'.
  destruct (plan_outcome t _ _ _ Wt Ft (ordinary_below_2_53 t Ht) Hw Ha' Hb' Hc')
    as (fuel0 & Hrun).
  exists fuel0. intros fuel Hf. specialize (Hrun fuel Hf).
  assert (Hcond : (20 <=? za * 5) && (20 <=? zb * 5) && (20 <=? zc * 5)
                  && py_ge t (PInt 20) = true).
  { rewrite !(proj2 (Z.leb_le _ _)) by lia. cbn [andb].
    rewrite py_ge_scaled by (assumption || reflexivity).
    apply Z.leb_le. cbn [num_scaled].
    pose proof (pow2_pos 1074 ltac:(lia)) as HU.
    revert Hge HU. generalize (num_scaled t), (2 ^ 1074).
    intros T U H1 H2. lia. }
  rewrite Hcond in Hrun. exact Hrun.
Qed.

Lemma value_error_to_scaled_38_88 (t : num) :
  ordinary_target t -> num_scaled t * 100 <= 3888 * 2 ^ 1074 ->
  exists fuel0, forall fuel, (fuel0 <= fuel)%nat ->
    get_workout_data fuel t = Raise ValueError.
Proof.
  intros Ht Hle. pose proof Ht as (Wt & Ft & _).
  destruct (ordinary_warmups t Ht) as (a & b & c & Hw & Ha & Hb & Hc).
  destruct (plan_outcome t a b c Wt Ft (ordinary_below_2_53 t Ht) Hw Ha Hb Hc)
    as (fuel0 & Hrun).
  exists fuel0. intros fuel Hf. specialize (Hrun fuel Hf).
  assert (Hcond : (20 <=? a) && (20 <=? b) && (20 <=? c)
                  && py_ge t (PInt 20) = false).
  { destruct (py_ge t (PInt 20)) eqn:Hge; [|apply andb_false_r].
    rewrite py_ge_scaled in Hge by (assumption || reflexivity).
    apply Z.leb_le in Hge. cbn [num_scaled] in Hge.
    destruct (warmup_45_up_to_38_88 t Ht Hge Hle) as (z & Ez & Hz).
    rewrite calculate_warmup_weights_unfold, Ez in Hw. cbn [bind] in Hw.
    destruct (warmup_weight lit_0_65 t) as [wb| |]; cbn [bind] in Hw;
      try discriminate.
    destruct (warmup_weight lit_0_85 t) as [wc| |]; cbn [bind] in Hw;
      try discriminate.
    inversion Hw; subst a.
    rewrite (proj2 (Z.leb_gt 20 (z * 5))) by lia. reflexivity. }
  rewrite Hcond in Hrun. exact Hrun.
Qed.

End BoundFacts.

(** ** The warmup formula over exact numbers *)

Module FormulaFacts.
Import Py App Value Spec Props FloatFacts LoopFacts RoundFacts PlanFacts
  LoadFacts ApiFacts DisplayFacts BoundFacts.

(** *** Rounding to the nearest integer *)

Lemma nearest_even_near (n d q r : Z) :
  0 < d -> n = d * q + r -> - d < 2 * r < d -> nearest_even n d = q.
Proof.
  intros Hd En Hr.
  destruct (Z_lt_le_dec r 0) as [Hneg|Hpos].
  - replace q with (q - 1 + 1) by lia.
    apply (nearest_even_unique n d (q - 1) (d + r)); [|lia|lia].
    rewrite En. ring.
  - unfold nearest_even.
    assert (Eq : n / d = q).
    { symmetry. apply (Z.div_unique_pos n d q r); [lia | exact En]. }
    assert (Em : n mod d = r).
    { symmetry. apply (Z.mod_unique_pos n d q r); [lia | exact En]. }
    rewrite Eq, Em.
    destruct (Z.compare_spec (2 * r) d); lia.
Qed.

Lemma nearest_even_tie (d h m : Z) :
  0 < h -> d = 2 * h ->
  nearest_even (d * m + h) d = if Z.even m then m else m + 1.
Proof.
  intros Hh Ed. unfold nearest_even.
  assert (Eq : (d * m + h) / d = m).
  { symmetry. apply (Z.div_unique_pos (d * m + h) d m h); [lia | reflexivity]. }
  assert (Em : (d * m + h) mod d = h).
  { symmetry. apply (Z.mod_unique_pos (d * m + h) d m h); [lia | reflexivity]. }
  rewrite Eq, Em.
  destruct (Z.compare_spec (2 * h) d); [reflexivity | lia | lia].
Qed.

Lemma nearest_even_cases (N d : Z) :
  0 < d ->
  (exists r, N = d * nearest_even N d + r /\ - d < 2 * r < d) \/
  (exists m h, N = d * m + h /\ d = 2 * h).
Proof.
  intros Hd. unfold nearest_even.
  pose proof (Z.div_mod N d ltac:(lia)) as Hdm.
  pose proof (Z.mod_pos_bound N d Hd) as Hm.
  destruct (Z.compare_spec (2 * (N mod d)) d) as [E|L|G].
  - right. exists (N / d), (N mod d). split; [exact Hdm | lia].
  - left. exists (N mod d). split; [exact Hdm | lia].
  - left. exists (N mod d - d). split; [|lia].
    rewrite Hdm at 1. ring.
Qed.

(** *** Floats with a given value *)

Lemma float_with_value (z e : Z) :
  0 < z < 2 ^ 53 -> -1074 <= e <= 971 ->
  exists mr er,
    fvalid (S754_finite false mr er) = true /\
    Zpos mr * 2 ^ (er + 1074) = z * 2 ^ (e + 1074).
Proof.
  intros Hz He.
  assert (Hr : representable (z * 2 ^ (e + 1074))).
  { apply representable_small; [exact He|]. rewrite Z.abs_eq; lia. }
  destruct (normalize_exact z e ltac:(lia) Hr) as (Vf & Ff & Sf).
  pose proof (pow2_pos (e + 1074) ltac:(lia)) as Hp.
  assert (Hpos : 0 < scaled (fnormalize z e false)).
  { rewrite Sf. apply Z.mul_pos_pos; lia. }
  destruct (fnormalize z e false) as [s|s| |s m e'];
    try discriminate Ff; [cbn [scaled] in Hpos; lia|].
  pose proof (valid_finite_inv _ _ _ Vf) as (He' & _).
  pose proof (pow2_pos (e' + 1074) ltac:(lia)) as Hp'.
  destruct s; [exfalso; cbn [scaled cond_Zopp] in Hpos; nia|].
  exists m, e'. split; [exact Vf | exact Sf].
Qed.

(** *** A product close to a float *)

Lemma round_aux_nearest_value (M : positive) (e n : Z) :
  0 < n -> Zpos (digits2_pos M) = 53 + n -> -1074 <= e + n <= 970 ->
  exists R E,
    binary_round_aux fprec femax false (Zpos M) e loc_Exact
    = S754_finite false R E /\
    fvalid (S754_finite false R E) = true /\
    Zpos R * 2 ^ (E + 1074)
    = nearest_even (Zpos M) (2 ^ n) * 2 ^ (e + n + 1074).
Proof.
  intros Hn Hd He.
  rewrite (round_aux_nearest false M e n Hn Hd ltac:(lia)).
  pose proof (digits_bounds M) as HM. rewrite Hd in HM.
  replace (53 + n - 1) with (52 + n) in HM by lia.
  rewrite !Z.pow_add_r in HM by lia.
  pose proof (pow2_pos n ltac:(lia)) as Hp.
  assert (Hq : 2 ^ 52 <= Zpos M / 2 ^ n < 2 ^ 53).
  { split; [apply Z.div_le_lower_bound; lia|].
    apply Z.div_lt_upper_bound; lia. }
  pose proof (nearest_even_bounds (Zpos M) (2 ^ n) Hp) as Hr.
  destruct (nearest_even (Zpos M) (2 ^ n)) as [|r|r] eqn:Er; try lia.
  destruct (Z.ltb_spec (Zpos r) (2 ^ 53)) as [Hlt|Hge].
  - assert (Hdr : Zpos (digits2_pos r) = 53).
    { apply digits_unique. change (53 - 1) with 52. lia. }
    exists r, (e + n). cbn [Z.to_pos]. split; [reflexivity|].
    split; [|reflexivity].
    unfold fvalid, valid_binary, bounded, canonical_mantissa.
    rewrite Hdr, fexp_eq.
    apply andb_true_iff. split; [apply Z.eqb_eq; lia|].
    apply Z.leb_le. unfold femax, fprec. lia.
  - assert (Er' : r = 9007199254740992%positive).
    { change (2 ^ 53) with 9007199254740992 in *. lia. }
    subst r.
    rewrite (proj2 (Z.leb_le (e + n + 1) 971)) by lia.
    exists 4503599627370496%positive, (e + n + 1).
    split; [reflexivity|]. split.
    + unfold fvalid, valid_binary, bounded, canonical_mantissa.
      change (Zpos (digits2_pos 4503599627370496)) with 53.
      rewrite fexp_eq.
      apply andb_true_iff. split; [apply Z.eqb_eq; lia|].
      apply Z.leb_le. unfold femax, fprec. lia.
    + replace (e + n + 1 + 1074) with (1 + (e + n + 1074)) by lia.
      rewrite (Z.pow_add_r 2 1) by lia. change (2 ^ 1) with 2.
      generalize (2 ^ (e + n + 1074)). intros U. lia.
Qed.

(** The product of two floats is the float [V] when the exact product is
    nearer to [V] than half the spacing of the floats around it. *)
Lemma fmul_near (mt mc : positive) (et ec V : Z) :
  fvalid (S754_finite false mt et) = true ->
  fvalid (S754_finite false mc ec) = true ->
  -1074 < et -> -1074 < ec -> -1074 <= et + ec + 52 -> et + ec + 53 <= 970 ->
  (2 ^ (et + ec + 53 + 1074) | V) ->
  - (2 ^ (et + ec + 52 + 1074) * 2 ^ 1074)
  < 2 * ((Zpos mt * 2 ^ (et + 1074)) * (Zpos mc * 2 ^ (ec + 1074))
         - V * 2 ^ 1074)
  < 2 ^ (et + ec + 52 + 1074) * 2 ^ 1074 ->
  exists R E,
    fmul (S754_finite false mt et) (S754_finite false mc ec)
    = S754_finite false R E /\
    fvalid (S754_finite false R E) = true /\
    Zpos R * 2 ^ (E + 1074) = V.
Proof.
  intros Vt Vc Het Hec Hlo Hhi (v & Ev) Hnear.
  pose proof (normal_mantissa _ _ _ Vt Het) as Hmt.
  pose proof (normal_mantissa _ _ _ Vc Hec) as Hmc.
  set (A := Zpos (mt * mc)) in *.
  assert (EA : A = Zpos mt * Zpos mc) by (subst A; apply Pos2Z.inj_mul).
  assert (HA : 2 ^ 104 <= A < 2 ^ 106).
  { rewrite EA.
    change (2 ^ 104) with (2 ^ 52 * 2 ^ 52).
    change (2 ^ 106) with (2 ^ 53 * 2 ^ 53).
    split; [apply Z.mul_le_mono_nonneg; lia|].
    apply Z.mul_lt_mono_nonneg; lia. }
  assert (Hn : exists n, 52 <= n <= 53 /\ Zpos (digits2_pos (mt * mc)) = 53 + n).
  { destruct (Z_lt_le_dec A (2 ^ 105)) as [Hlt|Hge].
    - exists 52. split; [lia|].
      apply digits_unique. change (53 + 52 - 1) with 104.
      change (53 + 52) with 105. change (Zpos (mt * mc)) with A. lia.
    - exists 53. split; [lia|].
      apply digits_unique. change (53 + 53 - 1) with 105.
      change (53 + 53) with 106. change (Zpos (mt * mc)) with A. lia. }
  destruct Hn as (n & Hn & Hd).
  destruct (round_aux_nearest_value (mt * mc) (et + ec) n ltac:(lia) Hd
              ltac:(lia)) as (R & E & ER & VR & SR).
  exists R, E. split; [exact ER|]. split; [exact VR|].
  rewrite SR. fold A.
  (* the exact product and [V] on the grid of the result *)
  set (Q := 2 ^ (et + ec + 52 + 1074)) in *.
  assert (HQ : 0 < Q) by (apply pow2_pos; lia).
  pose proof (pow2_pos 1074 ltac:(lia)) as HU.
  pose proof (pow2_pos n ltac:(lia)) as Hpn.
  assert (En : 2 ^ n = 2 ^ (n - 52) * 2 ^ 52).
  { rewrite <- Z.pow_add_r by lia. f_equal. lia. }
  assert (Egrid : 2 ^ (et + ec + n + 1074) = 2 ^ (n - 52) * Q).
  { subst Q. rewrite <- Z.pow_add_r by lia. f_equal. lia. }
  assert (E53 : 2 ^ (et + ec + 53 + 1074) = 2 ^ (53 - n) * (2 ^ (n - 52) * Q)).
  { subst Q. rewrite <- !Z.pow_add_r by lia. f_equal. lia. }
  assert (Eprod : Zpos mt * 2 ^ (et + 1074) * (Zpos mc * 2 ^ (ec + 1074))
                  * 2 ^ 52 = A * Q * 2 ^ 1074).
  { rewrite EA. subst Q.
    replace (Zpos mt * Zpos mc * 2 ^ (et + ec + 52 + 1074) * 2 ^ 1074)
      with (Zpos mt * Zpos mc * (2 ^ (et + ec + 52 + 1074) * 2 ^ 1074))
      by ring.
    rewrite <- Z.pow_add_r by lia.
    replace (et + ec + 52 + 1074 + 1074)
      with ((et + 1074) + (ec + 1074) + 52) by lia.
    rewrite (Z.pow_add_r 2 (et + 1074 + (ec + 1074)) 52) by lia.
    rewrite (Z.pow_add_r 2 (et + 1074) (ec + 1074)) by lia. ring. }
  rewrite Egrid. rewrite E53 in Ev.
  set (Rm := v * 2 ^ (53 - n)).
  assert (EV : V = Rm * 2 ^ (n - 52) * Q) by (subst Rm; rewrite Ev; ring).
  assert (Hclose : - 2 ^ 52 < 2 * (A - Rm * 2 ^ n) < 2 ^ 52).
  { assert (HQU : 0 < Q * 2 ^ 1074) by (apply Z.mul_pos_pos; assumption).
    assert (E2 : 2 * (A - Rm * 2 ^ n) * (Q * 2 ^ 1074)
                 = 2 * (Zpos mt * 2 ^ (et + 1074) * (Zpos mc * 2 ^ (ec + 1074))
                        - V * 2 ^ 1074) * 2 ^ 52).
    { rewrite Z.mul_sub_distr_l, Z.mul_sub_distr_r.
      rewrite (Z.mul_sub_distr_l 2), (Z.mul_sub_distr_r _ _ (2 ^ 52)).
      f_equal.
      - rewrite <- !Z.mul_assoc. f_equal.
        rewrite !Z.mul_assoc. rewrite <- Eprod. ring.
      - rewrite EV, En. ring. }
    destruct Hnear as [H1 H2].
    assert (H52 : 0 < 2 ^ 52) by (apply pow2_pos; lia).
    apply (Z.mul_lt_mono_pos_r (2 ^ 52)) in H1; [|exact H52].
    apply (Z.mul_lt_mono_pos_r (2 ^ 52)) in H2; [|exact H52].
    rewrite <- E2 in H1, H2.
    replace (- (Q * 2 ^ 1074) * 2 ^ 52) with (- 2 ^ 52 * (Q * 2 ^ 1074))
      in H1 by ring.
    replace (Q * 2 ^ 1074 * 2 ^ 52) with (2 ^ 52 * (Q * 2 ^ 1074))
      in H2 by ring.
    apply Z.mul_lt_mono_pos_r in H1; [|exact HQU].
    apply Z.mul_lt_mono_pos_r in H2; [|exact HQU].
    split; assumption. }
  assert (H52n : 2 ^ 52 <= 2 ^ n) by (apply Z.pow_le_mono_r; lia).
  rewrite (nearest_even_near A (2 ^ n) Rm (A - Rm * 2 ^ n)); [| lia | ring | lia].
  rewrite EV. ring.
Qed.

(** *** The float of a small multiple of one half *)

Lemma half_target_float (t : num) (k : Z) :
  well_formed t = true -> finite_num t = true ->
  num_scaled t = k * 2 ^ 1073 -> 1 <= k < 2 ^ 41 ->
  exists mt et,
    to_float t = Val (S754_finite false mt et) /\
    fvalid (S754_finite false mt et) = true /\
    Zpos mt * 2 ^ (et + 1074) = k * 2 ^ 1073 /\ -53 <= et <= -13.
Proof.
  intros Wt Ft HT Hk.
  assert (Hr : representable (num_scaled t)).
  { rewrite HT. change 1073 with (-1 + 1074).
    apply representable_small; [lia|]. rewrite Z.abs_eq; lia. }
  destruct (to_float_exact t Wt Ft Hr) as (f & Ef & Vf & Ff & Sf).
  rewrite HT in Sf.
  pose proof (pow2_pos 1073 ltac:(lia)) as HH.
  assert (Hpos : 0 < scaled f) by (rewrite Sf; apply Z.mul_pos_pos; lia).
  destruct f as [s|s| |s m e]; try discriminate Ff;
    [exfalso; cbn [scaled] in Hpos; lia|].
  pose proof (valid_finite_inv _ _ _ Vf) as (He & Hm & _).
  pose proof (pow2_pos (e + 1074) ltac:(lia)) as Hp.
  destruct s; [cbn [scaled cond_Zopp] in Hpos; nia|].
  cbn [scaled cond_Zopp] in Sf.
  exists m, e. split; [exact Ef|]. split; [exact Vf|]. split; [exact Sf|].
  assert (Hlow : -53 <= e).
  { assert (H1 : 2 ^ 1073 <= Zpos m * 2 ^ (e + 1074)).
    { rewrite Sf. revert HH. generalize (2 ^ 1073). intros H HH. nia. }
    pose proof (exp_lower m e 1073 ltac:(lia) ltac:(lia) Hm H1). lia. }
  split; [exact Hlow|].
  pose proof (normal_mantissa _ _ _ Vf ltac:(lia)) as Hn.
  assert (H2 : 2 ^ (52 + (e + 1074)) < 2 ^ (41 + 1073)).
  { rewrite (Z.pow_add_r 2 52 (e + 1074)), (Z.pow_add_r 2 41 1073) by lia.
    revert Sf Hp HH. generalize (2 ^ (e + 1074)), (2 ^ 1073).
    intros P H Sf Hp HH.
    assert (H3 : 2 ^ 52 * P <= Zpos m * P)
      by (apply Z.mul_le_mono_nonneg_r; lia).
    assert (H4 : k * H < 2 ^ 41 * H)
      by (apply Z.mul_lt_mono_pos_r; lia).
    lia. }
  apply pow2_lt_inv in H2; lia.
Qed.

(** *** The three roundings of a warmup weight *)

Lemma margin (E k kap Y : Z) :
  2 ^ 53 <= E -> 0 <= k < 2 ^ 41 -> -20 <= kap <= 20 -> 140 <= Y ->
  0 <= Y * E + 128 * (k * kap).
Proof.
  intros HE Hk Hkap HY.
  assert (H1 : 140 * 2 ^ 53 <= Y * E) by nia.
  assert (H2 : - (20 * 2 ^ 41) <= k * kap) by nia.
  lia.
Qed.

(** For a percentage [p / 100] whose float [c] is within [20 / 2 ^ 53]
    hundredths of it, and a target of [k] halves, the three roundings of
    [round(t * c / 5)] give the integer nearest to [p * k / 1000], ties
    to even. *)
Lemma warmup_weight_formula (p kap : Z) (mc : positive) (ec : Z)
    (t : num) (k : Z) :
  fvalid (S754_finite false mc ec) = true ->
  -54 <= ec <= -53 ->
  100 * Zpos mc = p * 2 ^ (- ec) + kap -> -20 <= kap <= 20 ->
  (5 | p) -> 26 <= p < 100 ->
  well_formed t = true -> finite_num t = true ->
  num_scaled t = k * 2 ^ 1073 -> 0 <= k < 2 ^ 41 ->
  warmup_weight (S754_finite false mc ec) t
  = Val (PInt (nearest_even (p * k) 1000 * 5)).
Proof.
  intros Vc Hec Hmc Hkap (p' & Ep) Hp Wt Ft HT Hk.
  destruct (Z.eq_dec k 0) as [Hk0|Hk0].
  { subst k. rewrite Z.mul_0_r. change (nearest_even 0 1000 * 5) with 0.
    rewrite Z.mul_0_l in HT.
    destruct t as [z|f].
    - cbn [num_scaled] in HT. pose proof (pow2_pos 1074 ltac:(lia)) as HU.
      assert (Ez : z = 0) by nia. subst z. reflexivity.
    - cbn [num_scaled well_formed finite_num] in *.
      destruct f as [s|s| |s m e]; try discriminate Ft.
      + destruct s; reflexivity.
      + exfalso. pose proof (valid_finite_inv _ _ _ Wt) as (He & _).
        pose proof (pow2_pos (e + 1074) ltac:(lia)) as Hpe.
        cbn [scaled] in HT. destruct s; cbn [cond_Zopp] in HT; nia. }
  destruct (half_target_float t k Wt Ft HT ltac:(lia))
    as (mt & et & Ef & Vt & St & Het).
  destruct (fmul_between mt mc et ec Vt Vc ltac:(lia) ltac:(lia)
              ltac:(lia) ltac:(lia)) as (Ra & Ea & EA & Va & LoA & UpA).
  set (G := 2 ^ 1066).
  set (W := 2 ^ (ec + 1074)) in *.
  set (E := 2 ^ (- ec)) in *.
  assert (HG : 0 < G) by (apply pow2_pos; lia).
  assert (HW : 0 < W) by (apply pow2_pos; lia).
  assert (HE : 2 ^ 53 <= E) by (apply Z.pow_le_mono_r; lia).
  assert (EU : 2 ^ 1074 = E * W).
  { unfold E, W. rewrite <- Z.pow_add_r by lia. f_equal. lia. }
  assert (EH : 2 ^ 1073 = 128 * G).
  { unfold G. change 128 with (2 ^ 7). rewrite <- Z.pow_add_r by lia.
    f_equal. }
  assert (Hpk : 0 <= p * k) by (apply Z.mul_nonneg_nonneg; lia).
  assert (Hpk' : p * k < 100 * 2 ^ 41).
  { apply Z.le_lt_trans with (100 * k); [|lia].
    apply Z.mul_le_mono_nonneg_r; lia. }
  rewrite EH in St.
  set (X := Zpos mt * 2 ^ (et + 1074) * (Zpos mc * W)) in *.
  assert (EX : 100 * X = G * W * (128 * (p * k * E + k * kap))).
  { unfold X. rewrite St.
    replace (100 * (k * (128 * G) * (Zpos mc * W)))
      with (G * W * (128 * k * (100 * Zpos mc))) by ring.
    rewrite Hmc. ring. }
  assert (Lower : forall z, 0 < z < 2 ^ 53 ->
            100 * z * E <= 128 * (p * k * E + k * kap) ->
            z * G <= Zpos Ra * 2 ^ (Ea + 1074)).
  { intros z Hz Hle.
    destruct (float_with_value z (-8) Hz ltac:(lia)) as (mr & er & Vr & Sr).
    change (-8 + 1074) with 1066 in Sr. fold G in Sr. rewrite <- Sr.
    apply (LoA mr er Vr). rewrite Sr, EU.
    apply (Z.mul_le_mono_pos_l _ _ 100); [lia|]. rewrite EX.
    replace (100 * (z * G * (E * W))) with (G * W * (100 * z * E)) by ring.
    apply Z.mul_le_mono_nonneg_l; [apply Z.mul_nonneg_nonneg; lia|].
    exact Hle. }
  assert (Upper : forall z, 0 < z < 2 ^ 53 ->
            128 * (p * k * E + k * kap) <= 100 * z * E ->
            Zpos Ra * 2 ^ (Ea + 1074) <= z * G).
  { intros z Hz Hle.
    destruct (float_with_value z (-8) Hz ltac:(lia)) as (mr & er & Vr & Sr).
    change (-8 + 1074) with 1066 in Sr. fold G in Sr. rewrite <- Sr.
    apply (UpA mr er Vr). rewrite Sr, EU.
    apply (Z.mul_le_mono_pos_l _ _ 100); [lia|]. rewrite EX.
    replace (100 * (z * G * (E * W))) with (G * W * (100 * z * E)) by ring.
    apply Z.mul_le_mono_nonneg_l; [apply Z.mul_nonneg_nonneg; lia|].
    exact Hle. }
  (* the product is at least one eighth *)
  assert (HA32 : 32 * G <= Zpos Ra * 2 ^ (Ea + 1074)).
  { apply Lower; [lia|].
    assert (H1 : 26 * (k * E) <= p * k * E).
    { replace (p * k * E) with (p * (k * E)) by ring.
      apply Z.mul_le_mono_nonneg_r; [|lia].
      apply Z.mul_nonneg_nonneg; lia. }
    assert (H2 : k * (-20) <= k * kap)
      by (apply Z.mul_le_mono_nonneg_l; lia).
    assert (H3 : 1 * E <= k * E)
      by (apply Z.mul_le_mono_nonneg_r; lia).
    assert (H4 : k * 20 <= k * E)
      by (apply Z.mul_le_mono_nonneg_l; lia).
    lia. }
  pose proof (valid_finite_inv _ _ _ Va) as (HEa & HRa & _).
  assert (HEa' : -1071 <= Ea).
  { assert (E32 : 2 ^ 1071 = 32 * G).
    { unfold G. change 32 with (2 ^ 5). rewrite <- Z.pow_add_r by lia.
      f_equal. }
    rewrite <- E32 in HA32.
    pose proof (exp_lower Ra Ea 1071 ltac:(lia) ltac:(lia) HRa HA32). lia. }
  destruct (fdiv5_between Ra Ea Va HEa') as (Rb & Eb & EB & Vb & LoB & UpB).
  set (A := Zpos Ra * 2 ^ (Ea + 1074)) in *.
  set (B := Zpos Rb * 2 ^ (Eb + 1074)) in *.
  assert (HB : 0 < B).
  { pose proof (valid_finite_inv _ _ _ Vb) as (HEb & _).
    pose proof (pow2_pos (Eb + 1074) ltac:(lia)) as Hpb.
    unfold B. apply Z.mul_pos_pos; lia. }
  assert (LowerB : forall z, 0 < z < 2 ^ 53 -> 5 * (z * G) <= A -> z * G <= B).
  { intros z Hz Hle.
    destruct (float_with_value z (-8) Hz ltac:(lia)) as (mr & er & Vr & Sr).
    change (-8 + 1074) with 1066 in Sr. fold G in Sr. rewrite <- Sr.
    apply (LoB mr er Vr). rewrite Sr. exact Hle. }
  assert (UpperB : forall z, 0 < z < 2 ^ 53 -> A <= 5 * (z * G) -> B <= z * G).
  { intros z Hz Hle.
    destruct (float_with_value z (-8) Hz ltac:(lia)) as (mr & er & Vr & Sr).
    change (-8 + 1074) with 1066 in Sr. fold G in Sr. rewrite <- Sr.
    apply (UpB mr er Vr). rewrite Sr. exact Hle. }
  rewrite (warmup_weight_steps _ t _ Ef), EA, EB.
  rewrite (py_round_scaled _ Vb eq_refl). cbn [bind py_mul scaled cond_Zopp].
  fold B. rewrite EH. do 3 f_equal.
  destruct (nearest_even_cases (p * k) 1000 ltac:(lia))
    as [(r & EN & Hr)|(m & h & EN & Eh)].
  - (* the exact quotient is not a tie *)
    set (n := nearest_even (p * k) 1000) in *.
    assert (Hr5 : -495 <= r <= 495).
    { rewrite Ep in EN. lia. }
    assert (Hn : 0 <= n < 2 ^ 41) by lia.
    assert (Hup : B <= (256 * n + 127) * G).
    { apply UpperB; [lia|].
      apply Z.le_trans with (5 * (256 * n + 127) * G); [|lia].
      apply Upper; [lia|].
      pose proof (margin E k (- kap) (63500 - 128 * r) HE ltac:(lia)
                    ltac:(lia) ltac:(lia)) as Hm.
      rewrite EN. lia. }
    assert (Hlo : (256 * n - 128) * G < B).
    { destruct (Z.eq_dec n 0) as [En0|Hnz]; [rewrite En0; lia|].
      apply Z.lt_le_trans with ((256 * n - 127) * G);
        [apply Z.mul_lt_mono_pos_r; lia|].
      apply LowerB; [lia|].
      apply Z.le_trans with (5 * (256 * n - 127) * G); [lia|].
      apply Lower; [lia|].
      pose proof (margin E k kap (63500 + 128 * r) HE ltac:(lia)
                    ltac:(lia) ltac:(lia)) as Hm.
      rewrite EN. lia. }
    apply (nearest_even_near B (2 * (128 * G)) n (B - 2 * (128 * G) * n));
      [lia | ring | lia].
  - (* the exact quotient is a tie *)
    assert (Eh' : h = 500) by lia. subst h. clear Eh.
    rewrite EN, (nearest_even_tie 1000 500 m) by lia.
    assert (Hm : 0 <= m < 2 ^ 41) by lia.
    assert (EAV : A = (10 * m + 5) * (128 * G)).
    { destruct (fmul_near mt mc et ec ((10 * m + 5) * 2 ^ 1073) Vt Vc
                  ltac:(lia) ltac:(lia) ltac:(lia) ltac:(lia))
        as (R & E' & ER & VR & SR).
      - exists ((10 * m + 5) * 2 ^ (1073 - (et + ec + 53 + 1074))).
        rewrite <- Z.mul_assoc, <- Z.pow_add_r by lia.
        do 2 f_equal. lia.
      - fold W. fold X.
        set (Pt := 2 ^ (et + 1074)) in *.
        assert (HPt : 0 < Pt) by (apply pow2_pos; lia).
        assert (ED : 2 ^ (et + ec + 52 + 1074) * 2 ^ 1074 = 2 ^ 52 * (Pt * W)).
        { unfold Pt, W. rewrite <- !Z.pow_add_r by lia. f_equal. lia. }
        rewrite ED, EH, EU.
        assert (E100 : 100 * (2 * (X - (10 * m + 5) * (128 * G) * (E * W)))
                       = 2 * (Zpos mt * (Pt * W)) * kap).
        { rewrite Z.mul_sub_distr_l, Z.mul_sub_distr_l.
          replace (100 * (2 * X)) with (2 * (100 * X)) by ring.
          rewrite EX.
          replace (Zpos mt * (Pt * W)) with (Zpos mt * Pt * W) by ring.
          rewrite St, EN. ring. }
        assert (HY : 0 < Zpos mt * (Pt * W) < 2 ^ 53 * (Pt * W)).
        { assert (HPW : 0 < Pt * W) by (apply Z.mul_pos_pos; assumption).
          pose proof (valid_finite_inv _ _ _ Vt) as (_ & Hmt & _).
          split; [apply Z.mul_pos_pos; lia|].
          apply Z.mul_lt_mono_pos_r; lia. }
        revert E100 HY.
        generalize (X - (10 * m + 5) * (128 * G) * (E * W)), (Pt * W).
        clear - Hkap. intros D PW. generalize (Zpos mt * PW).
        intros Y E100 HY.
        assert (HYlo : Y * (-20) <= Y * kap)
          by (apply Z.mul_le_mono_nonneg_l; lia).
        assert (HYhi : Y * kap <= Y * 20)
          by (apply Z.mul_le_mono_nonneg_l; lia).
        lia.
      - rewrite EA in ER. injection ER as <- <-. fold A in SR.
        rewrite SR, EH. reflexivity. }
    assert (EB' : B = (2 * m + 1) * (128 * G)).
    { apply Z.le_antisymm.
      - apply Z.le_trans with (128 * (2 * m + 1) * G); [|lia].
        apply UpperB; [lia|]. rewrite EAV. lia.
      - apply Z.le_trans with (128 * (2 * m + 1) * G); [lia|].
        apply LowerB; [lia|]. rewrite EAV. lia. }
    rewrite EB'.
    replace ((2 * m + 1) * (128 * G)) with (2 * (128 * G) * m + 128 * G)
      by ring.
    apply nearest_even_tie; [lia | reflexivity].
Qed.

(** *** The formula over exact numbers *)

Lemma half_scaled (t : num) (k : Z) :
  well_formed t = true -> (num_value t == inject_Z k / 2)%Q ->
  num_scaled t = k * 2 ^ 1073.
Proof.
  intros Wt Hv. rewrite (num_value_scaled t Wt) in Hv.
  unfold Qeq, Qdiv, Qmult, Qinv, inject_Z in Hv. cbn [Qnum Qden] in Hv.
  rewrite scale_den_Z, (pow2_split 1074 1073) in Hv by lia.
  change (2 ^ (1074 - 1073)) with 2 in Hv.
  change (Zpos (1 * 2)) with 2 in Hv.
  revert Hv. generalize (2 ^ 1073), (num_scaled t). intros H T Hv. lia.
Qed.

Lemma exact_quotient (t : num) (k p : Z) :
  (num_value t == inject_Z k / 2)%Q ->
  round_half_even (num_value t * (p # 100) / 5) = nearest_even (p * k) 1000.
Proof.
  intros Hv.
  rewrite (round_half_even_ext _ ((p * k) # 1000)).
  - apply round_half_even_make.
  - rewrite Hv. unfold Qeq, Qdiv, Qmult, Qinv, inject_Z. cbn [Qnum Qden].
    change (Zpos (1 * 2 * 100 * 5)) with 1000. ring.
Qed.

Lemma warmup_weights_exact (t : num) (k : Z) :
  well_formed t = true -> finite_num t = true ->
  (num_value t == inject_Z k / 2)%Q -> 0 <= k < 2 ^ 41 ->
  calculate_warmup_weights t
  = Val (PInt (round_half_even (num_value t * (45 # 100) / 5) * 5),
         PInt (round_half_even (num_value t * (65 # 100) / 5) * 5),
         PInt (round_half_even (num_value t * (85 # 100) / 5) * 5)).
Proof.
  intros Wt Ft Hv Hk.
  pose proof (half_scaled t k Wt Hv) as HT.
  rewrite !(exact_quotient t k _ Hv).
  rewrite calculate_warmup_weights_unfold.
  unfold lit_0_45, lit_0_65, lit_0_85.
  rewrite (warmup_weight_formula 45 20 8106479329266893 (-54) t k eq_refl ltac:(lia)
             eq_refl ltac:(lia) (ex_intro _ 9 eq_refl) ltac:(lia) Wt Ft HT Hk).
  rewrite (warmup_weight_formula 65 20 5854679515581645 (-53) t k eq_refl ltac:(lia)
             eq_refl ltac:(lia) (ex_intro _ 13 eq_refl) ltac:(lia) Wt Ft HT Hk).
  rewrite (warmup_weight_formula 85 (-20) 7656119366529843 (-53) t k eq_refl ltac:(lia)
             eq_refl ltac:(lia) (ex_intro _ 17 eq_refl) ltac:(lia) Wt Ft HT Hk).
  reflexivity.
Qed.

End FormulaFacts.

(** * The claims of the specification *)

Import Py App Value Spec FloatFacts LoopFacts.

(** ** PlateDecomposer *)

(** C1, as amended: for every weight that is an [int] or a finite float
    below [2 ^ 55], [plate_selection] with the default denominations
    returns, given enough fuel, the greedy decomposition of the weight
    (each denomination, largest first, as many times as it still fits);
    in particular [plate_selection(40) == [20, 20]],
    [plate_selection(42.5) == [20, 20, 2.5]],
    [plate_selection(3) == [2.5]], and every zero or negative finite input
    gives the empty list. *)
Theorem plate_selection_is_greedy :
  (forall w, selectable w ->
     exists fuel0, forall fuel, (fuel0 <= fuel)%nat ->
       plate_selection fuel w default_plate_weights
       = Val (greedy default_plate_weights (num_value w))) /\
  plate_selection 2 (PInt 40) default_plate_weights
  = Val [PInt 20; PInt 20] /\
  plate_selection 2 (PFloat f_42_5) default_plate_weights
  = Val [PInt 20; PInt 20; PFloat lit_2_5] /\
  plate_selection 1 (PInt 3) default_plate_weights
  = Val [PFloat lit_2_5] /\
  (forall w fuel,
     well_formed w = true -> finite_num w = true ->
     (num_value w <= 0)%Q ->
     plate_selection fuel w default_plate_weights = Val []).
Proof.
  split; [exact plate_selection_greedy_spec|].
  split; [vm_compute; reflexivity|].
  split; [vm_compute; reflexivity|].
  split; [vm_compute; reflexivity|].
  intros w fuel Ww Fw Hle.
  apply plate_selection_negative; try assumption.
  rewrite (num_value_scaled w Ww) in Hle.
  change 0%Q with (0 # 1)%Q in Hle.
  unfold Qle in Hle. cbn [Qnum Qden] in Hle. lia.
Qed.

Lemma plate_selection_is_greedy_witness :
  exists fuel0, forall fuel, (fuel0 <= fuel)%nat ->
    plate_selection fuel (PFloat f_42_5) default_plate_weights
    = Val (greedy default_plate_weights (num_value (PFloat f_42_5))).
Proof.
  apply (proj1 plate_selection_is_greedy).
  split; [reflexivity|]. split; [reflexivity|].
  right. unfold Qlt. vm_compute. reflexivity.
Defined.

(** C1 as stated fails: the float 1e19 is a non-negative weight for which
    [plate_selection] never returns, because [1e19 - 20 == 1e19] in
    binary64 arithmetic. *)
Lemma plate_selection_1e19_never_returns :
  well_formed (PFloat f_1e19) = true /\
  (0 <= num_value (PFloat f_1e19))%Q /\
  py_sub (PFloat f_1e19) (PInt 20) = Val (PFloat f_1e19) /\
  forall fuel,
    plate_selection fuel (PFloat f_1e19) default_plate_weights = OutOfFuel.
Proof.
  split; [reflexivity|].
  split; [apply Qle_bool_imp_le; vm_compute; reflexivity|].
  split; [vm_compute; reflexivity|].
  apply plate_selection_stuck; vm_compute; reflexivity.
Qed.

(** C10, as amended: [plate_selection] with the default denominations
    terminates on every [int], on NaN, on the negative infinity and on
    every finite float below [2 ^ 55]. *)
Theorem plate_selection_terminates (w : num) :
  well_formed w = true -> stops_on w ->
  exists fuel l, plate_selection fuel w default_plate_weights = Val l.
Proof.
  intros Ww Hs.
  assert (Hsel : selectable w -> exists fuel l,
             plate_selection fuel w default_plate_weights = Val l).
  { intros H. destruct (plate_selection_greedy_spec w H) as (fuel0 & Hrun).
    exists fuel0. eexists. apply Hrun. lia. }
  destruct w as [z|f].
  - apply Hsel. split; [reflexivity|]. split; [reflexivity|]. left. reflexivity.
  - destruct f as [s|[|]| |s m e].
    + apply Hsel. split; [reflexivity|]. split; [reflexivity|]. right. exact Hs.
    + exists 0%nat, []. reflexivity.
    + destruct Hs.
    + exists 0%nat, []. reflexivity.
    + apply Hsel. split; [exact Ww|]. split; [reflexivity|]. right. exact Hs.
Qed.

Lemma plate_selection_terminates_witness :
  exists fuel l,
    plate_selection fuel (PFloat f_42_5) default_plate_weights = Val l.
Proof.
  apply plate_selection_terminates.
  - reflexivity.
  - unfold stops_on, f_42_5, Qlt. vm_compute. reflexivity.
Defined.

(** C10 as stated fails: on the float 1e18 the remaining weight does not
    decrease ([1e18 - 20 == 1e18]), so no amount of fuel lets the loop
    finish. *)
Lemma plate_selection_1e18_never_terminates :
  well_formed (PFloat f_1e18) = true /\
  py_ge (PFloat f_1e18) (PInt 20) = true /\
  py_sub (PFloat f_1e18) (PInt 20) = Val (PFloat f_1e18) /\
  ~ (exists fuel l,
       plate_selection fuel (PFloat f_1e18) default_plate_weights = Val l).
Proof.
  split; [reflexivity|].
  split; [vm_compute; reflexivity|].
  split; [vm_compute; reflexivity|].
  intros (fuel & l & H).
  rewrite plate_selection_stuck in H by (vm_compute; reflexivity).
  discriminate.
Qed.

(** C5, as amended: for every non-negative weight that is an [int] or a
    finite float below [2 ^ 55], the plates selected sum to at most the
    weight, no sequence of the denominations with a sum of at most the
    weight has a larger sum, and none with the same sum has fewer
    plates. *)
Theorem greedy_selection_optimal (w : num) :
  selectable w -> (0 <= num_value w)%Q ->
  exists fuel l,
    plate_selection fuel w default_plate_weights = Val l /\
    (sum_values l <= num_value w)%Q /\
    forall l',
      Forall (fun p => In p default_plate_weights) l' ->
      (sum_values l' <= num_value w)%Q ->
      (sum_values l' <= sum_values l)%Q /\
      ((sum_values l' == sum_values l)%Q ->
       (List.length l <= List.length l')%nat).
Proof.
  intros Hs Hpos. pose proof Hs as (Ww & Fw & _).
  pose proof (num_value_scaled w Ww) as Hv.
  assert (HX : 0 <= num_scaled w).
  { rewrite Hv in Hpos. change 0%Q with (0 # 1)%Q in Hpos.
    unfold Qle in Hpos. cbn [Qnum Qden] in Hpos. lia. }
  destruct (selectable_cases w Hs) as [[_ Hr]|Hneg]; [|lia].
  exists (S (Z.to_nat (num_scaled w / unit25 / 8))), (greedy_plates (num_scaled w / unit25)).
  split; [apply plate_selection_run; [exact Hr | lia | lia]|].
  pose proof (sum_values_scaled _ (greedy_plates_well_formed (num_scaled w / unit25)))
    as Hg.
  destruct (greedy_plates_sum_bounds _ HX) as (Hle & _).
  split.
  - rewrite Hg, Hv. apply Qle_scaled. exact Hle.
  - intros l' Hl' Hsum.
    destruct (denominations_counts l' Hl') as (Wl' & _).
    pose proof (sum_values_scaled l' Wl') as Hl.
    rewrite Hl, Hv in Hsum. apply (proj1 (Qle_scaled _ _)) in Hsum.
    destruct (greedy_plates_optimal _ l' HX Hl' Hsum) as (Hmax & Hmin).
    split.
    + rewrite Hl, Hg. apply Qle_scaled. exact Hmax.
    + intros Heq. rewrite Hl, Hg in Heq.
      apply (proj1 (Qeq_scaled _ _)) in Heq. apply Hmin, Heq.
Qed.

Lemma greedy_selection_optimal_witness :
  exists fuel l,
    plate_selection fuel (PFloat f_42_5) default_plate_weights = Val l /\
    (sum_values l <= num_value (PFloat f_42_5))%Q /\
    forall l',
      Forall (fun p => In p default_plate_weights) l' ->
      (sum_values l' <= num_value (PFloat f_42_5))%Q ->
      (sum_values l' <= sum_values l)%Q /\
      ((sum_values l' == sum_values l)%Q ->
       (List.length l <= List.length l')%nat).
Proof.
  apply greedy_selection_optimal.
  - split; [reflexivity|]. split; [reflexivity|].
    right. unfold Qlt. vm_compute. reflexivity.
  - apply Qle_bool_imp_le. vm_compute. reflexivity.
Defined.

(** C5 as stated fails: for the non-negative weight 1e20 there is no
    selection at all, as [plate_selection] never returns. *)
Lemma plate_selection_1e20_selects_nothing :
  well_formed (PFloat f_1e20) = true /\
  (0 <= num_value (PFloat f_1e20))%Q /\
  ~ (exists fuel l,
       plate_selection fuel (PFloat f_1e20) default_plate_weights = Val l).
Proof.
  split; [reflexivity|].
  split; [apply Qle_bool_imp_le; vm_compute; reflexivity|].
  intros (fuel & l & H).
  rewrite plate_selection_stuck in H by (vm_compute; reflexivity).
  discriminate.
Qed.

(** ** BarLoadConverter *)

(** C2, as amended: [plate_weight(total, bar)] raises [ValueError]
    exactly when [total < bar].  Otherwise it computes [(total - bar) / 2]
    in the arithmetic of the program, and the result is the exact half of
    [total - bar] in each of these cases: whole numbers with
    [bar <= total < bar + 2 ^ 53]; finite numbers, at least one of them a
    float, whose exact difference is a binary64 value that is zero or at
    least [2 ^ -1021]; the default bar with any total, [int] or float,
    from 20 up to [2 ^ 53].  In particular [plate_weight(100) == 40.0],
    [plate_weight(20) == 0.0] and [plate_weight(15)] raises
    [ValueError]. *)
Theorem plate_weight_spec :
  (forall total bar,
     plate_weight total bar = Raise ValueError <-> py_lt total bar = true) /\
  (forall total bar : Z,
     bar <= total < bar + 2 ^ 53 ->
     exists L,
       plate_weight (PInt total) (PInt bar) = Val (PFloat L) /\
       (F2Q L == (inject_Z total - inject_Z bar) / 2)%Q) /\
  (forall total bar,
     exact_difference total bar ->
     exists L,
       plate_weight total bar = Val (PFloat L) /\
       (F2Q L == (num_value total - num_value bar) / 2)%Q) /\
  (forall total,
     well_formed total = true -> finite_num total = true ->
     (20 <= num_value total)%Q ->
     (num_value total < inject_Z (2 ^ 53))%Q ->
     exists L,
       plate_weight total default_bar_weight = Val (PFloat L) /\
       (F2Q L == (num_value total - 20) / 2)%Q) /\
  plate_weight (PInt 100) default_bar_weight = Val (PFloat f_40) /\
  plate_weight (PInt 20) default_bar_weight = Val (PFloat (S754_zero false)) /\
  plate_weight (PInt 15) default_bar_weight = Raise ValueError.
Proof.
  split; [exact plate_weight_value_error|].
  split.
  { intros total bar Hb.
    destruct (plate_weight_int_bar total bar Hb) as (L & EL & VL & _ & SL).
    exists L. split; [exact EL|].
    rewrite (half_value (total - bar) L VL SL).
    unfold Z.sub. rewrite inject_Z_plus, inject_Z_opp. reflexivity. }
  split.
  { intros total bar Hd.
    destruct (plate_weight_float_bar total bar Hd) as (L & EL & VL & _ & SL).
    destruct Hd as (Wt & Wb & _).
    exists L. split; [exact EL|].
    exact (difference_value total bar L Wt Wb VL SL). }
  split.
  { intros total Wt Ft Hlo Hhi.
    pose proof (value_ge_20 total Wt Hlo) as Hlo'.
    pose proof (value_lt_pow2 total 53 Wt ltac:(lia) Hhi) as Hhi'.
    destruct (plate_weight_exact total Wt Ft Hlo' Hhi')
      as (L & EL & VL & FL & SL).
    exists L. split; [exact EL|]. exact (load_value total L Wt VL SL). }
  repeat split; vm_compute; reflexivity.
Qed.

Lemma plate_weight_spec_witness :
  (exists L,
     plate_weight (PInt 100) (PInt 15) = Val (PFloat L) /\
     (F2Q L == (inject_Z 100 - inject_Z 15) / 2)%Q) /\
  (exists L,
     plate_weight (PFloat f_42_5) (PFloat lit_2_5) = Val (PFloat L) /\
     (F2Q L == (num_value (PFloat f_42_5) - num_value (PFloat lit_2_5)) / 2)%Q) /\
  (exists L,
     plate_weight (PFloat f_100) default_bar_weight = Val (PFloat L) /\
     (F2Q L == (num_value (PFloat f_100) - 20) / 2)%Q).
Proof.
  split; [|split].
  - apply (proj1 (proj2 plate_weight_spec)). lia.
  - apply (proj1 (proj2 (proj2 plate_weight_spec))).
    unfold exact_difference.
    repeat (split; [reflexivity|]).
    split; [exists (-47), 5981343255101440; vm_compute; repeat split; congruence|].
    split; [exists (-51), 5629499534213120; vm_compute; repeat split; congruence|].
    split; [exists (-47), 5629499534213120; vm_compute; repeat split; congruence|].
    right. vm_compute. congruence.
  - apply (proj1 (proj2 (proj2 (proj2 plate_weight_spec)))).
    + reflexivity.
    + reflexivity.
    + apply Qle_bool_imp_le. vm_compute. reflexivity.
    + unfold Qlt. vm_compute. reflexivity.
Defined.

(** C2 as stated fails where the arithmetic of the program rounds or
    overflows.  For the total [2 ^ 55 + 24] and the default bar the exact
    half of the difference is [2 ^ 54 + 2], but the quotient is rounded
    and [2 ^ 54] is returned.  For the [int] total [2 ^ 53 + 1] and the
    float bar [2.0 ** 53] the total is not below the bar, the exact half
    of the difference is 0.5, and [0.0] is returned.  For the total
    [10 ** 400] no value is returned and the exception is
    [OverflowError], not [ValueError]. *)
Lemma plate_weight_rounds_or_overflows :
  py_ge (PInt (2 ^ 55 + 24)) default_bar_weight = true /\
  plate_weight (PInt (2 ^ 55 + 24)) default_bar_weight = Val (PFloat f_2_54) /\
  (F2Q f_2_54 == inject_Z (2 ^ 54))%Q /\
  ((num_value (PInt (2 ^ 55 + 24)) - 20) / 2 == inject_Z (2 ^ 54 + 2))%Q /\
  py_ge (PInt (2 ^ 53 + 1)) (PFloat f_2_53) = true /\
  plate_weight (PInt (2 ^ 53 + 1)) (PFloat f_2_53)
  = Val (PFloat (S754_zero false)) /\
  ((num_value (PInt (2 ^ 53 + 1)) - num_value (PFloat f_2_53)) / 2
   == 1 # 2)%Q /\
  py_ge (PInt (10 ^ 400)) default_bar_weight = true /\
  plate_weight (PInt (10 ^ 400)) default_bar_weight = Raise OverflowError.
Proof.
  repeat split; vm_compute; reflexivity.
Qed.

(** ** WarmupPercentageCalculator *)

(** C3, as amended: for every target that is an [int] below [2 ^ 53]
    or a finite float below [2 ^ 1023] in absolute value,
    [calculate_warmup_weights(t)] returns the triple of
    [round(q) * 5] for the three binary64 quotients [q = t * pct / 5],
    [pct] being 0.45, 0.65 and 0.85 and [round] rounding to the nearest
    integer with ties to the even one.  For every target that is a
    non-negative multiple of 0.5 below [2 ^ 40] the float arithmetic
    loses nothing: the triple is [round(t * pct / 5) * 5] with the
    quotient taken over exact numbers.  In particular the results for
    100 and 140 are (45, 65, 85) and (65, 90, 120). *)
Theorem calculate_warmup_weights_formula :
  (forall t,
     moderate_target t ->
     calculate_warmup_weights t
     = Val (PInt (round_half_even
                    (F2Q (fdiv (fmul (as_float t) lit_0_45) lit_5)) * 5),
            PInt (round_half_even
                    (F2Q (fdiv (fmul (as_float t) lit_0_65) lit_5)) * 5),
            PInt (round_half_even
                    (F2Q (fdiv (fmul (as_float t) lit_0_85) lit_5)) * 5))) /\
  (forall t k,
     well_formed t = true -> finite_num t = true ->
     (num_value t == inject_Z k / 2)%Q -> 0 <= k < 2 ^ 41 ->
     calculate_warmup_weights t
     = Val (PInt (round_half_even (num_value t * (45 # 100) / 5) * 5),
            PInt (round_half_even (num_value t * (65 # 100) / 5) * 5),
            PInt (round_half_even (num_value t * (85 # 100) / 5) * 5))) /\
  calculate_warmup_weights (PInt 100) = Val (PInt 45, PInt 65, PInt 85) /\
  calculate_warmup_weights (PInt 140) = Val (PInt 65, PInt 90, PInt 120) /\
  calculate_warmup_weights (PFloat f_100) = Val (PInt 45, PInt 65, PInt 85) /\
  calculate_warmup_weights (PFloat f_140)
  = Val (PInt 65, PInt 90, PInt 120).
Proof.
  split.
  { intros t Ht.
    pose proof (warmup_weight_spec lit_0_45 t Ht eq_refl eq_refl eq_refl
                  ltac:(cbn; lia)) as H45.
    pose proof (warmup_weight_spec lit_0_65 t Ht eq_refl eq_refl eq_refl
                  ltac:(cbn; lia)) as H65.
    pose proof (warmup_weight_spec lit_0_85 t Ht eq_refl eq_refl eq_refl
                  ltac:(cbn; lia)) as H85.
    rewrite calculate_warmup_weights_unfold, H45, H65, H85. reflexivity. }
  split.
  { intros t k Wt Ft Hv Hk.
    exact (FormulaFacts.warmup_weights_exact t k Wt Ft Hv Hk). }
  repeat split; vm_compute; reflexivity.
Qed.

Lemma calculate_warmup_weights_formula_witness :
  calculate_warmup_weights (PFloat f_140)
  = Val (PInt (round_half_even
                 (F2Q (fdiv (fmul (as_float (PFloat f_140)) lit_0_45) lit_5))
               * 5),
         PInt (round_half_even
                 (F2Q (fdiv (fmul (as_float (PFloat f_140)) lit_0_65) lit_5))
               * 5),
         PInt (round_half_even
                 (F2Q (fdiv (fmul (as_float (PFloat f_140)) lit_0_85) lit_5))
               * 5)) /\
  calculate_warmup_weights (PFloat f_42_5)
  = Val (PInt (round_half_even (num_value (PFloat f_42_5) * (45 # 100) / 5)
               * 5),
         PInt (round_half_even (num_value (PFloat f_42_5) * (65 # 100) / 5)
               * 5),
         PInt (round_half_even (num_value (PFloat f_42_5) * (85 # 100) / 5)
               * 5)).
Proof.
  split.
  - apply (proj1 calculate_warmup_weights_formula).
    split; [reflexivity|]. split; [reflexivity|].
    split; unfold Qlt; vm_compute; reflexivity.
  - apply (proj1 (proj2 calculate_warmup_weights_formula) (PFloat f_42_5) 85).
    + reflexivity.
    + reflexivity.
    + vm_compute. reflexivity.
    + lia.
Defined.

(** C3 as stated fails outside these targets: for a NaN [round] raises
    [ValueError], for an infinity [OverflowError], and the [int]
    [10 ** 400] cannot enter the float product; no triple is returned. *)
Lemma warmup_weights_not_for_every_target :
  calculate_warmup_weights (PFloat S754_nan) = Raise ValueError /\
  calculate_warmup_weights (PFloat (S754_infinity false))
  = Raise OverflowError /\
  calculate_warmup_weights (PInt (10 ^ 400)) = Raise OverflowError.
Proof.
  repeat split; vm_compute; reflexivity.
Qed.

(** C6, as amended: the rounding of [calculate_warmup_weights] is to the
    nearest integer with ties to the even neighbour: for every target
    that is an [int] below [2 ^ 53] or a finite float below [2 ^ 1023] in
    absolute value, each warmup weight is [round_half_even(q) * 5] for the
    float [q = t * pct / 5] (so the exact half 4.5, reached for [t = 50]
    and 0.45, is rounded to 4 and gives 20). *)
Theorem warmup_rounds_half_even (t : num) :
  moderate_target t ->
  calculate_warmup_weights t
  = Val (PInt (round_half_even
                 (F2Q (warmup_quotient lit_0_45 (as_float t))) * 5),
         PInt (round_half_even
                 (F2Q (warmup_quotient lit_0_65 (as_float t))) * 5),
         PInt (round_half_even
                 (F2Q (warmup_quotient lit_0_85 (as_float t))) * 5)).
Proof.
  intros Ht.
  rewrite calculate_warmup_weights_unfold.
  rewrite (warmup_weight_spec lit_0_45 t Ht eq_refl eq_refl eq_refl
             ltac:(cbn; lia)).
  rewrite (warmup_weight_spec lit_0_65 t Ht eq_refl eq_refl eq_refl
             ltac:(cbn; lia)).
  rewrite (warmup_weight_spec lit_0_85 t Ht eq_refl eq_refl eq_refl
             ltac:(cbn; lia)).
  reflexivity.
Qed.

Lemma warmup_rounds_half_even_witness :
  calculate_warmup_weights (PFloat f_50)
  = Val (PInt (round_half_even
                 (F2Q (warmup_quotient lit_0_45 (as_float (PFloat f_50)))) * 5),
         PInt (round_half_even
                 (F2Q (warmup_quotient lit_0_65 (as_float (PFloat f_50)))) * 5),
         PInt (round_half_even
                 (F2Q (warmup_quotient lit_0_85 (as_float (PFloat f_50)))) * 5)).
Proof.
  apply warmup_rounds_half_even.
  split; [reflexivity|]. split; [reflexivity|].
  split; unfold Qlt; vm_compute; reflexivity.
Defined.

(** C6 as stated fails: for the target 50 the quotient [50 * 0.45 / 5] is
    exactly 4.5; rounding half away from zero would give 5 and the
    warmup weight 25, but the program returns 20. *)
Lemma warmup_50_is_not_half_away :
  (F2Q (warmup_quotient lit_0_45 f_50) == 9 # 2)%Q /\
  round_half_away (F2Q (warmup_quotient lit_0_45 f_50)) * 5 = 25 /\
  round_half_even (F2Q (warmup_quotient lit_0_45 f_50)) * 5 = 20 /\
  calculate_warmup_weights (PFloat f_50) = Val (PInt 20, PInt 30, PInt 40) /\
  calculate_warmup_weights (PInt 50) = Val (PInt 20, PInt 30, PInt 40).
Proof.
  repeat split; vm_compute; reflexivity.
Qed.

(** ** WorkoutPlanBuilder *)

(** C9: there are targets at or above the bar weight for which
    [get_workout_data] raises [ValueError]: for 30 the 45% warmup weight
    is 15, below the bar, although [plate_weight(30)] itself is 5.0; and
    in general the plan fails whenever the 45% warmup weight is below
    20. *)
Theorem plan_fails_above_bar_weight :
  (20 <= num_value (PFloat f_30))%Q /\
  calculate_warmup_weights (PFloat f_30) = Val (PInt 15, PInt 20, PInt 25) /\
  plate_weight (PInt 15) default_bar_weight = Raise ValueError /\
  plate_weight (PFloat f_30) default_bar_weight = Val (PFloat lit_5) /\
  (forall fuel, get_workout_data fuel (PFloat f_30) = Raise ValueError) /\
  (forall fuel, get_workout_data fuel (PInt 30) = Raise ValueError) /\
  (forall t a b c fuel,
     calculate_warmup_weights t = Val (PInt a, b, c) -> a < 20 ->
     get_workout_data fuel t = Raise ValueError).
Proof.
  split; [apply Qle_bool_imp_le; vm_compute; reflexivity|].
  split; [vm_compute; reflexivity|].
  split; [vm_compute; reflexivity|].
  split; [vm_compute; reflexivity|].
  split.
  { intros fuel. apply (low_warmup_raises _ 15 (PInt 20) (PInt 25));
      [vm_compute; reflexivity | lia]. }
  split.
  { intros fuel. apply (low_warmup_raises _ 15 (PInt 20) (PInt 25));
      [vm_compute; reflexivity | lia]. }
  intros t a b c fuel. apply low_warmup_raises.
Qed.

Lemma plan_fails_above_bar_weight_witness :
  get_workout_data 5 (PFloat f_30) = Raise ValueError.
Proof.
  apply (proj2 (proj2 (proj2 (proj2 (proj2 (proj2
           plan_fails_above_bar_weight))))) (PFloat f_30) 15 (PInt 20) (PInt 25)).
  - vm_compute. reflexivity.
  - lia.
Defined.

(** C8, as amended: in every plan that [get_workout_data] returns, the
    first entry is the bar-only set: 5 repetitions, label "2 sets", total
    weight 20, load per side 0, and as plates the text
    "None (just the bar)" instead of a sequence of plates. *)
Theorem bar_only_entry (fuel : nat) (t : num) (d : workout_data) :
  get_workout_data fuel t = Val d ->
  exists first rest,
    warmup_sets d = first :: rest /\
    ws_reps first = 5 /\
    ws_set first = "2 sets"%string /\
    ws_weight first = PInt 20 /\
    ws_weight_per_side first = PInt 0 /\
    ws_plates first = PlatesText "None (just the bar)".
Proof.
  intros H.
  destruct (get_workout_data_inv fuel t d H)
    as (w45 & w65 & w85 & l45 & s45 & p45 & l65 & s65 & p65 & l85 & s85
        & p85 & lt & st & pt & _ & _ & _ & _ & _ & _ & _ & _ & _ & _ & _
        & _ & _ & ->).
  eexists. eexists. cbn [warmup_sets]. split; [reflexivity|].
  repeat split.
Qed.

Lemma bar_only_entry_witness :
  exists first rest,
    warmup_sets
      plan_100
    = first :: rest /\
    ws_reps first = 5 /\
    ws_set first = "2 sets"%string /\
    ws_weight first = PInt 20 /\
    ws_weight_per_side first = PInt 0 /\
    ws_plates first = PlatesText "None (just the bar)".
Proof.
  apply (bar_only_entry 2 (PFloat f_100)).
  vm_compute. reflexivity.
Defined.

(** C8 as stated fails: the plates of the bar-only entry are not an empty
    sequence of plates but a text. *)
Lemma bar_only_plates_are_text :
  exists d first rest,
    get_workout_data 2 (PFloat f_100) = Val d /\
    warmup_sets d = first :: rest /\
    ws_plates first = PlatesText "None (just the bar)" /\
    ws_plates first <> PlatesList [].
Proof.
  do 3 eexists. split; [vm_compute; reflexivity|].
  cbn [warmup_sets]. split; [reflexivity|]. split; [reflexivity|].
  discriminate.
Qed.

(** C4, as amended: for every target [t] with [20 <= t < 2 ^ 53] whose
    three warmup weights are at least 20 and below [2 ^ 53],
    [get_workout_data(t)] returns a plan; and every plan that
    [get_workout_data] returns has exactly five entries in the fixed order
    bar-only, 45%, 65%, 85% (repetitions 5, 5, 3, 2) and target, where
    each entry other than the bar-only one carries its total weight, the
    load per side [round(plate_weight(total), 2)] and the plates
    [plate_selection(plate_weight(total))]. *)
Theorem plan_structure :
  (forall fuel t d, get_workout_data fuel t = Val d -> plan_of fuel t d) /\
  (forall t a b c,
     well_formed t = true ->
     (20 <= num_value t)%Q -> (num_value t < inject_Z (2 ^ 53))%Q ->
     calculate_warmup_weights t = Val (PInt a, PInt b, PInt c) ->
     20 <= a < 2 ^ 53 -> 20 <= b < 2 ^ 53 -> 20 <= c < 2 ^ 53 ->
     exists fuel0, forall fuel, (fuel0 <= fuel)%nat ->
       exists d, get_workout_data fuel t = Val d /\ plan_of fuel t d).
Proof.
  assert (Hshape : forall fuel t d,
             get_workout_data fuel t = Val d -> plan_of fuel t d).
  { intros fuel t d H.
    destruct (get_workout_data_inv fuel t d H)
      as (w45 & w65 & w85 & l45 & s45 & p45 & l65 & s65 & p65 & l85 & s85
          & p85 & lt & st & pt & Hw & Hl45 & Hs45 & Hp45 & Hl65 & Hs65
          & Hp65 & Hl85 & Hs85 & Hp85 & Hlt & Hst & Hpt & ->).
    exists w45, w65, w85.
    do 3 eexists. split; [exact Hw|]. split; [reflexivity|].
    split; [reflexivity|].
    unfold plan_entry, target_entry.
    cbn [ws_set ws_reps ws_weight ws_weight_per_side ws_plates
         ts_weight ts_weight_per_side ts_plates target].
    repeat split; eauto 10. }
  split; [exact Hshape|].
  intros t a b c Wt Hlo Hhi Hw Ha Hb Hc.
  destruct (get_workout_data_returns t a b c Wt Hlo Hhi Hw Ha Hb Hc)
    as (fuel0 & Hrun).
  exists fuel0. intros fuel Hf. destruct (Hrun fuel Hf) as (d & Hd).
  exists d. split; [exact Hd | exact (Hshape fuel t d Hd)].
Qed.

Lemma plan_structure_witness :
  exists fuel0, forall fuel, (fuel0 <= fuel)%nat ->
    exists d, get_workout_data fuel (PFloat f_100) = Val d /\
              plan_of fuel (PFloat f_100) d.
Proof.
  apply (proj2 plan_structure (PFloat f_100) 45 65 85).
  - reflexivity.
  - apply Qle_bool_imp_le. vm_compute. reflexivity.
  - unfold Qlt. vm_compute. reflexivity.
  - vm_compute. reflexivity.
  - lia.
  - lia.
  - lia.
Defined.

(** C4 as stated fails: 10 is a positive target, and
    [get_workout_data(10)] raises [ValueError] instead of returning a
    plan. *)
Lemma plan_fails_for_target_10 :
  (0 < num_value (PFloat f_10))%Q /\
  (forall fuel, get_workout_data fuel (PFloat f_10) = Raise ValueError) /\
  (forall fuel, get_workout_data fuel (PInt 10) = Raise ValueError).
Proof.
  split; [unfold Qlt; vm_compute; reflexivity|].
  split; intros fuel;
    apply (low_warmup_raises _ 5 (PInt 5) (PInt 10));
    try (vm_compute; reflexivity); lia.
Qed.

(** C7, as amended: in every plan that [get_workout_data] returns for a
    well-formed target and whose total weights are below [2 ^ 53], every
    entry satisfies [sum(plates) <= L] and [L - sum(plates) < 2.5], where
    [L = plate_weight(total weight)] is the load per side before it is
    rounded for display (the plates of the bar-only entry count as
    none). *)
Theorem plan_loads_bounded (fuel : nat) (t : num) (d : workout_data) :
  well_formed t = true ->
  get_workout_data fuel t = Val d ->
  plan_weights_moderate d ->
  Forall (fun e => load_bounds (ws_weight e) (plates_list (ws_plates e)))
         (warmup_sets d) /\
  load_bounds (ts_weight (target d)) (ts_plates (target d)).
Proof.
  intros Wt H Hmod.
  destruct (get_workout_data_inv fuel t d H)
    as (w45 & w65 & w85 & l45 & s45 & p45 & l65 & s65 & p65 & l85 & s85
        & p85 & lt & st & pt & Hw & Hl45 & Hs45 & Hp45 & Hl65 & Hs65 & Hp65
        & Hl85 & Hs85 & Hp85 & Hlt & Hst & Hpt & ->).
  destruct (warmup_weights_are_ints t w45 w65 w85 Hw)
    as (za & zb & zc & -> & -> & ->).
  pose proof (warmup_val_finite t _ Hw) as Ft.
  destruct Hmod as [Hsets Htarget].
  cbn [warmup_sets target ts_weight] in Hsets, Htarget.
  inversion Hsets as [|? ? _ Hs1]; subst.
  inversion Hs1 as [|? ? Ha Hs2]; subst.
  inversion Hs2 as [|? ? Hb Hs3]; subst.
  inversion Hs3 as [|? ? Hc _]; subst.
  cbn [ws_weight] in Ha, Hb, Hc.
  cbn [warmup_sets target ts_weight ts_plates].
  split.
  - repeat apply Forall_cons; try apply Forall_nil.
    + apply load_bounds_bar_only.
    + cbn [ws_weight ws_plates plates_list].
      apply (load_bounds_moderate fuel (PInt za) l45 p45); auto.
    + cbn [ws_weight ws_plates plates_list].
      apply (load_bounds_moderate fuel (PInt zb) l65 p65); auto.
    + cbn [ws_weight ws_plates plates_list].
      apply (load_bounds_moderate fuel (PInt zc) l85 p85); auto.
  - apply (load_bounds_moderate fuel t lt pt); auto.
Qed.

Lemma plan_loads_bounded_witness :
  Forall (fun e => load_bounds (ws_weight e) (plates_list (ws_plates e)))
         (warmup_sets plan_100) /\
  load_bounds (ts_weight (target plan_100)) (ts_plates (target plan_100)).
Proof.
  apply (plan_loads_bounded 2 (PFloat f_100) plan_100).
  - vm_compute. reflexivity.
  - vm_compute. reflexivity.
  - split.
    + repeat apply Forall_cons; try apply Forall_nil;
        unfold Qlt; vm_compute; reflexivity.
    + unfold Qlt. vm_compute. reflexivity.
Defined.

(** C7 as stated fails: in the plan for 100 the target entry has the
    plates [20, 20] and the load per side 40.0, and twice the sum of the
    plates, 80, is more than 40. *)
Lemma doubled_plates_exceed_load :
  get_workout_data 2 (PFloat f_100) = Val plan_100 /\
  ts_plates (target plan_100) = [PInt 20; PInt 20] /\
  (num_value (ts_weight_per_side (target plan_100)) == 40)%Q /\
  ~ (2 * sum_values (ts_plates (target plan_100))
     <= num_value (ts_weight_per_side (target plan_100)))%Q.
Proof.
  split; [vm_compute; reflexivity|].
  split; [reflexivity|].
  split; [unfold Qeq; vm_compute; reflexivity|].
  intros Hle. apply Qle_bool_iff in Hle. vm_compute in Hle. discriminate.
Qed.

(** * Further properties of the program *)

Import Props PlateFacts RoundFacts PlanFacts LoadFacts ReportFacts ApiFacts
  DisplayFacts BoundFacts.

(** ** [plate_selection] with any plates *)

(** X1: whatever the weight and the list of plates, a list that
    [plate_selection] returns consists of plates of [plate_weights] only,
    grouped in the order of [plate_weights]: some copies of the first
    plate, then some copies of the second, and so on. *)
Theorem selection_grouped_by_plate (fuel : nat) (w : num)
    (plates l : list num) :
  plate_selection fuel w plates = Val l ->
  (exists counts,
     List.length counts = List.length plates /\ l = grouped plates counts) /\
  Forall (fun p => In p plates) l.
Proof.
  intros H. unfold plate_selection in H.
  destruct (for_plates fuel plates (mk_state [] w)) as [st| |] eqn:Ef;
    cbn [bind] in H; try discriminate.
  inversion H; subst l. clear H.
  destruct (for_plates_grouped _ _ _ _ Ef) as (counts & Hlen & Hsel).
  cbn [selected_plates app] in Hsel. rewrite Hsel.
  split; [exists counts; split; [exact Hlen | reflexivity]|].
  apply grouped_members.
Qed.

Lemma selection_grouped_by_plate_witness :
  (exists counts,
     List.length counts = List.length default_plate_weights /\
     [PInt 20; PInt 20; PFloat lit_2_5] = grouped default_plate_weights counts) /\
  Forall (fun p => In p default_plate_weights)
         [PInt 20; PInt 20; PFloat lit_2_5].
Proof.
  apply (selection_grouped_by_plate 2 (PFloat f_42_5)).
  vm_compute. reflexivity.
Defined.

(** X2: for a whole-number weight [w >= 0] and any list of positive
    whole-number plates, [plate_selection] returns (with fuel for [w]
    iterations) the greedy decomposition; the plates selected weigh at
    most [w], and what is left over is less than every plate of the
    list. *)
Theorem whole_number_selection (plates : list Z) (w : Z) :
  Forall (fun p => 0 < p) plates -> 0 <= w ->
  (forall fuel, (Z.to_nat w <= fuel)%nat ->
     plate_selection fuel (PInt w) (map PInt plates)
     = Val (map PInt (greedy_ints plates w))) /\
  0 <= w - sum_ints (greedy_ints plates w) /\
  Forall (fun p => w - sum_ints (greedy_ints plates w) < p) plates.
Proof.
  intros Hp Hw. split.
  - intros fuel Hf. unfold plate_selection.
    rewrite (for_plates_int plates Hp w [] fuel Hw Hf). reflexivity.
  - destruct (greedy_ints_remainder plates Hp w Hw) as ((H0 & _) & Hall).
    split; assumption.
Qed.

Lemma whole_number_selection_witness :
  (forall fuel, (Z.to_nat 97 <= fuel)%nat ->
     plate_selection fuel (PInt 97) (map PInt [25; 20; 15; 10; 5])
     = Val (map PInt (greedy_ints [25; 20; 15; 10; 5] 97))) /\
  0 <= 97 - sum_ints (greedy_ints [25; 20; 15; 10; 5] 97) /\
  Forall (fun p => 97 - sum_ints (greedy_ints [25; 20; 15; 10; 5] 97) < p)
         [25; 20; 15; 10; 5].
Proof.
  apply whole_number_selection.
  - repeat constructor.
  - lia.
Defined.

(** X3: with whole numbers, a plate that is zero or negative in
    [plate_weights] makes [plate_selection] loop forever on every weight
    [w >= 0]: the loop of that plate never sees the remaining weight fall
    below the plate. *)
Theorem nonpositive_plate_never_returns (plates : list Z) (w : Z) :
  Exists (fun p => p <= 0) plates -> 0 <= w ->
  forall fuel, plate_selection fuel (PInt w) (map PInt plates) = OutOfFuel.
Proof.
  intros Hex Hw fuel. unfold plate_selection.
  rewrite (for_plates_nonpositive plates Hex fuel w [] Hw). reflexivity.
Qed.

Lemma nonpositive_plate_never_returns_witness :
  Exists (fun p => p <= 0) [20; 0; 5] /\
  forall fuel, plate_selection fuel (PInt 50) (map PInt [20; 0; 5]) = OutOfFuel.
Proof.
  assert (Hex : Exists (fun p => p <= 0) [20; 0; 5]).
  { apply Exists_cons_tl, Exists_cons_hd. lia. }
  split; [exact Hex|].
  apply nonpositive_plate_never_returns; [exact Hex | lia].
Defined.

(** ** [plate_selection] with the default plates *)

(** X4: for every finite float weight above [2 ^ 58], [plate_selection]
    with the default plates never returns: subtracting 20 leaves such a
    float unchanged, so the first loop does not end. *)
Theorem selection_hangs_above_2_58 (f : spec_float) :
  fvalid f = true -> (inject_Z (2 ^ 58) < F2Q f)%Q ->
  py_sub (PFloat f) (PInt 20) = Val (PFloat f) /\
  forall fuel, plate_selection fuel (PFloat f) default_plate_weights = OutOfFuel.
Proof.
  intros Hv Hgt.
  assert (Hf : is_finite f = true).
  { apply (Qlt_finite f (inject_Z (2 ^ 58))); [|exact Hgt].
    apply Qle_bool_imp_le. reflexivity. }
  pose proof (value_above_pow2 f 58 Hv ltac:(lia) Hgt) as Hs.
  split.
  - apply (sub_20_absorbed f Hv Hf Hs).
  - apply plate_selection_hangs; assumption.
Qed.

Lemma selection_hangs_above_2_58_witness :
  py_sub (PFloat f_1e20) (PInt 20) = Val (PFloat f_1e20) /\
  forall fuel,
    plate_selection fuel (PFloat f_1e20) default_plate_weights = OutOfFuel.
Proof.
  apply selection_hangs_above_2_58.
  - reflexivity.
  - unfold Qlt. vm_compute. reflexivity.
Defined.

(** X5: for a non-negative weight that is an [int] or a finite float
    below [2 ^ 55], [plate_selection] with the default plates returns,
    given enough fuel, [floor(w / 20)] plates of 20 followed by at most
    one plate of 10, at most one of 5 and at most one of 2.5, in this
    order. *)
Theorem default_selection_shape (w : num) :
  selectable w -> (0 <= num_value w)%Q ->
  exists (b10 b5 b2 : bool) (fuel0 : nat),
    forall fuel, (fuel0 <= fuel)%nat ->
      plate_selection fuel w default_plate_weights
      = Val (repeat (PInt 20) (fits (num_value w) 20)
             ++ one_if b10 (PInt 10) ++ one_if b5 (PInt 5)
             ++ one_if b2 (PFloat lit_2_5)).
Proof.
  intros Hs Hpos. pose proof Hs as (Ww & Fw & _).
  assert (HX : 0 <= num_scaled w).
  { rewrite (num_value_scaled w Ww) in Hpos.
    unfold Qle in Hpos. cbn [Qnum Qden] in Hpos. lia. }
  destruct (selectable_cases w Hs) as [[_ Hr]|Hneg]; [|lia].
  assert (Hk : 0 <= num_scaled w / unit25).
  { apply Z.div_pos; [exact HX | apply unit25_pos]. }
  pose proof (greedy_plates_shape _ Hk) as Hshape.
  rewrite <- (fits_20 w Ww HX) in Hshape.
  do 3 eexists. exists (S (Z.to_nat (num_scaled w / unit25 / 8))).
  intros fuel Hfuel.
  rewrite (plate_selection_run w Hr fuel) by lia.
  rewrite Hshape. reflexivity.
Qed.

Lemma default_selection_shape_witness :
  exists (b10 b5 b2 : bool) (fuel0 : nat),
    forall fuel, (fuel0 <= fuel)%nat ->
      plate_selection fuel (PFloat f_42_5) default_plate_weights
      = Val (repeat (PInt 20) (fits (num_value (PFloat f_42_5)) 20)
             ++ one_if b10 (PInt 10) ++ one_if b5 (PInt 5)
             ++ one_if b2 (PFloat lit_2_5)).
Proof.
  apply (default_selection_shape (PFloat f_42_5)).
  - split; [reflexivity|]. split; [reflexivity|].
    right. unfold Qlt. vm_compute. reflexivity.
  - apply Qle_bool_imp_le. vm_compute. reflexivity.
Defined.

(** ** [plate_weight] with another bar *)

(** X6: for whole numbers [bar <= total < bar + 2 ^ 53],
    [plate_weight(total, bar)] returns the float whose value is exactly
    [(total - bar) / 2]. *)
Theorem plate_weight_whole_bar (total bar : Z) :
  bar <= total < bar + 2 ^ 53 ->
  exists L,
    plate_weight (PInt total) (PInt bar) = Val (PFloat L) /\
    is_finite L = true /\
    (F2Q L == inject_Z (total - bar) / 2)%Q.
Proof.
  intros H.
  destruct (plate_weight_int_bar total bar H) as (L & EL & VL & FL & SL).
  exists L. split; [exact EL|]. split; [exact FL|].
  exact (half_value (total - bar) L VL SL).
Qed.

Lemma plate_weight_whole_bar_witness :
  exists L,
    plate_weight (PInt 60) (PInt 15) = Val (PFloat L) /\
    is_finite L = true /\
    (F2Q L == inject_Z (60 - 15) / 2)%Q.
Proof.
  apply plate_weight_whole_bar. change (2 ^ 53) with 9007199254740992. lia.
Defined.

(** ** [calculate_warmup_weights] *)

(** X7: whenever [calculate_warmup_weights] returns, its three weights are
    [int]s and multiples of 5. *)
Theorem warmup_weights_are_multiples_of_5 (t a b c : num) :
  calculate_warmup_weights t = Val (a, b, c) ->
  exists za zb zc : Z,
    a = PInt (za * 5) /\ b = PInt (zb * 5) /\ c = PInt (zc * 5).
Proof.
  intros H.
  destruct (warmup_weights_multiples t a b c H) as (za & zb & zc & Ha & Hb & Hc).
  exists za, zb, zc. split; [exact Ha|]. split; [exact Hb | exact Hc].
Qed.

Lemma warmup_weights_are_multiples_of_5_witness :
  exists za zb zc : Z,
    PInt 65 = PInt (za * 5) /\ PInt 90 = PInt (zb * 5) /\
    PInt 120 = PInt (zc * 5).
Proof.
  apply (warmup_weights_are_multiples_of_5 (PFloat f_140)).
  vm_compute. reflexivity.
Defined.

(** ** [get_workout_data] *)

(** X8: in a plan whose total weights are below [2 ^ 53], every entry of
    ["warmup_sets"] is loaded without a rest: the bar and twice the plates
    of one side weigh exactly the entry's total weight. *)
Theorem warmup_sets_load_exactly (fuel : nat) (t : num) (d : workout_data) :
  get_workout_data fuel t = Val d ->
  plan_weights_moderate d ->
  Forall (fun e =>
            (2 * sum_values (plates_list (ws_plates e)) + 20
             == num_value (ws_weight e))%Q)
         (warmup_sets d).
Proof.
  intros H Hmod.
  destruct (get_workout_data_inv fuel t d H)
    as (w45 & w65 & w85 & l45 & s45 & p45 & l65 & s65 & p65 & l85 & s85
        & p85 & lt & st & pt & Hw & Hl45 & _ & Hp45 & Hl65 & _ & Hp65
        & Hl85 & _ & Hp85 & _ & _ & _ & ->).
  destruct (warmup_weights_multiples t w45 w65 w85 Hw)
    as (za & zb & zc & -> & -> & ->).
  destruct Hmod as [Hsets _]. cbn [warmup_sets] in Hsets.
  inversion Hsets as [|? ? _ Hs1]; subst.
  inversion Hs1 as [|? ? Ha Hs2]; subst.
  inversion Hs2 as [|? ? Hb Hs3]; subst.
  inversion Hs3 as [|? ? Hc _]; subst.
  cbn [ws_weight] in Ha, Hb, Hc. cbn [warmup_sets].
  repeat apply Forall_cons; try apply Forall_nil;
    cbn [ws_weight ws_plates plates_list bar_only_set].
  - reflexivity.
  - exact (exact_load fuel za l45 p45 Ha Hl45 Hp45).
  - exact (exact_load fuel zb l65 p65 Hb Hl65 Hp65).
  - exact (exact_load fuel zc l85 p85 Hc Hl85 Hp85).
Qed.

Lemma warmup_sets_load_exactly_witness :
  Forall (fun e =>
            (2 * sum_values (plates_list (ws_plates e)) + 20
             == num_value (ws_weight e))%Q)
         (warmup_sets plan_100).
Proof.
  apply (warmup_sets_load_exactly 2 (PFloat f_100)).
  - vm_compute. reflexivity.
  - split.
    + repeat apply Forall_cons; try apply Forall_nil;
        unfold Qlt; vm_compute; reflexivity.
    + unfold Qlt. vm_compute. reflexivity.
Defined.

(** X9: in a plan whose total weights are below [2 ^ 53], the
    ["weight_per_side"] of each of the three computed warmup entries is
    the load [plate_weight(weight)] itself, of value exactly
    [(weight - 20) / 2]: rounding it to two decimals changes nothing. *)
Theorem warmup_loads_are_exact (fuel : nat) (t : num) (d : workout_data) :
  get_workout_data fuel t = Val d ->
  plan_weights_moderate d ->
  exists e45 e65 e85,
    warmup_sets d = [bar_only_set; e45; e65; e85] /\
    Forall (fun e =>
              plate_weight (ws_weight e) default_bar_weight
              = Val (ws_weight_per_side e) /\
              (num_value (ws_weight_per_side e)
               == (num_value (ws_weight e) - 20) / 2)%Q)
           [e45; e65; e85].
Proof.
  intros H Hmod.
  destruct (get_workout_data_inv fuel t d H)
    as (w45 & w65 & w85 & l45 & s45 & p45 & l65 & s65 & p65 & l85 & s85
        & p85 & lt & st & pt & Hw & Hl45 & Hs45 & _ & Hl65 & Hs65 & _
        & Hl85 & Hs85 & _ & _ & _ & _ & ->).
  destruct (warmup_weights_multiples t w45 w65 w85 Hw)
    as (za & zb & zc & -> & -> & ->).
  destruct Hmod as [Hsets _]. cbn [warmup_sets] in Hsets.
  inversion Hsets as [|? ? _ Hs1]; subst.
  inversion Hs1 as [|? ? Ha Hs2]; subst.
  inversion Hs2 as [|? ? Hb Hs3]; subst.
  inversion Hs3 as [|? ? Hc _]; subst.
  cbn [ws_weight] in Ha, Hb, Hc.
  do 3 eexists. split; [reflexivity|].
  destruct (exact_display za l45 s45 Ha Hl45 Hs45) as (-> & Va).
  destruct (exact_display zb l65 s65 Hb Hl65 Hs65) as (-> & Vb).
  destruct (exact_display zc l85 s85 Hc Hl85 Hs85) as (-> & Vc).
  repeat apply Forall_cons; try apply Forall_nil;
    cbn [ws_weight ws_weight_per_side]; split; assumption.
Qed.

Lemma warmup_loads_are_exact_witness :
  exists e45 e65 e85,
    warmup_sets plan_100 = [bar_only_set; e45; e65; e85] /\
    Forall (fun e =>
              plate_weight (ws_weight e) default_bar_weight
              = Val (ws_weight_per_side e) /\
              (num_value (ws_weight_per_side e)
               == (num_value (ws_weight e) - 20) / 2)%Q)
           [e45; e65; e85].
Proof.
  apply (warmup_loads_are_exact 2 (PFloat f_100)).
  - vm_compute. reflexivity.
  - split.
    + repeat apply Forall_cons; try apply Forall_nil;
        unfold Qlt; vm_compute; reflexivity.
    + unfold Qlt. vm_compute. reflexivity.
Defined.

(** X10: for a finite float target above [2 ^ 59], [get_workout_data]
    returns no plan, whatever the fuel: the load per side of the target
    is then above [2 ^ 58], where [plate_selection] does not end. *)
Theorem no_plan_above_2_59 (t : spec_float) :
  fvalid t = true -> (inject_Z (2 ^ 59) < F2Q t)%Q ->
  forall fuel d, get_workout_data fuel (PFloat t) <> Val d.
Proof.
  intros Hv Hgt.
  assert (Hf : is_finite t = true).
  { apply (Qlt_finite t (inject_Z (2 ^ 59))); [|exact Hgt].
    apply Qle_bool_imp_le. reflexivity. }
  apply get_workout_data_no_plan; try assumption.
  apply value_above_pow2; [exact Hv | lia | exact Hgt].
Qed.

Lemma no_plan_above_2_59_witness :
  (inject_Z (2 ^ 59) < F2Q f_1e18)%Q /\
  forall fuel d, get_workout_data fuel (PFloat f_1e18) <> Val d.
Proof.
  assert (Hgt : (inject_Z (2 ^ 59) < F2Q f_1e18)%Q).
  { unfold Qlt. vm_compute. reflexivity. }
  split; [exact Hgt|].
  apply no_plan_above_2_59; [reflexivity | exact Hgt].
Defined.

(** X11: for every target below [2 ^ 50] in absolute value (an [int] or a
    float, also zero or negative), [get_workout_data] ends when given
    enough fuel, and in one of two ways only: it returns a plan when the
    three warmup weights and the target are all at least 20, and raises
    [ValueError] otherwise. *)
Theorem plan_or_value_error (t : num) :
  ordinary_target t ->
  exists a b c : Z,
    calculate_warmup_weights t = Val (PInt a, PInt b, PInt c) /\
    exists fuel0, forall fuel, (fuel0 <= fuel)%nat ->
      if (20 <=? a) && (20 <=? b) && (20 <=? c) && py_ge t (PInt 20)
      then exists d, get_workout_data fuel t = Val d
      else get_workout_data fuel t = Raise ValueError.
Proof.
  intros Ht. pose proof Ht as (Wt & Ft & _).
  destruct (ordinary_warmups t Ht) as (a & b & c & Hw & Ha & Hb & Hc).
  exists a, b, c. split; [exact Hw|].
  exact (plan_outcome t a b c Wt Ft (ordinary_below_2_53 t Ht) Hw Ha Hb Hc).
Qed.

Lemma plan_or_value_error_witness :
  exists a b c : Z,
    calculate_warmup_weights (PFloat f_42_5)
    = Val (PInt a, PInt b, PInt c) /\
    exists fuel0, forall fuel, (fuel0 <= fuel)%nat ->
      if (20 <=? a) && (20 <=? b) && (20 <=? c)
         && py_ge (PFloat f_42_5) (PInt 20)
      then exists d, get_workout_data fuel (PFloat f_42_5) = Val d
      else get_workout_data fuel (PFloat f_42_5) = Raise ValueError.
Proof.
  apply plan_or_value_error.
  split; [reflexivity|]. split; [reflexivity|].
  split; unfold Qlt; vm_compute; reflexivity.
Defined.

(** X18: for every target [t] with [38.89 <= t < 2 ^ 50] (an [int] or a
    float), [get_workout_data] returns a plan when given enough fuel: the
    three warmup weights are then at least 20.  The float
    written [38.9] is such a target. *)
Theorem plan_from_38_89 (t : num) :
  ordinary_target t -> (3889 # 100 <= num_value t)%Q ->
  exists fuel0, forall fuel, (fuel0 <= fuel)%nat ->
    exists d, get_workout_data fuel t = Val d.
Proof.
  intros Ht Hge. pose proof Ht as (Wt & _).
  apply (value_ge_scaled t 3889 100 Wt) in Hge.
  exact (plan_from_scaled_38_89 t Ht Hge).
Qed.

Lemma plan_from_38_89_witness :
  exists fuel0, forall fuel, (fuel0 <= fuel)%nat ->
    exists d,
      get_workout_data fuel (PFloat (S754_finite false 5474688297022259 (-47)))
      = Val d.
Proof.
  apply plan_from_38_89.
  - split; [reflexivity|]. split; [reflexivity|].
    split; unfold Qlt; vm_compute; reflexivity.
  - apply Qle_bool_imp_le. vm_compute. reflexivity.
Defined.

(** X19: for every target [t] with [-2 ^ 50 < t <= 38.88],
    [get_workout_data] raises [ValueError]: the 45% warmup weight is at
    most 15, or the target itself is below 20.  The float written [38.8] is
    such a target. *)
Theorem value_error_up_to_38_88 (t : num) :
  ordinary_target t -> (num_value t <= 3888 # 100)%Q ->
  exists fuel0, forall fuel, (fuel0 <= fuel)%nat ->
    get_workout_data fuel t = Raise ValueError.
Proof.
  intros Ht Hle. pose proof Ht as (Wt & _).
  apply (value_le_scaled t 3888 100 Wt) in Hle.
  exact (value_error_to_scaled_38_88 t Ht Hle).
Qed.

Lemma value_error_up_to_38_88_witness :
  exists fuel0, forall fuel, (fuel0 <= fuel)%nat ->
    get_workout_data fuel (PFloat (S754_finite false 5460614548186726 (-47)))
    = Raise ValueError.
Proof.
  apply value_error_up_to_38_88.
  - split; [reflexivity|]. split; [reflexivity|].
    split; unfold Qlt; vm_compute; reflexivity.
  - apply Qle_bool_imp_le. vm_compute. reflexivity.
Defined.

(** ** [print_weight_and_plates] *)

(** X12: when the 45% warmup weight is below 20,
    [print_weight_and_plates] prints the two headings and the bar-only
    lines, five texts in all, and then raises [ValueError]; nothing of
    the warmup sets or of the target is printed. *)
Theorem report_stops_after_head (str_num : num -> string) (fuel : nat)
    (t : num) (a : Z) (b c : num) (out : Report.console) :
  calculate_warmup_weights t = Val (PInt a, b, c) -> a < 20 ->
  Report.print_weight_and_plates str_num fuel t out
  = (out ++ Report.report_head, Raise ValueError).
Proof.
  intros Hw Ha.
  apply (report_fails_at_first_warmup str_num fuel t (PInt a) b c); [exact Hw|].
  apply plate_weight_value_error. unfold py_lt, default_bar_weight.
  cbn [py_compare]. apply Z.compare_lt_iff in Ha. rewrite Ha. reflexivity.
Qed.

Lemma report_stops_after_head_witness :
  Report.print_weight_and_plates (fun _ => EmptyString) 3 (PFloat f_30) []
  = ([] ++ Report.report_head, Raise ValueError).
Proof.
  apply (report_stops_after_head _ 3 (PFloat f_30) 15 (PInt 20) (PInt 25)).
  - vm_compute. reflexivity.
  - lia.
Defined.

(** X13: when [get_workout_data] returns a plan,
    [print_weight_and_plates] prints, after the five texts of the head,
    three texts for each warmup entry and six for the target: they show
    the total weights and the plates of the plan, and as load per side
    the value of [plate_weight] before it is rounded; then it returns. *)
Theorem report_shows_the_plan (str_num : num -> string) (fuel : nat)
    (t : num) (d : workout_data) (out : Report.console) :
  get_workout_data fuel t = Val d ->
  exists e45 e65 e85 l45 l65 l85 lt,
    warmup_sets d = [bar_only_set; e45; e65; e85] /\
    plate_weight (ws_weight e45) default_bar_weight = Val l45 /\
    plate_weight (ws_weight e65) default_bar_weight = Val l65 /\
    plate_weight (ws_weight e85) default_bar_weight = Val l85 /\
    plate_weight t default_bar_weight = Val lt /\
    Report.print_weight_and_plates str_num fuel t out
    = (out ++ Report.report_head
           ++ Report.report_set str_num "1 set of 5 reps - "
                (ws_weight e45) l45 (plates_list (ws_plates e45))
           ++ Report.report_set str_num "1 set of 3 reps - "
                (ws_weight e65) l65 (plates_list (ws_plates e65))
           ++ Report.report_set str_num "1 set of 2 reps - "
                (ws_weight e85) l85 (plates_list (ws_plates e85))
           ++ Report.report_target str_num t lt (ts_plates (target d)),
       Val tt).
Proof.
  intros H.
  destruct (get_workout_data_inv fuel t d H)
    as (w45 & w65 & w85 & l45 & s45 & p45 & l65 & s65 & p65 & l85 & s85
        & p85 & lt & st & pt & Hw & Hl45 & _ & Hp45 & Hl65 & _ & Hp65
        & Hl85 & _ & Hp85 & Hlt & _ & Hpt & ->).
  do 3 eexists. exists l45, l65, l85, lt.
  split; [reflexivity|].
  cbn [ws_weight ws_plates plates_list target ts_plates].
  repeat (split; [assumption|]).
  apply report_runs; assumption.
Qed.

Lemma report_shows_the_plan_witness :
  exists e45 e65 e85 l45 l65 l85 lt,
    warmup_sets plan_100 = [bar_only_set; e45; e65; e85] /\
    plate_weight (ws_weight e45) default_bar_weight = Val l45 /\
    plate_weight (ws_weight e65) default_bar_weight = Val l65 /\
    plate_weight (ws_weight e85) default_bar_weight = Val l85 /\
    plate_weight (PFloat f_100) default_bar_weight = Val lt /\
    Report.print_weight_and_plates (fun _ => EmptyString) 2 (PFloat f_100) []
    = ([] ++ Report.report_head
          ++ Report.report_set (fun _ => EmptyString) "1 set of 5 reps - "
               (ws_weight e45) l45 (plates_list (ws_plates e45))
          ++ Report.report_set (fun _ => EmptyString) "1 set of 3 reps - "
               (ws_weight e65) l65 (plates_list (ws_plates e65))
          ++ Report.report_set (fun _ => EmptyString) "1 set of 2 reps - "
               (ws_weight e85) l85 (plates_list (ws_plates e85))
          ++ Report.report_target (fun _ => EmptyString) (PFloat f_100) lt
               (ts_plates (target plan_100)),
       Val tt).
Proof.
  apply (report_shows_the_plan _ 2 (PFloat f_100) plan_100 []).
  vm_compute. reflexivity.
Defined.

(** ** The handler of [POST /api/calculate] *)

(** X14: a document that is not a [dict] is answered with status 500 and
    the text of the [AttributeError]; a [dict] in which ["target_weight"]
    is missing, [None], a list or a [dict], or a text that [float] does
    not accept, is answered with status 400 and
    ["Invalid target weight"]; in no such case is a plan computed. *)
Theorem api_rejects_non_numbers
    (float_of_str : string -> option spec_float) (fuel : nat) :
  (forall data,
     (forall items, data <> Api.JDict items) ->
     Api.calculate float_of_str fuel data
     = Api.Response (Api.ErrorOf Api.AttributeError) 500) /\
  (forall items,
     match Api.lookup "target_weight" items with
     | None | Some Api.JNull | Some (Api.JList _) | Some (Api.JDict _) => True
     | Some (Api.JStr s) => float_of_str s = None
     | _ => False
     end ->
     Api.calculate float_of_str fuel (Api.JDict items)
     = Api.Response (Api.ErrorText "Invalid target weight") 400).
Proof.
  split.
  - intros data Hd. destruct data; try reflexivity.
    exfalso. exact (Hd _ eq_refl).
  - intros items H. unfold Api.calculate, Api.calculate_try, Api.get_target_weight.
    destruct (Api.lookup "target_weight" items) as [[|b|x|s|l|kv]|];
      try reflexivity; try contradiction.
    cbn [Api.abind Api.py_float]. rewrite H. reflexivity.
Qed.

Lemma api_rejects_non_numbers_witness :
  Api.calculate (fun _ => None) 0 (Api.JDict [("weight"%string, Api.JNum (PInt 100))])
  = Api.Response (Api.ErrorText "Invalid target weight") 400.
Proof.
  apply (proj2 (api_rejects_non_numbers (fun _ => None) 0)).
  exact I.
Defined.

(** X15: a number [t] with [-2 ^ 50 < t <= 0] as ["target_weight"] is
    answered with status 400 and
    ["Target weight must be greater than 0"], without any fuel: no plan
    is computed. *)
Theorem api_rejects_non_positive
    (float_of_str : string -> option spec_float) (fuel : nat)
    (items : list (string * Api.json)) (t : num) :
  Api.lookup "target_weight" items = Some (Api.JNum t) ->
  ordinary_target t -> (num_value t <= 0)%Q ->
  Api.calculate float_of_str fuel (Api.JDict items)
  = Api.Response (Api.ErrorText "Target weight must be greater than 0") 400.
Proof.
  intros Hl Ht Hle. pose proof Ht as (Wt & _).
  destruct (ordinary_float t Ht) as (f & Ef & (Vf & Ff & _) & Sf).
  rewrite (calculate_number float_of_str fuel items t f Hl Ef).
  cbn [well_formed finite_num] in Vf, Ff.
  rewrite (py_le_scaled f Vf Ff), Sf.
  apply (value_sign_scaled t Wt) in Hle.
  rewrite (proj2 (Z.leb_le _ _) Hle). reflexivity.
Qed.

Lemma api_rejects_non_positive_witness :
  Api.calculate (fun _ => None) 0
    (Api.JDict [("target_weight"%string, Api.JNum (PInt (-5)))])
  = Api.Response (Api.ErrorText "Target weight must be greater than 0") 400.
Proof.
  apply (api_rejects_non_positive _ 0 _ (PInt (-5))).
  - reflexivity.
  - split; [reflexivity|]. split; [reflexivity|].
    split; unfold Qlt; vm_compute; reflexivity.
  - apply Qle_bool_imp_le. vm_compute. reflexivity.
Defined.

(** X16: a number [t] with [0 < t < 2 ^ 50] as ["target_weight"] is
    always answered (given enough fuel), and never with status 500: the
    answer is the plan with status 200, or status 400 with
    ["Invalid target weight"] when a weight of the plan is below the
    20 kg of the bar. *)
Theorem api_answers_ordinary_targets
    (float_of_str : string -> option spec_float)
    (items : list (string * Api.json)) (t : num) :
  Api.lookup "target_weight" items = Some (Api.JNum t) ->
  ordinary_target t -> (0 < num_value t)%Q ->
  exists fuel0, forall fuel, (fuel0 <= fuel)%nat ->
    (exists d, Api.calculate float_of_str fuel (Api.JDict items)
               = Api.Response (Api.Workout d) 200) \/
    Api.calculate float_of_str fuel (Api.JDict items)
    = Api.Response (Api.ErrorText "Invalid target weight") 400.
Proof.
  intros Hl Ht Hpos. pose proof Ht as (Wt & _).
  destruct (ordinary_float t Ht) as (f & Ef & Hof & Sf).
  pose proof Hof as (Vf & Ff & _).
  cbn [well_formed finite_num] in Vf, Ff.
  apply (value_pos_scaled t Wt) in Hpos.
  assert (Hle : Api.py_le (PFloat f) (PInt 0) = false).
  { rewrite (py_le_scaled f Vf Ff), Sf. apply Z.leb_gt, Hpos. }
  destruct (ordinary_warmups (PFloat f) Hof) as (a & b & c & Hw & Ha & Hb & Hc).
  destruct (plan_outcome (PFloat f) a b c Vf Ff
              (ordinary_below_2_53 _ Hof) Hw Ha Hb Hc) as (fuel0 & Hrun).
  exists fuel0. intros fuel Hfuel. specialize (Hrun fuel Hfuel).
  rewrite (calculate_number float_of_str fuel items t f Hl Ef), Hle.
  destruct ((20 <=? a) && (20 <=? b) && (20 <=? c)
            && py_ge (PFloat f) (PInt 20)).
  - destruct Hrun as (d & Hd). rewrite Hd. left. exists d. reflexivity.
  - rewrite Hrun. right. reflexivity.
Qed.

Lemma api_answers_ordinary_targets_witness :
  exists fuel0, forall fuel, (fuel0 <= fuel)%nat ->
    (exists d,
       Api.calculate (fun _ => None) fuel
         (Api.JDict [("target_weight"%string, Api.JNum (PInt 100))])
       = Api.Response (Api.Workout d) 200) \/
    Api.calculate (fun _ => None) fuel
      (Api.JDict [("target_weight"%string, Api.JNum (PInt 100))])
    = Api.Response (Api.ErrorText "Invalid target weight") 400.
Proof.
  apply (api_answers_ordinary_targets _ _ (PInt 100)).
  - reflexivity.
  - split; [reflexivity|]. split; [reflexivity|].
    split; unfold Qlt; vm_compute; reflexivity.
  - unfold Qlt. vm_compute. reflexivity.
Defined.

(** X17: every answer that carries a plan has status 200, and its plan is
    what [get_workout_data] returns for a positive finite float: the
    handler converts the target with [float], so the target weight of the
    plan is a float also when the request held an [int]. *)
Theorem api_plan_is_for_positive_float
    (float_of_str : string -> option spec_float) (fuel : nat)
    (data : Api.json) (d : workout_data) (status : Z) :
  Api.calculate float_of_str fuel data = Api.Response (Api.Workout d) status ->
  status = 200 /\
  exists m e,
    ts_weight (target d) = PFloat (S754_finite false m e) /\
    get_workout_data fuel (PFloat (S754_finite false m e)) = Val d.
Proof.
  intros H.
  destruct (calculate_ok_inv float_of_str fuel data d status H)
    as (f & Hle & Hd & ->).
  split; [reflexivity|].
  destruct (get_workout_data_inv fuel _ d Hd)
    as (w45 & w65 & w85 & l45 & s45 & p45 & l65 & s65 & p65 & l85 & s85
        & p85 & lt & st & pt & Hw & _ & _ & _ & _ & _ & _ & _ & _ & _ & _
        & _ & _ & Ed).
  pose proof (warmup_val_finite _ _ Hw) as Ff. cbn [finite_num] in Ff.
  destruct (positive_float f Ff Hle) as (m & e & ->).
  exists m, e. split; [|exact Hd]. rewrite Ed. reflexivity.
Qed.

Lemma api_plan_is_for_positive_float_witness :
  200 = 200 /\
  exists m e,
    ts_weight (target plan_100) = PFloat (S754_finite false m e) /\
    get_workout_data 2 (PFloat (S754_finite false m e)) = Val plan_100.
Proof.
  apply (api_plan_is_for_positive_float (fun _ => None) 2
           (Api.JDict [("target_weight"%string, Api.JNum (PInt 100))])).
  vm_compute. reflexivity.
Defined.

(** X20: a number [t] with [38.89 <= t < 2 ^ 50] as ["target_weight"] is
    answered, given enough fuel, with status 200 and a plan. *)
Theorem api_plan_from_38_89
    (float_of_str : string -> option spec_float)
    (items : list (string * Api.json)) (t : num) :
  Api.lookup "target_weight" items = Some (Api.JNum t) ->
  ordinary_target t -> (3889 # 100 <= num_value t)%Q ->
  exists fuel0, forall fuel, (fuel0 <= fuel)%nat ->
    exists d, Api.calculate float_of_str fuel (Api.JDict items)
              = Api.Response (Api.Workout d) 200.
Proof.
  intros Hl Ht Hge. pose proof Ht as (Wt & _).
  destruct (ordinary_float t Ht) as (f & Ef & Hof & Sf).
  pose proof Hof as (Vf & Ff & _).
  apply (value_ge_scaled t 3889 100 Wt) in Hge.
  assert (Hle : Api.py_le (PFloat f) (PInt 0) = false).
  { cbn [well_formed finite_num] in Vf, Ff.
    rewrite (py_le_scaled f Vf Ff), Sf. apply Z.leb_gt.
    pose proof (pow2_pos 1074 ltac:(lia)) as HU.
    revert Hge HU. generalize (num_scaled t), (2 ^ 1074).
    intros T U H1 H2. lia. }
  destruct (plan_from_scaled_38_89 (PFloat f) Hof) as (fuel0 & Hrun).
  { cbn [num_scaled]. rewrite Sf. exact Hge. }
  exists fuel0. intros fuel Hfuel. destruct (Hrun fuel Hfuel) as (d & Hd).
  exists d.
  rewrite (calculate_number float_of_str fuel items t f Hl Ef), Hle, Hd.
  reflexivity.
Qed.

Lemma api_plan_from_38_89_witness :
  exists fuel0, forall fuel, (fuel0 <= fuel)%nat ->
    exists d,
      Api.calculate (fun _ => None) fuel
        (Api.JDict [("target_weight"%string, Api.JNum (PInt 39))])
      = Api.Response (Api.Workout d) 200.
Proof.
  apply (api_plan_from_38_89 _ _ (PInt 39)).
  - reflexivity.
  - split; [reflexivity|]. split; [reflexivity|].
    split; unfold Qlt; vm_compute; reflexivity.
  - apply Qle_bool_imp_le. vm_compute. reflexivity.
Defined.

(** X21: a number [t] with [0 < t <= 38.88] as ["target_weight"] is
    answered, given enough fuel, with status 400 and
    ["Invalid target weight"]: the [ValueError] that [get_workout_data]
    raises for a weight below the bar is caught by the handler of wrong
    input, and its own text is not sent. *)
Theorem api_invalid_up_to_38_88
    (float_of_str : string -> option spec_float)
    (items : list (string * Api.json)) (t : num) :
  Api.lookup "target_weight" items = Some (Api.JNum t) ->
  ordinary_target t -> (0 < num_value t)%Q -> (num_value t <= 3888 # 100)%Q ->
  exists fuel0, forall fuel, (fuel0 <= fuel)%nat ->
    Api.calculate float_of_str fuel (Api.JDict items)
    = Api.Response (Api.ErrorText "Invalid target weight") 400.
Proof.
  intros Hl Ht Hpos Hup. pose proof Ht as (Wt & _).
  destruct (ordinary_float t Ht) as (f & Ef & Hof & Sf).
  pose proof Hof as (Vf & Ff & _).
  apply (value_pos_scaled t Wt) in Hpos.
  apply (value_le_scaled t 3888 100 Wt) in Hup.
  assert (Hle : Api.py_le (PFloat f) (PInt 0) = false).
  { cbn [well_formed finite_num] in Vf, Ff.
    rewrite (py_le_scaled f Vf Ff), Sf. apply Z.leb_gt, Hpos. }
  destruct (value_error_to_scaled_38_88 (PFloat f) Hof) as (fuel0 & Hrun).
  { cbn [num_scaled]. rewrite Sf. exact Hup. }
  exists fuel0. intros fuel Hfuel.
  rewrite (calculate_number float_of_str fuel items t f Hl Ef), Hle.
  rewrite (Hrun fuel Hfuel). reflexivity.
Qed.

Lemma api_invalid_up_to_38_88_witness :
  exists fuel0, forall fuel, (fuel0 <= fuel)%nat ->
    Api.calculate (fun _ => None) fuel
      (Api.JDict [("target_weight"%string, Api.JNum (PInt 30))])
    = Api.Response (Api.ErrorText "Invalid target weight") 400.
Proof.
  apply (api_invalid_up_to_38_88 _ _ (PInt 30)).
  - reflexivity.
  - split; [reflexivity|]. split; [reflexivity|].
    split; unfold Qlt; vm_compute; reflexivity.
  - unfold Qlt. vm_compute. reflexivity.
  - apply Qle_bool_imp_le. vm_compute. reflexivity.
Defined.
